(* ===== verification/_CoqProject ===== *)
-Q . S2P
Prelude.v
GoStr.v
GoValue.v
GoTime.v
Filepath.v
FilepathProps.v
Manifest.v
Keyconv.v
Secrets.v
Compare.v
Sha256.v
Json.v
WriteOnly.v
Engine.v
Display.v
EngineProps.v
EngineFrame.v
EngineTrace.v
EngineConverge.v
EngineForesee.v
EngineClaims.v
EngineConc.v
Regexp.v
SkillPkg.v
Validate.v
Loader.v
LoaderProps.v
Source.v
ValidateProps.v
JsonParse.v
JsonRound.v
JsonWire.v
Echo.v
Update.v
Ring.v
TraceStore.v
Views.v
LogsPanel.v
TracesPanel.v
Controller.v
Notifier.v
ControllerProps.v
ControllerLoop.v
Http.v
WsClient.v
WsSession.v
GoclawBase.v
Cmd.v
CmdProps.v
Pull.v
PullProps.v
GoclawHttp.v
GoclawWs.v
GoclawSkills.v
GoclawProvider.v
GoclawEmits.v
Traces.v
CmdGoclaw.v
GoclawExample.v
GoclawProps.v
GoclawMutations.v
GoclawGrants.v
GoclawNames.v
GoclawTable.v
GoclawSync.v
Tenants.v
Server.v
Attach.v
TuiState.v
Tui.v
TuiProps.v
CmdServe.v
ServeProcess.v
ServeProps.v
ServeSync.v
