(* ===== verification/Prelude.v ===== *)
(** * gcplane: a verification development

    gcplane is a declarative control plane for GoClaw deployments: a YAML manifest
    lists resources (tenants, LLM providers, agents, channels, cron jobs, skills,
    ...); the program validates it, compares each resource with what a GoClaw
    server reports, and creates, updates or prunes until the server agrees.  This
    library models the program's Go sources under [src/] as Rocq functions and
    proves what makes them correct.

    ** How the program's parts interact

    A command ([cmd]) loads a manifest ([internal/manifest], from a file or from a
    [internal/source] that fetches it), validates it, and hands it to the engine
    ([internal/reconciler/engine.go]).  For each kind, in dependency order, the engine
    resolves the secrets of a spec ([internal/secrets]), asks the provider to observe
    the resource, compares the two ([compare.go]), hashes the fields the server never
    shows ([write_only_hash.go]), plans an action and, unless the run is dry, executes
    it; at the end it may prune what gcplane created and the manifest no longer lists.
    The provider ([internal/provider/goclaw]) turns these operations into HTTP requests
    and WebSocket calls, translating keys ([internal/keyconv]), packing skills
    ([internal/skillpkg]) and keeping to one tenant.  The controller
    ([internal/controller]) repeats load, plan and apply on a timer, on a webhook
    ([internal/server]) and, for several tenants, once per tenant; it tells the
    notifier ([internal/notifier]) what failed.  The terminal interface ([internal/tui])
    shows the plan of a dry run, or the status of a running instance that it is attached
    to, with logs and traces of agents, and starts changes that are confirmed.

    ** The files

    - [Prelude]: errors with their [errors.Is] chain, the state-and-error monad [M]
      in which every effectful operation is written, tactics, list lemmas.
    - [GoStr], [GoValue], [GoTime] (durations), [Filepath], [FilepathProps], [Regexp], [Json], [JsonParse],
      [JsonRound] (what is written is read back, text and integers), [Sha256]: the parts of Go's standard library the program uses.  Strings are
      byte strings; a [map[string]any] is an association list in iteration order, so
      that order-independence is something a theorem states; floats are IEEE 754.
    - [Manifest] ([types.go], [delete_order.go], [field_config.go], [annotations.go],
      [filter.go]), [Loader] and [LoaderProps] ([loader.go], [composite.go],
      [skill_loader.go], over an explicit file tree and a YAML decoder), [Source]
      ([internal/source]), [Validate] and [ValidateProps] ([validate.go],
      [validate_refs.go]).
    - [Keyconv] ([keyconv.go]), [Secrets] ([resolver.go]), [SkillPkg]
      ([skillpkg.go], [unpack.go]) over an explicit file tree.
    - [Compare] ([compare.go]), [WriteOnly] ([write_only_hash.go]); [JsonWire] (what a value
      is after it was sent as JSON) and [Echo] (the relation between a value and what a
      server shows of it, which the comparison takes for equal).
    - [Engine] ([engine.go], [types.go]) over a record of provider operations
      ([ProviderInterface]); [EngineProps] (plans and counts), [EngineFrame] (what the
      provider's operations keep, Reconcile keeps), [EngineTrace] (the calls made),
      [EngineConverge] (the contract of a store, and convergence), [EngineForesee]
      (what a dry run says of the run after it), [EngineClaims] (the properties),
      [EngineConc] (the goroutines of one kind as a step relation).
    - [Display] ([internal/display]): how plans and changes are printed.
    - [Ring] ([live_store.go], [ring_handler.go]) and [TraceStore] ([trace_store.go]): what
      the terminal interface keeps of logs and traces; [Views] ([styles.go],
      [resource_table.go], [drift_view.go], [resource_detail.go], [scroll.go]),
      [LogsPanel], [TracesPanel] (the lists of traces and spans, a span, the drill-down):
      what its widgets hold; [Attach] ([attach.go]), [TuiState] ([model.go],
      [registry.go], [event_bus.go]), [Tui] ([app.go], [actions.go], [keybindings.go]:
      handlers as functions on one record, keys, goroutines, ticks and events as a step
      relation) and [TuiProps].
    - [Controller], [ControllerProps], [ControllerLoop] ([controller.go]: one reconciliation
      as a function, the loop over triggers, ticks and shutdown as a step relation),
      [Tenants] (the tenant manager), [Server] ([internal/server]: status, health and
      the signed webhook), [Notifier] ([internal/notifier]), [Update]
      ([internal/update]: version comparison and the choice of an archive).
    - [Http] ([http_client.go]), [WsClient] ([ws_client.go], the calls and the read
      loop as a step relation), [WsSession] ([ensureWS], [SetEventHandler] and [Close] of
      [provider.go] above it), [GoclawBase] ([helpers.go], parts of [provider.go]),
      [GoclawHttp], [GoclawWs], [GoclawSkills] (one section per source file),
      [GoclawProvider] ([list_all.go], the dispatch of [provider.go]): the provider,
      as an instance of [ProviderInterface]; [Traces] ([traces.go]).
    - [GoclawEmits] (what an operation may send), [GoclawExample] (a small server for
      the witnesses), [GoclawProps], [GoclawMutations], [GoclawGrants],
      [GoclawNames], [GoclawTable] and [GoclawSync] (resources that a server keeps in a
      table: what was written is observed in sync): its properties.
    - [Cmd] and [CmdProps] ([cmd]: config, plan, diff, status, apply, export, destroy,
      validate, init, over a [World] of files, environment, terminal and provider),
      [Pull] and [PullProps] ([pull.go]: the patch of the YAML document), [CmdGoclaw]
      (the commands run against the GoClaw provider), [CmdServe] ([serve.go], [top.go],
      [root.go]: how the process starts and what it defers), [ServeProcess] (the process
      once started: the controllers' goroutines, the requests and the shutdown as steps over
      one world), [ServeProps] (readiness, requests and triggers) and [ServeSync] (a serve
      that is ready is in sync).

    ** What the theorems show

    - Engine: a run that reports no failure converges, and the next run changes
      nothing; the mutating calls are the plan's changes one for one, in dependency
      order; pruning deletes exactly the orphans; a dry run only reads; a no-op means
      that nothing that can be compared differs; the counters add up.  Concurrency
      within a kind is a [Schedule], any permutation of the goroutines' calls, and every
      complete run of the goroutines comes to one.
    - Commands: apply changes what it showed before it asked; destroy deletes what it
      listed; what export prints, plan finds in sync; the commands that look only send
      reads; pull rewrites exactly the drifted fields.
    - Controller: repeated reconciliation converges; a caller that waits for a
      cycle is registered while one is due, or is being sent the result of one announced
      after its call, and the loop never blocks on it.
    - Serve: it is ready exactly when the last cycle of every controller had no error, and
      then the store of every controller is in sync with its manifest; what is asked of it
      over HTTP is neither lost nor made up, and a webhook is accepted only with the
      signature of its body.
    - Loader: what a directory, a composite or a skill folder expands to.
    - Comparison and hash: exactness, and independence of map iteration order.
    - Translation and secrets: round trips; resolution as template substitution.
    - Validation: the exact set of valid manifests; references are applied first.
    - Skill packages: what is packed, and that unpacking stays in its directory.
    - Provider: a dry run sends only reading messages; listing, deletion and creation
      keep to the tenant; what the engine has written of a tenant, LLM provider, agent or
      secure CLI is planned as a no-op when it is next observed; grants and allowlists end
      up as desired; the error of a status; names, paths and archives.
    - WebSocket client: a call gets the response of its own id, and no answer is lost
      while the connection lasts; [ensureWS] connects only where there is no connection,
      one goroutine at a time, and an event goes to the handler once.
    - Terminal interface: in every reachable state what is shown holds together; a
      mutation is started only by the Yes button of the confirmation that shows it, by an
      editor session, or by the sync command of attach mode; a session without these only
      looks; the key of a row acts on that row; what serve publishes is what attach reads.

    ** Bounds and fuel

    [values_equal_n] runs with fuel the size of the desired value and [compare_n] with
    one more than the size of the desired map: each recursive call is on a strictly
    smaller value, and the equations [valuesEqual] and [compareRecursiveExcluding]
    satisfy are proved without fuel.  [parse_value] runs with twice the length of the
    text plus two, since every nested call either consumes a byte or starts the first
    element of a bracket just read.  Response bodies are cut at 10 MiB, skill files at
    4 MiB and context files at 8 MiB, as the code does.

    ** Parameters

    The GoClaw server, the network and the WebSocket transport ([Remote], with
    [RestTable] for what the provider relies on of a server's tables); the
    Unicode tables, of which the ASCII rows are known ([Unicode], [UnicodeAscii]);
    the bytes of zip and tar.gz archives and the semver package ([Deps], [Semver]);
    the YAML decoder and encoder ([Yaml], [YamlNodes], [marshal_manifest]); Go
    templates ([Template]); an unstable sort ([SliceSort]); the git program ([Git]);
    URL parsing, the clock and the formatting of times; the HTTP client of the
    notifier and the updater ([HttpClient]); files, environment and terminal of a
    command ([System]); the editor and the network of the terminal interface, and how it
    prints times; the order in which Go ranges over a map ([d_range], a
    permutation where a theorem needs it).

    ** What is not modelled

    Log records, timings and contexts' deadlines (a cancelled call is an error of the
    remote).  The registration of flags (cobra), signals and the listening socket.  What
    tview draws (the layout, the help page) and the program that copies to the clipboard.
    Closing the provider is a step of its session ([WsSession]) and deferred by [serve]; the
    other commands, which end after it, leave it out.  A goroutine of the terminal interface
    runs to its end in one step, and so does a cycle of a controller in [serve]: their
    interleaving with others is modelled where it matters for what is shared ([TraceStore],
    [EngineConc], [WsClient]).  Numbers that are not integers are compared and written
    ([Compare], [Json]) but not followed through a round trip ([JsonWire.carried]).
    [GoclawSync] covers the kinds that a server keeps in one table; those whose observation
    takes several requests (grants, teams, skills) have theorems of their own
    ([GoclawGrants], [GoclawNames], [GoclawProps]). *)
From Stdlib Require Import ZArith Lia Bool Ascii.
From Stdlib Require String.
From stdpp Require Export base tactics list strings gmap sets option pretty.

#[export] Set Default Goal Selector "!".

(** ** Errors

    A Go [error] is its message and the sentinels [errors.Is] finds in its
    chain of [%w] wrappings. *)

Inductive sentinel :=
  | ErrNotFound
  | ErrUnauthorized
  | ErrInvalidRequest
  | ErrServerError
  | ErrSkillSourceMissing
  | DeadlineExceeded
  | Canceled
  | NotExist.

#[export] Instance sentinel_eq_dec : EqDecision sentinel.
Proof. solve_decision. Defined.

Record error := mkError { Error : string; chain : list sentinel }.

#[export] Instance error_eq_dec : EqDecision error.
Proof. solve_decision. Defined.

(** [errors.New] and [fmt.Errorf] without [%w]. *)
Definition errorf (s : string) : error := mkError s [].

(** [fmt.Errorf("<pre>%w<post>", err)]. *)
Definition wrapf (pre : string) (e : error) (post : string) : error :=
  mkError (pre +:+ Error e +:+ post) (chain e).

Definition errorsIs (e : error) (s : sentinel) : bool := bool_decide (s ∈ chain e).

(** The pair [(value, error)] a fallible Go function returns. *)
Inductive res (A : Type) :=
  | Ok (a : A)
  | Err (e : error).
Arguments Ok {A} a.
Arguments Err {A} e.

Definition res_map {A B} (f : A -> B) (r : res A) : res B :=
  match r with Ok a => Ok (f a) | Err e => Err e end.

Definition res_bind {A B} (r : res A) (f : A -> res B) : res B :=
  match r with Ok a => f a | Err e => Err e end.

(** [if err != nil { return ..., fmt.Errorf("<pre>%w", err) }]. *)
Definition res_wrap {A} (pre : string) (r : res A) : res A :=
  match r with Ok a => Ok a | Err e => Err (wrapf pre e "") end.

Definition is_ok {A} (r : res A) : bool := match r with Ok _ => true | Err _ => false end.

(** ** Effects

    A computation over the world [W] that may fail: the state it leaves is kept
    whether or not it fails, as a Go call's side effects are. *)

Definition M (W A : Type) : Type := W -> W * res A.

Section monad.
Context {W : Type}.

Definition retM {A} (a : A) : M W A := fun w => (w, Ok a).

Definition failM {A} (e : error) : M W A := fun w => (w, Err e).

Definition bindM {A B} (m : M W A) (k : A -> M W B) : M W B :=
  fun w => match m w with
           | (w', Ok a) => k a w'
           | (w', Err e) => (w', Err e)
           end.

(** Runs [m] and hands its outcome, error included, to the caller. *)
Definition tryM {A} (m : M W A) : M W (res A) :=
  fun w => let '(w', r) := m w in (w', Ok r).

Definition wrapM {A} (pre : string) (m : M W A) : M W A :=
  fun w => let '(w', r) := m w in (w', res_wrap pre r).

Definition liftM {A} (r : res A) : M W A := fun w => (w, r).

Definition skipM : M W unit := retM tt.

(** [for _, a := range l { if err := f(a); err != nil { return err } }]. *)
Fixpoint forM_ {A} (l : list A) (f : A -> M W unit) : M W unit :=
  match l with
  | [] => skipM
  | a :: l' => bindM (f a) (fun _ => forM_ l' f)
  end.

(** The same loop collecting one result per element. *)
Fixpoint mapM {A B} (f : A -> M W B) (l : list A) : M W (list B) :=
  match l with
  | [] => retM []
  | a :: l' => bindM (f a) (fun b => bindM (mapM f l') (fun bs => retM (b :: bs)))
  end.
End monad.

Declare Scope go_scope.
Delimit Scope go_scope with go.
Notation "'let!' x ':=' m 'in' k" := (bindM m (fun x => k))
  (at level 10, x pattern, m at level 100, k at level 200) : go_scope.
Notation "'do!' m 'in' k" := (bindM m (fun _ => k))
  (at level 10, m at level 100, k at level 200) : go_scope.
Notation "'let?' x ':=' r 'in' k" := (res_bind r (fun x => k))
  (at level 10, x pattern, r at level 100, k at level 200) : go_scope.

(** ** Automation *)

Create HintDb gcp discriminated.

(** Destructs what a [match], [if] or [let '(_, _)] of the goal scrutinises. *)
Ltac case_match_goal :=
  match goal with
  | |- context [match ?x with _ => _ end] => destruct x eqn:?
  end.

(** The same in a hypothesis, simplifying what it learns. *)
Ltac case_match_in H :=
  match type of H with
  | context [match ?x with _ => _ end] => destruct x eqn:?
  end.

(** Inverts the run of a monadic computation, one bind at a time. *)
Ltac inv_bind H :=
  unfold bindM, wrapM, tryM, liftM, retM, failM, skipM in H;
  repeat (case_match_in H; simplify_eq/=).

Ltac split_and_true :=
  repeat match goal with
  | H : _ && _ = true |- _ => apply andb_true_iff in H as [??]
  | H : _ || _ = false |- _ => apply orb_false_iff in H as [??]
  | H : negb _ = true |- _ => apply negb_true_iff in H
  | H : negb _ = false |- _ => apply negb_false_iff in H
  | H : bool_decide _ = true |- _ => apply bool_decide_eq_true in H
  | H : bool_decide _ = false |- _ => apply bool_decide_eq_false in H
  end.

(** ** Lists *)

Section list_lemmas.
Context {A B : Type}.
Implicit Types l : list A.

Lemma Forall_concat_iff (P : A -> Prop) (ls : list (list A)) :
  Forall P (concat ls) <-> Forall (Forall P) ls.
Proof.
  induction ls as [|l ls IH]; simpl.
  - split; constructor.
  - rewrite Forall_app, Forall_cons, IH. done.
Qed.

Lemma forallb_Forall (f : A -> bool) l : forallb f l = true <-> Forall (fun a => f a = true) l.
Proof. rewrite List.forallb_forall, Forall_forall. setoid_rewrite list_elem_of_In. done. Qed.

Lemma existsb_Exists (f : A -> bool) l : existsb f l = true <-> Exists (fun a => f a = true) l.
Proof. rewrite List.existsb_exists, Exists_exists. setoid_rewrite list_elem_of_In. done. Qed.

Lemma app_eq_nil_iff l1 l2 : l1 ++ l2 = [] <-> l1 = [] /\ l2 = [].
Proof. split; [apply app_nil|]. intros [-> ->]. done. Qed.

Lemma concat_nil_iff (ls : list (list A)) : concat ls = [] <-> Forall (fun l => l = []) ls.
Proof.
  induction ls as [|l ls IH]; simpl.
  - split; constructor.
  - rewrite app_eq_nil_iff, IH, Forall_cons. done.
Qed.

Lemma concat_map_bind (f : A -> list B) l : concat (map f l) = l ≫= f.
Proof. induction l as [|x l IH]; simpl; [done|]. by rewrite IH. Qed.

Lemma NoDup_map_inj (f : A -> B) l x y :
  NoDup (map f l) -> x ∈ l -> y ∈ l -> f x = f y -> x = y.
Proof.
  induction l as [|z l IH]; simpl; [by intros _ ?%not_elem_of_nil|].
  rewrite NoDup_cons, !elem_of_cons. intros [Hz Hl] [->|Hx] [->|Hy] He; auto.
  - destruct Hz. rewrite He. apply list_elem_of_fmap. by exists y.
  - destruct Hz. rewrite <- He. apply list_elem_of_fmap. by exists x.
Qed.

Lemma map_lookup (f : A -> B) l i : map f l !! i = option_map f (l !! i).
Proof. apply list_lookup_fmap. Qed.

Lemma imap_length (f : nat -> A -> B) l : length (imap f l) = length l.
Proof. apply length_imap. Qed.
End list_lemmas.
