(* ===== verification/GoStr.v ===== *)
(** * Go strings

    A Go string is a sequence of bytes, here a [string] of [ascii]s.  This file
    holds the functions of Go's [strings], [utf8], [strconv] and [fmt] packages
    the program calls.  A rune is a [Z]; the Unicode character classes, which are
    tables of the [unicode] package, are the operations of the class [Unicode],
    of which only the ASCII rows are known ([UnicodeAscii]). *)
From Stdlib Require Import ZArith Lia Bool Ascii.
From Stdlib Require String.
From S2P Require Import Prelude.

Local Open Scope Z_scope.

#[global] Arguments String.append !s1 s2 /.
#[global] Arguments Ascii.eqb : simpl never.

Abbreviation bytes_of := String.list_ascii_of_string (only parsing).
Abbreviation of_bytes := String.string_of_list_ascii (only parsing).

(** ** Runes and the Unicode tables *)

Class Unicode := {
  IsUpper : Z -> bool;
  IsLower : Z -> bool;
  IsDigit : Z -> bool;
  IsPrint : Z -> bool;
  ToLowerR : Z -> Z;
  ToUpperR : Z -> Z
}.

Definition between (lo x hi : Z) : bool := (lo <=? x) && (x <=? hi).
Definition ascii_upper (r : Z) : bool := between 65 r 90.
Definition ascii_lower (r : Z) : bool := between 97 r 122.
Definition ascii_digit (r : Z) : bool := between 48 r 57.
Definition ascii_print (r : Z) : bool := between 32 r 126.
Definition ascii_to_lower (r : Z) : Z := if ascii_upper r then r + 32 else r.
Definition ascii_to_upper (r : Z) : Z := if ascii_lower r then r - 32 else r.

(** The documented rows of the tables below [utf8.RuneSelf]. *)
Class UnicodeAscii (U : Unicode) : Prop := {
  IsUpper_ascii r : 0 <= r < 128 -> IsUpper r = ascii_upper r;
  IsLower_ascii r : 0 <= r < 128 -> IsLower r = ascii_lower r;
  IsDigit_ascii r : 0 <= r < 128 -> IsDigit r = ascii_digit r;
  IsPrint_ascii r : 0 <= r < 128 -> IsPrint r = ascii_print r;
  ToLower_ascii r : 0 <= r < 128 -> ToLowerR r = ascii_to_lower r;
  ToUpper_ascii r : 0 <= r < 128 -> ToUpperR r = ascii_to_upper r
}.

(** The tables restricted to ASCII: the instance the witnesses compute with. *)
Definition ascii_unicode : Unicode := {|
  IsUpper := ascii_upper; IsLower := ascii_lower; IsDigit := ascii_digit;
  IsPrint := ascii_print; ToLowerR := ascii_to_lower; ToUpperR := ascii_to_upper |}.

#[export] Instance ascii_unicode_ok : UnicodeAscii ascii_unicode.
Proof. split; done. Qed.

(** ** Bytes and UTF-8 *)

Definition byteZ (c : ascii) : Z := Z.of_N (N_of_ascii c).
Definition byte_of (z : Z) : ascii := ascii_of_N (Z.to_N z).

Definition RuneError : Z := 65533.

(** A decoded rune with the bytes it was decoded from. *)
Definition runeseg : Type := Z * list ascii.

Definition cont (c : ascii) : bool := between 128 (byteZ c) 191.
Definition low6 (c : ascii) : Z := byteZ c - 128.

(** [utf8.DecodeRuneInString], repeated: the runes of [for _, r := range s],
    an invalid byte giving [RuneError] with width one. *)
Fixpoint decode (s : list ascii) : list runeseg :=
  match s with
  | [] => []
  | c0 :: t0 =>
    let b0 := byteZ c0 in
    if b0 <? 128 then (b0, [c0]) :: decode t0 else
    match t0 with
    | c1 :: t1 =>
      if between 194 b0 223 && cont c1 then
        ((b0 - 192) * 64 + low6 c1, [c0; c1]) :: decode t1
      else
      match t1 with
      | c2 :: t2 =>
        if between 224 b0 239 && cont c1 && cont c2
           && negb ((b0 =? 224) && (byteZ c1 <? 160))
           && negb ((b0 =? 237) && (159 <? byteZ c1)) then
          ((b0 - 224) * 4096 + low6 c1 * 64 + low6 c2, [c0; c1; c2]) :: decode t2
        else
        match t2 with
        | c3 :: t3 =>
          if between 240 b0 244 && cont c1 && cont c2 && cont c3
             && negb ((b0 =? 240) && (byteZ c1 <? 144))
             && negb ((b0 =? 244) && (143 <? byteZ c1)) then
            ((b0 - 240) * 262144 + low6 c1 * 4096 + low6 c2 * 64 + low6 c3,
             [c0; c1; c2; c3]) :: decode t3
          else (RuneError, [c0]) :: decode t0
        | [] => (RuneError, [c0]) :: decode t0
        end
      | [] => (RuneError, [c0]) :: decode t0
      end
    | [] => (RuneError, [c0]) :: decode t0
    end
  end.

(** [utf8.AppendRune]: surrogates and out-of-range runes give U+FFFD. *)
Definition encode_rune (r : Z) : list ascii :=
  if between 0 r 127 then [byte_of r]
  else if between 128 r 2047 then [byte_of (192 + r / 64); byte_of (128 + r mod 64)]
  else if (between 2048 r 65535) && negb (between 55296 r 57343) then
    [byte_of (224 + r / 4096); byte_of (128 + (r / 64) mod 64); byte_of (128 + r mod 64)]
  else if between 65536 r 1114111 then
    [byte_of (240 + r / 262144); byte_of (128 + (r / 4096) mod 64);
     byte_of (128 + (r / 64) mod 64); byte_of (128 + r mod 64)]
  else map byte_of [239; 191; 189].

(** [[]rune(s)] and [string(rs)]. *)
Definition runes (s : string) : list Z := map fst (decode (bytes_of s)).
Definition string_of_runes (rs : list Z) : string := of_bytes (concat (map encode_rune rs)).

(** ** Package strings *)

(** [strings.CutPrefix]: what follows the prefix, when it is one. *)
Fixpoint CutPrefix (s p : string) : option string :=
  match p, s with
  | EmptyString, _ => Some s
  | String a p', String b s' => if Ascii.eqb a b then CutPrefix s' p' else None
  | String _ _, EmptyString => None
  end.

Definition HasPrefix (s p : string) : bool :=
  match CutPrefix s p with Some _ => true | None => false end.

Definition TrimPrefix (s p : string) : string := default s (CutPrefix s p).

(** [strings.Cut]: the text before and after the first occurrence of [sep]. *)
Fixpoint Cut (s sep : string) : option (string * string) :=
  match CutPrefix s sep with
  | Some rest => Some (EmptyString, rest)
  | None => match s with
            | EmptyString => None
            | String c s' => match Cut s' sep with
                             | Some (b, a) => Some (String c b, a)
                             | None => None
                             end
            end
  end.

Definition Contains (s sub : string) : bool :=
  match Cut s sub with Some _ => true | None => false end.

(** [strings.Split] for a non-empty separator.  [skip] counts the bytes of a
    separator already matched; the result is never empty. *)
Fixpoint split_go (sep : string) (skip : nat) (s : string) : list string :=
  match s with
  | EmptyString => [EmptyString]
  | String c s' =>
    match skip with
    | S k => split_go sep k s'
    | O =>
      if HasPrefix s sep
      then EmptyString :: split_go sep (String.length sep - 1) s'
      else match split_go sep O s' with
           | p :: ps => String c p :: ps
           | [] => [String c EmptyString]
           end
    end
  end.

Definition Split (s sep : string) : list string := split_go sep O s.

(** [strings.SplitN(s, sep, 2)]. *)
Definition SplitN2 (s sep : string) : list string :=
  match Cut s sep with Some (b, a) => [b; a] | None => [s] end.

(** [strings.SplitN(s, sep, 3)]. *)
Definition SplitN3 (s sep : string) : list string :=
  match Cut s sep with Some (b, a) => b :: SplitN2 a sep | None => [s] end.

Fixpoint Join (l : list string) (sep : string) : string :=
  match l with
  | [] => ""%string
  | [x] => x
  | x :: l' => x +:+ sep +:+ Join l' sep
  end.

(** [strings.ReplaceAll] for a non-empty [old]: the parts joined by [new]. *)
Definition ReplaceAll (s old new : string) : string := Join (Split s old) new.

(** [strings.LastIndex]: where the last occurrence of [sub] starts. *)
Fixpoint LastIndex (s sub : string) : option nat :=
  match s with
  | EmptyString => match sub with EmptyString => Some O | _ => None end
  | String _ s' => match LastIndex s' sub with
                   | Some i => Some (S i)
                   | None => if HasPrefix s sub then Some O else None
                   end
  end.

(** [strings.TrimLeft] for ASCII [cutset]. *)
Fixpoint TrimLeft (s cutset : string) : string :=
  match s with
  | EmptyString => EmptyString
  | String c s' => if existsb (Ascii.eqb c) (bytes_of cutset) then TrimLeft s' cutset else s
  end.

(** The string without its first [n] bytes. *)
Fixpoint str_drop (n : nat) (s : string) : string :=
  match n, s with
  | O, _ => s
  | S n, String _ s' => str_drop n s'
  | _, EmptyString => EmptyString
  end.

Fixpoint str_take (n : nat) (s : string) : string :=
  match n, s with
  | S n, String c s' => String c (str_take n s')
  | _, _ => EmptyString
  end.

(** [strings.ContainsAny] for ASCII [chars]. *)
Definition ContainsAny (s chars : string) : bool :=
  existsb (fun c => existsb (Ascii.eqb c) (bytes_of chars)) (bytes_of s).

(** [unicode.IsSpace]. *)
Definition IsSpace (r : Z) : bool :=
  between 9 r 13 || (r =? 32) || (r =? 133) || (r =? 160) || (r =? 5760)
  || between 8192 r 8202 || (r =? 8232) || (r =? 8233) || (r =? 8239)
  || (r =? 8287) || (r =? 12288).

Fixpoint drop_while {A} (f : A -> bool) (l : list A) : list A :=
  match l with
  | [] => []
  | a :: l' => if f a then drop_while f l' else l
  end.

Definition TrimSpace (s : string) : string :=
  let sp (x : runeseg) := IsSpace x.1 in
  let front := drop_while sp (decode (bytes_of s)) in
  of_bytes (concat (map snd (reverse (drop_while sp (reverse front))))).

Section unicode.
Context {U : Unicode}.

Definition ToLower (s : string) : string := string_of_runes (map ToLowerR (runes s)).
Definition ToUpper (s : string) : string := string_of_runes (map ToUpperR (runes s)).

(** ** strconv and fmt *)

Definition hexdigit (n : Z) : ascii :=
  if n <? 10 then byte_of (48 + n) else byte_of (87 + n).

Definition hex2 (n : Z) : list ascii := [hexdigit (n / 16); hexdigit (n mod 16)].

(** [strconv.Quote], the [%q] verb. *)
Definition quote_rune (x : runeseg) : list ascii :=
  let '(r, bs) := x in
  if (r =? RuneError) && (length bs =? 1)%nat then
    bytes_of "\x" ++ concat (map (fun c => hex2 (byteZ c)) bs)
  else if (r =? 34) || (r =? 92) then [byte_of 92; byte_of r]
  else if IsPrint r then bs
  else if r =? 7 then bytes_of "\a" else if r =? 8 then bytes_of "\b"
  else if r =? 12 then bytes_of "\f" else if r =? 10 then bytes_of "\n"
  else if r =? 13 then bytes_of "\r" else if r =? 9 then bytes_of "\t"
  else if r =? 11 then bytes_of "\v"
  else if (r <? 32) || (r =? 127) then bytes_of "\x" ++ hex2 r
  else if r <? 65536 then bytes_of "\u" ++ hex2 (r / 256) ++ hex2 (r mod 256)
  else bytes_of "\U00" ++ hex2 (r / 65536) ++ hex2 ((r / 256) mod 256) ++ hex2 (r mod 256).

Definition Quote (s : string) : string :=
  of_bytes (byte_of 34 :: concat (map quote_rune (decode (bytes_of s))) ++ [byte_of 34]).
End unicode.

(** [%d]. *)
Definition Itoa (z : Z) : string := pretty z.

Definition MaxInt64 : Z := 2 ^ 63 - 1.
Definition MinInt64 : Z := - 2 ^ 63.

(** The value part of [strconv.Atoi] with its error dropped: 0 on a syntax
    error, the nearest int64 when out of range. *)
Fixpoint digits (acc : Z) (s : list ascii) : option Z :=
  match s with
  | [] => Some acc
  | c :: s' => if ascii_digit (byteZ c) then digits (acc * 10 + (byteZ c - 48)) s' else None
  end.

Definition Atoi_value (s : string) : Z :=
  match bytes_of s with
  | [] => 0
  | c :: rest =>
    let neg := byteZ c =? 45 in
    let body := if neg || (byteZ c =? 43) then rest else c :: rest in
    match body with
    | [] => 0
    | _ => match digits 0 body with
           | Some n => if neg then Z.max MinInt64 (- n) else Z.min MaxInt64 n
           | None => 0
           end
    end
  end.

(** ** Lemmas *)

Lemma byteZ_range c : 0 <= byteZ c < 256.
Proof. unfold byteZ. pose proof (N_ascii_bounded c). lia. Qed.

Lemma byte_of_byteZ c : byte_of (byteZ c) = c.
Proof. unfold byte_of, byteZ. by rewrite N2Z.id, ascii_N_embedding. Qed.

Lemma byteZ_byte_of z : 0 <= z < 256 -> byteZ (byte_of z) = z.
Proof.
  intros. unfold byte_of, byteZ. rewrite N_ascii_embedding; [|lia].
  rewrite Z2N.id; lia.
Qed.

Lemma byteZ_inj c d : byteZ c = byteZ d -> c = d.
Proof. intros H. by rewrite <- (byte_of_byteZ c), <- (byte_of_byteZ d), H. Qed.

Lemma bytes_of_app s t : bytes_of (s +:+ t) = bytes_of s ++ bytes_of t.
Proof. induction s as [|c s IH]; simpl; [done|]. by rewrite IH. Qed.

Lemma of_bytes_app l k : of_bytes (l ++ k) = of_bytes l +:+ of_bytes k.
Proof. induction l as [|c l IH]; simpl; [done|]. by rewrite IH. Qed.

Definition ascii_string (s : string) : bool := forallb (fun c => byteZ c <? 128) (bytes_of s).

(** On ASCII text runes are bytes, both ways. *)
Lemma decode_ascii (l : list ascii) :
  forallb (fun c => byteZ c <? 128) l = true -> decode l = map (fun c => (byteZ c, [c])) l.
Proof.
  induction l as [|c l IH]; simpl; [done|]. intros H. split_and_true.
  rewrite H. by rewrite IH.
Qed.

Lemma runes_ascii s : ascii_string s = true -> runes s = map byteZ (bytes_of s).
Proof.
  intros H. unfold runes. rewrite decode_ascii by done. by rewrite map_map.
Qed.

Lemma encode_rune_ascii r : 0 <= r < 128 -> encode_rune r = [byte_of r].
Proof.
  intros. unfold encode_rune. replace (between 0 r 127) with true; [done|].
  symmetry. unfold between. lia.
Qed.

Lemma string_of_runes_bytes l :
  forallb (fun c => byteZ c <? 128) l = true ->
  string_of_runes (map byteZ l) = of_bytes l.
Proof.
  intros H. unfold string_of_runes. f_equal. induction l as [|c l IH]; simpl in *; [done|].
  split_and_true. rewrite IH by done.
  rewrite encode_rune_ascii by (pose proof (byteZ_range c); lia).
  by rewrite byte_of_byteZ.
Qed.

Lemma string_of_runes_app rs qs :
  string_of_runes (rs ++ qs) = string_of_runes rs +:+ string_of_runes qs.
Proof. unfold string_of_runes. by rewrite map_app, concat_app, of_bytes_app. Qed.

Lemma string_app_assoc (s t u : string) : (s +:+ t) +:+ u = s +:+ t +:+ u.
Proof. induction s as [|c s IH]; simpl; [done|]. by rewrite IH. Qed.

Lemma string_app_nil_r (s : string) : s +:+ EmptyString = s.
Proof. induction s as [|c s IH]; simpl; [done|]. by rewrite IH. Qed.

Lemma string_app_inj_l (s t u : string) : s +:+ t = s +:+ u -> t = u.
Proof. induction s as [|c s IH]; simpl; [done|]. intros [= H]. auto. Qed.

Lemma string_length_app (s t : string) :
  String.length (s +:+ t) = (String.length s + String.length t)%nat.
Proof. induction s as [|c s IH]; simpl; [done|]. by rewrite IH. Qed.

Lemma CutPrefix_app p s : CutPrefix (p +:+ s) p = Some s.
Proof. induction p as [|c p IH]; simpl; [by destruct s|]. by rewrite Ascii.eqb_refl. Qed.

Lemma CutPrefix_Some s p r : CutPrefix s p = Some r -> s = p +:+ r.
Proof.
  revert s. induction p as [|c p IH]; intros s; simpl.
  - destruct s; by intros [= <-].
  - destruct s as [|d s]; [done|]. simpl. destruct (Ascii.eqb_spec c d) as [->|]; [|done].
    intros H. by rewrite (IH s H).
Qed.

Lemma HasPrefix_spec s p : HasPrefix s p = true <-> exists r, s = p +:+ r.
Proof.
  unfold HasPrefix. destruct (CutPrefix s p) as [r|] eqn:E.
  - split; [|done]. intros _. exists r. by apply CutPrefix_Some.
  - split; [done|]. intros [r ->]. by rewrite CutPrefix_app in E.
Qed.

Lemma Cut_Some s sep b a : Cut s sep = Some (b, a) -> s = b +:+ sep +:+ a.
Proof.
  revert b a. induction s as [|c s IH]; intros b a; cbn [Cut].
  - destruct (CutPrefix EmptyString sep) as [r|] eqn:E; [|done]. intros [= <- <-].
    by apply CutPrefix_Some in E.
  - destruct (CutPrefix (String c s) sep) as [r|] eqn:E.
    + intros [= <- <-]. by apply CutPrefix_Some in E.
    + destruct (Cut s sep) as [[b' a']|] eqn:E'; [|done]. intros [= <- <-].
      simpl. f_equal. eauto.
Qed.

Lemma TrimPrefix_no s p : CutPrefix s p = None -> TrimPrefix s p = s.
Proof. unfold TrimPrefix. by intros ->. Qed.
