(* ===== verification/GoValue.v ===== *)
(** * Dynamic values

    The Go type [any] as the program uses it: the values [yaml.v3] and
    [encoding/json] decode into [any], with the [[]string] slices the provider
    builds.  A [map[string]any] is the list of its entries in the order one
    iteration visits them, so a definition that ranges over a map shows its
    dependence on that order and a theorem can remove it.  Floating-point numbers
    are IEEE 754 values ([spec_float]). *)
From Stdlib Require Import ZArith Lia Bool Ascii.
From Stdlib Require Import Floats.SpecFloat.
From Stdlib Require String.
From S2P Require Import Prelude GoStr.

Local Open Scope Z_scope.

(** The scalar keys of a [map[any]any]. *)
Inductive mapkey :=
  | KStr (s : string)
  | KInt (z : Z)
  | KBool (b : bool)
  | KNil.

#[warnings="-register-all"]
Inductive gval :=
  | VNil
  | VBool (b : bool)
  | VInt (z : Z)
  | VInt64 (z : Z)
  | VFloat64 (f : spec_float)
  | VFloat32 (f : spec_float)
  | VStr (s : string)
  | VSlice (l : list gval)                 (** [[]any] *)
  | VStrs (l : list string)                (** [[]string] *)
  | VMap (m : list (string * gval))        (** [map[string]any] *)
  | VAnyMap (m : list (mapkey * gval))     (** [map[any]any] *)
  | VOther (ty repr : string).             (** another scalar, with its JSON text *)

Abbreviation gomap := (list (string * gval)).

(** ** Maps *)

Section assoc.
Context {A : Type}.
Implicit Types m : list (string * A).

(** [m[k]] with the comma-ok result. *)
Fixpoint mget (k : string) m : option A :=
  match m with
  | [] => None
  | (k', v) :: m' => if String.eqb k k' then Some v else mget k m'
  end.

(** [m[k] = v]. *)
Fixpoint mset (k : string) (v : A) m : list (string * A) :=
  match m with
  | [] => [(k, v)]
  | (k', v') :: m' => if String.eqb k k' then (k, v) :: m' else (k', v') :: mset k v m'
  end.

(** [delete(m, k)]. *)
Definition mdel (k : string) m : list (string * A) :=
  List.filter (fun kv => negb (String.eqb k kv.1)) m.

Definition mkeys m : list string := map fst m.

(** The entries of a Go map: one per key. *)
Definition uniq_keys m : Prop := NoDup (mkeys m).
End assoc.

(** ** Sizes and induction *)

Fixpoint vsize (v : gval) : nat :=
  match v with
  | VSlice l => S (list_sum (map vsize l))
  | VMap m => S (list_sum (map (fun kv => vsize kv.2) m))
  | VAnyMap m => S (list_sum (map (fun kv => vsize kv.2) m))
  | VStrs l => S (length l)
  | _ => 1%nat
  end.

Definition msize (m : gomap) : nat := list_sum (map (fun kv => vsize kv.2) m).

Section gval_induction.
Variable P : gval -> Prop.
Hypothesis Pnil : P VNil.
Hypothesis Pbool : forall b, P (VBool b).
Hypothesis Pint : forall z, P (VInt z).
Hypothesis Pint64 : forall z, P (VInt64 z).
Hypothesis Pf64 : forall f, P (VFloat64 f).
Hypothesis Pf32 : forall f, P (VFloat32 f).
Hypothesis Pstr : forall s, P (VStr s).
Hypothesis Pslice : forall l, Forall P l -> P (VSlice l).
Hypothesis Pstrs : forall l, P (VStrs l).
Hypothesis Pmap : forall m, Forall (fun kv => P kv.2) m -> P (VMap m).
Hypothesis Pany : forall m, Forall (fun kv => P kv.2) m -> P (VAnyMap m).
Hypothesis Pother : forall t r, P (VOther t r).

Fixpoint gval_ind' (v : gval) : P v :=
  match v with
  | VNil => Pnil
  | VBool b => Pbool b
  | VInt z => Pint z
  | VInt64 z => Pint64 z
  | VFloat64 f => Pf64 f
  | VFloat32 f => Pf32 f
  | VStr s => Pstr s
  | VSlice l => Pslice l
      ((fix go (l : list gval) : Forall P l :=
          match l with
          | [] => Forall_nil_2 _
          | x :: l' => Forall_cons_2 _ _ _ (gval_ind' x) (go l')
          end) l)
  | VStrs l => Pstrs l
  | VMap m => Pmap m
      ((fix go (m : gomap) : Forall (fun kv => P kv.2) m :=
          match m with
          | [] => Forall_nil_2 _
          | kv :: m' => Forall_cons_2 _ _ _ (gval_ind' kv.2) (go m')
          end) m)
  | VAnyMap m => Pany m
      ((fix go (m : list (mapkey * gval)) : Forall (fun kv => P kv.2) m :=
          match m with
          | [] => Forall_nil_2 _
          | kv :: m' => Forall_cons_2 _ _ _ (gval_ind' kv.2) (go m')
          end) m)
  | VOther t r => Pother t r
  end.
End gval_induction.

(** Every [map[string]any] inside the value has one entry per key. *)
Fixpoint wf_val (v : gval) : Prop :=
  match v with
  | VSlice l => (fix go l := match l with [] => True | x :: l' => wf_val x /\ go l' end) l
  | VMap m =>
      uniq_keys m /\
      (fix go (m : gomap) := match m with [] => True | kv :: m' => wf_val kv.2 /\ go m' end) m
  | VAnyMap m =>
      (fix go (m : list (mapkey * gval)) :=
         match m with [] => True | kv :: m' => wf_val kv.2 /\ go m' end) m
  | _ => True
  end.

Definition wf_map (m : gomap) : Prop := wf_val (VMap m).

(** ** Type assertions *)

Definition asStr (v : gval) : option string := match v with VStr s => Some s | _ => None end.
Definition asBool (v : gval) : option bool := match v with VBool b => Some b | _ => None end.
Definition asMap (v : gval) : option gomap := match v with VMap m => Some m | _ => None end.
Definition asSlice (v : gval) : option (list gval) :=
  match v with VSlice l => Some l | _ => None end.

(** [m[k].(T)] on a map that may be nil: a missing key reads as [nil]. *)
Definition getAs {T} (f : gval -> option T) (k : string) (m : gomap) : option T :=
  match mget k m with Some v => f v | None => None end.

(** [s, _ := m[k].(string)]. *)
Definition getStr (k : string) (m : gomap) : string := default EmptyString (getAs asStr k m).

(** ** fmt %v of a map key *)

Definition fmt_key (k : mapkey) : string :=
  match k with
  | KStr s => s
  | KInt z => Itoa z
  | KBool true => "true"
  | KBool false => "false"
  | KNil => "<nil>"
  end.

(** ** Numbers

    Conversion of an int to float64 rounds to nearest, ties to even. *)

Definition float64_of_Z (z : Z) : spec_float := binary_normalize 53 1024 z 0 false.

(** ** reflect.DeepEqual

    On the values modelled: same dynamic type, then structurally. *)

Definition str_list_eqb (l k : list string) : bool := bool_decide (l = k).

Definition mapkey_eqb (a b : mapkey) : bool :=
  match a, b with
  | KStr s, KStr t => String.eqb s t
  | KInt x, KInt y => x =? y
  | KBool x, KBool y => Bool.eqb x y
  | KNil, KNil => true
  | _, _ => false
  end.

Fixpoint akget {A} (k : mapkey) (m : list (mapkey * A)) : option A :=
  match m with
  | [] => None
  | (k', v) :: m' => if mapkey_eqb k k' then Some v else akget k m'
  end.

Fixpoint DeepEqual (a b : gval) {struct a} : bool :=
  match a, b with
  | VNil, VNil => true
  | VBool x, VBool y => Bool.eqb x y
  | VInt x, VInt y => x =? y
  | VInt64 x, VInt64 y => x =? y
  | VFloat64 x, VFloat64 y => SFeqb x y
  | VFloat32 x, VFloat32 y => SFeqb x y
  | VStr x, VStr y => String.eqb x y
  | VStrs x, VStrs y => str_list_eqb x y
  | VSlice x, VSlice y =>
      (fix go (x y : list gval) : bool :=
         match x, y with
         | [], [] => true
         | u :: x', v :: y' => DeepEqual u v && go x' y'
         | _, _ => false
         end) x y
  | VMap x, VMap y =>
      (length x =? length y)%nat &&
      (fix go (x : gomap) : bool :=
         match x with
         | [] => true
         | kv :: x' => match mget kv.1 y with
                       | Some v => DeepEqual kv.2 v
                       | None => false
                       end && go x'
         end) x
  | VAnyMap x, VAnyMap y =>
      (length x =? length y)%nat &&
      (fix go (x : list (mapkey * gval)) : bool :=
         match x with
         | [] => true
         | kv :: x' => match akget kv.1 y with
                       | Some v => DeepEqual kv.2 v
                       | None => false
                       end && go x'
         end) x
  | VOther t r, VOther t' r' => String.eqb t t' && String.eqb r r'
  | _, _ => false
  end.

(** ** Lemmas on maps *)

Section assoc_lemmas.
Context {A : Type}.
Implicit Types m : list (string * A).

Lemma mget_mset k k' v m : mget k (mset k' v m) = if String.eqb k k' then Some v else mget k m.
Proof.
  induction m as [|[k2 v2] m IH]; simpl; [done|].
  destruct (String.eqb_spec k' k2) as [->|]; simpl.
  - destruct (String.eqb_spec k k2); done.
  - rewrite IH. destruct (String.eqb_spec k k2) as [->|]; [|done].
    destruct (String.eqb_spec k2 k'); congruence.
Qed.

Lemma mget_mset_eq k v m : mget k (mset k v m) = Some v.
Proof. by rewrite mget_mset, String.eqb_refl. Qed.

Lemma mget_mset_ne k k' v m : k <> k' -> mget k (mset k' v m) = mget k m.
Proof. intros. rewrite mget_mset. by destruct (String.eqb_spec k k'). Qed.

Lemma mget_mdel k k' m : mget k (mdel k' m) = if String.eqb k k' then None else mget k m.
Proof.
  induction m as [|[k2 v2] m IH]; simpl; [by case_match|].
  destruct (String.eqb_spec k' k2) as [->|]; simpl.
  - rewrite IH. by destruct (String.eqb_spec k k2).
  - destruct (String.eqb_spec k k2) as [->|]; [|done].
    by destruct (String.eqb_spec k2 k').
Qed.

Lemma mget_None k m : mget k m = None <-> k ∉ mkeys m.
Proof.
  induction m as [|[k2 v2] m IH]; simpl.
  - split; [intros _; apply not_elem_of_nil|done].
  - rewrite not_elem_of_cons. destruct (String.eqb_spec k k2); naive_solver.
Qed.

Lemma mget_Some_in k v m : mget k m = Some v -> (k, v) ∈ m.
Proof.
  induction m as [|[k2 v2] m IH]; simpl; [done|].
  destruct (String.eqb_spec k k2) as [->|]; [intros [= ->]; left|].
  intros. right. auto.
Qed.

Lemma mget_in k v m : uniq_keys m -> (k, v) ∈ m -> mget k m = Some v.
Proof.
  unfold uniq_keys. induction m as [|[k2 v2] m IH]; simpl; [by intros _ ?%not_elem_of_nil|].
  rewrite NoDup_cons, elem_of_cons. intros [Hk Hm] [[= -> ->]|Hin].
  - by rewrite String.eqb_refl.
  - destruct (String.eqb_spec k k2) as [->|]; [|auto].
    destruct Hk. apply list_elem_of_fmap. by exists (k2, v).
Qed.

Lemma mget_perm k m m' : uniq_keys m -> m ≡ₚ m' -> mget k m = mget k m'.
Proof.
  intros Hu Hp. assert (Hu' : uniq_keys m') by (unfold uniq_keys, mkeys in *; by rewrite <- Hp).
  destruct (mget k m) eqn:E.
  - symmetry. apply mget_in; [done|]. rewrite <- Hp. by apply mget_Some_in.
  - symmetry. apply mget_None. apply mget_None in E. unfold mkeys in *. by rewrite <- Hp.
Qed.

Lemma mkeys_mset k v m : mkeys (mset k v m) = if mget k m is Some _ then mkeys m else mkeys m ++ [k].
Proof.
  induction m as [|[k2 v2] m IH]; simpl; [done|].
  destruct (String.eqb_spec k k2) as [->|]; simpl; [done|].
  rewrite IH. by destruct (mget k m).
Qed.

Lemma uniq_keys_mset k v m : uniq_keys m -> uniq_keys (mset k v m).
Proof.
  unfold uniq_keys. rewrite mkeys_mset. destruct (mget k m) eqn:E; [done|].
  intros. apply NoDup_app. split; [done|]. split; [|apply NoDup_singleton].
  intros x Hx ->%list_elem_of_singleton. apply mget_None in E. done.
Qed.

Lemma uniq_keys_mdel k m : uniq_keys m -> uniq_keys (mdel k m).
Proof.
  unfold uniq_keys, mkeys, mdel. induction m as [|[k2 v2] m IH]; simpl; [done|].
  rewrite NoDup_cons. intros [Hk Hm]. case_match; simpl; [|auto].
  apply NoDup_cons. split; [|auto]. intros Hin. apply Hk.
  apply list_elem_of_fmap in Hin as (kv & -> & Hkv). apply list_elem_of_fmap. exists kv.
  split; [done|]. apply list_elem_of_In, filter_In in Hkv as [??]. by apply list_elem_of_In.
Qed.
End assoc_lemmas.

#[export] Hint Resolve uniq_keys_mset uniq_keys_mdel : gcp.

Lemma vsize_pos v : (0 < vsize v)%nat.
Proof. destruct v; simpl; lia. Qed.

Lemma list_sum_elem {A} (f : A -> nat) (l : list A) x :
  x ∈ l -> (f x <= list_sum (map f l))%nat.
Proof.
  induction l as [|y l IH]; [by intros ?%not_elem_of_nil|].
  rewrite elem_of_cons. simpl. intros [->|H]; [lia|]. specialize (IH H). lia.
Qed.

Lemma wf_slice l : wf_val (VSlice l) <-> Forall wf_val l.
Proof.
  simpl. induction l as [|x l IH]; [split; constructor|]. rewrite Forall_cons, <- IH. done.
Qed.

Lemma wf_vmap m : wf_val (VMap m) <-> uniq_keys m /\ Forall (fun kv => wf_val kv.2) m.
Proof.
  simpl. apply and_iff_compat_l.
  induction m as [|x l IH]; [split; constructor|]. rewrite Forall_cons, <- IH. done.
Qed.

Lemma wf_anymap m : wf_val (VAnyMap m) <-> Forall (fun kv => wf_val kv.2) m.
Proof.
  simpl. induction m as [|x l IH]; [split; constructor|]. rewrite Forall_cons, <- IH. done.
Qed.

(** [wf_val] as a check. *)
Fixpoint wf_valb (v : gval) : bool :=
  match v with
  | VSlice l => forallb wf_valb l
  | VMap m => bool_decide (NoDup (mkeys m)) && forallb (fun kv => wf_valb kv.2) m
  | VAnyMap m => forallb (fun kv => wf_valb kv.2) m
  | _ => true
  end.

Lemma wf_valb_ok v : wf_valb v = true -> wf_val v.
Proof.
  induction v as [| | | | | | |l IH| |m IH|m IH|] using gval_ind'; try done; cbn [wf_valb].
  - intros H%forallb_Forall. apply wf_slice. rewrite Forall_forall in *. auto.
  - intros H. split_and_true. apply wf_vmap. split; [done|].
    apply forallb_Forall in H0. rewrite Forall_forall in *. auto.
  - intros H%forallb_Forall. apply wf_anymap. rewrite Forall_forall in *. auto.
Qed.
