(* ===== verification/GoTime.v ===== *)
(** * Durations

    [time.ParseDuration], which reads the intervals of [serve] and [top].  A duration is a
    number of nanoseconds in an int64; a fraction is added with floating point, as Go does. *)
From Stdlib Require Import ZArith Lia Bool Ascii.
From Stdlib Require String.
From Stdlib Require Import Floats.SpecFloat.
From S2P Require Import Prelude GoStr GoValue.

Local Open Scope string_scope.
Local Open Scope Z_scope.

(** [unitMap]: with the micro sign and the Greek letter. *)
Definition unitMap : list (string * Z) :=
  [("ns", 1); ("us", 10 ^ 3); (of_bytes [byte_of 194; byte_of 181; "s"%char], 10 ^ 3);
   (of_bytes [byte_of 206; byte_of 188; "s"%char], 10 ^ 3); ("ms", 10 ^ 6); ("s", 10 ^ 9);
   ("m", 60 * 10 ^ 9); ("h", 3600 * 10 ^ 9)].

Definition maxUnsigned : Z := 2 ^ 63.

(** [leadingInt]: the number and the rest, or an overflow. *)
Fixpoint leadingInt (x : Z) (s : list ascii) : option (Z * list ascii) :=
  match s with
  | [] => Some (x, [])
  | c :: s' =>
    if ascii_digit (byteZ c) then
      if maxUnsigned / 10 <? x then None
      else let x := x * 10 + (byteZ c - 48) in
           if maxUnsigned <? x then None else leadingInt x s'
    else Some (x, s)
  end.

(** [leadingFraction]: the digits as a number with its scale; once they overflow the rest
    is dropped. *)
Fixpoint leadingFraction (x scale : Z) (overflow : bool) (s : list ascii) : Z * Z * list ascii :=
  match s with
  | [] => (x, scale, [])
  | c :: s' =>
    if ascii_digit (byteZ c) then
      if overflow then leadingFraction x scale true s'
      else if (maxUnsigned - 1) / 10 <? x then leadingFraction x scale true s'
      else let y := x * 10 + (byteZ c - 48) in
           if maxUnsigned <? y then leadingFraction x scale true s'
           else leadingFraction y (scale * 10) false s'
    else (x, scale, s)
  end.

(** The bytes up to a period or a digit. *)
Fixpoint span_unit (s : list ascii) : list ascii * list ascii :=
  match s with
  | [] => ([], [])
  | c :: s' => if (byteZ c =? 46) || ascii_digit (byteZ c) then ([], s)
               else let '(u, r) := span_unit s' in (c :: u, r)
  end.

(** The integer part of a float that is not negative. *)
Definition trunc_float (f : spec_float) : Z :=
  match f with
  | S754_finite false m e => if 0 <=? e then Zpos m * 2 ^ e else Zpos m / 2 ^ (- e)
  | _ => 0
  end.

(** [uint64(float64(f) * (float64(unit) / scale))]; the scale is a float from the start,
    exact up to [10 ^ 19] and rounded in the same way as its integer. *)
Definition fraction_of (f unit scale : Z) : Z :=
  trunc_float (SFmul 53 1024 (float64_of_Z f) (SFdiv 53 1024 (float64_of_Z unit) (float64_of_Z scale))).

Section duration.
Context {U : Unicode}.

(** [quote] of package time: quotes and backslashes are escaped, and every byte that is
    not printable ASCII. *)
Definition quote_byte (c : ascii) : list ascii :=
  if (byteZ c =? 34) || (byteZ c =? 92) then [byte_of 92; c]
  else if (byteZ c <? 32) || (128 <=? byteZ c)
  then [byte_of 92; "x"%char; hexdigit (byteZ c / 16); hexdigit (byteZ c mod 16)]
  else [c].

Definition time_quote (s : string) : string :=
  of_bytes (byte_of 34 :: concat (map quote_byte (bytes_of s)) ++ [byte_of 34])%list.

Definition invalid_duration (orig : string) : error := errorf ("time: invalid duration " +:+ time_quote orig).

(** A period and digits: the fraction with its scale, the rest, and whether it has a digit. *)
Definition duration_fraction (s : list ascii) : Z * Z * list ascii * bool :=
  match s with
  | d :: s' => if byteZ d =? 46
               then let '(f, scale, s2) := leadingFraction 0 1 false s' in
                    (f, scale, s2, negb (length s' =? length s2)%nat)
               else (0, 1, s, false)
  | [] => (0, 1, s, false)
  end.

(** The body of the loop of [ParseDuration]: a number, its unit, and the rest. *)
Definition duration_term (orig : string) (s : list ascii) : res (Z * list ascii) :=
  let invalid := Err (invalid_duration orig) in
  match s with
  | [] => invalid
  | c :: _ =>
    if negb ((byteZ c =? 46) || ascii_digit (byteZ c)) then invalid
    else
    match leadingInt 0 s with
    | None => invalid
    | Some (v, s1) =>
      let pre := negb (length s =? length s1)%nat in
      let '(f, scale, s2, post) := duration_fraction s1 in
      if negb pre && negb post then invalid
      else
      let '(u, s3) := span_unit s2 in
      match u with
      | [] => Err (errorf ("time: missing unit in duration " +:+ time_quote orig))
      | _ =>
        match mget (of_bytes u) unitMap with
        | None => Err (errorf ("time: unknown unit " +:+ time_quote (of_bytes u) +:+ " in duration " +:+ time_quote orig))
        | Some unit =>
          if maxUnsigned / unit <? v then invalid
          else
          let v := v * unit + (if 0 <? f then fraction_of f unit scale else 0) in
          if (0 <? f) && (maxUnsigned <? v) then invalid else Ok (v, s3)
        end
      end
    end
  end.

(** The loop, whose sum is a uint64; [fuel] is the number of bytes left, and each term takes one at least. *)
Fixpoint duration_terms (fuel : nat) (orig : string) (d : Z) (s : list ascii) : res Z :=
  match s, fuel with
  | [], _ => Ok d
  | _, O => Err (invalid_duration orig)
  | _, S fuel =>
    match duration_term orig s with
    | Err e => Err e
    | Ok (v, s') => let d := (d + v) mod 2 ^ 64 in
                    if maxUnsigned <? d then Err (invalid_duration orig) else duration_terms fuel orig d s'
    end
  end.

Definition ParseDuration (orig : string) : res Z :=
  let '(neg, s) := match bytes_of orig with
                   | c :: s => if (byteZ c =? 45) || (byteZ c =? 43) then (byteZ c =? 45, s) else (false, c :: s)
                   | [] => (false, [])
                   end in
  if String.eqb (of_bytes s) "0" then Ok 0
  else match s with
       | [] => Err (invalid_duration orig)
       | _ =>
         match duration_terms (length s) orig 0 s with
         | Err e => Err e
         | Ok d => if neg then Ok (- d)
                   else if maxUnsigned - 1 <? d then Err (invalid_duration orig) else Ok d
         end
       end.
End duration.

Example ParseDuration_ex :
  map (ParseDuration) ["30s"; "1h15m30.918s"; "-1.5h"; "0"; ".5us"; "2562047h47m16.854775807s"] =
  map Ok [30 * 10 ^ 9; 4530918000000; - 5400 * 10 ^ 9; 0; 500; 2 ^ 63 - 1].
Proof. vm_compute. reflexivity. Qed.

Example ParseDuration_errors_ex :
  map (ParseDuration) [""; "3"; "3000000h"; "1x"; "s"] =
  map (fun s => Err (errorf s))
    ["time: invalid duration " +:+ time_quote ""; "time: missing unit in duration " +:+ time_quote "3";
     "time: invalid duration " +:+ time_quote "3000000h";
     "time: unknown unit " +:+ time_quote "x" +:+ " in duration " +:+ time_quote "1x";
     "time: invalid duration " +:+ time_quote "s"].
Proof. vm_compute. reflexivity. Qed.

(** ** The loop and its result *)

Lemma leadingInt_rest x s v r : leadingInt x s = Some (v, r) -> (length r <= length s)%nat.
Proof.
  revert x. induction s as [|c s IH]; intros x; simpl; [by intros [= _ <-]|].
  repeat case_match; try done; [|by intros [= _ <-]]. intros Hr%IH. lia.
Qed.

Lemma leadingFraction_rest x scale o s f sc r :
  leadingFraction x scale o s = (f, sc, r) -> (length r <= length s)%nat.
Proof.
  revert x scale o. induction s as [|c s IH]; intros x scale o; simpl; [by intros [= _ _ <-]|].
  repeat case_match; try (intros Hr%IH; lia). by intros [= _ _ <-].
Qed.

Lemma span_unit_rest s u r : span_unit s = (u, r) -> length s = (length u + length r)%nat.
Proof.
  revert u. induction s as [|c s IH]; intros u; simpl; [by intros [= <- <-]|].
  destruct (_ || _); [by intros [= <- <-]|]. destruct (span_unit s) as [u' r'].
  intros [= <- <-]. cbn. f_equal. by apply IH.
Qed.

(** Each term takes a byte at least, so that the fuel is enough. *)
Lemma duration_term_shorter {U : Unicode} orig s v s' :
  duration_term orig s = Ok (v, s') -> (length s' < length s)%nat.
Proof.
  unfold duration_term. destruct s as [|c s]; [done|]. destruct (negb _); [done|].
  destruct (leadingInt 0 (c :: s)) as [[n s1]|] eqn:E1; [|done]. apply leadingInt_rest in E1. cbv zeta.
  destruct (duration_fraction s1) as [[[f sc] s2] post] eqn:E2.
  assert (H2 : (length s2 <= length s1)%nat).
  { unfold duration_fraction in E2. destruct s1 as [|d s1]; [by simplify_eq|].
    destruct (byteZ d =? 46); [|by simplify_eq].
    destruct (leadingFraction 0 1 false s1) as [[f' sc'] r] eqn:E3. apply leadingFraction_rest in E3.
    simplify_eq. cbn. lia. }
  destruct (_ && _); [done|]. destruct (span_unit s2) as [u s3] eqn:E4. apply span_unit_rest in E4.
  destruct u as [|x u]; [done|]. cbn in E4. repeat case_match; try done; intros [= _ <-]; lia.
Qed.

Lemma duration_terms_fuel {U : Unicode} n orig d s :
  (length s <= n)%nat -> duration_terms n orig d s = duration_terms (length s) orig d s.
Proof.
  revert d s. induction n as [n IH] using lt_wf_ind. intros d s Hn.
  destruct s as [|c s]; [by destruct n|]. destruct n as [|n]; [by cbn in Hn; lia|].
  cbn [duration_terms length]. destruct (duration_term orig (c :: s)) as [[v s']|e] eqn:E; [|done].
  apply duration_term_shorter in E. cbn in E, Hn. cbv zeta. case_match; [done|].
  by rewrite (IH n), (IH (length s)) by lia.
Qed.

Lemma duration_terms_bound {U : Unicode} n orig d s d' :
  0 <= d <= 2 ^ 63 -> duration_terms n orig d s = Ok d' -> 0 <= d' <= 2 ^ 63.
Proof.
  revert d s. induction n as [|n IH]; intros d s Hd; (destruct s as [|c s]; [by intros [= <-]|]);
    cbn [duration_terms]; [done|].
  destruct (duration_term orig (c :: s)) as [[v s']|e]; [|done]. cbv zeta.
  destruct (Z.ltb_spec maxUnsigned ((d + v) mod 2 ^ 64)) as [|Hb]; [done|]. apply IH.
  unfold maxUnsigned in Hb. split; [apply Z.mod_pos_bound; lia|done].
Qed.

(** A duration that is parsed is an int64. *)
Lemma ParseDuration_int64 {U : Unicode} s d : ParseDuration s = Ok d -> MinInt64 <= d <= MaxInt64.
Proof.
  unfold ParseDuration, MinInt64, MaxInt64.
  destruct (match bytes_of s with [] => _ | _ => _ end) as [neg l].
  destruct (String.eqb _ "0"); [intros [= <-]; lia|]. destruct l as [|c l]; [done|].
  destruct (duration_terms _ _ _ _) as [x|e] eqn:E; [|done]. apply duration_terms_bound in E; [|lia].
  destruct neg; [intros [= <-]; lia|]. unfold maxUnsigned. destruct (Z.ltb_spec (2 ^ 63 - 1) x); [done|].
  intros [= <-]. lia.
Qed.
