(* ===== verification/Filepath.v ===== *)
(** * Go paths and the filesystem

    [path/filepath] on Unix, and the part of the filesystem the program reads: a
    tree of directories, regular files and other entries, a file either readable
    or failing.  Directory entries are listed in name order, as [os.ReadDir] and
    [filepath.WalkDir] list them. *)
From Stdlib Require Import ZArith Lia Bool Ascii Sorted.
From Stdlib Require String.
From S2P Require Import Prelude GoStr GoValue.

Local Open Scope string_scope.

(** ** filepath *)

(** One element of [filepath.Clean]'s scan over the elements kept so far, the
    last one first. *)
Definition clean_step (rooted : bool) (kept : list string) (e : string) : list string :=
  if String.eqb e "" || String.eqb e "." then kept
  else if String.eqb e ".." then
    match kept with
    | p :: kept' => if String.eqb p ".." then ".." :: kept else kept'
    | [] => if rooted then [] else [".."]
    end
  else e :: kept.

Definition clean_elems (path : string) : list string :=
  reverse (foldl (clean_step (HasPrefix path "/")) [] (Split path "/")).

Definition Clean (path : string) : string :=
  let out := Join (clean_elems path) "/" in
  if HasPrefix path "/" then "/" +:+ out
  else if String.eqb out "" then "." else out.

Definition JoinPath (elems : list string) : string :=
  match List.filter (fun e => negb (String.eqb e "")) elems with
  | [] => ""
  | es => Clean (Join es "/")
  end.

Definition IsAbs (path : string) : bool := HasPrefix path "/".

Definition Base (path : string) : string :=
  if String.eqb path "" then "."
  else match List.filter (fun e => negb (String.eqb e "")) (Split path "/") with
       | [] => "/"
       | es => List.last es ""
       end.

(** The text up to and including the last slash, cleaned. *)
Definition Dir (path : string) : string :=
  let es := Split path "/" in
  Clean (match List.removelast es with
         | [] => ""
         | es' => Join es' "/" +:+ "/"
         end).

(** The suffix of the last element from its last dot on. *)
Definition Ext (path : string) : string :=
  match Split (List.last (Split path "/") "") "." with
  | [] | [_] => ""
  | es => "." +:+ List.last es ""
  end.

Fixpoint strip_common (base targ : list string) : list string * list string :=
  match base, targ with
  | b :: base', t :: targ' => if String.eqb b t then strip_common base' targ' else (base, targ)
  | _, _ => (base, targ)
  end.

Definition Rel (base targ : string) : res string :=
  if negb (Bool.eqb (IsAbs base) (IsAbs targ)) then
    Err (errorf ("Rel: can't make " +:+ targ +:+ " relative to " +:+ base))
  else
    let '(b, t) := strip_common (clean_elems base) (clean_elems targ) in
    if existsb (String.eqb "..") b then
      Err (errorf ("Rel: can't make " +:+ targ +:+ " relative to " +:+ base))
    else match (map (fun _ => "..") b ++ t)%list with
         | [] => Ok "."
         | es => Ok (Join es "/")
         end.

(** ** Sorting *)

(** [a < b] and [a <= b] on Go strings: byte-wise lexicographic. *)
Definition str_le (a b : string) : Prop := String.leb a b = true.

#[export] Instance str_le_dec : RelDecision str_le.
Proof. intros a b. unfold str_le. apply _. Defined.

Fixpoint insert_by {A} (key : A -> string) (x : A) (l : list A) : list A :=
  match l with
  | [] => [x]
  | y :: l' => if String.leb (key x) (key y) then x :: l else y :: insert_by key x l'
  end.

(** [sort.Slice] by a string key, stable. *)
Definition sort_by {A} (key : A -> string) (l : list A) : list A :=
  foldr (insert_by key) [] l.

(** [sort.Strings]. *)
Definition sortStrings (l : list string) : list string := sort_by (fun s => s) l.

(** ** The filesystem *)

#[warnings="-register-all"]
Inductive fsnode :=
  | FFile (data : res string)                  (** a regular file *)
  | FDir (entries : list (string * fsnode))    (** a directory *)
  | FOther.                                    (** a symlink, device, ... *)

Record Filesystem := mkFs { fs_root : fsnode; fs_cwd : list string }.

Fixpoint fs_walk (n : fsnode) (elems : list string) : option fsnode :=
  match elems with
  | [] => Some n
  | e :: es => match n with
               | FDir entries => match mget e entries with
                                 | Some c => fs_walk c es
                                 | None => None
                                 end
               | _ => None
               end
  end.

(** The absolute elements of a path. *)
Definition abs_elems (fs : Filesystem) (path : string) : list string :=
  if IsAbs path then clean_elems path
  else clean_elems ("/" +:+ Join (fs_cwd fs) "/" +:+ "/" +:+ path).

Definition fs_lookup (fs : Filesystem) (path : string) : option fsnode :=
  if String.eqb path "" then None else fs_walk (fs_root fs) (abs_elems fs path).

Definition not_exist (op path : string) : error :=
  mkError (op +:+ " " +:+ path +:+ ": no such file or directory") [NotExist].

Definition ReadFile (fs : Filesystem) (path : string) : res string :=
  match fs_lookup fs path with
  | Some (FFile d) => d
  | Some (FDir _) => Err (errorf ("read " +:+ path +:+ ": is a directory"))
  | Some FOther => Err (errorf ("open " +:+ path +:+ ": not a regular file"))
  | None => Err (not_exist "open" path)
  end.

Definition Stat (fs : Filesystem) (path : string) : res fsnode :=
  match fs_lookup fs path with
  | Some n => Ok n
  | None => Err (not_exist "stat" path)
  end.

Definition isDir (n : fsnode) : bool := match n with FDir _ => true | _ => false end.

Definition ReadDir (fs : Filesystem) (path : string) : res (list (string * fsnode)) :=
  match fs_lookup fs path with
  | Some (FDir entries) => Ok (sort_by fst entries)
  | Some _ => Err (errorf ("readdirent " +:+ path +:+ ": not a directory"))
  | None => Err (not_exist "open" path)
  end.

(** ** Lemmas *)

Lemma str_compare_trans_lt a b c :
  String.compare a b = Lt -> String.compare b c = Lt -> String.compare a c = Lt.
Proof.
  revert b c. induction a as [|x a IH]; intros [|y b] [|z c]; simpl; try done.
  unfold Ascii.compare.
  destruct (N.compare_spec (N_of_ascii x) (N_of_ascii y)) as [Exy|Exy|Exy]; try done;
    destruct (N.compare_spec (N_of_ascii y) (N_of_ascii z)) as [Eyz|Eyz|Eyz]; try done; intros.
  - rewrite Exy, Eyz, N.compare_refl. eauto.
  - rewrite Exy. apply N.compare_lt_iff in Eyz. by rewrite Eyz.
  - rewrite <- Eyz. apply N.compare_lt_iff in Exy. by rewrite Exy.
  - assert (H1 : (N_of_ascii x < N_of_ascii z)%N) by lia. apply N.compare_lt_iff in H1. by rewrite H1.
Qed.

Lemma str_compare_eq a b : String.compare a b = Eq <-> a = b.
Proof.
  split; [apply String.compare_eq_iff|]. intros ->.
  pose proof (String.compare_antisym b b) as H. by destruct (String.compare b b).
Qed.

Lemma str_leb_compare a b : String.leb a b = true <-> String.compare a b <> Gt.
Proof. unfold String.leb. by destruct (String.compare a b). Qed.

#[export] Instance str_le_trans : Transitive str_le.
Proof.
  intros a b c. unfold str_le. rewrite !str_leb_compare.
  destruct (String.compare a b) eqn:E1; [| |done];
    destruct (String.compare b c) eqn:E2; try done; intros _ _.
  - apply str_compare_eq in E1 as ->. by rewrite E2.
  - apply str_compare_eq in E1 as ->. by rewrite E2.
  - apply str_compare_eq in E2 as <-. by rewrite E1.
  - by rewrite (str_compare_trans_lt a b c).
Qed.

#[export] Instance str_le_total : Total str_le.
Proof. intros a b. apply String.leb_total. Qed.

#[export] Instance str_le_antisymm : AntiSymm eq str_le.
Proof. intros a b. apply String.leb_antisym. Qed.

Lemma insert_by_perm {A} (key : A -> string) x l : insert_by key x l ≡ₚ x :: l.
Proof.
  induction l as [|y l IH]; simpl; [done|]. case_match; [done|].
  rewrite IH. constructor.
Qed.

Lemma sort_by_perm {A} (key : A -> string) l : sort_by key l ≡ₚ l.
Proof. induction l as [|x l IH]; simpl; [done|]. by rewrite insert_by_perm, IH. Qed.

Definition key_le {A} (key : A -> string) (x y : A) : Prop := str_le (key x) (key y).

Lemma insert_by_sorted {A} (key : A -> string) x l :
  StronglySorted (key_le key) l -> StronglySorted (key_le key) (insert_by key x l).
Proof.
  induction 1 as [|y l Hs IH Hall]; simpl; [repeat constructor|].
  destruct (String.leb (key x) (key y)) eqn:E.
  - constructor; [by constructor|]. constructor; [done|].
    eapply Forall_impl; [done|]. intros z Hz. unfold key_le in *. by transitivity (key y).
  - constructor; [done|]. rewrite insert_by_perm. constructor; [|done].
    unfold key_le, str_le. destruct (str_le_total (key x) (key y)) as [H|H]; [|done].
    unfold str_le in H. congruence.
Qed.

Lemma sort_by_sorted {A} (key : A -> string) l : StronglySorted (key_le key) (sort_by key l).
Proof. induction l; simpl; [constructor|]. by apply insert_by_sorted. Qed.

(** Two sorted lists of the same elements with distinct keys are equal. *)
Lemma sorted_unique {A} (key : A -> string) (l k : list A) :
  NoDup (map key l) -> StronglySorted (key_le key) l -> StronglySorted (key_le key) k ->
  l ≡ₚ k -> l = k.
Proof.
  revert k. induction l as [|x l IH]; intros k Hn Hl Hk Hp.
  { by apply Permutation_nil in Hp as ->. }
  destruct k as [|y k]; [by apply Permutation_sym, Permutation_nil in Hp|].
  simpl in Hn. apply NoDup_cons in Hn as [Hx Hn].
  inversion_clear Hl as [|? ? Hl' Hxl]. inversion_clear Hk as [|? ? Hk' Hyk].
  assert (Hxy : x = y).
  { assert (Hy : y ∈ x :: l) by (rewrite Hp; left).
    apply elem_of_cons in Hy as [->|Hy]; [done|].
    assert (Hxk : x ∈ y :: k) by (rewrite <- Hp; left).
    apply elem_of_cons in Hxk as [->|Hxk]; [done|].
    rewrite Forall_forall in Hxl, Hyk. specialize (Hxl y Hy). specialize (Hyk x Hxk).
    destruct Hx. rewrite (anti_symm str_le (key x) (key y) Hxl Hyk).
    apply list_elem_of_fmap. eauto. }
  subst y. f_equal. apply IH; [done..|]. by apply Permutation_cons_inv in Hp.
Qed.

Lemma sort_by_ext {A} (key : A -> string) (l k : list A) :
  NoDup (map key l) -> l ≡ₚ k -> sort_by key l = sort_by key k.
Proof.
  intros Hn Hp. apply (sorted_unique key); auto using sort_by_sorted.
  - assert (Hm : map key (sort_by key l) ≡ₚ map key l) by (by rewrite sort_by_perm).
    by rewrite Hm.
  - by rewrite !sort_by_perm.
Qed.
