(* ===== verification/FilepathProps.v ===== *)
(** * Properties of paths

    Splitting and joining path elements, and the effect of [filepath.Clean] and
    [filepath.Join] on where a path leads: a relative path without [..] joined to
    a directory stays below it. *)
From Stdlib Require Import ZArith Lia Bool Ascii.
From Stdlib Require String.
From S2P Require Import Prelude GoStr GoValue Filepath.

Local Open Scope string_scope.

(** ** Splitting at a slash *)

Lemma split_slash_cons c s :
  Split (String c s) "/" =
    if Ascii.eqb "/" c then EmptyString :: Split s "/"
    else match Split s "/" with p :: ps => String c p :: ps | [] => [String c EmptyString] end.
Proof.
  unfold Split. cbn [split_go]. unfold HasPrefix. cbn [CutPrefix].
  destruct (Ascii.eqb "/" c) eqn:E; [|done]. by destruct s.
Qed.

Lemma split_slash_nil s : Split s "/" <> [].
Proof.
  induction s as [|c s IH]; [done|]. rewrite split_slash_cons. case_match; [done|].
  by destruct (Split s "/").
Qed.

Lemma split_slash_app a b : Split (a +:+ "/" +:+ b) "/" = (Split a "/" ++ Split b "/")%list.
Proof.
  induction a as [|c a IH].
  - change (EmptyString +:+ "/" +:+ b) with (String "/" b). by rewrite split_slash_cons.
  - change (String c a +:+ "/" +:+ b) with (String c (a +:+ "/" +:+ b)).
    rewrite !split_slash_cons, IH. case_match; [done|].
    destruct (Split a "/") eqn:E; [by apply split_slash_nil in E|]. done.
Qed.

(** An element: text without a slash. *)
Definition no_slash (s : string) : bool := forallb (fun c => negb (Ascii.eqb "/" c)) (bytes_of s).

Lemma split_no_slash s : no_slash s = true -> Split s "/" = [s].
Proof.
  unfold no_slash. induction s as [|c s IH]; [done|]. cbn [String.list_ascii_of_string forallb].
  intros H. split_and_true. rewrite split_slash_cons, H, IH by done. done.
Qed.

Lemma split_elems_no_slash s : Forall (fun e => no_slash e = true) (Split s "/").
Proof.
  induction s as [|c s IH]; [by repeat constructor|]. rewrite split_slash_cons.
  destruct (Ascii.eqb "/" c) eqn:E; [by constructor|].
  destruct (Split s "/") as [|p ps]; inversion IH; subst; constructor; try done;
    unfold no_slash in *; cbn [String.list_ascii_of_string forallb]; rewrite E; [done|].
  done.
Qed.

Lemma split_join es :
  es <> [] -> Forall (fun e => no_slash e = true) es -> Split (Join es "/") "/" = es.
Proof.
  intros Hn Hf. induction Hf as [|e es He Hf IH]; [done|]. destruct es as [|e2 es].
  - by apply split_no_slash.
  - change (Join (e :: e2 :: es) "/") with (e +:+ "/" +:+ Join (e2 :: es) "/").
    rewrite split_slash_app, split_no_slash, IH by done. done.
Qed.

(** ** Clean *)

Definition trivial_elem (e : string) : bool := String.eqb e "" || String.eqb e ".".

(** What the scan keeps: names and leading [..]. *)
Definition kept_ok (k : list string) : Prop :=
  Forall (fun e => trivial_elem e = false) k.

Lemma clean_step_kept rooted k e : kept_ok k -> kept_ok (clean_step rooted k e).
Proof.
  unfold kept_ok, clean_step, trivial_elem. intros Hk.
  destruct (String.eqb e "" || String.eqb e ".") eqn:E; [done|].
  destruct (String.eqb e "..") eqn:E2.
  - destruct k as [|p k]; [destruct rooted; repeat constructor|].
    apply Forall_cons in Hk as [Hp Hk]. case_match; [|done]. by repeat constructor.
  - by constructor.
Qed.

Lemma clean_fold_kept rooted l k : kept_ok k -> kept_ok (foldl (clean_step rooted) k l).
Proof.
  revert k. induction l as [|e l IH]; intros k Hk; simpl; [done|]. apply IH. by apply clean_step_kept.
Qed.

Lemma clean_step_name rooted k e :
  trivial_elem e = false -> String.eqb e ".." = false -> clean_step rooted k e = e :: k.
Proof. unfold clean_step, trivial_elem. by intros -> ->. Qed.

(** Scanning the elements a first scan kept is scanning the elements. *)
Lemma clean_absorb_step rooted s0 k e :
  kept_ok k -> (rooted = true -> s0 = []) ->
  foldl (clean_step true) s0 (reverse (clean_step rooted k e)) =
  clean_step true (foldl (clean_step true) s0 (reverse k)) e.
Proof.
  intros Hk Hr. unfold clean_step at 2.
  destruct (String.eqb e "" || String.eqb e ".") eqn:Et.
  { unfold clean_step at 2. by rewrite Et. }
  destruct (String.eqb e "..") eqn:Ed.
  - apply String.eqb_eq in Ed as ->. destruct k as [|p k].
    + destruct rooted; [by rewrite (Hr eq_refl)|done].
    + destruct (String.eqb p "..") eqn:Ep.
      * by rewrite reverse_cons, foldl_app.
      * apply Forall_cons in Hk as [Hp _]. rewrite reverse_cons, foldl_app. cbn [foldl].
        rewrite (clean_step_name true _ p) by done. unfold clean_step. simpl. by rewrite Ep.
  - rewrite reverse_cons, foldl_app. cbn [foldl]. done.
Qed.

Lemma clean_absorb rooted s0 l k :
  kept_ok k -> (rooted = true -> s0 = []) ->
  foldl (clean_step true) s0 (reverse (foldl (clean_step rooted) k l)) =
  foldl (clean_step true) (foldl (clean_step true) s0 (reverse k)) l.
Proof.
  intros Hk Hr. revert k Hk. induction l as [|e l IH]; intros k Hk; simpl; [done|].
  rewrite IH by (by apply clean_step_kept). by rewrite clean_absorb_step.
Qed.

(** Names only extend what is kept. *)
Definition names (l : list string) : list string :=
  List.filter (fun e => negb (trivial_elem e)) l.

Lemma clean_names rooted k l :
  Forall (fun e => String.eqb e ".." = false) l ->
  foldl (clean_step rooted) k l = (reverse (names l) ++ k)%list.
Proof.
  intros H. revert k. induction H as [|e l He H IH]; intros k; simpl; [done|].
  rewrite IH. destruct (trivial_elem e) eqn:Et; simpl.
  - unfold clean_step. unfold trivial_elem in Et. by rewrite Et.
  - rewrite clean_step_name by done. by rewrite reverse_cons, <- (assoc_L (++)).
Qed.

(** ** Where a path leads *)

Definition cwd_state (fs : Filesystem) : list string :=
  foldl (clean_step true) [] (Split ("/" +:+ Join (fs_cwd fs) "/") "/").

(** The scan of an absolute path starts at the root, of a relative one at the
    working directory. *)
Definition start (fs : Filesystem) (path : string) : list string :=
  if IsAbs path then [] else cwd_state fs.

Lemma HasPrefix_slash_cons c s : HasPrefix (String c s) "/" = Ascii.eqb "/" c.
Proof. unfold HasPrefix. cbn [CutPrefix]. destruct (Ascii.eqb "/" c); [by destruct s|done]. Qed.

Lemma abs_elems_fold fs path :
  abs_elems fs path = reverse (foldl (clean_step true) (start fs path) (Split path "/")).
Proof.
  unfold abs_elems, start, IsAbs, clean_elems. destruct (HasPrefix path "/") eqn:E; [done|].
  change ("/" +:+ Join (fs_cwd fs) "/" +:+ "/" +:+ path)
    with (String "/" (Join (fs_cwd fs) "/" +:+ "/" +:+ path)) at 1.
  rewrite HasPrefix_slash_cons. cbn [Ascii.eqb]. rewrite Ascii.eqb_refl.
  replace ("/" +:+ Join (fs_cwd fs) "/" +:+ "/" +:+ path)
    with (("/" +:+ Join (fs_cwd fs) "/") +:+ "/" +:+ path) by (by rewrite string_app_assoc).
  by rewrite split_slash_app, foldl_app.
Qed.

(** What [Clean] keeps: elements, none trivial. *)
Lemma clean_elems_ok path :
  Forall (fun e => trivial_elem e = false /\ no_slash e = true) (clean_elems path).
Proof.
  unfold clean_elems. apply Forall_reverse.
  assert (H : forall k, Forall (fun e => trivial_elem e = false /\ no_slash e = true) k ->
    Forall (fun e => trivial_elem e = false /\ no_slash e = true)
      (foldl (clean_step (HasPrefix path "/")) k (Split path "/"))).
  { pose proof (split_elems_no_slash path) as Hs. induction Hs as [|e l He Hs IH]; intros k Hk; [done|].
    simpl. apply IH. unfold clean_step. destruct (String.eqb e "" || String.eqb e ".") eqn:Et; [done|].
    destruct (String.eqb e "..").
    - destruct k as [|q k]; [by repeat case_match; repeat constructor|].
      case_match; [by constructor|]. by apply Forall_cons in Hk as [_ ?].
    - by constructor. }
  apply H. constructor.
Qed.

Lemma join_elems_head es :
  Forall (fun e => trivial_elem e = false /\ no_slash e = true) es -> es <> [] ->
  HasPrefix (Join es "/") "/" = false /\ String.eqb (Join es "/") "" = false.
Proof.
  intros H Hn. destruct es as [|e es]; [done|].
  apply Forall_cons in H as [[Ht Hs] _]. destruct e as [|c e]; [done|].
  assert (Hc : Ascii.eqb "/" c = false).
  { unfold no_slash in Hs. cbn [String.list_ascii_of_string forallb] in Hs. split_and_true. done. }
  destruct es as [|e2 es]; cbn [Join String.append]; by rewrite HasPrefix_slash_cons.
Qed.

(** An absolute path stays absolute, a relative one relative. *)
Lemma Clean_abs path : IsAbs (Clean path) = IsAbs path.
Proof.
  unfold IsAbs, Clean. destruct (HasPrefix path "/") eqn:E.
  { cbn [String.append]. by rewrite HasPrefix_slash_cons. }
  destruct (decide (clean_elems path = [])) as [He|He]; [by rewrite He|].
  destruct (join_elems_head _ (clean_elems_ok path) He) as [H1 H2]. by rewrite H2.
Qed.

(** Cleaning a path does not change where it leads. *)
Lemma abs_elems_Clean fs path : abs_elems fs (Clean path) = abs_elems fs path.
Proof.
  rewrite !abs_elems_fold. f_equal. unfold start. rewrite Clean_abs.
  pose proof (clean_elems_ok path) as Hok.
  assert (Hns : Forall (fun e => no_slash e = true) (clean_elems path))
    by (eapply Forall_impl; [exact Hok|]; by intros e [_ ?]).
  assert (Hfold : forall s0, (IsAbs path = true -> s0 = []) ->
    foldl (clean_step true) s0 (clean_elems path) = foldl (clean_step true) s0 (Split path "/")).
  { intros s0 Hs. unfold clean_elems. fold (IsAbs path). rewrite clean_absorb; [done|constructor|done]. }
  unfold Clean. unfold IsAbs in *. destruct (HasPrefix path "/") eqn:E.
  - rewrite <- Hfold by done. cbn [String.append]. rewrite split_slash_cons, Ascii.eqb_refl.
    destruct (decide (clean_elems path = [])) as [He|He]; [by rewrite He|].
    by rewrite split_join.
  - rewrite <- Hfold by done.
    destruct (decide (clean_elems path = [])) as [He|He]; [by rewrite He|].
    destruct (join_elems_head _ Hok He) as [_ ->]. by rewrite split_join.
Qed.

(** A relative path without [..] joined to a directory leads below it. *)
Lemma abs_elems_JoinPath fs dir rel :
  dir <> "" -> rel <> "" -> Forall (fun e => String.eqb e ".." = false) (Split rel "/") ->
  abs_elems fs (JoinPath [dir; rel]) = (abs_elems fs dir ++ names (Split rel "/"))%list.
Proof.
  intros Hd Hr Hn. unfold JoinPath. cbn [List.filter].
  destruct (String.eqb_spec dir ""); [done|]. destruct (String.eqb_spec rel ""); [done|].
  cbn [negb Join]. rewrite abs_elems_Clean, !abs_elems_fold.
  assert (Hs : start fs (dir +:+ "/" +:+ rel) = start fs dir).
  { unfold start, IsAbs. destruct dir as [|c dir]; [done|]. cbn [String.append].
    by rewrite !HasPrefix_slash_cons. }
  rewrite Hs, split_slash_app, foldl_app, clean_names by done.
  by rewrite reverse_app, reverse_involutive.
Qed.

(** A path without [..] in its text has no such element. *)
Lemma no_dotdot_elems s : Contains s ".." = false -> Forall (fun e => String.eqb e ".." = false) (Split s "/").
Proof.
  intros Hc.
  assert (H : forall e, e ∈ Split s "/" -> exists a b, s = a +:+ e +:+ b).
  { clear Hc. induction s as [|c s IH].
    - intros e He. apply list_elem_of_singleton in He as ->. by exists "", "".
    - intros e. rewrite split_slash_cons. destruct (Ascii.eqb "/" c) eqn:E.
      + rewrite elem_of_cons. intros [->|He]; [by exists "", (String c s)|].
        destruct (IH e He) as (a & b & ->). by exists (String c a), b.
      + destruct (Split s "/") as [|q qs] eqn:Es; [by apply split_slash_nil in Es|].
        rewrite elem_of_cons. intros [->|He].
        * assert (Hp : exists b, s = q +:+ b).
          { clear -Es. revert q qs Es. induction s as [|d s IH]; intros q qs; [by intros [= <- <-]; exists ""|].
            rewrite split_slash_cons. destruct (Ascii.eqb "/" d); [intros [= <- <-]; by eexists|].
            destruct (Split s "/") as [|q' qs'] eqn:Es; [by apply split_slash_nil in Es|].
            intros [= <- <-]. destruct (IH _ _ eq_refl) as [b ->]. by exists b. }
          destruct Hp as [b ->]. by exists "", b.
        * destruct (IH e) as (a & b & ->); [by right|]. by exists (String c a), b. }
  apply Forall_forall. intros e He. destruct (String.eqb_spec e ".."); [|done]. subst e.
  destruct (H _ He) as (a & b & ->). exfalso. revert Hc. clear.
  unfold Contains. induction a as [|c a IH].
  - cbn [String.append]. destruct b; done.
  - change (String c a +:+ ".." +:+ b) with (String c (a +:+ ".." +:+ b)). cbn [Cut].
    destruct (CutPrefix (String c (a +:+ ".." +:+ b)) ".."); [done|].
    destruct (Cut (a +:+ ".." +:+ b) "..") as [[??]|] eqn:E; [done|]. intros _. by apply IH.
Qed.
