(* ===== verification/Manifest.v ===== *)
(** * Manifests

    The data of [internal/manifest]: resource kinds and their dependency order
    ([types.go], [delete_order.go]), the per-kind write-only fields
    ([field_config.go]), the reconciliation annotations ([annotations.go]) and the
    label filter of [plan], [apply] and [diff] ([filter.go]). *)
From Stdlib Require Import ZArith Lia Bool Ascii.
From Stdlib Require String.
From S2P Require Import Prelude GoStr GoValue.

Local Open Scope string_scope.

(** ** types.go *)

Abbreviation ResourceKind := string.
Abbreviation strmap := (list (string * string)).

Definition KindTenant : ResourceKind := "Tenant".
Definition KindProvider : ResourceKind := "Provider".
Definition KindAgent : ResourceKind := "Agent".
Definition KindChannel : ResourceKind := "Channel".
Definition KindCronJob : ResourceKind := "CronJob".
Definition KindMCPServer : ResourceKind := "MCPServer".
Definition KindSkill : ResourceKind := "Skill".
Definition KindAgentTeam : ResourceKind := "AgentTeam".
Definition KindBuiltinToolConfig : ResourceKind := "BuiltinToolConfig".
Definition KindSkillConfig : ResourceKind := "SkillConfig".
Definition KindMCPCredentials : ResourceKind := "MCPCredentials".
Definition KindSystemConfig : ResourceKind := "SystemConfig".
Definition KindSecureCLI : ResourceKind := "SecureCLI".
Definition KindSecureCLIGrant : ResourceKind := "SecureCLIGrant".
Definition KindAgentLink : ResourceKind := "AgentLink".
Definition KindWorkstation : ResourceKind := "Workstation".

(** A nil [Spec] differs from an empty one: [Validate] rejects it. *)
Record Resource := mkResource {
  Kind : ResourceKind;
  Name : string;
  Labels : strmap;
  Annotations : strmap;
  Spec : option gomap
}.

Record Metadata := mkMetadata { MetaName : string; Environment : string }.

Record Connection := mkConnection {
  Endpoint : string;
  Token : string;
  TenantID : string;
  UserID : string
}.

Record Manifest := mkManifest {
  APIVersion : string;
  ManifestKind : string;
  ManifestMetadata : Metadata;
  ManifestConnection : Connection;
  Resources : list Resource
}.

(** The entries of a possibly nil spec. *)
Definition specMap (r : Resource) : gomap := default [] (Spec r).

(** What identifies a resource. *)
Definition resource_id (r : Resource) : ResourceKind * string := (Kind r, Name r).

Definition ApplyOrder : list ResourceKind :=
  [ KindTenant; KindProvider; KindAgent; KindSkill; KindBuiltinToolConfig;
    KindSkillConfig; KindSystemConfig; KindMCPServer; KindMCPCredentials;
    KindChannel; KindCronJob; KindSecureCLI; KindSecureCLIGrant; KindAgentTeam;
    KindAgentLink; KindWorkstation ].

(** The position of a kind in the apply order. *)
Fixpoint index_of (k : string) (l : list string) : nat :=
  match l with
  | [] => O
  | x :: l' => if String.eqb k x then O else S (index_of k l')
  end.

Definition kind_rank (k : ResourceKind) : nat := index_of k ApplyOrder.

(** ** delete_order.go *)

Definition DeleteOrder : list ResourceKind :=
  let order := ApplyOrder in
  foldl (fun reversed '(i, k) => <[ (length order - 1 - i)%nat := k ]> reversed)
        (replicate (length order) "")
        (imap pair order).

(** ** field_config.go *)

Definition writeOnlyFields : list (ResourceKind * list string) :=
  [ (KindTenant, []);
    (KindProvider, ["apiKey"]);
    (KindAgent,
      [ "contextFiles"; "systemPrompt"; "toolsConfig"; "sandboxConfig"; "subagentsConfig";
        "memoryConfig"; "compactionConfig"; "contextPruning"; "otherConfig";
        "reasoningConfig"; "workspaceSharing"; "chatgptOauthRouting";
        "shellDenyGroups"; "kgDedupConfig" ]);
    (KindChannel, ["agentKey"; "credentials"; "config"]);
    (KindMCPServer, ["grants"; "headers"]);
    (KindCronJob, ["agentKey"; "message"]);
    (KindAgentTeam, ["lead"; "members"; "displayName"]);
    (KindSkill, ["sourceDir"; "version"]);
    (KindBuiltinToolConfig, []);
    (KindSkillConfig, []);
    (KindSystemConfig, []);
    (KindMCPCredentials, ["credentials"]);
    (KindSecureCLI, ["env"]);
    (KindSecureCLIGrant, ["agentKey"; "binaryName"]);
    (KindAgentLink, ["sourceAgent"; "targetAgent"; "settings"]);
    (KindWorkstation,
      [ "privateKey"; "knownHostsFingerprint"; "host"; "port"; "user"; "connectTimeoutSec";
        "allowlist"; "agents" ]) ].

Definition WriteOnlyFields (kind : ResourceKind) : list string :=
  default [] (mget kind writeOnlyFields).

Definition kindsSupportingWriteOnlyHash : list (ResourceKind * bool) :=
  [ (KindCronJob, true); (KindProvider, true); (KindAgent, true) ].

Definition SupportsWriteOnlyHash (kind : ResourceKind) : bool :=
  default false (mget kind kindsSupportingWriteOnlyHash).

#[global] Arguments WriteOnlyFields : simpl never.
#[global] Arguments SupportsWriteOnlyHash : simpl never.

(** ** annotations.go *)

Definition AnnotationIgnoreWriteOnly : string := "gcplane.io/ignore-write-only".
Definition AnnotationIgnoreFields : string := "gcplane.io/ignore-fields".
Definition AnnotationSyncPolicy : string := "gcplane.io/sync-policy".
Definition SyncPolicyIgnore : string := "Ignore".

(** [m[k]] on a [map[string]string]: a missing key reads as the empty string. *)
Definition strget (k : string) (m : strmap) : string := default "" (mget k m).

Definition ParseIgnoreFields (annotations : strmap) : list string :=
  match mget AnnotationIgnoreFields annotations with
  | None => []
  | Some val =>
    if String.eqb val "" then []
    else omap (fun p => let f := TrimSpace p in
                        if String.eqb f "" then None else Some f)
              (Split val ",")
  end.

(** ** filter.go *)

Definition matchesLabels (labels selector : strmap) : bool :=
  forallb (fun kv => String.eqb (strget kv.1 labels) kv.2) selector.

Definition FilterByLabels (resources : list Resource) (selector : strmap) : list Resource :=
  match selector with
  | [] => resources
  | _ => List.filter (fun r => matchesLabels (Labels r) selector) resources
  end.

Definition ParseLabelSelector (s : string) : strmap :=
  if String.eqb s "" then []
  else foldl (fun result pair =>
                match SplitN2 pair "=" with
                | [k; v] => mset (TrimSpace k) (TrimSpace v) result
                | _ => result
                end) [] (Split s ",").

(** ** Lemmas *)

Lemma DeleteOrder_reverse : DeleteOrder = reverse ApplyOrder.
Proof. vm_compute. reflexivity. Qed.

Lemma ApplyOrder_NoDup : NoDup ApplyOrder.
Proof. apply (bool_decide_unpack _). vm_compute. exact I. Qed.

Lemma DeleteOrder_NoDup : NoDup DeleteOrder.
Proof. rewrite DeleteOrder_reverse, reverse_Permutation. apply ApplyOrder_NoDup. Qed.

Lemma elem_of_DeleteOrder k : k ∈ DeleteOrder <-> k ∈ ApplyOrder.
Proof. by rewrite DeleteOrder_reverse, elem_of_reverse. Qed.

Lemma FilterByLabels_spec l sel r :
  r ∈ FilterByLabels l sel <-> r ∈ l /\ matchesLabels (Labels r) sel = true.
Proof.
  unfold FilterByLabels. destruct sel; [naive_solver|].
  rewrite !list_elem_of_In, filter_In. done.
Qed.

Lemma FilterByLabels_sublist l sel : sublist (FilterByLabels l sel) l.
Proof.
  unfold FilterByLabels. destruct sel; [done|].
  induction l as [|r l IH]; cbn [List.filter]; [done|].
  case_match; by constructor.
Qed.
