(* ===== verification/Keyconv.v ===== *)
(** * Key conversion

    [internal/keyconv]: the bidirectional translation between the camelCase keys
    of manifests and the snake_case keys of the GoClaw wire format, and its
    recursive application to a spec. *)
From Stdlib Require Import ZArith Lia Bool Ascii.
From Stdlib Require String.
From S2P Require Import Prelude GoStr GoValue.

Local Open Scope Z_scope.

Definition underscore : Z := 95.

Section keyconv.
Context {U : Unicode}.

(** The loop of [camelToSnake]; [prev] is [runes[i-1]], absent when [i = 0]. *)
Fixpoint camel_loop (prev : option Z) (rs : list Z) : list Z :=
  match rs with
  | [] => []
  | r :: rest =>
    let sep :=
      match prev with
      | Some p =>
        IsUpper r &&
        (IsLower p || IsDigit p
         || (IsUpper p && match rest with n :: _ => IsLower n | [] => false end))
      | None => false
      end in
    (if sep then [underscore] else []) ++ ToLowerR r :: camel_loop (Some r) rest
  end.

Definition camelToSnake (s : string) : string :=
  if String.eqb s EmptyString then s else string_of_runes (camel_loop None (runes s)).

(** [runes[0] = unicode.ToUpper(runes[0])]. *)
Definition capitalize (part : string) : string :=
  match runes part with
  | [] => EmptyString
  | r :: rs => string_of_runes (ToUpperR r :: rs)
  end.

Definition snakeToCamel (s : string) : string :=
  if String.eqb s EmptyString || negb (Contains s "_") then s
  else match Split s "_" with
       | [] => EmptyString
       | p0 :: ps => foldl (fun b part => if String.eqb part EmptyString then b
                                          else b +:+ capitalize part) p0 ps
       end.
End keyconv.

Definition passthroughKey (k : string) : bool :=
  existsb (String.eqb k)
    ["env"; "encrypted_env"; "encryptedEnv"; "headers"; "defaultEnv"; "default_env"]%string.

Fixpoint transformValue (fn : string -> string) (v : gval) : gval :=
  match v with
  | VMap m =>
    VMap ((fix keys (m : gomap) (out : gomap) : gomap :=
             match m with
             | [] => out
             | (k, v) :: m' =>
               let nk := fn k in
               keys m' (mset nk (if passthroughKey k || passthroughKey nk then v
                                 else transformValue fn v) out)
             end) m [])
  | VSlice l => VSlice (map (transformValue fn) l)
  | _ => v
  end.

(** One entry of [transformKeys]: the new key and the new value. *)
Definition transformEntry (fn : string -> string) (kv : string * gval) : string * gval :=
  (fn kv.1, if passthroughKey kv.1 || passthroughKey (fn kv.1) then kv.2
            else transformValue fn kv.2).

Definition transformKeys (fn : string -> string) (m : gomap) : gomap :=
  foldl (fun out kv => mset (transformEntry fn kv).1 (transformEntry fn kv).2 out) [] m.

Section specs.
Context {U : Unicode}.

Definition CamelToSnake (m : gomap) : gomap := transformKeys camelToSnake m.
Definition SnakeToCamel (m : gomap) : gomap := transformKeys snakeToCamel m.
End specs.

(** ** Key shapes *)

Definition alnum (r : Z) : bool := ascii_upper r || ascii_lower r || ascii_digit r.

Fixpoint no_upper_pair (prev_upper : bool) (rs : list Z) : bool :=
  match rs with
  | [] => true
  | r :: rest => negb (prev_upper && ascii_upper r) && no_upper_pair (ascii_upper r) rest
  end.

(** A camelCase key: ASCII letters and digits, not starting with a capital, no two
    capitals in a row. *)
Definition camel_key (s : string) : bool :=
  let rs := map byteZ (bytes_of s) in
  forallb alnum rs && no_upper_pair true rs.

(** A snake_case key: lower-case words joined by single underscores; every word
    after the first starts with a letter and has at least two characters. *)
Fixpoint snake_word (n : nat) (rs : list Z) : bool :=
  (* [n]: characters of the current word read so far, 2 standing for more *)
  match rs with
  | [] => (1 <? n)%nat
  | r :: rest =>
    if r =? underscore then (1 <? n)%nat && snake_word O rest
    else (if (n =? 0)%nat then ascii_lower r else ascii_lower r || ascii_digit r)
         && snake_word (S n) rest
  end.

Fixpoint snake_first (rs : list Z) : bool :=
  match rs with
  | [] => true
  | r :: rest => if r =? underscore then snake_word O rest
                 else (ascii_lower r || ascii_digit r) && snake_first rest
  end.

Definition snake_key (s : string) : bool :=
  let rs := map byteZ (bytes_of s) in
  match rs with
  | [] => true
  | r :: _ => negb (r =? underscore) && snake_first rs
  end.

(** ** Conversion of one key *)

(** [snakeToCamel] as a scan: an underscore capitalises what follows it. *)
Fixpoint snake_scan {U : Unicode} (up : bool) (rs : list Z) : list Z :=
  match rs with
  | [] => []
  | r :: rest => if r =? underscore then snake_scan true rest
                 else (if up then ToUpperR r else r) :: snake_scan false rest
  end.

Section key_lemmas.
Context {U : Unicode} {UA : UnicodeAscii U}.

Definition ascii_runes (rs : list Z) : Prop := Forall (fun r => 0 <= r < 128) rs.

Lemma alnum_ascii r : alnum r = true -> 0 <= r < 128.
Proof. unfold alnum, ascii_upper, ascii_lower, ascii_digit, between. lia. Qed.

Lemma split_underscore_cons c s :
  Split (String c s) "_" =
  if byteZ c =? underscore then EmptyString :: Split s "_"
  else match Split s "_" with
       | p :: ps => String c p :: ps
       | [] => [String c EmptyString]
       end.
Proof.
  unfold Split. cbn [split_go]. unfold HasPrefix. cbn [CutPrefix].
  replace (Ascii.eqb "_" c) with (byteZ c =? underscore).
  - destruct (byteZ c =? underscore); [|done]. by destruct s.
  - destruct (Ascii.eqb_spec "_" c) as [<-|Hne]; [done|].
    apply Z.eqb_neq. intros E. apply Hne. by apply byteZ_inj.
Qed.

Lemma split_underscore_nonempty s : Split s "_" <> [].
Proof.
  destruct s as [|c s]; [done|]. rewrite split_underscore_cons. by repeat case_match.
Qed.

Definition glue (parts : list string) : string := foldr (fun p b => capitalize p +:+ b) EmptyString parts.

Lemma snake_fold p0 ps :
  foldl (fun b part => if String.eqb part EmptyString then b else b +:+ capitalize part) p0 ps
  = p0 +:+ glue ps.
Proof.
  revert p0. induction ps as [|p ps IH]; intros p0; simpl; [by rewrite string_app_nil_r|].
  rewrite IH. destruct (String.eqb_spec p EmptyString) as [->|]; [done|].
  by rewrite string_app_assoc.
Qed.

Lemma capitalize_cons c s :
  ascii_string (String c s) = true ->
  capitalize (String c s) = String (byte_of (ToUpperR (byteZ c))) s.
Proof.
  intros H. unfold capitalize. rewrite runes_ascii by done. simpl.
  unfold ascii_string in H. simpl in H. split_and_true.
  pose proof (byteZ_range c).
  change (ToUpperR (byteZ c) :: map byteZ (bytes_of s))
    with ([ToUpperR (byteZ c)] ++ map byteZ (bytes_of s)).
  rewrite string_of_runes_app, string_of_runes_bytes by done.
  rewrite String.string_of_list_ascii_of_string.
  unfold string_of_runes. simpl. rewrite ToUpper_ascii by lia.
  rewrite encode_rune_ascii; [done|].
  unfold ascii_to_upper, ascii_lower, between. case_match; lia.
Qed.

Lemma snake_scan_split s :
  ascii_string s = true ->
  match Split s "_" with
  | [] => False
  | p0 :: ps =>
    p0 +:+ glue ps = of_bytes (map byte_of (snake_scan false (map byteZ (bytes_of s)))) /\
    capitalize p0 +:+ glue ps = of_bytes (map byte_of (snake_scan true (map byteZ (bytes_of s)))) /\
    ascii_string p0 = true
  end.
Proof.
  induction s as [|c s IH]; intros Ha; [by vm_compute|].
  unfold ascii_string in Ha. simpl in Ha. apply andb_true_iff in Ha as [Hc Ha].
  specialize (IH Ha). rewrite split_underscore_cons. simpl.
  destruct (Split s "_") as [|q0 qs]; [done|]. destruct IH as (IH1 & IH2 & IH3).
  destruct (byteZ c =? underscore) eqn:E.
  - simpl. rewrite IH2. done.
  - assert (Hq : ascii_string (String c q0) = true) by (unfold ascii_string; simpl; by rewrite Hc).
    rewrite capitalize_cons by done. simpl. rewrite IH1, byte_of_byteZ. done.
Qed.

Lemma no_underscore_scan l :
  forallb (fun c => negb (byteZ c =? underscore)) l = true ->
  snake_scan false (map byteZ l) = map byteZ l.
Proof.
  induction l as [|c l IH]; simpl; [done|]. intros H. split_and_true.
  rewrite H. by rewrite IH.
Qed.

Lemma Contains_underscore s :
  Contains s "_" = false -> forallb (fun c => negb (byteZ c =? underscore)) (bytes_of s) = true.
Proof.
  unfold Contains. induction s as [|c s IH]; simpl; [done|].
  destruct (Ascii.eqb_spec "_" c) as [<-|Hne].
  - by destruct s.
  - destruct (Cut s "_") as [[??]|] eqn:E; [done|]. intros _. rewrite IH by done.
    rewrite andb_true_r. apply negb_true_iff, Z.eqb_neq. intros E'. apply Hne.
    by apply byteZ_inj.
Qed.

Lemma snakeToCamel_scan s :
  ascii_string s = true ->
  snakeToCamel s = of_bytes (map byte_of (snake_scan false (map byteZ (bytes_of s)))).
Proof.
  intros Ha. unfold snakeToCamel.
  destruct (String.eqb_spec s EmptyString) as [->|]; [done|]. simpl.
  destruct (Contains s "_") eqn:E; simpl.
  - pose proof (snake_scan_split s Ha) as H. destruct (Split s "_"); [done|].
    rewrite snake_fold. by destruct H as [-> _].
  - rewrite no_underscore_scan by by apply Contains_underscore.
    rewrite map_map. rewrite (map_ext _ id) by (intros; apply byte_of_byteZ).
    by rewrite map_id, String.string_of_list_ascii_of_string.
Qed.

Lemma string_of_ascii_runes rs :
  ascii_runes rs -> string_of_runes rs = of_bytes (map byte_of rs).
Proof.
  intros H. unfold string_of_runes. f_equal. induction H as [|r rs Hr Hrs IH]; simpl; [done|].
  by rewrite encode_rune_ascii, IH.
Qed.

Lemma camel_loop_ascii prev rs : ascii_runes rs -> ascii_runes (camel_loop prev rs).
Proof.
  intros H. revert prev. induction H as [|r rs Hr Hrs IH]; intros prev; simpl; [constructor|].
  apply Forall_app. split.
  - case_match; repeat constructor; unfold underscore; lia.
  - constructor; [|apply IH]. rewrite ToLower_ascii by done.
    unfold ascii_to_lower, ascii_upper, between. case_match; lia.
Qed.

Lemma ascii_bytes s : ascii_string s = true -> ascii_runes (map byteZ (bytes_of s)).
Proof.
  unfold ascii_string, ascii_runes. rewrite forallb_Forall, Forall_map.
  intros H. eapply Forall_impl; [exact H|]. intros c Hc. simpl in *.
  pose proof (byteZ_range c). lia.
Qed.

Lemma map_byteZ_of_bytes rs :
  ascii_runes rs -> map byteZ (bytes_of (of_bytes (map byte_of rs))) = rs.
Proof.
  intros H. rewrite String.list_ascii_of_string_of_list_ascii, map_map.
  induction H as [|r rs Hr _ IH]; simpl; [done|]. rewrite byteZ_byte_of by lia. by rewrite IH.
Qed.

Lemma ascii_of_runes rs : ascii_runes rs -> ascii_string (of_bytes (map byte_of rs)) = true.
Proof.
  intros H. unfold ascii_string. rewrite String.list_ascii_of_string_of_list_ascii.
  induction H as [|r rs Hr _ IH]; simpl; [done|]. rewrite byteZ_byte_of by lia. rewrite IH. lia.
Qed.

Lemma camelToSnake_ascii s :
  ascii_string s = true ->
  camelToSnake s = of_bytes (map byte_of (camel_loop None (map byteZ (bytes_of s)))).
Proof.
  intros H. unfold camelToSnake. destruct (String.eqb_spec s EmptyString) as [->|]; [done|].
  rewrite runes_ascii by done. apply string_of_ascii_runes. by apply camel_loop_ascii, ascii_bytes.
Qed.

(** The scan undoes the loop from any point of a camelCase key. *)
Lemma scan_camel_loop prev rs :
  forallb alnum rs = true ->
  no_upper_pair match prev with Some p => ascii_upper p | None => true end rs = true ->
  match prev with Some p => alnum p = true | None => True end ->
  snake_scan false (camel_loop prev rs) = rs.
Proof.
  revert prev. induction rs as [|r rs IH]; intros prev Hal Hup Hp; simpl; [done|].
  simpl in Hal, Hup. apply andb_true_iff in Hal as [Hr Hal]. apply andb_true_iff in Hup as [Hu Hup].
  pose proof (alnum_ascii r Hr) as Hra.
  assert (IH' : snake_scan false (camel_loop (Some r) rs) = rs) by by apply IH.
  rewrite IsUpper_ascii by done. rewrite ToLower_ascii by done. unfold ascii_to_lower.
  destruct (ascii_upper r) eqn:Er.
  - destruct prev as [p|]; [|done].
    assert (Hsep : IsLower p || IsDigit p = true).
    { pose proof (alnum_ascii p Hp). rewrite IsLower_ascii, IsDigit_ascii by done.
      unfold alnum in Hp. destruct (ascii_upper p); [done|]. exact Hp. }
    rewrite Hsep. simpl. unfold ascii_upper, between in Er.
    replace (r + 32 =? underscore) with false by (unfold underscore; lia).
    rewrite IH', ToUpper_ascii by lia. f_equal.
    unfold ascii_to_upper, ascii_lower, between. case_match; lia.
  - replace (match prev with
             | Some p => _
             | None => false
             end) with false by (by destruct prev).
    simpl. rewrite IH'. replace (r =? underscore) with false; [done|].
    unfold alnum, ascii_upper, ascii_lower, ascii_digit, between, underscore in *. lia.
Qed.

Lemma camel_key_ascii s : camel_key s = true -> ascii_string s = true.
Proof.
  unfold camel_key, ascii_string. intros H. split_and_true.
  rewrite forallb_Forall, Forall_map in H. rewrite forallb_Forall.
  eapply Forall_impl; [exact H|]. intros c Hc. simpl in *. apply alnum_ascii in Hc. lia.
Qed.

Lemma snakeToCamel_camelToSnake s : camel_key s = true -> snakeToCamel (camelToSnake s) = s.
Proof.
  intros Hk. pose proof (camel_key_ascii s Hk) as Ha. pose proof (ascii_bytes s Ha) as Hr.
  rewrite camelToSnake_ascii by done.
  pose proof (camel_loop_ascii None _ Hr) as Hl.
  rewrite snakeToCamel_scan by by apply ascii_of_runes.
  rewrite map_byteZ_of_bytes by done. unfold camel_key in Hk. split_and_true.
  rewrite scan_camel_loop by done. rewrite map_map.
  rewrite (map_ext _ id) by (intros; apply byte_of_byteZ).
  by rewrite map_id, String.string_of_list_ascii_of_string.
Qed.
End key_lemmas.

Section snake_first.
Context {U : Unicode} {UA : UnicodeAscii U}.

Definition low (r : Z) : Prop := ascii_lower r || ascii_digit r = true.

Lemma low_ascii r : low r -> 0 <= r < 128.
Proof. unfold low, ascii_lower, ascii_digit, between. lia. Qed.

Lemma low_not_upper r : low r -> ascii_upper r = false.
Proof. unfold low, ascii_lower, ascii_digit, ascii_upper, between. lia. Qed.

Lemma camel_loop_low prev r rs :
  low r -> camel_loop prev (r :: rs) = r :: camel_loop (Some r) rs.
Proof.
  intros H. pose proof (low_ascii r H). pose proof (low_not_upper r H) as Hu. simpl.
  rewrite IsUpper_ascii, Hu by done.
  replace (match prev with Some p => _ | None => false end) with false by (by destruct prev).
  rewrite ToLower_ascii by done. unfold ascii_to_lower. by rewrite Hu.
Qed.

Lemma camel_loop_up p r rs :
  low p -> ascii_lower r = true ->
  camel_loop (Some p) (ToUpperR r :: rs) = underscore :: r :: camel_loop (Some (ToUpperR r)) rs.
Proof.
  intros Hp Hr. pose proof (low_ascii p Hp). unfold ascii_lower, between in Hr.
  assert (E : ToUpperR r = r - 32).
  { rewrite ToUpper_ascii by lia. unfold ascii_to_upper, ascii_lower, between.
    case_match; lia. }
  simpl. rewrite E, IsUpper_ascii, IsLower_ascii, IsDigit_ascii by lia.
  replace (ascii_upper (r - 32)) with true by (unfold ascii_upper, between; lia).
  unfold low in Hp. rewrite Hp. simpl.
  rewrite ToLower_ascii by lia. unfold ascii_to_lower.
  replace (ascii_upper (r - 32)) with true by (unfold ascii_upper, between; lia).
  do 2 f_equal. lia.
Qed.

Lemma camel_scan_word rs :
  (forall p n, low p -> (2 <= n)%nat -> snake_word n rs = true ->
     camel_loop (Some p) (snake_scan false rs) = rs) /\
  (forall p, low p -> snake_word 0 rs = true ->
     camel_loop (Some p) (snake_scan true rs) = underscore :: rs) /\
  (forall q, snake_word 1 rs = true ->
     camel_loop (Some q) (snake_scan false rs) = rs).
Proof.
  induction rs as [|r rs (IHc & IHb & IHa)]; [by split_and!|].
  split_and!.
  - intros p n Hp Hn Hw. cbn [snake_word snake_scan] in *.
    destruct (Z.eqb_spec r underscore) as [->|Hr]; split_and_true; [by apply IHb|].
    replace (n =? 0)%nat with false in H by (symmetry; apply Nat.eqb_neq; lia).
    rewrite camel_loop_low by done. f_equal. apply (IHc r (S n)); [done|lia|done].
  - intros p Hp Hw. cbn [snake_word snake_scan] in *.
    destruct (Z.eqb_spec r underscore) as [->|Hr]; split_and_true; [done|]. simpl in H.
    rewrite camel_loop_up by done. do 2 f_equal. by apply IHa.
  - intros q Hw. cbn [snake_word snake_scan] in *.
    destruct (Z.eqb_spec r underscore) as [->|Hr]; split_and_true; [done|]. simpl in H.
    rewrite camel_loop_low by done. f_equal. apply (IHc r 2%nat); [done|lia|done].
Qed.

Lemma camel_scan_first prev rs :
  match prev with
  | Some p => low p
  | None => match rs with r :: _ => r <> underscore | [] => True end
  end ->
  snake_first rs = true -> camel_loop prev (snake_scan false rs) = rs.
Proof.
  revert prev. induction rs as [|r rs IH]; intros prev Hp H; [done|].
  cbn [snake_first snake_scan] in *. destruct (Z.eqb_spec r underscore) as [->|Hr].
  - destruct prev as [p|]; [|done]. by apply camel_scan_word.
  - split_and_true. rewrite camel_loop_low by done. f_equal. by apply (IH (Some r)).
Qed.

Lemma snake_word_ascii n rs : snake_word n rs = true -> ascii_runes rs.
Proof.
  revert n. induction rs as [|r rs IH]; intros n H; [constructor|]. cbn [snake_word] in H.
  destruct (Z.eqb_spec r underscore) as [->|Hr]; split_and_true; constructor;
    try (by eapply IH); [unfold underscore; lia|].
  destruct (n =? 0)%nat; unfold ascii_lower, ascii_digit, between in *; lia.
Qed.

Lemma snake_first_ascii rs : snake_first rs = true -> ascii_runes rs.
Proof.
  induction rs as [|r rs IH]; intros H; [constructor|]. cbn [snake_first] in H.
  destruct (Z.eqb_spec r underscore) as [->|Hr]; split_and_true; constructor.
  - unfold underscore; lia.
  - by eapply snake_word_ascii.
  - by apply low_ascii.
  - by apply IH.
Qed.

Lemma snake_scan_ascii up rs : ascii_runes rs -> ascii_runes (snake_scan up rs).
Proof.
  intros H. revert up. induction H as [|r rs Hr Hrs IH]; intros up; simpl; [constructor|].
  destruct (r =? underscore); [apply IH|]. constructor; [|apply IH].
  destruct up; [|done]. rewrite ToUpper_ascii by done.
  unfold ascii_to_upper, ascii_lower, between. case_match; lia.
Qed.

Lemma string_ascii_of_runes s : ascii_runes (map byteZ (bytes_of s)) -> ascii_string s = true.
Proof.
  unfold ascii_string, ascii_runes. rewrite forallb_Forall, Forall_map.
  intros H. eapply Forall_impl; [exact H|]. intros c Hc. simpl in *. lia.
Qed.

Lemma bytes_roundtrip s : of_bytes (map byte_of (map byteZ (bytes_of s))) = s.
Proof.
  rewrite map_map, (map_ext _ id) by (intros; apply byte_of_byteZ).
  by rewrite map_id, String.string_of_list_ascii_of_string.
Qed.

Lemma camelToSnake_snakeToCamel s : snake_key s = true -> camelToSnake (snakeToCamel s) = s.
Proof.
  unfold snake_key. destruct s as [|c s]; [done|].
  set (rs := map byteZ (bytes_of (String c s))). intros H.
  change rs with (byteZ c :: map byteZ (bytes_of s)) in H at 1. cbn beta iota zeta in H.
  split_and_true. pose proof (snake_first_ascii _ H0) as Hr.
  pose proof (string_ascii_of_runes _ Hr) as Ha.
  pose proof (snake_scan_ascii false _ Hr) as Hs.
  rewrite snakeToCamel_scan by done.
  rewrite camelToSnake_ascii by by apply ascii_of_runes.
  rewrite map_byteZ_of_bytes by done.
  rewrite camel_scan_first; [by apply bytes_roundtrip| |done].
  simpl. by apply Z.eqb_neq.
Qed.
End snake_first.

(** ** Conversion of a spec *)

Lemma transformValue_VMap fn m : transformValue fn (VMap m) = VMap (transformKeys fn m).
Proof.
  unfold transformKeys. simpl. f_equal. generalize (@nil (string * gval)).
  induction m as [|[k v] m IH]; intros out; simpl; [done|]. by rewrite IH.
Qed.

Lemma foldl_mset_fresh (l out : gomap) :
  NoDup (mkeys out ++ mkeys l) ->
  foldl (fun out kv => mset kv.1 kv.2 out) out l = out ++ l.
Proof.
  revert out. induction l as [|[k v] l IH]; intros out Hn; simpl; [by rewrite app_nil_r|].
  assert (Hk : mget k out = None).
  { apply mget_None. intros Hin. apply NoDup_app in Hn as (_ & Hd & _).
    apply (Hd k Hin). simpl. left. }
  assert (Hset : mset k v out = out ++ [(k, v)]).
  { clear -Hk. induction out as [|[k' v'] out IH]; simpl in *; [done|].
    destruct (String.eqb_spec k k'); [done|]. by rewrite IH. }
  rewrite Hset, IH; [by rewrite <- app_assoc|].
  unfold mkeys in *. rewrite map_app. simpl in *. by rewrite <- app_assoc.
Qed.

(** When no two keys collide, the keys are converted entry by entry. *)
Lemma transformKeys_map fn m :
  NoDup (mkeys (map (transformEntry fn) m)) -> transformKeys fn m = map (transformEntry fn) m.
Proof.
  intros Hn. unfold transformKeys.
  transitivity (foldl (fun out kv => mset kv.1 kv.2 out) [] (map (transformEntry fn) m)).
  - generalize (@nil (string * gval)). clear Hn.
    induction m as [|kv m IH]; intros out; simpl; [done|]. apply IH.
  - by rewrite foldl_mset_fresh.
Qed.

Section spec_roundtrip.
Context {U : Unicode} {UA : UnicodeAscii U}.

(** Every key outside the values of passthrough fields is a camelCase key. *)
Fixpoint camel_val (v : gval) : Prop :=
  match v with
  | VSlice l => (fix go l := match l with [] => True | x :: l' => camel_val x /\ go l' end) l
  | VMap m =>
    uniq_keys m /\
    (fix go (m : gomap) :=
       match m with
       | [] => True
       | kv :: m' =>
         camel_key kv.1 = true /\
         (passthroughKey kv.1 || passthroughKey (camelToSnake kv.1) = true \/ camel_val kv.2)
         /\ go m'
       end) m
  | _ => True
  end.

Definition camel_entry (kv : string * gval) : Prop :=
  camel_key kv.1 = true /\
  (passthroughKey kv.1 || passthroughKey (camelToSnake kv.1) = true \/ camel_val kv.2).

Lemma camel_val_VMap m : camel_val (VMap m) <-> uniq_keys m /\ Forall camel_entry m.
Proof.
  simpl. apply and_iff_compat_l. induction m as [|kv m IH]; [split; constructor|].
  rewrite Forall_cons, <- IH. unfold camel_entry. naive_solver.
Qed.

Lemma camel_val_VSlice l : camel_val (VSlice l) <-> Forall camel_val l.
Proof.
  simpl. induction l as [|x l IH]; [split; constructor|]. by rewrite Forall_cons, <- IH.
Qed.

Lemma camelToSnake_uniq m :
  uniq_keys m -> Forall camel_entry m ->
  NoDup (mkeys (map (transformEntry camelToSnake) m)).
Proof.
  intros Hu Hf. unfold mkeys. rewrite map_map. unfold uniq_keys, mkeys in Hu.
  induction m as [|kv m IH]; simpl in *; [constructor|].
  apply NoDup_cons in Hu as [Hk Hu]. apply Forall_cons in Hf as [[Hc _] Hf].
  apply NoDup_cons. split; [|by apply IH]. intros Hin. apply Hk.
  apply list_elem_of_fmap in Hin as (kv' & He & Hin'). simpl in He.
  rewrite Forall_forall in Hf. destruct (Hf _ Hin') as [Hc' _].
  apply list_elem_of_fmap. exists kv'. split; [|done].
  rewrite <- (snakeToCamel_camelToSnake kv.1), He by done.
  by apply snakeToCamel_camelToSnake.
Qed.

Lemma transform_roundtrip v :
  camel_val v -> transformValue snakeToCamel (transformValue camelToSnake v) = v.
Proof.
  induction v as [| | | | | | |l IH| |m IH|m IH|] using gval_ind'; intros Hc; try done.
  - apply camel_val_VSlice in Hc. simpl. f_equal. rewrite map_map.
    induction IH as [|x l Hx Hl IHl]; simpl; [done|].
    apply Forall_cons in Hc as [Hcx Hcl]. by rewrite Hx, IHl.
  - apply camel_val_VMap in Hc as [Hu Hf].
    assert (Hm : map (fun kv => transformEntry snakeToCamel (transformEntry camelToSnake kv)) m = m).
    { clear Hu. induction IH as [|[k v] m Hv Hm IHm]; simpl; [done|].
      apply Forall_cons in Hf as [[Hk Hp] Hf]. simpl in *. rewrite IHm by done. f_equal.
      unfold transformEntry. simpl. rewrite snakeToCamel_camelToSnake by done.
      rewrite (orb_comm (passthroughKey (camelToSnake k)) (passthroughKey k)).
      destruct (passthroughKey k || passthroughKey (camelToSnake k)) eqn:E; [done|].
      destruct Hp as [Hp|Hp]; [done|]. by rewrite Hv. }
    rewrite !transformValue_VMap. f_equal.
    rewrite (transformKeys_map camelToSnake) by by apply camelToSnake_uniq.
    rewrite transformKeys_map; rewrite map_map, Hm; done.
Qed.
End spec_roundtrip.

(** ** Properties *)

(** The key conversions are inverse to each other: a camelCase key survives
    the trip to snake_case and back, a snake_case key the trip to camelCase and
    back. *)
Theorem keyconv_key_roundtrip {U : Unicode} {UA : UnicodeAscii U} s :
  (camel_key s = true -> snakeToCamel (camelToSnake s) = s) /\
  (snake_key s = true -> camelToSnake (snakeToCamel s) = s).
Proof. split; [apply snakeToCamel_camelToSnake|apply camelToSnake_snakeToCamel]. Qed.

Lemma keyconv_key_roundtrip_witness :
  @snakeToCamel ascii_unicode (@camelToSnake ascii_unicode "maxTokens2Use") = "maxTokens2Use"%string /\
  @camelToSnake ascii_unicode (@snakeToCamel ascii_unicode "default_max_tokens") = "default_max_tokens"%string.
Proof.
  split.
  - by apply (@keyconv_key_roundtrip ascii_unicode ascii_unicode_ok "maxTokens2Use").
  - by apply (@keyconv_key_roundtrip ascii_unicode ascii_unicode_ok "default_max_tokens").
Defined.

(** A spec whose keys are camelCase comes back unchanged, at every depth, from
    the translation to the wire format and back; the keys of environment and
    header maps are never rewritten. *)
Theorem keyconv_spec_roundtrip {U : Unicode} {UA : UnicodeAscii U} (m : gomap) :
  camel_val (VMap m) -> SnakeToCamel (CamelToSnake m) = m.
Proof.
  intros H. unfold SnakeToCamel, CamelToSnake.
  pose proof (transform_roundtrip (VMap m) H) as Hr. rewrite !transformValue_VMap in Hr. congruence.
Qed.

Definition roundtrip_spec : gomap :=
  [ ("displayName", VStr "bot"); ("maxTokens", VInt 5);
    ("env", VMap [("API_KEY", VStr "k"); ("camelKey", VStr "v")]);
    ("toolConfigs", VSlice [VMap [("toolName", VStr "t")]]) ]%string.

Lemma keyconv_spec_roundtrip_witness :
  @SnakeToCamel ascii_unicode (@CamelToSnake ascii_unicode roundtrip_spec) = roundtrip_spec /\
  mget "env" (@CamelToSnake ascii_unicode roundtrip_spec) = mget "env" roundtrip_spec.
Proof.
  split; [|reflexivity].
  apply (@keyconv_spec_roundtrip ascii_unicode ascii_unicode_ok roundtrip_spec).
  apply camel_val_VMap. split; [apply (bool_decide_unpack _); vm_compute; exact I|].
  repeat apply Forall_cons_2; [| | | |apply Forall_nil_2]; (split; [reflexivity|]);
    [right; exact I|right; exact I|left; reflexivity|right].
  apply camel_val_VSlice, Forall_cons_2; [|apply Forall_nil_2].
  apply camel_val_VMap. split; [apply (bool_decide_unpack _); vm_compute; exact I|].
  apply Forall_cons_2; [|apply Forall_nil_2]. split; [reflexivity|right; exact I].
Defined.
