(* ===== verification/Secrets.v ===== *)
(** * Secret references

    [internal/secrets/resolver.go]: the resolution of [${VAR}] and [file://]
    references, reading the process environment and the filesystem.  The pattern
    of [envVarRe] (a dollar and an opening brace, one of A-Z_, any number of
    A-Z0-9_, a closing brace) is a scanner: a match at a position is unique, since
    the class of the name excludes the closing brace. *)
From Stdlib Require Import ZArith Lia Bool Ascii.
From Stdlib Require String.
From S2P Require Import Prelude GoStr GoValue Filepath.

Local Open Scope string_scope.

(** What [os.LookupEnv] and [os.ReadFile] read. *)
Record Env := mkEnv { env_vars : list (string * string); env_fs : Filesystem }.

Definition LookupEnv (env : Env) (key : string) : option string := mget key (env_vars env).

(** [[A-Z_]] and [[A-Z0-9_]]. *)
Definition name_start (c : ascii) : bool := ascii_upper (byteZ c) || (byteZ c =? 95)%Z.
Definition name_char (c : ascii) : bool := name_start c || ascii_digit (byteZ c).

(** The longest prefix of name characters, and the rest. *)
Fixpoint span_name (s : string) : string * string :=
  match s with
  | EmptyString => (EmptyString, EmptyString)
  | String c s' => if name_char c then let '(n, r) := span_name s' in (String c n, r)
                   else (EmptyString, s)
  end.

(** The submatch of [envVarRe] at the start of [s]. *)
Definition envVarRe (s : string) : option string :=
  match CutPrefix s "${" with
  | Some (String c r) =>
    if name_start c then
      match span_name r with
      | (n, String d _) => if Ascii.eqb d "}" then Some (String c n) else None
      | (_, EmptyString) => None
      end
    else None
  | _ => None
  end.

(** The replacement loop: the new text and the variables missing, in order.
    [skip] counts the bytes of a match already replaced. *)
Fixpoint replace_env (env : Env) (skip : nat) (s : string) : string * list string :=
  match s with
  | EmptyString => (EmptyString, [])
  | String c s' =>
    match skip with
    | S k => replace_env env k s'
    | O =>
      match envVarRe s with
      | None => let '(out, missing) := replace_env env O s' in (String c out, missing)
      | Some key =>
        let '(out, missing) := replace_env env (String.length key + 2) s' in
        match LookupEnv env key with
        | Some val => (val +:+ out, missing)
        | None => ("${" +:+ key +:+ "}" +:+ out, key :: missing)
        end
      end
    end
  end.

(** The result text is returned along with the error. *)
Definition ResolveEnvVars (env : Env) (s : string) : string * option error :=
  let '(result, missing) := replace_env env O s in
  match missing with
  | [] => (result, None)
  | _ => (result, Some (errorf ("unresolved env vars: " +:+ Join missing ", ")))
  end.

Section resolver.
Context {U : Unicode}.

Definition ResolveFileRef (env : Env) (s : string) : string * option error :=
  match CutPrefix s "file://" with
  | None => (s, None)
  | Some path =>
    let cleaned := Clean path in
    if Contains cleaned ".." then
      (EmptyString, Some (errorf ("secret file path " +:+ Quote path +:+ " contains path traversal")))
    else match ReadFile (env_fs env) cleaned with
         | Err err =>
           (EmptyString, Some (wrapf ("read secret file " +:+ cleaned +:+ ": ") err EmptyString))
         | Ok data => (TrimSpace data, None)
         end
  end.

Definition Resolve (env : Env) (s : string) : string * option error :=
  match CutPrefix s "file://" with
  | Some _ => ResolveFileRef env s
  | None => ResolveEnvVars env s
  end.
End resolver.

(** ** Templates

    The reference reading of a value: literal text and variable references. *)

Inductive seg :=
  | Lit (s : string)
  | Ref (key : string).

Definition print_seg (x : seg) : string :=
  match x with Lit s => s | Ref k => "${" +:+ k +:+ "}" end.

Definition print_segs (l : list seg) : string := foldr (fun x s => print_seg x +:+ s) EmptyString l.

Definition subst_seg (env : Env) (x : seg) : string :=
  match x with
  | Lit s => s
  | Ref k => match LookupEnv env k with Some v => v | None => "${" +:+ k +:+ "}" end
  end.

Definition subst_segs (env : Env) (l : list seg) : string :=
  foldr (fun x s => subst_seg env x +:+ s) EmptyString l.

Definition missing_segs (env : Env) (l : list seg) : list string :=
  omap (fun x => match x with
                 | Ref k => match LookupEnv env k with Some _ => None | None => Some k end
                 | Lit _ => None
                 end) l.

Definition no_dollar (s : string) : bool := forallb (fun c => negb (Ascii.eqb c "$")) (bytes_of s).

Definition valid_name (k : string) : bool :=
  match k with
  | EmptyString => false
  | String c r => name_start c && forallb name_char (bytes_of r)
  end.

Definition wf_seg (x : seg) : bool :=
  match x with Lit s => no_dollar s | Ref k => valid_name k end.

(** ** Lemmas *)

Lemma replace_env_skip env p s :
  replace_env env (String.length p) (p +:+ s) = replace_env env O s.
Proof. induction p as [|c p IH]; simpl; [by destruct s|]. done. Qed.

Lemma replace_env_lit env s t :
  no_dollar s = true ->
  replace_env env O (s +:+ t) = (s +:+ (replace_env env O t).1, (replace_env env O t).2).
Proof.
  unfold no_dollar. induction s as [|c s IH]; cbn -[envVarRe].
  - by destruct (replace_env env O t).
  - intros H. split_and_true.
    replace (envVarRe (String c (s +:+ t))) with (@None string).
    + rewrite IH by done. by destruct (replace_env env O t).
    + unfold envVarRe. cbn [CutPrefix]. destruct (Ascii.eqb_spec "$" c) as [<-|]; [done|].
      by destruct t.
Qed.

Lemma span_name_app k r d :
  forallb name_char (bytes_of k) = true -> name_char d = false ->
  span_name (k +:+ String d r) = (k, String d r).
Proof.
  intros Hk Hd. induction k as [|c k IH]; simpl in *; [by rewrite Hd|].
  split_and_true. by rewrite H, IH.
Qed.

Lemma envVarRe_ref k t : valid_name k = true -> envVarRe ("${" +:+ k +:+ "}" +:+ t) = Some k.
Proof.
  destruct k as [|c k]; [done|]. cbn [valid_name]. intros H. split_and_true.
  unfold envVarRe. rewrite CutPrefix_app. cbn [String.append].
  rewrite H, (span_name_app k t "}") by done. done.
Qed.

Lemma replace_env_match env c s key :
  envVarRe (String c s) = Some key ->
  replace_env env O (String c s) =
    let '(out, missing) := replace_env env (String.length key + 2) s in
    match LookupEnv env key with
    | Some val => (val +:+ out, missing)
    | None => ("${" +:+ key +:+ "}" +:+ out, key :: missing)
    end.
Proof. intros H. cbn [replace_env]. by rewrite H. Qed.

Lemma replace_env_ref env k t :
  valid_name k = true ->
  replace_env env O ("${" +:+ k +:+ "}" +:+ t) =
    (subst_seg env (Ref k) +:+ (replace_env env O t).1,
     match LookupEnv env k with Some _ => [] | None => [k] end ++ (replace_env env O t).2)%list.
Proof.
  intros Hk. pose proof (envVarRe_ref k t Hk) as He. revert He.
  cbn [String.append]. intros He. rewrite (replace_env_match _ _ _ _ He).
  replace (replace_env env (String.length k + 2) (String "{" (k +:+ String "}" t)))
    with (replace_env env O t).
  - destruct (replace_env env O t) as [o m]. simpl.
    destruct (LookupEnv env k); simpl; [done|]. by rewrite string_app_assoc.
  - replace (String "{" (k +:+ String "}" t)) with (("{" +:+ k +:+ "}") +:+ t)
      by (simpl; by rewrite string_app_assoc).
    replace (String.length k + 2)%nat with (String.length ("{" +:+ k +:+ "}"))
      by (rewrite !string_length_app; simpl; lia).
    by rewrite replace_env_skip.
Qed.

(** The scanner agrees with substitution in the template. *)
Lemma replace_env_segs env l :
  forallb wf_seg l = true ->
  replace_env env O (print_segs l) = (subst_segs env l, missing_segs env l).
Proof.
  induction l as [|[s|k] l IH]; cbn [forallb print_segs subst_segs foldr print_seg].
  - done.
  - intros H. split_and_true. fold (print_segs l). rewrite replace_env_lit by done.
    by rewrite IH.
  - intros H. split_and_true. fold (print_segs l).
    rewrite !string_app_assoc, replace_env_ref by done. rewrite IH by done.
    unfold missing_segs. cbn [omap list_omap]. by destruct (LookupEnv env k).
Qed.

(** A value with no [$] is left alone. *)
Lemma ResolveEnvVars_plain env s : no_dollar s = true -> ResolveEnvVars env s = (s, None).
Proof.
  intros H. unfold ResolveEnvVars.
  replace (replace_env env O s) with (replace_env env O (s +:+ EmptyString))
    by (by rewrite string_app_nil_r).
  rewrite replace_env_lit by done. simpl. by rewrite string_app_nil_r.
Qed.

(** ** Properties *)

(** C23: resolving a value made of literal text and [${VAR}] references replaces
    each reference to a set variable by its value, keeps the others as they are,
    and reports exactly the unset variables, in order. *)
Theorem resolve_env_template env l :
  forallb wf_seg l = true ->
  ResolveEnvVars env (print_segs l) =
    (subst_segs env l,
     match missing_segs env l with
     | [] => None
     | ks => Some (errorf ("unresolved env vars: " +:+ Join ks ", "))
     end).
Proof.
  intros H. unfold ResolveEnvVars. rewrite replace_env_segs by done.
  by destruct (missing_segs env l).
Qed.

Definition example_env : Env :=
  mkEnv [("HOST", "db"); ("PORT", "5432")] (mkFs (FDir []) []).

Lemma resolve_env_template_witness :
  ResolveEnvVars example_env (print_segs [Lit "postgres://"; Ref "HOST"; Lit ":"; Ref "PORT"; Lit "/"; Ref "DB"])
  = ("postgres://db:5432/${DB}", Some (errorf "unresolved env vars: DB")).
Proof.
  rewrite (resolve_env_template example_env
    [Lit "postgres://"; Ref "HOST"; Lit ":"; Ref "PORT"; Lit "/"; Ref "DB"]) by reflexivity.
  reflexivity.
Defined.
