(* ===== verification/Compare.v ===== *)
(** * Spec comparison

    [internal/reconciler/compare.go]: the field-wise comparison of a desired spec
    with an observed one.  The recursion of [valuesEqual] and
    [compareRecursiveExcluding] goes through maps rebuilt by [toMap], so both are
    defined with fuel bounded by the size of the desired value, and
    [valuesEqual_eq] and [compareRec_eq] are the equations of the source. *)
From Stdlib Require Import ZArith Lia Bool Ascii.
From Stdlib Require Import Floats.SpecFloat.
From Stdlib Require String.
From S2P Require Import Prelude GoStr GoValue.

Local Open Scope string_scope.

Record FieldDiff := mkFieldDiff { Old : gval; New : gval }.

Abbreviation diffmap := (gmap string FieldDiff).

(** ** Coercions *)

Definition toMap (v : gval) : option gomap :=
  match v with
  | VMap m => Some m
  | VAnyMap m => Some (foldl (fun out kv => mset (fmt_key kv.1) kv.2 out) [] m)
  | _ => None
  end.

Definition toFloat64 (v : gval) : option spec_float :=
  match v with
  | VFloat64 n => Some n
  | VFloat32 n => Some n
  | VInt n => Some (float64_of_Z n)
  | VInt64 n => Some (float64_of_Z n)
  | _ => None
  end.

Definition toSlice (v : gval) : option (list gval) :=
  match v with
  | VSlice s => Some s
  | VStrs s => Some (map VStr s)
  | _ => None
  end.

(** The set of a slice of strings; [None] when an item is not a string. *)
Definition toStringSet (v : gval) : option (gset string) :=
  match toSlice v with
  | None => None
  | Some slice =>
    foldl (fun out item => match out, asStr item with
                           | Some o, Some s => Some ({[ s ]} ∪ o)
                           | _, _ => None
                           end) (Some ∅) slice
  end.

Definition stringSetEqual (a b : gval) : bool :=
  match toStringSet a, toStringSet b with
  | Some aStrings, Some bStrings =>
    bool_decide (size aStrings = size bStrings)
    && forallb (fun s => bool_decide (s ∈ bStrings)) (elements aStrings)
  | _, _ => false
  end.

Definition unorderedStringSetPath (path : string) : bool :=
  String.eqb path "grants.agents" || String.eqb path "grants.users".

(** ** valuesEqual *)

(** Slices element by element, maps key by key, the rest by [reflect.DeepEqual];
    [rec] is the recursive call. *)
Definition equal_compound (rec : gval -> gval -> bool) (a b : gval) : bool :=
  match toSlice a, toSlice b with
  | Some aSlice, Some bSlice =>
    (length aSlice =? length bSlice)%nat && forallb (fun p => rec p.1 p.2) (zip aSlice bSlice)
  | _, _ =>
    match toMap a, toMap b with
    | Some aMap, Some bMap =>
      (length aMap =? length bMap)%nat
      && forallb (fun kv => match mget kv.1 bMap with
                            | Some bv => rec kv.2 bv
                            | None => false
                            end) aMap
    | _, _ => DeepEqual a b
    end
  end.

Definition equal_step (rec : gval -> gval -> bool) (a b : gval) : bool :=
  match toFloat64 a, toFloat64 b with
  | Some aNum, Some bNum => SFeqb aNum bNum
  | _, _ => equal_compound rec a b
  end.

Fixpoint values_equal_n (n : nat) (a b : gval) : bool :=
  match n with
  | O => false
  | S n => equal_step (values_equal_n n) a b
  end.

Definition valuesEqual (a b : gval) : bool := values_equal_n (vsize a) a b.

(** ** compareRecursiveExcluding *)

Definition join_path (prefix key : string) : string :=
  if String.eqb prefix EmptyString then key else prefix +:+ "." +:+ key.

(** [prefix == "" && excludeSet[key]]. *)
Definition excluded (exclude : list string) (prefix key : string) : bool :=
  String.eqb prefix EmptyString && existsb (String.eqb key) exclude.

(** The comparison of two values that are not both maps. *)
Definition leaf_equal (path : string) (dVal aVal : gval) : bool :=
  if unorderedStringSetPath path then stringSetEqual dVal aVal else valuesEqual dVal aVal.

Definition masked (aVal : gval) : bool :=
  match aVal with VStr s => String.eqb s "***" | _ => false end.

Fixpoint compare_n (n : nat) (prefix : string) (desired actual : gomap)
    (diffs : diffmap) (exclude : list string) : diffmap :=
  match n with
  | O => diffs
  | S n =>
    foldl (fun diffs kv =>
      let '(key, dVal) := kv in
      if excluded exclude prefix key then diffs else
      let path := join_path prefix key in
      match mget key actual with
      | None => <[ path := mkFieldDiff VNil dVal ]> diffs
      | Some aVal =>
        match toMap dVal, toMap aVal with
        | Some dMap, Some aMap => compare_n n path dMap aMap diffs exclude
        | _, _ =>
          if masked aVal then diffs
          else if leaf_equal path dVal aVal then diffs
          else <[ path := mkFieldDiff aVal dVal ]> diffs
        end
      end) diffs desired
  end.

Definition compareRecursiveExcluding (prefix : string) (desired actual : gomap)
    (diffs : diffmap) (exclude : list string) : diffmap :=
  compare_n (S (msize desired)) prefix desired actual diffs exclude.

Definition CompareSpecExcluding (desired actual : gomap) (exclude : list string) : diffmap :=
  compareRecursiveExcluding EmptyString desired actual ∅ exclude.

Definition CompareSpec (desired actual : gomap) : diffmap :=
  CompareSpecExcluding desired actual [].

(** ** Specification

    [differs ex prefix d a p fd]: the field at path [p] is missing from [a] or
    has another value there. *)
Inductive differs (exclude : list string) :
    string -> gomap -> gomap -> string -> FieldDiff -> Prop :=
  | differs_missing prefix d a key dVal :
      (key, dVal) ∈ d -> excluded exclude prefix key = false ->
      mget key a = None ->
      differs exclude prefix d a (join_path prefix key) (mkFieldDiff VNil dVal)
  | differs_nested prefix d a key dVal aVal dMap aMap p fd :
      (key, dVal) ∈ d -> excluded exclude prefix key = false ->
      mget key a = Some aVal ->
      toMap dVal = Some dMap -> toMap aVal = Some aMap ->
      differs exclude (join_path prefix key) dMap aMap p fd ->
      differs exclude prefix d a p fd
  | differs_value prefix d a key dVal aVal :
      (key, dVal) ∈ d -> excluded exclude prefix key = false ->
      mget key a = Some aVal ->
      toMap dVal = None \/ toMap aVal = None ->
      masked aVal = false ->
      leaf_equal (join_path prefix key) dVal aVal = false ->
      differs exclude prefix d a (join_path prefix key) (mkFieldDiff aVal dVal).

(** Two values that differ in the iteration order of their maps only: the same
    finite maps, hereditarily. *)
#[warnings="-register-all"]
Inductive gequiv : gval -> gval -> Prop :=
  | gequiv_refl v : gequiv v v
  | gequiv_slice l k : Forall2 gequiv l k -> gequiv (VSlice l) (VSlice k)
  | gequiv_map m m' :
      (forall k, option_Forall2 gequiv (mget k m) (mget k m')) -> gequiv (VMap m) (VMap m').

Definition mequiv (m m' : gomap) : Prop :=
  forall k, option_Forall2 gequiv (mget k m) (mget k m').

(** No NaN anywhere, and one entry per key. *)
Definition is_nan (f : spec_float) : bool := match f with S754_nan => true | _ => false end.

Fixpoint no_nan (v : gval) : bool :=
  match v with
  | VFloat64 f | VFloat32 f => negb (is_nan f)
  | VSlice l => forallb no_nan l
  | VMap m => forallb (fun kv => no_nan kv.2) m
  | VAnyMap m => forallb (fun kv => no_nan kv.2) m
  | _ => true
  end.

Definition proper_val (v : gval) : Prop := wf_val v /\ no_nan v = true.

(** ** Fuel *)

Lemma anymap_out_bound (m : list (mapkey * gval)) out k v :
  (k, v) ∈ foldl (fun out kv => mset (fmt_key kv.1) kv.2 out) out m ->
  (k, v) ∈ out \/ exists k', (k', v) ∈ m.
Proof.
  revert out. induction m as [|[k1 v1] m IH]; intros out; simpl; [auto|].
  intros H. apply IH in H as [H|[k' H]].
  - assert (H2 : (k, v) ∈ out \/ v = v1).
    { clear IH. induction out as [|[k2 v2] out IH]; simpl in H.
      - apply list_elem_of_singleton in H. simplify_eq. auto.
      - case_match; rewrite elem_of_cons in H |- *; destruct H as [H|H]; simplify_eq; auto.
        apply IH in H as [H|H]; auto. }
    destruct H2 as [H2| ->]; [auto|]. right. exists k1. left.
  - right. exists k'. by right.
Qed.

Lemma toMap_elem_size v m k x : toMap v = Some m -> (k, x) ∈ m -> (vsize x < vsize v)%nat.
Proof.
  destruct v; simpl; try done; intros [= <-] Hin.
  - apply (list_sum_elem (fun kv => vsize kv.2)) in Hin. simpl in Hin. lia.
  - apply anymap_out_bound in Hin as [Hin|[k' Hin]]; [by apply not_elem_of_nil in Hin|].
    apply (list_sum_elem (fun kv => vsize kv.2)) in Hin. simpl in Hin. lia.
Qed.

Lemma toMap_msize v m : toMap v = Some m -> (msize m < vsize v)%nat.
Proof.
  destruct v; simpl; try done; intros [= <-]; [unfold msize; lia|].
  rename m0 into l. unfold msize.
  assert (Hset : forall k x (o : gomap), (list_sum (map (fun kv => vsize kv.2) (mset k x o))
            <= vsize x + list_sum (map (fun kv => vsize kv.2) o))%nat).
  { intros k x o. induction o as [|[k2 v2] o IH]; simpl; [lia|]. case_match; simpl; lia. }
  assert (H : forall o : gomap, (list_sum (map (fun kv => vsize kv.2)
            (foldl (fun out kv => mset (fmt_key kv.1) kv.2 out) o l))
            <= list_sum (map (fun kv => vsize kv.2) o)
               + list_sum (map (fun kv => vsize kv.2) l))%nat).
  { induction l as [|[k1 v1] l IH]; intros o; simpl; [lia|].
    etrans; [apply IH|]. specialize (Hset (fmt_key k1) v1 o). lia. }
  specialize (H []). simpl in H. lia.
Qed.

Lemma toSlice_elem_size v l x : toSlice v = Some l -> x ∈ l -> (vsize x < vsize v)%nat.
Proof.
  destruct v; simpl; try done; intros [= <-] Hin.
  - apply (list_sum_elem vsize) in Hin. lia.
  - apply list_elem_of_fmap in Hin as (s & -> & Hin). simpl.
    apply list_elem_of_In, in_split in Hin as (l1 & l2 & ->). rewrite length_app. simpl. lia.
Qed.

Lemma zip_elem_l {A B} (l : list A) (k : list B) p : p ∈ zip l k -> p.1 ∈ l /\ p.2 ∈ k.
Proof.
  revert k. induction l as [|x l IH]; intros [|y k] H; simpl in H;
    try by apply not_elem_of_nil in H.
  rewrite elem_of_cons in H. destruct H as [->|H]; simpl; [split; left|].
  apply IH in H as [??]. split; by right.
Qed.

Lemma forallb_ext_elem {A} (f g : A -> bool) l :
  (forall x, x ∈ l -> f x = g x) -> forallb f l = forallb g l.
Proof.
  induction l as [|x l IH]; intros H; simpl; [done|].
  rewrite (H x) by left. f_equal. apply IH. intros. apply H. by right.
Qed.

Lemma equal_compound_ext f g a b :
  (forall x y, (vsize x < vsize a)%nat -> f x y = g x y) ->
  equal_compound f a b = equal_compound g a b.
Proof.
  intros Hfg. unfold equal_compound.
  destruct (toSlice a) as [sa|] eqn:Es, (toSlice b) as [sb|];
  try (f_equal; apply forallb_ext_elem; intros p Hp; apply zip_elem_l in Hp as [Hp _];
       apply Hfg; by eapply toSlice_elem_size);
  destruct (toMap a) as [ma|] eqn:Em, (toMap b) as [mb|]; try done;
  f_equal; apply forallb_ext_elem; intros [k v] Hp; simpl;
  destruct (mget k mb); try done; apply Hfg; by eapply toMap_elem_size.
Qed.

Lemma equal_step_ext f g a b :
  (forall x y, (vsize x < vsize a)%nat -> f x y = g x y) -> equal_step f a b = equal_step g a b.
Proof.
  intros. unfold equal_step. by destruct (toFloat64 a), (toFloat64 b);
    try apply equal_compound_ext.
Qed.

Lemma values_equal_fuel n n' a b :
  (vsize a <= n)%nat -> (vsize a <= n')%nat -> values_equal_n n a b = values_equal_n n' a b.
Proof.
  revert n' a b. induction n as [|n IH]; intros n' a b Hn Hn'; [pose proof (vsize_pos a); lia|].
  destruct n' as [|n']; [pose proof (vsize_pos a); lia|].
  apply equal_step_ext. intros. apply IH; lia.
Qed.

(** The body of [valuesEqual], with the source's recursive calls. *)
Lemma valuesEqual_eq a b : valuesEqual a b = equal_step valuesEqual a b.
Proof.
  unfold valuesEqual at 1. destruct (vsize a) as [|n] eqn:En; [pose proof (vsize_pos a); lia|].
  apply equal_step_ext. intros. apply values_equal_fuel; lia.
Qed.

(** One field of the loop, with [rec] as the recursive call. *)
Definition compare_field (rec : string -> gomap -> gomap -> diffmap -> diffmap)
    (prefix : string) (actual : gomap) (exclude : list string)
    (diffs : diffmap) (kv : string * gval) : diffmap :=
  let '(key, dVal) := kv in
  if excluded exclude prefix key then diffs else
  let path := join_path prefix key in
  match mget key actual with
  | None => <[ path := mkFieldDiff VNil dVal ]> diffs
  | Some aVal =>
    match toMap dVal, toMap aVal with
    | Some dMap, Some aMap => rec path dMap aMap diffs
    | _, _ =>
      if masked aVal then diffs
      else if leaf_equal path dVal aVal then diffs
      else <[ path := mkFieldDiff aVal dVal ]> diffs
    end
  end.

Lemma compare_n_S n prefix d a diffs ex :
  compare_n (S n) prefix d a diffs ex =
    foldl (compare_field (fun p dm am ds => compare_n n p dm am ds ex) prefix a ex) diffs d.
Proof. reflexivity. Qed.

Lemma foldl_ext_elem {A B} (f g : A -> B -> A) l x :
  (forall a b, b ∈ l -> f a b = g a b) -> foldl f x l = foldl g x l.
Proof.
  revert x. induction l as [|b l IH]; intros x H; simpl; [done|].
  rewrite (H x b) by left. apply IH. intros. apply H. by right.
Qed.

Lemma compare_field_fuel n n' prefix a ex diffs k v :
  (vsize v <= n)%nat -> (vsize v <= n')%nat ->
  (forall p dm am ds, (msize dm < vsize v)%nat ->
     compare_n n p dm am ds ex = compare_n n' p dm am ds ex) ->
  compare_field (fun p dm am ds => compare_n n p dm am ds ex) prefix a ex diffs (k, v)
  = compare_field (fun p dm am ds => compare_n n' p dm am ds ex) prefix a ex diffs (k, v).
Proof.
  intros Hn Hn' Hrec. unfold compare_field. case_match; [done|].
  destruct (mget k a) as [av|]; [|done].
  destruct (toMap v) as [dm|] eqn:Ev; [|done]. destruct (toMap av) as [am|]; [|done].
  apply Hrec. by apply toMap_msize in Ev.
Qed.

Lemma msize_elem k v (d : gomap) : (k, v) ∈ d -> (vsize v <= msize d)%nat.
Proof. intros H. by apply (list_sum_elem (fun kv => vsize kv.2)) in H. Qed.

Lemma compare_n_fuel n n' prefix d a diffs ex :
  (msize d < n)%nat -> (msize d < n')%nat ->
  compare_n n prefix d a diffs ex = compare_n n' prefix d a diffs ex.
Proof.
  revert n' prefix d a diffs. induction n as [|n IH]; intros n' prefix d a diffs Hn Hn'; [lia|].
  destruct n' as [|n']; [lia|]. rewrite !compare_n_S.
  apply foldl_ext_elem. intros ds [k v] Hin. apply msize_elem in Hin.
  apply compare_field_fuel; [lia|lia|]. intros. apply IH; lia.
Qed.

(** The equation of [compareRecursiveExcluding]. *)
Lemma compareRec_eq prefix d a diffs ex :
  compareRecursiveExcluding prefix d a diffs ex =
    foldl (compare_field (fun p dm am ds => compareRecursiveExcluding p dm am ds ex) prefix a ex)
          diffs d.
Proof.
  unfold compareRecursiveExcluding at 1. rewrite compare_n_S.
  apply foldl_ext_elem. intros ds [k v] Hin. apply msize_elem in Hin.
  unfold compare_field. case_match; [done|].
  destruct (mget k a) as [av|]; [|done].
  destruct (toMap v) as [dm|] eqn:Ev; [|done]. destruct (toMap av) as [am|]; [|done].
  apply toMap_msize in Ev. apply compare_n_fuel; lia.
Qed.

(** ** Soundness and completeness of the comparison *)

(** What a field contributes, and nothing else. *)
Lemma compare_field_sound rec prefix d a ex diffs k v p fd :
  (k, v) ∈ d ->
  (forall q dm am ds, toMap v = Some dm ->
     rec q dm am ds !! p = Some fd -> ds !! p = Some fd \/ differs ex q dm am p fd) ->
  compare_field rec prefix a ex diffs (k, v) !! p = Some fd ->
  diffs !! p = Some fd \/ differs ex prefix d a p fd.
Proof.
  intros Hin Hrec. unfold compare_field. destruct (excluded ex prefix k) eqn:Hx; [auto|].
  destruct (mget k a) as [av|] eqn:Ha.
  - assert (Hleaf : toMap v = None \/ toMap av = None ->
      (if masked av then diffs else if leaf_equal (join_path prefix k) v av then diffs
       else <[join_path prefix k:=mkFieldDiff av v]> diffs) !! p = Some fd ->
      diffs !! p = Some fd \/ differs ex prefix d a p fd).
    { intros Hm. destruct (masked av) eqn:Hk; [auto|].
      destruct (leaf_equal (join_path prefix k) v av) eqn:Hl; [auto|].
      rewrite lookup_insert_Some. intros [[<- <-]|[_ ?]]; [|auto]. right.
      by eapply differs_value. }
    destruct (toMap v) as [dm|] eqn:Ev; [|auto]. destruct (toMap av) as [am|] eqn:Ea; [|auto].
    intros H. apply Hrec in H as [H|H]; [auto| |done]. right. by eapply differs_nested.
  - rewrite lookup_insert_Some. intros [[<- <-]|[_ ?]]; [|auto]. right.
    by apply differs_missing.
Qed.

Lemma foldl_invariant {A B} (I : A -> Prop) (f : A -> B -> A) l x :
  I x -> (forall a b, b ∈ l -> I a -> I (f a b)) -> I (foldl f x l).
Proof.
  revert x. induction l as [|b l IH]; intros x Hx Hf; simpl; [done|].
  apply IH; [apply Hf; [left|done]|]. intros. apply Hf; [by right|done].
Qed.

Lemma compare_n_sound n prefix d a diffs ex p fd :
  compare_n n prefix d a diffs ex !! p = Some fd ->
  diffs !! p = Some fd \/ differs ex prefix d a p fd.
Proof.
  revert prefix d a diffs. induction n as [|n IH]; intros prefix d a diffs; [auto|].
  rewrite compare_n_S.
  pose (I := fun ds : diffmap => ds !! p = Some fd ->
                 diffs !! p = Some fd \/ differs ex prefix d a p fd).
  apply (foldl_invariant I); [by left|]. intros ds [k v] Hin HI H.
  apply (compare_field_sound _ _ d) in H as [H|H]; [by apply HI|auto|done|].
  intros q dm am ds' _ H'. by apply IH in H'.
Qed.

(** A path once recorded stays recorded. *)
Lemma compare_n_mono n prefix d a diffs ex p :
  p ∈ dom diffs -> p ∈ dom (compare_n n prefix d a diffs ex).
Proof.
  revert prefix d a diffs. induction n as [|n IH]; intros prefix d a diffs Hp; [done|].
  rewrite compare_n_S. apply (foldl_invariant (fun ds : diffmap => p ∈ dom ds)); [done|].
  intros ds [k v] _ Hd. unfold compare_field.
  repeat case_match; auto; rewrite dom_insert; set_solver.
Qed.

Lemma foldl_reaches {A B} (P : A -> Prop) (f : A -> B -> A) l x b :
  b ∈ l -> (forall a, P (f a b)) -> (forall a b', P a -> P (f a b')) -> P (foldl f x l).
Proof.
  intros Hin Hb Hk. revert x. induction l as [|b' l IH]; intros x; [by apply not_elem_of_nil in Hin|].
  simpl. apply elem_of_cons in Hin as [->|Hin]; [|by apply IH].
  apply foldl_invariant; auto.
Qed.

Lemma compare_n_complete n prefix d a diffs ex p fd :
  (msize d < n)%nat -> differs ex prefix d a p fd ->
  p ∈ dom (compare_n n prefix d a diffs ex).
Proof.
  intros Hn Hd. revert n diffs Hn. induction Hd as [prefix d a key dVal Hin Hx Ha
    |prefix d a key dVal aVal dMap aMap p fd Hin Hx Ha Hdm Ham Hd IH
    |prefix d a key dVal aVal Hin Hx Ha Hor Hk Hl]; intros n diffs Hn;
    (destruct n as [|n]; [lia|]); rewrite compare_n_S;
    (eapply (foldl_reaches (fun ds : diffmap => _ ∈ dom ds)); [done| |]).
  2,4,6: intros ds [k' v'] Hds; pose proof (fun dm am q => compare_n_mono n q dm am ds ex _ Hds);
    unfold compare_field; repeat case_match; auto; rewrite dom_insert; set_solver.
  - intros ds. unfold compare_field. rewrite Hx, Ha, dom_insert. set_solver.
  - intros ds. unfold compare_field. rewrite Hx, Ha, Hdm, Ham. apply IH.
    apply msize_elem in Hin. apply toMap_msize in Hdm. lia.
  - intros ds. unfold compare_field. rewrite Hx, Ha.
    assert (E : forall X : diffmap, match toMap dVal with
      | Some dMap => match toMap aVal with Some aMap => compare_n n (join_path prefix key) dMap aMap ds ex
                     | None => X end | None => X end = X).
    { intros X. destruct Hor as [-> | ->]; [done|]. by case_match. }
    rewrite E, Hk, Hl, dom_insert. set_solver.
Qed.

Lemma CompareSpecExcluding_sound d a ex p fd :
  CompareSpecExcluding d a ex !! p = Some fd -> differs ex EmptyString d a p fd.
Proof.
  intros H. apply compare_n_sound in H as [H|H]; [|done]. by rewrite lookup_empty in H.
Qed.

Lemma CompareSpecExcluding_complete d a ex p fd :
  differs ex EmptyString d a p fd -> p ∈ dom (CompareSpecExcluding d a ex).
Proof. intros H. eapply compare_n_complete; [lia|done]. Qed.

(** No difference is recorded exactly when no field differs. *)
Lemma CompareSpecExcluding_empty d a ex :
  CompareSpecExcluding d a ex = ∅ <-> forall p fd, ~ differs ex EmptyString d a p fd.
Proof.
  split.
  - intros He p fd Hd. apply CompareSpecExcluding_complete in Hd. rewrite He in Hd. set_solver.
  - intros Hn. apply map_empty. intros p.
    destruct (CompareSpecExcluding d a ex !! p) as [fd|] eqn:E; [|done].
    apply CompareSpecExcluding_sound in E. by apply Hn in E.
Qed.

(** ** Comparison of a value with itself *)

Lemma shr_1_nonneg mrs : (0 <= shr_m mrs)%Z -> (0 <= shr_m (shr_1 mrs))%Z.
Proof.
  destruct mrs as [m r s]. simpl. intros H. unfold shr_1.
  destruct m as [|[p|p|]|[p|p|]]; simpl in *; lia.
Qed.

Lemma shr_fexp_nonneg prec emax m e l :
  (0 <= m)%Z -> (0 <= shr_m (shr_fexp prec emax m e l).1)%Z.
Proof.
  intros Hm. unfold shr_fexp, shr.
  assert (H0 : (0 <= shr_m (shr_record_of_loc m l))%Z) by (by destruct l as [|[]]).
  destruct (fexp prec emax (Zdigits2 m + e) - e)%Z; simpl; try done.
  revert H0. generalize (shr_record_of_loc m l). induction p as [p IH|p IH|]; intros r Hr; simpl.
  - apply IH, IH, shr_1_nonneg, Hr.
  - apply IH, IH, Hr.
  - by apply shr_1_nonneg.
Qed.

Lemma round_nonneg m l : (0 <= m)%Z -> (0 <= round_nearest_even m l)%Z.
Proof. intros. unfold round_nearest_even. destruct l as [|[]]; try lia. case_match; lia. Qed.

Lemma float64_of_Z_not_nan z : is_nan (float64_of_Z z) = false.
Proof.
  assert (H : forall s p e, is_nan (binary_round 53 1024 s p e) = false).
  { intros s p e. unfold binary_round. destruct (shl_align p e _) as [mz ez].
    unfold binary_round_aux.
    pose proof (shr_fexp_nonneg 53 1024 (Zpos mz) ez loc_Exact ltac:(lia)) as H1.
    destruct (shr_fexp 53 1024 (Zpos mz) ez loc_Exact) as [mrs' e'].
    pose proof (shr_fexp_nonneg 53 1024
      (round_nearest_even (shr_m mrs') (loc_of_shr_record mrs')) e' loc_Exact
      (round_nonneg _ _ H1)) as H2.
    destruct (shr_fexp 53 1024 _ e' loc_Exact) as [mrs'' e'']. simpl in *.
    destruct (shr_m mrs''); [done| |lia]. by case_match. }
  unfold float64_of_Z, binary_normalize. destruct z; [done|apply H|apply H].
Qed.

Lemma SFeqb_refl f : is_nan f = false -> SFeqb f f = true.
Proof.
  destruct f as [b|b| |b m e]; [by destruct b..|done|intros _].
  unfold SFeqb, SFcompare. rewrite Z.compare_refl, Pos.compare_refl. by destruct b.
Qed.

Lemma SFeqb_sym f g : SFeqb f g = SFeqb g f.
Proof.
  unfold SFeqb, SFcompare.
  destruct f as [[]|[]| |[] m e], g as [[]|[]| |[] m' e']; try done;
    change (Pos.compare_cont Eq m m') with (m ?= m')%positive;
    change (Pos.compare_cont Eq m' m) with (m' ?= m)%positive;
    rewrite (Z.compare_antisym e e'), (Pos.compare_antisym m m');
    destruct (e ?= e')%Z; simpl; try done; by destruct (m ?= m')%positive.
Qed.

Lemma anymap_uniq (m : list (mapkey * gval)) out :
  uniq_keys out -> uniq_keys (foldl (fun out kv => mset (fmt_key kv.1) kv.2 out) out m).
Proof.
  revert out. induction m as [|[k v] m IH]; intros out Ho; simpl; [done|].
  apply IH. by apply uniq_keys_mset.
Qed.

Lemma toMap_uniq v m : wf_val v -> toMap v = Some m -> uniq_keys m.
Proof.
  destruct v; simpl; try done; intros Hw [= <-]; [tauto|].
  apply anymap_uniq. constructor.
Qed.

Lemma no_nan_elem_map v m k x :
  no_nan v = true -> toMap v = Some m -> (k, x) ∈ m -> no_nan x = true.
Proof.
  destruct v; simpl; try done; intros Hn [= <-] Hin.
  - apply forallb_Forall in Hn. rewrite Forall_forall in Hn. by apply (Hn (k, x)).
  - apply anymap_out_bound in Hin as [Hin|[k' Hin]]; [by apply not_elem_of_nil in Hin|].
    apply forallb_Forall in Hn. rewrite Forall_forall in Hn. by apply (Hn (k', x)).
Qed.

Lemma wf_elem_map v m k x : wf_val v -> toMap v = Some m -> (k, x) ∈ m -> wf_val x.
Proof.
  intros Hw Hm Hin. destruct v as [| | | | | | | | |m0|m0|]; simpl in Hm; try done;
    injection Hm as <-.
  - apply wf_vmap in Hw as [_ Hw]. rewrite Forall_forall in Hw. by apply (Hw (k, x)).
  - apply anymap_out_bound in Hin as [Hin|[k' Hin]]; [by apply not_elem_of_nil in Hin|].
    apply wf_anymap in Hw. rewrite Forall_forall in Hw. by apply (Hw (k', x)).
Qed.

Lemma proper_elem_map v m k x :
  proper_val v -> toMap v = Some m -> (k, x) ∈ m -> proper_val x.
Proof. intros [??] ??. split; [by eapply wf_elem_map|by eapply no_nan_elem_map]. Qed.

Lemma proper_elem_slice v l x : proper_val v -> toSlice v = Some l -> x ∈ l -> proper_val x.
Proof.
  intros [Hw Hn] Hl Hx. destruct v as [| | | | | | |l0|l0| | |]; simpl in *; try done;
    injection Hl as <-.
  - apply wf_slice in Hw. apply forallb_Forall in Hn. rewrite Forall_forall in Hw, Hn.
    split; auto.
  - apply list_elem_of_fmap in Hx as (s & -> & _). done.
Qed.

Lemma zip_self {A} (l : list A) p : p ∈ zip l l -> p.1 = p.2 /\ p.1 ∈ l.
Proof.
  induction l as [|x l IH]; simpl; [by intros ?%not_elem_of_nil|].
  rewrite elem_of_cons. intros [->|H]; [split; [done|left]|].
  apply IH in H as [??]. split; [done|by right].
Qed.

Lemma valuesEqual_refl v : proper_val v -> valuesEqual v v = true.
Proof.
  remember (vsize v) as n eqn:Hn. revert v Hn.
  induction (lt_wf n) as [n _ IH]. intros v -> Hv. rewrite valuesEqual_eq. unfold equal_step, equal_compound.
  destruct (toFloat64 v) as [f|] eqn:Ef.
  { apply SFeqb_refl. destruct Hv as [_ Hnan]. destruct v; simpl in *; simplify_eq;
      try apply float64_of_Z_not_nan; by apply negb_true_iff. }
  destruct (toSlice v) as [l|] eqn:El.
  { rewrite Nat.eqb_refl. apply forallb_Forall, Forall_forall. intros [x y] Hp.
    apply zip_self in Hp as [? Hin]. simpl in *. subst y. eapply IH; [|done|].
    - by eapply toSlice_elem_size.
    - by eapply proper_elem_slice. }
  destruct (toMap v) as [m|] eqn:Em.
  { rewrite Nat.eqb_refl. apply forallb_Forall, Forall_forall. intros [k x] Hin. simpl.
    rewrite (mget_in k x m); [|by eapply toMap_uniq; [apply Hv|]|done].
    eapply IH; [|done|].
    - by eapply toMap_elem_size.
    - by eapply proper_elem_map. }
  destruct v as [|[]| | | | |s| | | | |t r]; simpl in *; try done.
  - by apply String.eqb_refl.
  - by rewrite !String.eqb_refl.
Qed.

(** What the API must return for the comparison to find nothing: the desired value
    under every key compared. *)
Definition covers (exclude : list string) (desired actual : gomap) : Prop :=
  forall k v, (k, v) ∈ desired -> excluded exclude EmptyString k = false ->
              mget k actual = Some v.

Lemma stringSetEqual_refl v : is_Some (toStringSet v) -> stringSetEqual v v = true.
Proof.
  intros [s Hs]. unfold stringSetEqual. rewrite Hs, bool_decide_eq_true_2 by done. simpl.
  apply forallb_Forall, Forall_forall. intros x Hx%elem_of_elements. by apply bool_decide_eq_true_2.
Qed.


(** The value [v] lies at the path [p] of a spec. *)
Inductive field_at : string -> gomap -> string -> gval -> Prop :=
  | field_here prefix m k v : (k, v) ∈ m -> field_at prefix m (join_path prefix k) v
  | field_there prefix m k v m' p x :
      (k, v) ∈ m -> toMap v = Some m' -> field_at (join_path prefix k) m' p x ->
      field_at prefix m p x.

(** The fields compared as sets of strings are lists of strings. *)
Definition set_fields_ok (prefix : string) (m : gomap) : Prop :=
  forall p v, field_at prefix m p v -> unorderedStringSetPath p = true -> toMap v = None ->
              is_Some (toStringSet v).

Lemma differs_self ex prefix d a p fd :
  differs ex prefix d a p fd ->
  Forall (fun kv => proper_val kv.2) d ->
  (forall k v, (k, v) ∈ d -> excluded ex prefix k = false -> mget k a = Some v) ->
  set_fields_ok prefix d -> False.
Proof.
  induction 1 as [prefix d a key dVal Hin Hx Ha
    |prefix d a key dVal aVal dMap aMap p fd Hin Hx Ha Hdm Ham Hd IH
    |prefix d a key dVal aVal Hin Hx Ha Hor Hk Hl]; intros Hp Hcov Hset;
    specialize (Hcov _ _ Hin Hx) as Hc; rewrite Ha in Hc; simplify_eq;
    (assert (Hv : proper_val dVal) by (rewrite Forall_forall in Hp; by apply (Hp (key, dVal)))).
  - apply IH.
    + apply Forall_forall. intros [k x] Hk. by eapply proper_elem_map.
    + intros k v Hkv _. apply mget_in; [|done]. by eapply toMap_uniq; [apply Hv|].
    + intros q v Hq. apply Hset. by eapply field_there.
  - assert (Hm : toMap dVal = None) by tauto.
    unfold leaf_equal in Hl. destruct (unorderedStringSetPath _) eqn:Hu.
    + rewrite stringSetEqual_refl in Hl; [done|].
      apply (Hset (join_path prefix key)); [by apply field_here|done|done].
    + by rewrite valuesEqual_refl in Hl.
Qed.

(** A spec agrees with any observation that returns its compared fields. *)
Lemma CompareSpecExcluding_covers d a ex :
  Forall (fun kv => proper_val kv.2) d -> set_fields_ok EmptyString d -> covers ex d a ->
  CompareSpecExcluding d a ex = ∅.
Proof.
  intros Hp Hs Hc. apply CompareSpecExcluding_empty. intros p fd Hd.
  by eapply differs_self.
Qed.

(** The fields of a spec with their paths, to a given depth. *)
Fixpoint fields_list (n : nat) (prefix : string) (m : gomap) : list (string * gval) :=
  match n with
  | O => []
  | S n => concat (map (fun kv =>
             (join_path prefix kv.1, kv.2) ::
             match toMap kv.2 with
             | Some m' => fields_list n (join_path prefix kv.1) m'
             | None => []
             end) m)
  end.

Definition set_fields_okb (m : gomap) : bool :=
  forallb (fun pv => negb (unorderedStringSetPath pv.1)
                     || match toMap pv.2 with
                        | Some _ => true
                        | None => match toStringSet pv.2 with Some _ => true | None => false end
                        end)
          (fields_list (S (msize m)) EmptyString m).

Lemma field_at_list prefix m p v n :
  field_at prefix m p v -> (msize m < n)%nat -> (p, v) ∈ fields_list n prefix m.
Proof.
  intros H. revert n. induction H as [prefix m k v Hin|prefix m k v m' p x Hin Hm H IH]; intros n Hn;
    (destruct n as [|n]; [lia|]); cbn [fields_list];
    apply list_elem_of_In, in_concat; eexists; (split; [apply in_map; by apply list_elem_of_In|]);
    apply list_elem_of_In; simpl.
  - left.
  - right. rewrite Hm. apply IH. apply msize_elem in Hin. apply toMap_msize in Hm. lia.
Qed.

Lemma set_fields_okb_ok m : set_fields_okb m = true -> set_fields_ok EmptyString m.
Proof.
  intros H p v Hf Hu Hm. apply (field_at_list _ _ _ _ (S (msize m))) in Hf; [|lia].
  unfold set_fields_okb in H. apply forallb_Forall in H. rewrite Forall_forall in H.
  specialize (H _ Hf). simpl in H. rewrite Hu, Hm in H. simpl in H. by destruct (toStringSet v).
Qed.

(** ** Independence of the iteration order *)

Lemma gequiv_sym a b : gequiv a b -> gequiv b a.
Proof.
  remember (vsize a) as n eqn:Hn. revert a b Hn.
  induction (lt_wf n) as [n _ IH]. intros a b -> H. destruct H as [v|l k H|m m' H].
  - apply gequiv_refl.
  - apply gequiv_slice.
    assert (Hl : forall x, x ∈ l -> (vsize x < vsize (VSlice l))%nat)
      by (intros x Hx; by eapply toSlice_elem_size).
    clear -H IH Hl. induction H as [|x y l' k' Hxy H IHl]; constructor.
    + eapply IH; [|done|done]. apply Hl. left.
    + apply IHl.
      * intros y0 Hy a b -> ?. eapply IH; [|done|done]. simpl in *. lia.
      * intros z Hz. eapply toSlice_elem_size; done.
  - apply gequiv_map. intros k. specialize (H k).
    destruct (mget k m) as [v|] eqn:E; inversion H; subst; constructor.
    eapply IH; [|done|done]. by eapply toMap_elem_size, mget_Some_in.
Qed.

Lemma mequiv_sym m m' : mequiv m m' -> mequiv m' m.
Proof.
  intros H k. specialize (H k). destruct H; constructor. by apply gequiv_sym.
Qed.

Lemma mequiv_refl m : mequiv m m.
Proof. intros k. destruct (mget k m); constructor. apply gequiv_refl. Qed.

Lemma mequiv_perm m m' : uniq_keys m -> m ≡ₚ m' -> mequiv m m'.
Proof. intros Hu Hp k. rewrite (mget_perm k m m' Hu Hp). apply mequiv_refl. Qed.

Lemma toFloat64_gequiv a a' : gequiv a a' -> toFloat64 a = toFloat64 a'.
Proof. by destruct 1. Qed.

Lemma toSlice_gequiv a a' : gequiv a a' -> option_Forall2 (Forall2 gequiv) (toSlice a) (toSlice a').
Proof.
  destruct 1; simpl.
  - destruct (toSlice v); constructor. induction l; constructor; [apply gequiv_refl|done].
  - by constructor.
  - constructor.
Qed.

Lemma toMap_gequiv a a' : gequiv a a' -> option_Forall2 mequiv (toMap a) (toMap a').
Proof.
  destruct 1; simpl; [|constructor|by constructor].
  destruct (toMap v); constructor. apply mequiv_refl.
Qed.

Lemma mget_is_Some {A} k (m : list (string * A)) : is_Some (mget k m) <-> k ∈ mkeys m.
Proof.
  rewrite <- not_eq_None_Some, mget_None.
  split; [by intros ?%dec_stable|auto].
Qed.

Lemma mequiv_length m m' : uniq_keys m -> uniq_keys m' -> mequiv m m' -> length m = length m'.
Proof.
  intros Hu Hu' He. rewrite <- (length_map fst m), <- (length_map fst m').
  apply Permutation_length, NoDup_Permutation; [done|done|].
  intros k. change (k ∈ mkeys m <-> k ∈ mkeys m'). rewrite <- !mget_is_Some.
  specialize (He k). by destruct He.
Qed.

(** The map branch of [valuesEqual] in terms of lookups. *)
Lemma map_equal_spec (f : gval -> gval -> bool) (x y : gomap) :
  uniq_keys x ->
  forallb (fun kv => match mget kv.1 y with Some bv => f kv.2 bv | None => false end) x = true
  <-> forall k v, mget k x = Some v -> exists v', mget k y = Some v' /\ f v v' = true.
Proof.
  intros Hu. rewrite forallb_Forall, Forall_forall. split.
  - intros H k v Hk. apply mget_Some_in in Hk. specialize (H _ Hk). simpl in H.
    destruct (mget k y); [eauto|done].
  - intros H [k v] Hin. apply mget_in in Hin; [|done]. simpl.
    destruct (H _ _ Hin) as (v' & -> & ?). done.
Qed.

Lemma slice_equal_gequiv (f : gval -> gval -> bool) (l l' k k' : list gval) :
  (forall x x' y y', x ∈ l -> x' ∈ l' -> y ∈ k -> y' ∈ k' -> gequiv x x' -> gequiv y y' ->
     f x y = true -> f x' y' = true) ->
  Forall2 gequiv l l' -> Forall2 gequiv k k' ->
  (length l =? length k)%nat && forallb (fun p => f p.1 p.2) (zip l k) = true ->
  (length l' =? length k')%nat && forallb (fun p => f p.1 p.2) (zip l' k') = true.
Proof.
  intros Hf Hl. revert k k' Hf. induction Hl as [|x x' l l' Hx Hl IH]; intros k k' Hf Hk H;
    destruct Hk as [|y y' k k' Hy Hk]; simpl in *; try done.
  apply andb_true_iff in H as [Hn H]. apply andb_true_iff in H as [Hxy Hz].
  assert (Hrec : (length l' =? length k')%nat
                 && forallb (fun p => f p.1 p.2) (zip l' k') = true).
  { apply (IH k k'); [|done|by rewrite Hn, Hz].
    intros. eapply (Hf x0 x'0 y0 y'0); try done; by right. }
  apply andb_true_iff in Hrec as [-> ->]. rewrite andb_true_r.
  eapply (Hf x x' y y'); try done; left.
Qed.

(** Values of different shapes are equal only as scalars. *)
Lemma DeepEqual_gequiv a a' b b' :
  gequiv a a' -> gequiv b b' ->
  toSlice a = None \/ toSlice b = None -> toMap a = None \/ toMap b = None ->
  DeepEqual a b = true -> DeepEqual a' b' = true.
Proof.
  intros Ha Hb Hs Hm H. destruct Ha as [a|l k _|m m' _].
  - destruct Hb as [b|l k _|m m' _]; [done| |]; destruct a; simpl in *; naive_solver.
  - destruct b; simpl in *; naive_solver.
  - destruct b; simpl in *; naive_solver.
Qed.


Lemma wf_elem_slice v l x : wf_val v -> toSlice v = Some l -> x ∈ l -> wf_val x.
Proof.
  intros Hw Hl Hx. destruct v; simpl in Hl; try done; injection Hl as <-.
  - apply wf_slice in Hw. rewrite Forall_forall in Hw. auto.
  - apply list_elem_of_fmap in Hx as (s & -> & _). done.
Qed.

Lemma wf_mget v m k x : wf_val v -> toMap v = Some m -> mget k m = Some x -> wf_val x.
Proof. intros Hw Hm Hg. eapply wf_elem_map; [done|done|by apply mget_Some_in]. Qed.

Lemma wf_map_mget m k x : wf_map m -> mget k m = Some x -> wf_val x.
Proof. intros Hw. by apply (wf_mget (VMap m)). Qed.

(** The comparison of two maps, given the comparison of their values. *)
Lemma map_equal_gequiv (f : gval -> gval -> bool) (x x' y y' : gomap) :
  uniq_keys x -> uniq_keys x' -> uniq_keys y -> uniq_keys y' ->
  mequiv x x' -> mequiv y y' ->
  (forall k u u' v v', mget k x = Some u -> mget k x' = Some u' ->
     mget k y = Some v -> mget k y' = Some v' -> gequiv u u' -> gequiv v v' ->
     f u v = true -> f u' v' = true) ->
  let eq (x y : gomap) := (length x =? length y)%nat
    && forallb (fun kv => match mget kv.1 y with Some bv => f kv.2 bv | None => false end) x in
  eq x y = true -> eq x' y' = true.
Proof.
  intros Ux Ux' Uy Uy' Hx Hy Hf eq. unfold eq. rewrite !andb_true_iff, !map_equal_spec by done.
  rewrite (mequiv_length x x'), (mequiv_length y y') by done. intros [Hl H]. split; [done|].
  intros k u' Hu'. pose proof (Hx k) as Hxk. rewrite Hu' in Hxk.
  inversion Hxk as [u u0 Hu Eu|]; subst. symmetry in Eu.
  destruct (H k u Eu) as (v & Hv & Hfv). pose proof (Hy k) as Hyk. rewrite Hv in Hyk.
  inversion Hyk as [v0 v' Hvv Q Ev|]; subst. exists v'. split; [done|].
  by eapply (Hf k u u' v v').
Qed.

Lemma equal_compound_gequiv (f : gval -> gval -> bool) a a' b b' :
  gequiv a a' -> gequiv b b' -> wf_val a -> wf_val a' -> wf_val b -> wf_val b' ->
  (forall x x' y y', (vsize x < vsize a)%nat -> gequiv x x' -> gequiv y y' ->
     wf_val x -> wf_val x' -> wf_val y -> wf_val y' -> f x y = true -> f x' y' = true) ->
  equal_compound f a b = true -> equal_compound f a' b' = true.
Proof.
  intros Ha Hb Wa Wa' Wb Wb' Hf. unfold equal_compound.
  pose proof (toSlice_gequiv _ _ Ha) as Hsa. pose proof (toSlice_gequiv _ _ Hb) as Hsb.
  pose proof (toMap_gequiv _ _ Ha) as Hma. pose proof (toMap_gequiv _ _ Hb) as Hmb.
  destruct (toSlice a) as [sa|] eqn:Esa, (toSlice a') as [sa'|] eqn:Esa', (toSlice b) as [sb|] eqn:Esb,
    (toSlice b') as [sb'|] eqn:Esb'; try (by inversion Hsa); try (by inversion Hsb).
  { inversion Hsa; inversion Hsb; subst. apply slice_equal_gequiv; [|done|done].
    intros x x' y y' Hx Hx' Hy Hy' ??. apply Hf; eauto using toSlice_elem_size, wf_elem_slice. }
  all: destruct (toMap a) as [ma|] eqn:Ema, (toMap a') as [ma'|] eqn:Ema', (toMap b) as [mb|] eqn:Emb,
    (toMap b') as [mb'|] eqn:Emb'; try (by inversion Hma); try (by inversion Hmb);
    try (intros; eapply (DeepEqual_gequiv a a' b b'); try done; tauto).
  all: inversion Hma; inversion Hmb; subst; apply map_equal_gequiv; eauto using toMap_uniq.
  all: intros k u u' v v' Hu Hu' Hv Hv' ??; apply Hf;
    eauto using toMap_elem_size, mget_Some_in, wf_mget.
Qed.

Lemma valuesEqual_gequiv a a' b b' :
  gequiv a a' -> gequiv b b' -> wf_val a -> wf_val a' -> wf_val b -> wf_val b' ->
  valuesEqual a b = true -> valuesEqual a' b' = true.
Proof.
  remember (vsize a) as n eqn:Hn. revert a a' b b' Hn.
  induction (lt_wf n) as [n _ IH]. intros a a' b b' -> Ha Hb Wa Wa' Wb Wb'.
  rewrite (valuesEqual_eq a b), (valuesEqual_eq a' b'). unfold equal_step.
  rewrite <- (toFloat64_gequiv _ _ Ha), <- (toFloat64_gequiv _ _ Hb).
  destruct (toFloat64 a), (toFloat64 b); [done|..];
    (apply equal_compound_gequiv; [done..|intros; by eapply (IH (vsize x) ltac:(done) x x' y y')]).
Qed.

Lemma asStr_gequiv x x' : gequiv x x' -> asStr x = asStr x'.
Proof. by destruct 1. Qed.

Lemma toStringSet_gequiv a a' : gequiv a a' -> toStringSet a = toStringSet a'.
Proof.
  intros H%toSlice_gequiv. unfold toStringSet. destruct H as [l l' H|]; [|done].
  generalize (Some ∅ : option (gset string)). induction H as [|x x' l l' Hx H IH]; intros o; [done|].
  simpl. rewrite (asStr_gequiv _ _ Hx). apply IH.
Qed.

Lemma leaf_equal_gequiv p a a' b b' :
  gequiv a a' -> gequiv b b' -> wf_val a -> wf_val a' -> wf_val b -> wf_val b' ->
  leaf_equal p a b = leaf_equal p a' b'.
Proof.
  intros Ha Hb Wa Wa' Wb Wb'. unfold leaf_equal. case_match.
  - unfold stringSetEqual. by rewrite (toStringSet_gequiv a a'), (toStringSet_gequiv b b').
  - apply Bool.eq_iff_eq_true. split; apply valuesEqual_gequiv; auto using gequiv_sym.
Qed.

Lemma masked_gequiv a a' : gequiv a a' -> masked a = masked a'.
Proof. by destruct 1. Qed.

(** A difference is found whatever the order in which the maps are visited. *)
Lemma differs_mequiv ex prefix d d' a a' p fd :
  differs ex prefix d a p fd -> wf_map d -> wf_map d' -> wf_map a -> wf_map a' ->
  mequiv d d' -> mequiv a a' -> exists fd', differs ex prefix d' a' p fd'.
Proof.
  intros H. revert d' a'. induction H as [prefix d a key dVal Hin Hx Ha
    |prefix d a key dVal aVal dMap aMap p fd Hin Hx Ha Hdm Ham Hd IH
    |prefix d a key dVal aVal Hin Hx Ha Hor Hk Hl]; intros d' a' Wd Wd' Wa Wa' Ed Ea;
    (apply mget_in in Hin; [|apply wf_vmap in Wd; tauto]);
    pose proof (Ed key) as Edk; rewrite Hin in Edk; inversion Edk as [? dv' Hdv Q Hd'|]; subst;
    pose proof (Ea key) as Eak; rewrite Ha in Eak; symmetry in Hd';
    pose proof (mget_Some_in _ _ _ Hd') as Hin'.
  - eexists. apply differs_missing; [done|done|]. by inversion Eak.
  - inversion Eak as [? av' Hav Q2 Ha'|]; subst. symmetry in Ha'.
    pose proof (toMap_gequiv _ _ Hdv) as Md. rewrite Hdm in Md.
    pose proof (toMap_gequiv _ _ Hav) as Ma. rewrite Ham in Ma.
    inversion Md as [? dMap' Md' Q3 Hdm'|]; inversion Ma as [? aMap' Ma' Q4 Ham'|]; subst.
    assert (Wv : forall v m, wf_val v -> toMap v = Some m -> wf_map m).
    { intros v m Hv Hm. apply wf_vmap. split; [by eapply toMap_uniq|].
      apply Forall_forall. intros [k x] Hkx. by eapply wf_elem_map. }
    destruct (IH dMap' aMap') as [fd' Hfd']; try done;
      [eapply Wv; [|done]; eapply wf_map_mget; [|done]; done..|].
    exists fd'. by eapply differs_nested.
  - inversion Eak as [? av' Hav Q2 Ha'|]; subst. symmetry in Ha'. eexists.
    eapply differs_value; try done.
    + pose proof (toMap_gequiv _ _ Hdv) as Md. pose proof (toMap_gequiv _ _ Hav) as Ma.
      destruct Hor as [Hn|Hn]; [left; rewrite Hn in Md; by inversion Md|].
      right. rewrite Hn in Ma. by inversion Ma.
    + by rewrite <- (masked_gequiv _ _ Hav).
    + rewrite <- Hl. symmetry. apply leaf_equal_gequiv; try done; (eapply wf_map_mget; [|done]; done).
Qed.

Lemma CompareSpecExcluding_dom_incl d d' a a' ex :
  wf_map d -> wf_map d' -> wf_map a -> wf_map a' -> mequiv d d' -> mequiv a a' ->
  dom (CompareSpecExcluding d a ex) ⊆ dom (CompareSpecExcluding d' a' ex).
Proof.
  intros Wd Wd' Wa Wa' Ed Ea p. rewrite elem_of_dom. intros [fd Hfd].
  apply CompareSpecExcluding_sound in Hfd.
  destruct (differs_mequiv _ _ _ d' _ a' _ _ Hfd) as [fd' H]; try done.
  by eapply CompareSpecExcluding_complete.
Qed.

(** ** Properties *)

(** C21: the comparison reports exactly the fields that differ: every reported path
    carries the observed and the desired value of a field that is missing or
    different there, and every such field's path is reported. *)
Theorem compare_spec_exact desired actual exclude path :
  (forall fd, CompareSpecExcluding desired actual exclude !! path = Some fd ->
     differs exclude EmptyString desired actual path fd) /\
  (path ∈ dom (CompareSpecExcluding desired actual exclude) <->
   exists fd, differs exclude EmptyString desired actual path fd).
Proof.
  split; [intros fd; apply CompareSpecExcluding_sound|]. split.
  - rewrite elem_of_dom. intros [fd Hfd]. exists fd. by apply CompareSpecExcluding_sound.
  - intros [fd Hfd]. by eapply CompareSpecExcluding_complete.
Qed.

(** Which paths are reported does not depend on the order in which Go visits
    the maps, at any depth, of either side. *)
Theorem compare_order_independent d d' a a' exclude :
  wf_map d -> wf_map d' -> wf_map a -> wf_map a' -> mequiv d d' -> mequiv a a' ->
  dom (CompareSpecExcluding d a exclude) = dom (CompareSpecExcluding d' a' exclude).
Proof.
  intros. apply set_eq. intros x.
  split; apply CompareSpecExcluding_dom_incl; auto using mequiv_sym.
Qed.

Definition order_d : gomap :=
  [("a", VInt 1); ("m", VMap [("x", VStr "u"); ("y", VStr "v")])].
Definition order_d' : gomap :=
  [("m", VMap [("y", VStr "v"); ("x", VStr "u")]); ("a", VInt 1)].
Definition order_a : gomap := [("m", VMap [("x", VStr "w")]); ("a", VInt 1)].

Lemma compare_order_independent_witness :
  dom (CompareSpecExcluding order_d order_a []) = dom (CompareSpecExcluding order_d' order_a []).
Proof.
  apply (compare_order_independent order_d order_d' order_a order_a []);
    [apply wf_valb_ok; reflexivity..| |apply mequiv_refl].
  intros k. unfold order_d, order_d'. cbn [mget].
  destruct (String.eqb_spec k "a") as [->|]; [repeat constructor|].
  destruct (String.eqb_spec k "m") as [->|]; [|constructor].
  cbn. constructor. apply gequiv_map. intros j. cbn [mget].
  destruct (String.eqb_spec j "x") as [->|]; [repeat constructor|].
  destruct (String.eqb_spec j "y") as [->|]; repeat constructor.
Defined.
