(* ===== verification/Sha256.v ===== *)
(** * SHA-256

    [crypto/sha256] and [crypto/hmac], as the write-only hash and the webhook
    signature use them: FIPS 180-4 over 32-bit words held in [Z]. *)
From Stdlib Require Import ZArith Lia Bool Ascii.
From Stdlib Require String.
From S2P Require Import Prelude GoStr.

Local Open Scope Z_scope.

Definition mask32 : Z := 2 ^ 32 - 1.
Definition add32 (x y : Z) : Z := Z.land (x + y) mask32.
Definition rotr (n x : Z) : Z := Z.lor (Z.shiftr x n) (Z.land (Z.shiftl x (32 - n)) mask32).
Definition not32 (x : Z) : Z := Z.lxor x mask32.

Definition Ch (x y z : Z) : Z := Z.lxor (Z.land x y) (Z.land (not32 x) z).
Definition Maj (x y z : Z) : Z := Z.lxor (Z.land x y) (Z.lxor (Z.land x z) (Z.land y z)).
Definition Sigma0 (x : Z) : Z := Z.lxor (rotr 2 x) (Z.lxor (rotr 13 x) (rotr 22 x)).
Definition Sigma1 (x : Z) : Z := Z.lxor (rotr 6 x) (Z.lxor (rotr 11 x) (rotr 25 x)).
Definition sigma0 (x : Z) : Z := Z.lxor (rotr 7 x) (Z.lxor (rotr 18 x) (Z.shiftr x 3)).
Definition sigma1 (x : Z) : Z := Z.lxor (rotr 17 x) (Z.lxor (rotr 19 x) (Z.shiftr x 10)).

(** The constants: 32 bits of the fractional parts of the cube roots, and of the
    square roots, of the first primes. *)
Definition primes : list Z :=
  List.filter (fun n => forallb (fun d => negb (n mod d =? 0)) (map Z.of_nat (seq 2 (Z.to_nat n - 2))))
              (map Z.of_nat (seq 2 310)).

(** The cube root rounded down, bit by bit from the top. *)
Fixpoint cbrt_bits (bits : nat) (root n : Z) : Z :=
  match bits with
  | O => root
  | S b => let r := root + 2 ^ Z.of_nat b in
           cbrt_bits b (if r * r * r <=? n then r else root) n
  end.

Definition K256 : list Z :=
  Eval vm_compute in map (fun q => Z.land (cbrt_bits 40 0 (q * 2 ^ 96)) mask32) (take 64 primes).

Definition H256 : list Z :=
  Eval vm_compute in map (fun q => Z.land (Z.sqrt (q * 2 ^ 64)) mask32) (take 8 primes).

Record sha_state := mkSha { sa : Z; sb : Z; sc : Z; sd : Z; se : Z; sf : Z; sg : Z; sh : Z }.

Definition sha_init : sha_state :=
  let h i := nth i H256 0 in
  mkSha (h 0%nat) (h 1%nat) (h 2%nat) (h 3%nat) (h 4%nat) (h 5%nat) (h 6%nat) (h 7%nat).

Definition be_word (l : list Z) : Z := foldl (fun acc b => acc * 256 + b) 0 l.

Fixpoint chunks {A} (fuel n : nat) (l : list A) : list (list A) :=
  match fuel, l with
  | O, _ | _, [] => []
  | S fuel, _ => take n l :: chunks fuel n (drop n l)
  end.

(** The message schedule, last word first. *)
Fixpoint extend (n : nat) (w : list Z) : list Z :=
  match n with
  | O => w
  | S n =>
    let at_ i := nth i w 0 in
    extend n (add32 (add32 (sigma1 (at_ 1%nat)) (at_ 6%nat))
                    (add32 (sigma0 (at_ 14%nat)) (at_ 15%nat)) :: w)
  end.

Definition sha_round (s : sha_state) (kw : Z * Z) : sha_state :=
  let t1 := add32 (add32 (sh s) (Sigma1 (se s)))
                  (add32 (Ch (se s) (sf s) (sg s)) (add32 kw.1 kw.2)) in
  let t2 := add32 (Sigma0 (sa s)) (Maj (sa s) (sb s) (sc s)) in
  mkSha (add32 t1 t2) (sa s) (sb s) (sc s) (add32 (sd s) t1) (se s) (sf s) (sg s).

Definition sha_block (s : sha_state) (block : list Z) : sha_state :=
  let w := reverse (extend 48 (reverse (map be_word (chunks 16 4 block)))) in
  let r := foldl sha_round s (zip K256 w) in
  mkSha (add32 (sa s) (sa r)) (add32 (sb s) (sb r)) (add32 (sc s) (sc r)) (add32 (sd s) (sd r))
        (add32 (se s) (se r)) (add32 (sf s) (sf r)) (add32 (sg s) (sg r)) (add32 (sh s) (sh r)).

Definition be_bytes (n : nat) (x : Z) : list Z :=
  map (fun i => Z.land (Z.shiftr x (8 * Z.of_nat i)) 255) (reverse (seq 0 n)).

Definition sha_pad (msg : list Z) : list Z :=
  let len := length msg in
  let zeros := ((119 - len mod 64) mod 64)%nat in
  msg ++ [0x80] ++ replicate zeros 0 ++ be_bytes 8 (8 * Z.of_nat len).

(** [sha256.Sum256], on bytes. *)
Definition sha256_bytes (msg : list Z) : list Z :=
  let p := sha_pad msg in
  let s := foldl sha_block sha_init (chunks (length p) 64 p) in
  concat (map (be_bytes 4) [sa s; sb s; sc s; sd s; se s; sf s; sg s; sh s]).

Definition Sum256 (data : string) : list Z := sha256_bytes (map byteZ (bytes_of data)).

(** [fmt.Sprintf("%x", h)] and [hex.EncodeToString]. *)
Definition hex_encode (l : list Z) : string := of_bytes (concat (map hex2 l)).

(** [hmac.New(sha256.New, key)] over [data]. *)
Definition hmac_sha256 (key data : string) : list Z :=
  let k := map byteZ (bytes_of key) in
  let k0 := if (64 <? length k)%nat then sha256_bytes k else k in
  let padded := k0 ++ replicate (64 - length k0) 0 in
  sha256_bytes (map (Z.lxor 0x5c) padded
                ++ sha256_bytes (map (Z.lxor 0x36) padded ++ map byteZ (bytes_of data))).

(** ** Test vectors and lengths *)

Example Sum256_abc :
  hex_encode (Sum256 "abc") = "ba7816bf8f01cfea414140de5dae2223b00361a396177a9cb410ff61f20015ad"%string.
Proof. vm_compute. reflexivity. Qed.

Example hmac_fox :
  hex_encode (hmac_sha256 "key" "The quick brown fox jumps over the lazy dog")
  = "f7bc83f430538424b13298e6aa6fb143ef4d59a14946175997479dbc2d1a3cd8"%string.
Proof. vm_compute. reflexivity. Qed.

Lemma be_bytes_length n x : length (be_bytes n x) = n.
Proof. unfold be_bytes. by rewrite length_map, length_reverse, length_seq. Qed.

Lemma Sum256_length s : length (Sum256 s) = 32%nat.
Proof. unfold Sum256, sha256_bytes. cbv zeta. cbn [map concat]. by rewrite !length_app, !be_bytes_length. Qed.

Lemma of_bytes_length l : String.length (of_bytes l) = length l.
Proof. induction l; simpl; auto. Qed.

Lemma hex_encode_length l : String.length (hex_encode l) = (2 * length l)%nat.
Proof.
  unfold hex_encode. rewrite of_bytes_length.
  induction l as [|x l IH]; simpl in *; [done|]. rewrite IH. lia.
Qed.

(** The digits of a hash are ASCII. *)
Lemma be_bytes_range n x : Forall (fun b => 0 <= b < 256) (be_bytes n x).
Proof.
  apply Forall_map, Forall_forall. intros i _. change 255 with (Z.ones 8).
  rewrite Z.land_ones by lia. by apply Z.mod_pos_bound.
Qed.

Lemma Sum256_range s : Forall (fun b => 0 <= b < 256) (Sum256 s).
Proof.
  unfold Sum256, sha256_bytes. cbv zeta. cbn [map concat].
  rewrite !Forall_app. repeat split; try apply be_bytes_range. constructor.
Qed.

Lemma hexdigit_ascii n : 0 <= n < 16 -> byteZ (hexdigit n) < 128.
Proof. intros H. unfold hexdigit. destruct (Z.ltb_spec n 10); rewrite byteZ_byte_of by lia; lia. Qed.

Lemma hex_encode_ascii l : Forall (fun b => 0 <= b < 256) l -> ascii_string (hex_encode l) = true.
Proof.
  unfold ascii_string, hex_encode. rewrite String.list_ascii_of_string_of_list_ascii, forallb_Forall.
  induction 1 as [|b l Hb _ IH]; [constructor|]. cbn [map concat hex2 app].
  assert (0 <= b / 16 < 16) by (split; [apply Z.div_pos; lia|apply Z.div_lt_upper_bound; lia]).
  pose proof (Z.mod_pos_bound b 16 ltac:(lia)).
  repeat constructor; [by apply Z.ltb_lt, hexdigit_ascii..|exact IH].
Qed.
