(* ===== verification/Json.v ===== *)
(** * JSON encoding

    [json.Marshal] on the dynamic values: sorted map keys, HTML-safe strings and
    the shortest decimal that reads back as the same floating-point number.  The
    digits are found by exact integer arithmetic: the shortest decimal within
    half a unit in the last place, at most 17 digits. *)
From Stdlib Require Import ZArith Lia Bool Ascii.
From Stdlib Require Import Floats.SpecFloat.
From Stdlib Require String.
From S2P Require Import Prelude GoStr GoValue Filepath.

Local Open Scope Z_scope.

(** ** Strings *)

Definition json_escape (x : runeseg) : list ascii :=
  let '(r, bs) := x in
  if (r =? RuneError) && (length bs =? 1)%nat then bytes_of "\ufffd"
  else if (r =? 34) || (r =? 92) then [byte_of 92; byte_of r]
  else if r =? 8 then bytes_of "\b" else if r =? 12 then bytes_of "\f"
  else if r =? 10 then bytes_of "\n" else if r =? 13 then bytes_of "\r"
  else if r =? 9 then bytes_of "\t"
  else if (r <? 32) || (r =? 60) || (r =? 62) || (r =? 38) then bytes_of "\u00" ++ hex2 r
  else if r =? 8232 then bytes_of "\u2028" else if r =? 8233 then bytes_of "\u2029"
  else bs.

Definition json_string (s : string) : string :=
  of_bytes (byte_of 34 :: concat (map json_escape (decode (bytes_of s))) ++ [byte_of 34]).

(** ** Numbers *)

(** A positive rational [num / den]. *)
Definition scale2 (m e : Z) : Z * Z := if 0 <=? e then (m * 2 ^ e, 1) else (m, 2 ^ (- e)).

(** [x * 10^k] compared with the rational [v] after scaling. *)
Definition cmp_dec (c k : Z) (v : Z * Z) : comparison :=
  if 0 <=? k then (c * 10 ^ k * v.2 ?= v.1) else (c * v.2 ?= v.1 * 10 ^ (- k)).

(** The largest [x] with [10^x <= v], searched downwards. *)
Fixpoint log10_down (fuel : nat) (x : Z) (v : Z * Z) : Z :=
  match fuel with
  | O => x
  | S f => match cmp_dec 1 x v with Gt => log10_down f (x - 1) v | _ => x end
  end.

Definition floor_dec (k : Z) (v : Z * Z) : Z :=
  if 0 <=? k then v.1 / (v.2 * 10 ^ k) else v.1 * 10 ^ (- k) / v.2.

(** The candidates with [n] digits inside the rounding interval, nearest first. *)
Definition candidates (v lo hi : Z * Z) (incl : bool) (k : Z) : list Z :=
  let c := floor_dec k v in
  let ok d := match cmp_dec d k lo, cmp_dec d k hi with
              | Gt, Lt => true
              | Eq, _ | _, Eq => incl
              | _, _ => false
              end in
  let mid := cmp_dec (2 * c + 1) k (2 * v.1, v.2) in
  let order := match mid with
               | Gt => [c; c + 1]
               | Lt => [c + 1; c]
               | Eq => if Z.even c then [c; c + 1] else [c + 1; c]
               end in
  List.filter ok order.

Fixpoint shortest_from (fuel : nat) (n x : Z) (v lo hi : Z * Z) (incl : bool) : Z * Z :=
  match candidates v lo hi incl (x - n + 1) with
  | d :: _ => (d, n)
  | [] => match fuel with
          | O => (floor_dec (x - n + 1) v, n)
          | S f => shortest_from f (n + 1) x v lo hi incl
          end
  end.

(** The digits and the decimal point of a finite float with [prec] bits. *)
Definition shortest (prec emin : Z) (m : positive) (e : Z) : string * Z :=
  let v := scale2 (Zpos m) e in
  let hi := scale2 (2 * Zpos m + 1) (e - 1) in
  let lo := if (Zpos m =? 2 ^ (prec - 1)) && (emin <? e)
            then scale2 (4 * Zpos m - 1) (e - 2) else scale2 (2 * Zpos m - 1) (e - 1) in
  let x := log10_down 700 310 v in
  let '(d, n) := shortest_from 16 1 x v lo hi (Z.even (Zpos m)) in
  if d =? 10 ^ n then (Itoa 1, x + 2) else (Itoa d, x + 1).

Fixpoint zeros (n : nat) : string :=
  match n with O => EmptyString | S n => String "0" (zeros n) end.

(** [%f] with the shortest precision: [decpt] digits before the point. *)
Definition format_f (ds : string) (decpt : Z) : string :=
  let nd := Z.of_nat (String.length ds) in
  if decpt <=? 0 then "0." +:+ zeros (Z.to_nat (- decpt)) +:+ ds
  else if nd <=? decpt then ds +:+ zeros (Z.to_nat (decpt - nd))
  else String.substring 0 (Z.to_nat decpt) ds +:+ "."
       +:+ String.substring (Z.to_nat decpt) (Z.to_nat (nd - decpt)) ds.

(** [%e] with the shortest precision and the exponent's leading zero removed. *)
Definition format_e (ds : string) (decpt : Z) : string :=
  let x := decpt - 1 in
  let frac := String.substring 1 (String.length ds - 1) ds in
  String.substring 0 1 ds +:+ (if String.eqb frac EmptyString then EmptyString else "." +:+ frac)
  +:+ "e" +:+ (if x <? 0 then "-" else "+") +:+ Itoa (Z.abs x).

Definition json_float (prec emin : Z) (f : spec_float) : option string :=
  match f with
  | S754_zero s => Some (if s then "-0" else "0")%string
  | S754_infinity _ | S754_nan => None
  | S754_finite s m e =>
    let '(ds, decpt) := shortest prec emin m e in
    (* [abs < 1e-6 || abs >= 1e21] *)
    let body := if (decpt <? -5) || (21 <? decpt) then format_e ds decpt else format_f ds decpt in
    Some ((if s then "-" else EmptyString) +:+ body)
  end.

(** ** Values *)

(** The members of an object with their encoded values, [None] on an error. *)
Fixpoint seq_opt {A} (l : list (A * option string)) : option (list (A * string)) :=
  match l with
  | [] => Some []
  | (k, Some s) :: l' => option_map (cons (k, s)) (seq_opt l')
  | (_, None) :: _ => None
  end.

Definition json_array (l : list string) : string := "[" +:+ Join l "," +:+ "]".

Definition json_object (m : list (string * string)) : string :=
  "{" +:+ Join (map (fun kv => json_string kv.1 +:+ ":" +:+ kv.2) m) "," +:+ "}".

Fixpoint Marshal (v : gval) : option string :=
  match v with
  | VNil => Some "null"%string
  | VBool b => Some (if b then "true" else "false")%string
  | VInt z | VInt64 z => Some (Itoa z)
  | VFloat64 f => json_float 53 (-1074) f
  | VFloat32 f => json_float 24 (-149) f
  | VStr s => Some (json_string s)
  | VStrs l => Some (json_array (map json_string l))
  | VSlice l =>
    option_map (fun xs => json_array (map snd xs)) (seq_opt (map (fun x => (tt, Marshal x)) l))
  | VMap m =>
    option_map json_object
      (seq_opt (sort_by fst (map (fun kv => (kv.1, Marshal kv.2)) m)))
  | VAnyMap _ => None
  | VOther _ repr => Some repr
  end.

(** ** Order independence *)

Lemma mget_eq_perm {A} (m m' : list (string * A)) :
  uniq_keys m -> uniq_keys m' -> (forall k, mget k m = mget k m') -> m ≡ₚ m'.
Proof.
  intros Hu Hu' He. apply NoDup_Permutation.
  - by eapply NoDup_fmap_1.
  - by eapply NoDup_fmap_1.
  - intros [k v]. split; intros Hin; apply mget_Some_in; [rewrite <- He|rewrite He]; by apply mget_in.
Qed.

Lemma mget_map {A B} (f : A -> B) k (m : list (string * A)) :
  mget k (map (fun kv => (kv.1, f kv.2)) m) = option_map f (mget k m).
Proof. induction m as [|[k' v] m IH]; simpl; [done|]. by case_match. Qed.

Lemma mkeys_map {A B} (f : A -> B) (m : list (string * A)) :
  mkeys (map (fun kv => (kv.1, f kv.2)) m) = mkeys m.
Proof. unfold mkeys. by rewrite map_map. Qed.
