(* ===== verification/WriteOnly.v ===== *)
(** * The write-only hash

    [internal/reconciler/write_only_hash.go]: the SHA-256 digest that stands for
    the fields the API never returns. *)
From Stdlib Require Import ZArith Lia Bool Ascii Sorted.
From Stdlib Require String.
From S2P Require Import Prelude GoStr GoValue Filepath Compare Json Sha256.

Local Open Scope string_scope.

Definition WriteOnlyHashField : string := "writeOnlyHash".

(** The write-only fields present and not ignored, with their values. *)
Definition hashed_pairs (spec : gomap) (writeOnlyFields ignoreFields : list string) : gomap :=
  omap (fun field =>
          if existsb (String.eqb field) ignoreFields then None
          else match mget field spec with
               | None => None
               | Some val => Some (field, val)
               end) writeOnlyFields.

Definition HashWriteOnlyFields (spec : gomap) (writeOnlyFields ignoreFields : list string) : string :=
  match hashed_pairs spec writeOnlyFields ignoreFields with
  | [] => EmptyString
  | pairs =>
    let ordered := concat (map (fun p => [VStr p.1; p.2]) (sort_by fst pairs)) in
    match Marshal (VSlice ordered) with
    | None => EmptyString
    | Some data => hex_encode (Sum256 data)
    end
  end.

(** ** JSON does not depend on the iteration order *)

Lemma Marshal_gequiv a b : gequiv a b -> wf_val a -> wf_val b -> Marshal a = Marshal b.
Proof.
  remember (vsize a) as n eqn:Hn. revert a b Hn.
  induction (lt_wf n) as [n _ IH]. intros a b -> H Wa Wb. destruct H as [v|l k H|m m' H]; [done|..].
  - cbn [Marshal]. do 2 f_equal.
    assert (Hl : forall x, x ∈ l -> (vsize x < vsize (VSlice l))%nat)
      by (intros x Hx; by eapply toSlice_elem_size).
    apply wf_slice in Wa, Wb. clear -H IH Hl Wa Wb.
    induction H as [|x y l' k' Hxy H IHl]; simpl; [done|].
    apply Forall_cons in Wa as [Wx Wa], Wb as [Wy Wb].
    assert (Hx : Marshal x = Marshal y) by (eapply IH; [apply Hl; left|done..]).
    rewrite Hx. f_equal. apply IHl; [|done|done|].
    + intros z Hz a b -> ???. eapply IH; [|done|done..]. simpl in *. lia.
    + intros z Hz. by eapply toSlice_elem_size.
  - cbn [Marshal]. do 2 f_equal.
    pose proof Wa as Wa2. pose proof Wb as Wb2. apply wf_vmap in Wa2 as [Ua _], Wb2 as [Ub _].
    apply sort_by_ext.
    { change (uniq_keys (map (fun kv => (kv.1, Marshal kv.2)) m)). unfold uniq_keys.
      by rewrite (mkeys_map Marshal). }
    apply mget_eq_perm; [unfold uniq_keys; by rewrite (mkeys_map Marshal)..|].
    intros k. rewrite !(mget_map Marshal). specialize (H k).
    destruct (mget k m) as [v|] eqn:E, (mget k m') as [v'|] eqn:E'; inversion H; subst; [|done].
    simpl. f_equal. eapply IH; [by eapply (toMap_elem_size (VMap m)), mget_Some_in|done|done|..];
      (eapply wf_map_mget; [|done]; done).
Qed.

(** ** What the hash depends on *)

Lemma hashed_pairs_keys spec wo ig p :
  p ∈ hashed_pairs spec wo ig ->
  p.1 ∈ wo /\ existsb (String.eqb p.1) ig = false /\ mget p.1 spec = Some p.2.
Proof.
  unfold hashed_pairs. rewrite list_elem_of_omap. intros (f & Hf & H).
  destruct (existsb (String.eqb f) ig) eqn:E; [done|].
  destruct (mget f spec) eqn:Eg; [|done]. by injection H as <-.
Qed.

(** Fields and pairs of two specs, in the same order. *)
Lemma hashed_pairs_mequiv spec spec' wo ig :
  (forall f, f ∈ wo -> existsb (String.eqb f) ig = false ->
     option_Forall2 gequiv (mget f spec) (mget f spec')) ->
  Forall2 (fun x y => x.1 = y.1 /\ gequiv x.2 y.2)
    (hashed_pairs spec wo ig) (hashed_pairs spec' wo ig).
Proof.
  unfold hashed_pairs. induction wo as [|f wo IH]; intros H; simpl; [constructor|].
  assert (IH' := IH (fun g Hg => H g (list_elem_of_further _ _ _ Hg))). clear IH.
  destruct (existsb (String.eqb f) ig) eqn:E; [done|].
  specialize (H f (list_elem_of_here _ _) E).
  destruct H; [|done]. by constructor.
Qed.

Lemma insert_by_Forall2 {A} (R : string * A -> string * A -> Prop) x y l k :
  (forall x y, R x y -> x.1 = y.1) -> R x y -> Forall2 R l k ->
  Forall2 R (insert_by fst x l) (insert_by fst y k).
Proof.
  intros HR Hxy. induction 1 as [|u v l k Huv H IH]; simpl; [by repeat constructor|].
  rewrite (HR _ _ Hxy), (HR _ _ Huv). case_match; by repeat constructor.
Qed.

Lemma sort_by_Forall2 {A} (R : string * A -> string * A -> Prop) l k :
  (forall x y, R x y -> x.1 = y.1) -> Forall2 R l k ->
  Forall2 R (sort_by fst l) (sort_by fst k).
Proof.
  intros HR. unfold sort_by. induction 1; simpl; [constructor|]. by apply insert_by_Forall2.
Qed.

Lemma hash_of_pairs_gequiv (ps qs : gomap) :
  Forall2 (fun x y => x.1 = y.1 /\ gequiv x.2 y.2) ps qs ->
  Forall (fun x => wf_val x.2) ps -> Forall (fun x => wf_val x.2) qs ->
  Marshal (VSlice (concat (map (fun p => [VStr p.1; p.2]) (sort_by fst ps)))) =
  Marshal (VSlice (concat (map (fun p => [VStr p.1; p.2]) (sort_by fst qs)))).
Proof.
  intros H Wp Wq.
  assert (Hs : Forall2 (fun x y => x.1 = y.1 /\ gequiv x.2 y.2) (sort_by fst ps) (sort_by fst qs))
    by (apply sort_by_Forall2; [by intros ?? [??]|done]).
  rewrite <- (sort_by_perm fst ps) in Wp. rewrite <- (sort_by_perm fst qs) in Wq.
  apply Marshal_gequiv.
  - apply gequiv_slice. clear -Hs. induction Hs as [|x y l k [Hk Hv] H IH]; simpl; [constructor|].
    rewrite Hk. constructor; [apply gequiv_refl|by constructor].
  - apply wf_slice, Forall_concat_iff. apply Forall_map.
    eapply Forall_impl; [exact Wp|]. intros x Hx. by repeat constructor.
  - apply wf_slice, Forall_concat_iff. apply Forall_map.
    eapply Forall_impl; [exact Wq|]. intros x Hx. by repeat constructor.
Qed.

Lemma hashed_pairs_wf spec wo ig : wf_map spec -> Forall (fun x => wf_val x.2) (hashed_pairs spec wo ig).
Proof.
  intros W. apply Forall_forall. intros p Hp. apply hashed_pairs_keys in Hp as (_ & _ & Hp).
  by eapply wf_map_mget.
Qed.

(** Two specs with the same hashed fields, up to iteration order, hash alike. *)
Lemma Hash_agree spec spec' wo ig :
  wf_map spec -> wf_map spec' ->
  (forall f, f ∈ wo -> existsb (String.eqb f) ig = false ->
     option_Forall2 gequiv (mget f spec) (mget f spec')) ->
  HashWriteOnlyFields spec wo ig = HashWriteOnlyFields spec' wo ig.
Proof.
  intros W W' H. apply hashed_pairs_mequiv in H. unfold HashWriteOnlyFields.
  pose proof (hash_of_pairs_gequiv _ _ H (hashed_pairs_wf _ _ _ W) (hashed_pairs_wf _ _ _ W')) as Hm.
  destruct H as [|x y l k Hxy H]; [done|]. cbv zeta. by rewrite Hm.
Qed.

(** A hash is empty or 64 hexadecimal digits. *)
Lemma Hash_length spec wo ig :
  HashWriteOnlyFields spec wo ig = EmptyString \/
  String.length (HashWriteOnlyFields spec wo ig) = 64%nat.
Proof.
  unfold HashWriteOnlyFields. destruct (hashed_pairs spec wo ig); [by left|]. cbv zeta.
  case_match; [|by left]. right. by rewrite hex_encode_length, Sum256_length.
Qed.

(** ** Order of the field list *)

Lemma hashed_pairs_perm spec wo wo' ig :
  wo ≡ₚ wo' -> hashed_pairs spec wo ig ≡ₚ hashed_pairs spec wo' ig.
Proof. intros H. unfold hashed_pairs. by rewrite H. Qed.

Lemma hashed_pairs_uniq spec wo ig : NoDup wo -> uniq_keys (hashed_pairs spec wo ig).
Proof.
  unfold uniq_keys, mkeys, hashed_pairs. induction 1 as [|f wo Hf Hn IH]; simpl; [constructor|].
  destruct (existsb (String.eqb f) ig); [done|]. destruct (mget f spec); [|done].
  simpl. apply NoDup_cons. split; [|done]. intros Hin.
  apply list_elem_of_fmap in Hin as (p & Hp & Hin).
  apply hashed_pairs_keys in Hin as [Hin _]. rewrite <- Hp in Hin. done.
Qed.

Lemma Hash_perm spec wo wo' ig :
  NoDup wo -> wo ≡ₚ wo' -> HashWriteOnlyFields spec wo ig = HashWriteOnlyFields spec wo' ig.
Proof.
  intros Hn Hp. unfold HashWriteOnlyFields.
  pose proof (hashed_pairs_perm spec _ _ ig Hp) as Hpp.
  pose proof (sort_by_ext fst _ _ (hashed_pairs_uniq spec wo ig Hn) Hpp) as Hs.
  destruct (hashed_pairs spec wo ig) as [|p ps] eqn:E.
  - apply Permutation_nil in Hpp. by rewrite Hpp.
  - destruct (hashed_pairs spec wo' ig) as [|q qs]; [by apply Permutation_sym, Permutation_nil in Hpp|].
    cbv zeta. by rewrite Hs.
Qed.

(** ** Properties *)

(** C22: the write-only hash depends only on the hashed fields: neither the order
    in which Go visits maps, nor the order of the field list, nor any field that
    is not write-only or is ignored changes it; it is empty or 64 characters. *)
Theorem hash_stable spec spec' wo wo' ig :
  wf_map spec -> wf_map spec' -> NoDup wo -> wo ≡ₚ wo' ->
  (forall f, f ∈ wo -> existsb (String.eqb f) ig = false ->
     option_Forall2 gequiv (mget f spec) (mget f spec')) ->
  HashWriteOnlyFields spec wo ig = HashWriteOnlyFields spec' wo' ig /\
  (HashWriteOnlyFields spec wo ig = EmptyString \/
   String.length (HashWriteOnlyFields spec wo ig) = 64%nat).
Proof.
  intros W W' Hn Hp Hf. split; [|apply Hash_length].
  rewrite (Hash_agree spec spec' wo ig W W' Hf). by apply Hash_perm.
Qed.

Definition hash_spec : gomap :=
  [("name", VStr "n1"); ("env", VMap [("A", VStr "1"); ("B", VStr "2")]); ("token", VStr "t")].
Definition hash_spec' : gomap :=
  [("token", VStr "t"); ("env", VMap [("B", VStr "2"); ("A", VStr "1")]); ("name", VStr "n2")].

Lemma hash_stable_witness :
  HashWriteOnlyFields hash_spec ["token"; "env"; "gone"] ["x"]
  = HashWriteOnlyFields hash_spec' ["env"; "gone"; "token"] ["x"].
Proof.
  apply (hash_stable hash_spec hash_spec' ["token"; "env"; "gone"] ["env"; "gone"; "token"] ["x"]);
    [apply wf_valb_ok; reflexivity..|apply (bool_decide_unpack _); vm_compute; exact I| |].
  - apply (bool_decide_unpack _). vm_compute. exact I.
  - intros f Hf _. repeat (apply elem_of_cons in Hf as [->|Hf]); [..|by apply not_elem_of_nil in Hf];
      cbn; repeat constructor.
    intros j. cbn [mget]. destruct (String.eqb_spec j "A") as [->|]; [repeat constructor|].
    destruct (String.eqb_spec j "B") as [->|]; repeat constructor.
Defined.
