(* ===== verification/Engine.v ===== *)
(** * The reconciliation engine

    [internal/reconciler/engine.go] and [types.go]: Observe, Compare, Act over a
    provider.  The provider is an interface ([ProviderInterface]): a record of
    operations on a world [W] that also holds the process environment the secrets
    are read from.  Within one kind [Concurrency > 1] runs the operations in
    goroutines; the order in which they reach the provider and the result mutex is
    a [Schedule], and file [EngineConc] derives it from the interleavings of the
    goroutines.  Log records are not modelled, except the warning of
    [warnBlindNoop]. *)
From Stdlib Require Import ZArith Lia Bool Ascii.
From Stdlib Require String.
From S2P Require Import Prelude GoStr GoValue Filepath Manifest Secrets Compare WriteOnly.

Local Open Scope string_scope.

(** ** types.go *)

(** [ActionUnset] is the zero value. *)
Inductive Action := ActionUnset | ActionCreate | ActionUpdate | ActionNoop | ActionDelete.

#[export] Instance Action_eq_dec : EqDecision Action.
Proof. solve_decision. Defined.

Record Change := mkChange {
  ch_Kind : ResourceKind;
  ch_Name : string;
  ch_Action : Action;
  ch_Diff : diffmap;
  ch_Error : string;
  ch_Forced : bool;
  ch_WriteOnlyHash : string
}.

Definition zeroChange : Change := mkChange "" "" ActionUnset ∅ "" false "".

Record Plan := mkPlan {
  Changes : list Change;
  Creates : nat;
  Updates : nat;
  Deletes : nat;
  Noops : nat;
  PlanErrors : list string
}.

Definition emptyPlan : Plan := mkPlan [] 0 0 0 0 [].

Record ReconcileOpts := mkOpts {
  DryRun : bool;
  Prune : bool;
  Force : bool;
  Concurrency : Z
}.

Record ApplyResult := mkApplyResult {
  Applied : nat;
  Failed : nat;
  Errors : list string
}.

Definition emptyResult : ApplyResult := mkApplyResult 0 0 [].

Record ResourceInfo := mkResourceInfo {
  ri_Kind : ResourceKind;
  ri_Name : string;
  ri_CreatedBy : string;
  ri_Source : string;
  ri_IsSystem : bool
}.

(** ** The provider interface *)

Record ProviderInterface (W : Type) := mkProvider {
  Observe : ResourceKind -> string -> M W (option gomap);
  Create : ResourceKind -> string -> gomap -> M W unit;
  Update : ResourceKind -> string -> gomap -> M W unit;
  Delete : ResourceKind -> string -> M W unit;
  ListAll : ResourceKind -> M W (list ResourceInfo)
}.
Arguments Observe {W} p kind key : rename.
Arguments Create {W} p kind key spec : rename.
Arguments Update {W} p kind key spec : rename.
Arguments Delete {W} p kind key : rename.
Arguments ListAll {W} p kind : rename.

(** The orders in which the goroutines of one kind run, given the indices they
    were started for. *)
Record Schedule := mkSchedule {
  observe_order : ResourceKind -> list nat -> list nat;
  execute_order : ResourceKind -> list nat -> list nat;
  record_order : ResourceKind -> list nat -> list nat
}.

Definition sequential : Schedule :=
  mkSchedule (fun _ l => l) (fun _ l => l) (fun _ l => l).

(** Every goroutine runs exactly once. *)
Class FairSchedule (sch : Schedule) : Prop := {
  observe_perm k l : observe_order sch k l ≡ₚ l;
  execute_perm k l : execute_order sch k l ≡ₚ l;
  record_perm k l : record_order sch k l ≡ₚ l
}.

#[export] Instance sequential_fair : FairSchedule sequential.
Proof. by split. Qed.

(** ** Counting *)

Definition count_change (plan : Plan) (res : Resource) (change : Change) : Plan :=
  let act := ch_Action change in
  mkPlan (Changes plan ++ [change])
    (if bool_decide (act = ActionCreate) then S (Creates plan) else Creates plan)
    (if bool_decide (act = ActionUpdate) then S (Updates plan) else Updates plan)
    (Deletes plan)
    (if bool_decide (act = ActionNoop) then S (Noops plan) else Noops plan)
    (if String.eqb (ch_Error change) "" then PlanErrors plan
     else PlanErrors plan ++ [Kind res +:+ "/" +:+ Name res +:+ ": " +:+ ch_Error change])%list.

Definition count_delete (plan : Plan) (c : Change) : Plan :=
  mkPlan (Changes plan) (Creates plan) (Updates plan)
    (if bool_decide (ch_Action c = ActionDelete) then S (Deletes plan) else Deletes plan)
    (Noops plan) (PlanErrors plan).

Definition add_changes (plan : Plan) (cs : list Change) : Plan :=
  mkPlan (Changes plan ++ cs)%list (Creates plan) (Updates plan) (Deletes plan)
    (Noops plan) (PlanErrors plan).

Definition add_result (r k : ApplyResult) : ApplyResult :=
  mkApplyResult (Applied r + Applied k) (Failed r + Failed k) (Errors r ++ Errors k)%list.

(** [result.Failed++] with its message, or [result.Applied++]. *)
Definition record_outcome (result : ApplyResult) (kind : ResourceKind) (name : string)
    (err : option error) : ApplyResult :=
  match err with
  | Some e => mkApplyResult (Applied result) (S (Failed result))
                (Errors result ++ [kind +:+ "/" +:+ name +:+ ": " +:+ Error e])%list
  | None => mkApplyResult (S (Applied result)) (Failed result) (Errors result)
  end.

(** The guard of both execute loops. *)
Definition skipped (change : Change) : bool :=
  bool_decide (ch_Action change = ActionNoop) || negb (String.eqb (ch_Error change) "").

(** The kinds the prune phase passes over. *)
Definition unprunable (kind : ResourceKind) : bool :=
  String.eqb kind KindSkill || String.eqb kind KindBuiltinToolConfig
  || String.eqb kind KindSkillConfig || String.eqb kind KindSystemConfig
  || String.eqb kind KindMCPCredentials || String.eqb kind KindSecureCLIGrant.

Definition in_manifest (m : Manifest) (kind : ResourceKind) (name : string) : bool :=
  existsb (fun r => String.eqb (Kind r) kind && String.eqb (Name r) name) (Resources m).

(** ** reconcileContext *)

Record reconcileContext := mkRc {
  rc_resource : Resource;
  rc_spec : gomap;
  rc_current : option gomap;
  rc_change : Change;
  rc_force : bool;
  rc_warned : option (list string)   (** the fields of the warning logged *)
}.

Definition set_action (c : Change) (a : Action) : Change :=
  mkChange (ch_Kind c) (ch_Name c) a (ch_Diff c) (ch_Error c) (ch_Forced c) (ch_WriteOnlyHash c).

Definition rc_with_change (rc : reconcileContext) (c : Change) : reconcileContext :=
  mkRc (rc_resource rc) (rc_spec rc) (rc_current rc) c (rc_force rc) (rc_warned rc).

(** [val == nil], an empty map or slice, or an empty string. *)
Definition trivial_value (v : gval) : bool :=
  match v with
  | VNil | VMap [] | VSlice [] => true
  | VStr s => String.eqb s ""
  | _ => false
  end.

Definition warnBlindNoop (rc : reconcileContext) (desiredHash observedHash : string) :
    option (list string) :=
  if negb (String.eqb desiredHash "") && negb (String.eqb observedHash "") then None
  else
    let present := List.filter
      (fun field => match mget field (rc_spec rc) with
                    | None => false
                    | Some v => negb (trivial_value v)
                    end) (WriteOnlyFields (Kind (rc_resource rc))) in
    match present with [] => None | _ => Some present end.

(** The hash carried by the change; "" when tracking is turned off. *)
Definition desired_hash (res : Resource) (spec : gomap) : string :=
  if String.eqb (strget AnnotationIgnoreWriteOnly (Annotations res)) "true" then ""
  else HashWriteOnlyFields spec (WriteOnlyFields (Kind res)) (ParseIgnoreFields (Annotations res)).

(** [hashesDiffer && (observedHash != "" || canAutoHeal)]. *)
Definition hash_drift (kind : ResourceKind) (desiredHash observedHash : string) : bool :=
  let hashesDiffer := negb (String.eqb desiredHash "") && negb (String.eqb desiredHash observedHash) in
  let canAutoHeal := String.eqb observedHash "" && SupportsWriteOnlyHash kind in
  hashesDiffer && (negb (String.eqb observedHash "") || canAutoHeal).

Definition stepCompare (rc : reconcileContext) : reconcileContext * option error :=
  let res := rc_resource rc in
  if String.eqb (strget AnnotationSyncPolicy (Annotations res)) SyncPolicyIgnore then
    (rc_with_change rc (set_action (rc_change rc) ActionNoop), None)
  else
  let c0 := rc_change rc in
  let desiredHash :=
    if String.eqb (strget AnnotationIgnoreWriteOnly (Annotations res)) "true"
    then ch_WriteOnlyHash c0 else desired_hash res (rc_spec rc) in
  let c := mkChange (ch_Kind c0) (ch_Name c0) (ch_Action c0) (ch_Diff c0) (ch_Error c0)
                    (ch_Forced c0) desiredHash in
  match rc_current rc with
  | None => (rc_with_change rc (set_action c ActionCreate), None)
  | Some current =>
    let diffs := CompareSpecExcluding (rc_spec rc) current (WriteOnlyFields (Kind res)) in
    let observedHash := getStr WriteOnlyHashField current in
    let diffs :=
      if hash_drift (Kind res) desiredHash observedHash
      then <[ WriteOnlyHashField := mkFieldDiff (VStr observedHash) (VStr desiredHash) ]> diffs
      else diffs in
    if bool_decide (diffs = ∅) then
      if rc_force rc then
        (rc_with_change rc (mkChange (ch_Kind c) (ch_Name c) ActionUpdate (ch_Diff c)
                              (ch_Error c) true (ch_WriteOnlyHash c)), None)
      else
        (mkRc res (rc_spec rc) (rc_current rc) (set_action c ActionNoop) (rc_force rc)
              (warnBlindNoop rc desiredHash observedHash), None)
    else
      (rc_with_change rc (mkChange (ch_Kind c) (ch_Name c) ActionUpdate diffs
                            (ch_Error c) (ch_Forced c) (ch_WriteOnlyHash c)), None)
  end.

(** ** Secrets in specs *)

Section resolve.
Context {U : Unicode}.

Fixpoint resolveValue (env : Env) (v : gval) : gval :=
  match v with
  | VStr val =>
    match Resolve env val with
    | (_, Some _) => VStr val
    | (resolved, None) => VStr resolved
    end
  | VMap m => VMap (map (fun kv => (kv.1, resolveValue env kv.2)) m)
  | VSlice l => VSlice (map (resolveValue env) l)
  | _ => v
  end.

Definition resolveSpecSecrets (env : Env) (spec : gomap) : gomap :=
  map (fun kv => (kv.1, resolveValue env kv.2)) spec.
End resolve.

(** ** The engine *)

Section engine.
Context {U : Unicode} {W : Type} (env_of : W -> Env) (provider : ProviderInterface W).

Definition step : Type := W -> reconcileContext -> W * (reconcileContext * option error).

Definition stepResolveSecrets : step := fun w rc =>
  (w, (mkRc (rc_resource rc) (resolveSpecSecrets (env_of w) (specMap (rc_resource rc)))
            (rc_current rc) (rc_change rc) (rc_force rc) (rc_warned rc), None)).

Definition stepObserve : step := fun w rc =>
  let res := rc_resource rc in
  match Observe provider (Kind res) (Name res) w with
  | (w', Err err) =>
    let c := rc_change rc in
    (w', (rc_with_change rc
            (mkChange (ch_Kind c) (ch_Name c) ActionNoop (ch_Diff c)
               ("observe failed: " +:+ Error err) (ch_Forced c) (ch_WriteOnlyHash c)),
          Some err))
  | (w', Ok current) =>
    (w', (mkRc res (rc_spec rc) current (rc_change rc) (rc_force rc) (rc_warned rc), None))
  end.

(** The steps in order, up to the first error. *)
Fixpoint run_steps (steps : list step) (w : W) (rc : reconcileContext) : W * reconcileContext :=
  match steps with
  | [] => (w, rc)
  | s :: steps' => match s w rc with
                   | (w', (rc', Some _)) => (w', rc')
                   | (w', (rc', None)) => run_steps steps' w' rc'
                   end
  end.

Definition reconcileOne (res : Resource) (force : bool) (w : W) : W * Change :=
  let rc := mkRc res [] None
              (mkChange (Kind res) (Name res) ActionUnset ∅ "" false "") force None in
  let '(w', rc') :=
    run_steps [stepResolveSecrets; stepObserve; (fun w rc => (w, stepCompare rc))] w rc in
  (w', rc_change rc').

Fixpoint observe_loop (resources : list Resource) (force : bool) (w : W) : W * list Change :=
  match resources with
  | [] => (w, [])
  | res :: rest =>
    let '(w1, c) := reconcileOne res force w in
    let '(w2, cs) := observe_loop rest force w1 in
    (w2, c :: cs)
  end.

(** The goroutines' observations, in the order they happen: each writes its own
    slot of [changes]. *)
Definition observe_parallel (resources : list Resource) (force : bool) (order : list nat)
    (w : W) : W * list Change :=
  foldl (fun acc i =>
           let '(w, changes) := acc in
           match resources !! i with
           | Some res => let '(w', c) := reconcileOne res force w in (w', <[ i := c ]> changes)
           | None => (w, changes)
           end) (w, replicate (length resources) zeroChange) order.

Definition reconcileKind (sch : Schedule) (kind : ResourceKind) (resources : list Resource)
    (force : bool) (concurrency : Z) (w : W) : W * list Change :=
  if (concurrency <=? 1)%Z then observe_loop resources force w
  else observe_parallel resources force (observe_order sch kind (seq 0 (length resources))) w.

Definition res_error {A} (r : res A) : option error :=
  match r with Ok _ => None | Err e => Some e end.

Definition execute (change : Change) (res : Resource) (w : W) : W * option error :=
  let spec := resolveSpecSecrets (env_of w) (specMap res) in
  let spec := if String.eqb (ch_WriteOnlyHash change) "" then spec
              else mset WriteOnlyHashField (VStr (ch_WriteOnlyHash change)) spec in
  match ch_Action change with
  | ActionCreate => let '(w', r) := Create provider (Kind res) (Name res) spec w in (w', res_error r)
  | ActionUpdate => let '(w', r) := Update provider (Kind res) (Name res) spec w in (w', res_error r)
  | _ => (w, None)
  end.

Fixpoint execute_loop (items : list (Change * Resource)) (result : ApplyResult) (w : W) :
    W * ApplyResult :=
  match items with
  | [] => (w, result)
  | (change, res) :: rest =>
    if skipped change then execute_loop rest result w
    else let '(w', err) := execute change res w in
         execute_loop rest (record_outcome result (ch_Kind change) (ch_Name change) err) w'
  end.

(** The goroutines' calls in one order, their outcomes recorded under the mutex in
    another. *)
Definition execute_parallel (items : list (Change * Resource)) (exec_order : list nat)
    (rec_order : list nat) (w : W) : W * ApplyResult :=
  let '(w', errs) :=
    foldl (fun acc i =>
             let '(w, errs) := acc in
             match items !! i with
             | Some (change, res) => let '(w', err) := execute change res w in (w', (i, err) :: errs)
             | None => (w, errs)
             end) (w, []) exec_order in
  (w', foldl (fun result i =>
                match items !! i, list_find (fun p => p.1 = i) errs with
                | Some (change, _), Some (_, (_, err)) =>
                  record_outcome result (ch_Kind change) (ch_Name change) err
                | _, _ => result
                end) emptyResult rec_order).

(** The indices a goroutine is started for. *)
Definition started (items : list (Change * Resource)) : list nat :=
  List.filter (fun i => match items !! i with
                        | Some (change, _) => negb (skipped change)
                        | None => false
                        end) (seq 0 (length items)).

Definition executeChanges (sch : Schedule) (kind : ResourceKind) (changes : list Change)
    (resources : list Resource) (concurrency : Z) (w : W) : W * ApplyResult :=
  let items := zip changes resources in
  if (concurrency <=? 1)%Z then execute_loop items emptyResult w
  else let idx := started items in
       execute_parallel items (execute_order sch kind idx) (record_order sch kind idx) w.

(** One remote resource of the prune phase. *)
Definition prune_remote (m : Manifest) (dryRun : bool) (kind : ResourceKind)
    (acc : W * (list Change * ApplyResult)) (remote : ResourceInfo) :
    W * (list Change * ApplyResult) :=
  let '(w, (changes, result)) := acc in
  if negb (String.eqb (ri_CreatedBy remote) "gcplane") then acc
  else if in_manifest m kind (ri_Name remote) then acc
  else
    let changes := (changes ++ [mkChange kind (ri_Name remote) ActionDelete ∅ "" false ""])%list in
    if dryRun then (w, (changes, result))
    else let '(w', r) := Delete provider kind (ri_Name remote) w in
         (w', (changes, record_outcome result kind (ri_Name remote) (res_error r))).

Definition prune_kind (m : Manifest) (dryRun : bool)
    (acc : W * (list Change * ApplyResult)) (kind : ResourceKind) :
    W * (list Change * ApplyResult) :=
  if unprunable kind then acc
  else let '(w, cr) := acc in
       match ListAll provider kind w with
       | (w', Err _) => (w', cr)
       | (w', Ok remotes) => foldl (prune_remote m dryRun kind) (w', cr) remotes
       end.

Definition detectAndExecutePrunes (m : Manifest) (dryRun : bool) (w : W) :
    W * (list Change * ApplyResult) :=
  foldl (prune_kind m dryRun) (w, ([], emptyResult)) DeleteOrder.

Definition byKind (m : Manifest) (kind : ResourceKind) : list Resource :=
  List.filter (fun r => String.eqb (Kind r) kind) (Resources m).

(** The body of the loop over the kinds. *)
Definition reconcile_kind_step (sch : Schedule) (m : Manifest) (opts : ReconcileOpts)
    (acc : W * (Plan * ApplyResult)) (kind : ResourceKind) : W * (Plan * ApplyResult) :=
  let '(w, (plan, result)) := acc in
  match byKind m kind with
  | [] => acc
  | resources =>
    let '(w1, changes) := reconcileKind sch kind resources (Force opts) (Concurrency opts) w in
    let plan := foldl (fun plan '(res, change) => count_change plan res change) plan
                      (zip resources changes) in
    if DryRun opts then (w1, (plan, result))
    else let '(w2, kr) := executeChanges sch kind changes resources (Concurrency opts) w1 in
         (w2, (plan, add_result result kr))
  end.

Definition Reconcile (sch : Schedule) (m : Manifest) (opts : ReconcileOpts) (w : W) :
    W * (Plan * ApplyResult) :=
  let '(w1, (plan, result)) :=
    foldl (reconcile_kind_step sch m opts) (w, (emptyPlan, emptyResult)) ApplyOrder in
  if Prune opts then
    let '(w2, (pruneChanges, pruneResult)) := detectAndExecutePrunes m (DryRun opts) w1 in
    let plan := foldl count_delete (add_changes plan pruneChanges) pruneChanges in
    (w2, (plan, add_result result pruneResult))
  else (w1, (plan, result)).
End engine.
