(* ===== verification/Display.v ===== *)
(** * The display of plans

    [internal/display/plan.go]: what the commands print of a plan, of its differences and
    of a result, as one text.  How Go prints the values the model keeps abstract
    ([map[any]any] and other scalars) is an argument. *)
From Stdlib Require Import ZArith Lia Bool Ascii.
From Stdlib Require String.
From Stdlib Require Import Floats.SpecFloat.
From S2P Require Import Prelude GoStr GoValue Filepath Manifest Compare Json Engine.

Local Open Scope string_scope.

(** ** [%v] *)

(** The exponent has at least two digits. *)
Definition format_exp (ds : string) (decpt : Z) : string :=
  let x := (decpt - 1)%Z in
  let frac := String.substring 1 (String.length ds - 1) ds in
  let digits := Itoa (Z.abs x) in
  String.substring 0 1 ds +:+ (if String.eqb frac "" then "" else "." +:+ frac)
  +:+ "e" +:+ (if (x <? 0)%Z then "-" else "+")
  +:+ (if (String.length digits <? 2)%nat then "0" +:+ digits else digits).

(** [strconv.FormatFloat(f, 'g', -1, size)]. *)
Definition format_g (prec emin : Z) (f : spec_float) : string :=
  match f with
  | S754_zero s => if s then "-0" else "0"
  | S754_infinity s => if s then "-Inf" else "+Inf"
  | S754_nan => "NaN"
  | S754_finite s m e =>
    let '(ds, decpt) := shortest prec emin m e in
    let x := (decpt - 1)%Z in
    (if s then "-" else "")
    +:+ (if (x <? -4)%Z || (6 <=? x)%Z then format_exp ds decpt else format_f ds decpt)
  end.

Section display.
Context (other_v : gval -> string).

Fixpoint format_v (v : gval) : string :=
  match v with
  | VNil => "<nil>"
  | VBool b => if b then "true" else "false"
  | VInt z | VInt64 z => Itoa z
  | VFloat64 f => format_g 53 (-1074) f
  | VFloat32 f => format_g 24 (-149) f
  | VStr s => s
  | VSlice l => "[" +:+ Join (map format_v l) " " +:+ "]"
  | VStrs l => "[" +:+ Join l " " +:+ "]"
  | VMap m =>
    "map[" +:+ Join (map (fun kv => kv.1 +:+ ":" +:+ kv.2)
                       (sort_by fst (map (fun kv => (kv.1, format_v kv.2)) m))) " " +:+ "]"
  | VAnyMap _ | VOther _ _ => other_v v
  end.
(** ** plan.go *)

Definition esc (code : string) : string := of_bytes [byte_of 27] +:+ "[" +:+ code +:+ "m".

Definition colorReset : string := esc "0".
Definition colorGreen : string := esc "32".
Definition colorYellow : string := esc "33".
Definition colorRed : string := esc "31".
Definition colorDim : string := esc "2".
Definition colorBold : string := esc "1".

Definition nl : string := of_bytes [byte_of 10].

Definition Itoan (n : nat) : string := Itoa (Z.of_nat n).

(** The first 77 bytes of a long value and three points; a short one without the space
    around it. *)
Definition formatVal (v : gval) : string :=
  match v with
  | VNil => "(none)"
  | _ => let s := format_v v in
         if (80 <? String.length s)%nat then str_take 77 s +:+ "..." else TrimSpace s
  end.

Definition sortedKeys (m : diffmap) : list string := sortStrings (map fst (map_to_list m)).

Definition id_text (c : Change) : string := ch_Kind c +:+ "/" +:+ ch_Name c.

(** The lines of the fields that differ. *)
Definition diff_lines (c : Change) : string :=
  String.concat "" (map (fun k =>
    let d := default (mkFieldDiff VNil VNil) (ch_Diff c !! k) in
    "    " +:+ colorDim +:+ k +:+ ":" +:+ colorReset +:+ " " +:+ colorRed +:+ formatVal (Old d) +:+ colorReset
    +:+ " → " +:+ colorGreen +:+ formatVal (New d) +:+ colorReset +:+ nl) (sortedKeys (ch_Diff c))).

Definition line (color mark text : string) : string := color +:+ mark +:+ " " +:+ text +:+ colorReset +:+ nl.

Definition printDelete (c : Change) : string := line colorRed "-" (id_text c).
Definition printCreate (c : Change) : string := line colorGreen "+" (id_text c).
Definition printUpdate (c : Change) : string :=
  line colorYellow "~" (id_text c +:+ if ch_Forced c then " (force)" else "") +:+ diff_lines c.
Definition printNoop (c : Change) : string :=
  if negb (String.eqb (ch_Error c) "") then line colorRed "!" (id_text c +:+ " (skipped: " +:+ ch_Error c +:+ ")")
  else line colorDim "=" (id_text c +:+ " (no changes)").

Definition print_change (verbose : bool) (c : Change) : string :=
  match ch_Action c with
  | ActionCreate => printCreate c
  | ActionUpdate => printUpdate c
  | ActionDelete => printDelete c
  | ActionNoop => if verbose then printNoop c else ""
  | ActionUnset => ""
  end.

Definition counts_text (plan : Plan) : string :=
  Itoan (Creates plan) +:+ " to create, " +:+ Itoan (Updates plan) +:+ " to update, "
  +:+ Itoan (Deletes plan) +:+ " to delete, " +:+ Itoan (Noops plan) +:+ " unchanged".

Definition print_errors (errors : list string) : string :=
  match errors with
  | [] => ""
  | _ => nl +:+ colorRed +:+ "Errors:" +:+ colorReset +:+ nl
         +:+ String.concat "" (map (fun e => "  " +:+ colorRed +:+ e +:+ colorReset +:+ nl) errors)
  end.

Definition PrintPlan (plan : Plan) (verbose : bool) : string :=
  nl +:+ colorBold +:+ "GCPlane Plan:" +:+ colorReset +:+ " " +:+ counts_text plan +:+ nl +:+ nl
  +:+ String.concat "" (map (print_change verbose) (Changes plan))
  +:+ print_errors (PlanErrors plan)
  +:+ nl +:+ colorBold +:+ "Plan:" +:+ colorReset +:+ " " +:+ counts_text plan +:+ "." +:+ nl.

Definition PrintPruneWarning (count : nat) : string :=
  nl +:+ colorBold +:+ colorRed +:+ "Warning:" +:+ colorReset +:+ " Will delete " +:+ Itoan count
  +:+ " resource(s). This cannot be undone." +:+ nl.

Definition PrintApplyResult (result : ApplyResult) : string :=
  nl +:+ colorBold +:+ "Apply complete!" +:+ colorReset +:+ " " +:+ Itoan (Applied result) +:+ " applied, "
  +:+ Itoan (Failed result) +:+ " failed." +:+ nl +:+ print_errors (Errors result).

Definition drifts (c : Change) : bool :=
  negb (bool_decide (ch_Action c = ActionNoop)) || negb (String.eqb (ch_Error c) "").

Definition diff_change (c : Change) : string :=
  match ch_Action c with
  | ActionCreate => line colorGreen "+" (id_text c +:+ " (missing in GoClaw)")
  | ActionUpdate => line colorYellow "~" (id_text c +:+ " (drifted)") +:+ diff_lines c
  | ActionNoop => if negb (String.eqb (ch_Error c) "")
                  then line colorRed "!" (id_text c +:+ " (" +:+ ch_Error c +:+ ")") else ""
  | ActionDelete => line colorRed "-" (id_text c +:+ " (orphaned in GoClaw)")
  | ActionUnset => ""
  end.

Definition PrintDiff (plan : Plan) : string :=
  if existsb drifts (Changes plan) then
    nl +:+ colorBold +:+ "Drift Report:" +:+ colorReset +:+ nl +:+ nl
    +:+ String.concat "" (map diff_change (Changes plan))
    +:+ nl +:+ colorBold +:+ "Summary:" +:+ colorReset +:+ " " +:+ Itoan (Updates plan) +:+ " drifted, "
    +:+ Itoan (Creates plan) +:+ " missing, " +:+ Itoan (Noops plan) +:+ " in sync" +:+ nl
  else "No drift detected. All resources in sync." +:+ nl.
End display.

Example format_v_ex :
  map (format_v (fun _ => "?"))
    [VMap [("b", VInt 2); ("a", VSlice [VStr "x"; VBool true; VNil])]; VFloat64 (float64_of_Z 1234567);
     VFloat64 (S754_finite false 3 (-1))]
  = ["map[a:[x true <nil>] b:2]"; "1.234567e+06"; "1.5"].
Proof. vm_compute. reflexivity. Qed.
