(* ===== verification/EngineProps.v ===== *)
(** * Properties of the reconciliation engine

    What holds of [Reconcile] for every provider, world and schedule: which
    changes a plan lists and in which order, what the counters count, and which
    calls change the provider's state.  The mutating calls are observed through
    the class [Traced]: a provider whose world records them. *)
From Stdlib Require Import ZArith Lia Bool Ascii.
From Stdlib Require String.
From S2P Require Import Prelude GoStr GoValue Manifest Secrets Compare WriteOnly Engine.

Local Open Scope string_scope.

(** ** Specification vocabulary *)

(** The resources in the order they are processed. *)
Definition apply_sequence (m : Manifest) : list Resource := concat (map (byKind m) ApplyOrder).

(** The change planned for a resource: named after it, creating, updating or
    leaving it alone; a failed observation leaves it alone. *)
Record change_for (res : Resource) (c : Change) : Prop := {
  cf_kind : ch_Kind c = Kind res;
  cf_name : ch_Name c = Name res;
  cf_action : ch_Action c = ActionCreate \/ ch_Action c = ActionUpdate \/ ch_Action c = ActionNoop;
  cf_error : ch_Error c <> "" -> ch_Action c = ActionNoop
}.

(** A deletion the prune phase may plan. *)
Definition prune_change (m : Manifest) (c : Change) : Prop :=
  ch_Action c = ActionDelete /\ ch_Error c = "" /\
  unprunable (ch_Kind c) = false /\ in_manifest m (ch_Kind c) (ch_Name c) = false.

Definition count_action (a : Action) (cs : list Change) : nat :=
  length (List.filter (fun c => bool_decide (ch_Action c = a)) cs).

(** The changes the execute phase acts on. *)
Definition actionable (cs : list Change) : list Change := List.filter (fun c => negb (skipped c)) cs.

(** ** Lists *)

Lemma filter_length_cons {A} (f : A -> bool) x l :
  length (List.filter f (x :: l)) = ((if f x then 1 else 0) + length (List.filter f l))%nat.
Proof. simpl. by destruct (f x). Qed.

Lemma count_action_app a cs ds : count_action a (cs ++ ds) = (count_action a cs + count_action a ds)%nat.
Proof. unfold count_action. by rewrite List.filter_app, length_app. Qed.

Lemma count_action_single a c :
  count_action a [c] = if bool_decide (ch_Action c = a) then 1%nat else 0%nat.
Proof. unfold count_action. simpl. by case_bool_decide. Qed.

Section props.
Context {U : Unicode} {W : Type} (env_of : W -> Env) (p : ProviderInterface W).

(** ** One resource *)

Lemma reconcileOne_for res force w :
  change_for res (reconcileOne env_of p res force w).2.
Proof.
  unfold reconcileOne, run_steps, stepResolveSecrets, stepObserve. cbn [rc_resource].
  destruct (Observe p (Kind res) (Name res) w) as [w' [cur|e]]; cbn.
  - unfold stepCompare. cbn. repeat case_match; simpl; simplify_eq; simpl;
      (split; [done|done|naive_solver|done]).
  - split; [done|done|naive_solver|done].
Qed.

(** ** The observe phase *)

Lemma observe_loop_for rs force w :
  Forall2 change_for rs (observe_loop env_of p rs force w).2.
Proof.
  revert w. induction rs as [|r rs IH]; intros w; simpl; [constructor|].
  pose proof (reconcileOne_for r force w) as Hr.
  destruct (reconcileOne env_of p r force w) as [w1 c]. specialize (IH w1).
  destruct (observe_loop env_of p rs force w1) as [w2 cs]. by constructor.
Qed.

(** After the goroutines of [order], the slots written are those of [order]. *)
Lemma observe_parallel_slots rs force order w :
  let cs := (observe_parallel env_of p rs force order w).2 in
  length cs = length rs /\
  forall i r, i ∈ order -> rs !! i = Some r -> exists c, cs !! i = Some c /\ change_for r c.
Proof.
  unfold observe_parallel.
  assert (H : forall done w cs,
    length cs = length rs ->
    (forall i r, i ∈ done -> rs !! i = Some r -> exists c, cs !! i = Some c /\ change_for r c) ->
    let cs' := (foldl (fun acc i => let '(w, changes) := acc in
       match rs !! i with
       | Some res => let '(w', c) := reconcileOne env_of p res force w in (w', <[i:=c]> changes)
       | None => (w, changes) end) (w, cs) order).2 in
    length cs' = length rs /\
    (forall i r, i ∈ (done ++ order)%list -> rs !! i = Some r ->
       exists c, cs' !! i = Some c /\ change_for r c)).
  { induction order as [|j order IH]; intros done w0 cs Hl Hd; simpl; [by rewrite app_nil_r|].
    rewrite cons_middle, (assoc_L (++)).
    destruct (rs !! j) as [rj|] eqn:Ej.
    - pose proof (reconcileOne_for rj force w0) as Hj.
      destruct (reconcileOne env_of p rj force w0) as [w1 c].
      apply IH; [by rewrite length_insert|].
      intros i r Hi Hr. destruct (decide (i = j)) as [->|Hne].
      + rewrite list_lookup_insert_eq; [|rewrite Hl; by eapply lookup_lt_Some].
        simplify_eq. eauto.
      + rewrite list_lookup_insert_ne by done. apply Hd; [|done].
        apply elem_of_app in Hi as [?|?%list_elem_of_singleton]; [done|congruence].
    - apply IH; [done|]. intros i r Hi Hr. apply Hd; [|done].
      apply elem_of_app in Hi as [?|?%list_elem_of_singleton]; [done|congruence]. }
  apply (H [] w); [by rewrite length_replicate|]. by intros i r ?%not_elem_of_nil.
Qed.

Lemma reconcileKind_for sch kind rs force conc w :
  FairSchedule sch -> Forall2 change_for rs (reconcileKind env_of p sch kind rs force conc w).2.
Proof.
  intros Hf. unfold reconcileKind. case_match; [apply observe_loop_for|].
  destruct (observe_parallel_slots rs force (observe_order sch kind (seq 0 (length rs))) w)
    as [Hl Hs].
  apply Forall2_same_length_lookup. split; [done|]. intros i r c Hr Hc.
  destruct (Hs i r) as (c' & Hc' & ?); [|done|by simplify_eq].
  rewrite observe_perm. apply elem_of_seq. apply lookup_lt_Some in Hr. lia.
Qed.

(** ** Counting *)

(** What a plan's counters count. *)
Record plan_counts (plan : Plan) : Prop := {
  pc_creates : Creates plan = count_action ActionCreate (Changes plan);
  pc_updates : Updates plan = count_action ActionUpdate (Changes plan);
  pc_deletes : Deletes plan = count_action ActionDelete (Changes plan);
  pc_noops : Noops plan = count_action ActionNoop (Changes plan);
  pc_errors : length (PlanErrors plan)
              = length (List.filter (fun c => negb (String.eqb (ch_Error c) "")) (Changes plan))
}.

Lemma count_change_counts plan r c :
  change_for r c -> plan_counts plan -> plan_counts (count_change plan r c).
Proof.
  intros [_ _ Ha _] [H1 H2 H3 H4 H5]. split; simpl.
  1-4: rewrite count_action_app, count_action_single; repeat case_bool_decide;
       destruct Ha as [Ha|[Ha|Ha]]; try congruence; lia.
  rewrite List.filter_app, length_app. simpl. destruct (String.eqb (ch_Error c) ""); simpl; [lia|].
  rewrite length_app, H5. done.
Qed.

Lemma count_changes plan rs cs :
  Forall2 change_for rs cs -> plan_counts plan ->
  let plan' := foldl (fun plan '(res, change) => count_change plan res change) plan (zip rs cs) in
  Changes plan' = (Changes plan ++ cs)%list /\ plan_counts plan'.
Proof.
  intros H. revert plan. induction H as [|r c rs cs Hrc H IH]; intros plan Hp; simpl.
  - by rewrite app_nil_r.
  - destruct (IH (count_change plan r c)) as [H1 H2]; [by apply count_change_counts|].
    split; [|done]. rewrite H1. simpl. by rewrite <- (assoc_L (++)).
Qed.

(** ** The execute phase *)

Definition attempts (r : ApplyResult) : nat := (Applied r + Failed r)%nat.

Lemma record_outcome_attempts r k n e :
  attempts (record_outcome r k n e) = S (attempts r) /\
  (Failed r = length (Errors r) ->
   Failed (record_outcome r k n e) = length (Errors (record_outcome r k n e))).
Proof.
  unfold attempts. destruct e; simpl; [|split; [lia|done]].
  split; [lia|]. intros ->. rewrite length_app. simpl. lia.
Qed.

Lemma execute_loop_attempts items result w :
  let r := (execute_loop env_of p items result w).2 in
  attempts r = (attempts result + length (actionable (map fst items)))%nat /\
  (Failed result = length (Errors result) -> Failed r = length (Errors r)).
Proof.
  revert result w. induction items as [|[c res] items IH]; intros result w; simpl; [split; [lia|done]|].
  destruct (skipped c); simpl; [apply IH|].
  destruct (execute env_of p c res w) as [w' err].
  destruct (IH (record_outcome result (ch_Kind c) (ch_Name c) err) w') as [H1 H2].
  destruct (record_outcome_attempts result (ch_Kind c) (ch_Name c) err) as [H3 H4].
  split; [lia|auto].
Qed.

(** The outcomes collected by the goroutines: one per index. *)
Definition exec_fold (items : list (Change * Resource)) (order : list nat)
    (acc : W * list (nat * option error)) : W * list (nat * option error) :=
  foldl (fun acc i => let '(w, errs) := acc in
           match items !! i with
           | Some (change, res) =>
             let '(w', err) := execute env_of p change res w in (w', (i, err) :: errs)
           | None => (w, errs)
           end) acc order.

Lemma exec_fold_elem items order w errs i x :
  items !! i = Some x -> i ∈ order \/ i ∈ map fst errs ->
  i ∈ map fst (exec_fold items order (w, errs)).2.
Proof.
  intros Hx. revert w errs. induction order as [|j order IH]; intros w errs H; simpl.
  - destruct H as [H|H]; [by apply not_elem_of_nil in H|done].
  - rewrite elem_of_cons in H. destruct (items !! j) as [[c res]|] eqn:Ej.
    + destruct (execute env_of p c res w) as [w' err]. apply IH. simpl.
      rewrite elem_of_cons. tauto.
    + apply IH. destruct H as [[->|H]|H]; [congruence|tauto|tauto].
Qed.

Lemma record_fold_attempts (items : list (Change * Resource)) errs order :
  (forall i, i ∈ order -> is_Some (items !! i) /\ i ∈ map fst errs) ->
  forall r0,
  let r := foldl (fun result i =>
     match items !! i, list_find (fun p : nat * option error => p.1 = i) errs with
     | Some (change, _), Some (_, (_, err)) =>
       record_outcome result (ch_Kind change) (ch_Name change) err
     | _, _ => result
     end) r0 order in
  attempts r = (attempts r0 + length order)%nat /\
  (Failed r0 = length (Errors r0) -> Failed r = length (Errors r)).
Proof.
  induction order as [|i order IH]; intros Hi r0; simpl; [split; [lia|done]|].
  destruct (Hi i) as [[[c res] Hc] He]; [left|]. rewrite Hc.
  apply list_elem_of_fmap in He as (q & Hq & Hin).
  destruct (list_find_elem_of (fun p : nat * option error => p.1 = i) errs q Hin (eq_sym Hq))
    as [[j [j' err]] Hf].
  rewrite Hf. destruct (IH (fun k Hk => Hi k (list_elem_of_further _ _ _ Hk))
    (record_outcome r0 (ch_Kind c) (ch_Name c) err)) as [H1 H2].
  destruct (record_outcome_attempts r0 (ch_Kind c) (ch_Name c) err) as [H3 H4].
  split; [lia|auto].
Qed.

Lemma started_spec items i :
  i ∈ started items <-> exists c r, items !! i = Some (c, r) /\ skipped c = false.
Proof.
  unfold started. rewrite list_elem_of_In, filter_In, <- list_elem_of_In, elem_of_seq. split.
  - intros [_ H]. destruct (items !! i) as [[c r]|]; [|done]. exists c, r.
    split; [done|]. by apply negb_true_iff.
  - intros (c & r & Hi & Hs). rewrite Hi, Hs. split; [|done]. apply lookup_lt_Some in Hi. lia.
Qed.

Lemma filter_seq_shift {A} (f : A -> bool) x (l : list A) k :
  List.filter (fun i => match (x :: l) !! (i - k)%nat with Some y => f y | None => false end)
    (seq (S k) (length l))
  = List.filter (fun i => match l !! (i - S k)%nat with Some y => f y | None => false end)
      (seq (S k) (length l)).
Proof.
  apply List.filter_ext_in. intros i Hi%in_seq.
  by replace (i - k)%nat with (S (i - S k)) by lia.
Qed.

Lemma filter_seq_lookup {A} (f : A -> bool) (l : list A) k :
  length (List.filter (fun i => match l !! (i - k)%nat with Some x => f x | None => false end)
            (seq k (length l))) = length (List.filter f l).
Proof.
  revert k. induction l as [|x l IH]; intros k; [done|].
  cbn [length seq List.filter]. rewrite Nat.sub_diag. cbn [lookup list_lookup].
  rewrite filter_seq_shift. destruct (f x); simpl; by rewrite IH.
Qed.

Lemma started_length items : length (started items) = length (actionable (map fst items)).
Proof.
  unfold started, actionable.
  rewrite (List.filter_ext _ (fun i => match items !! (i - 0)%nat with
     | Some x => negb (skipped x.1) | None => false end)).
  - rewrite (filter_seq_lookup (fun x : Change * Resource => negb (skipped x.1))).
    rewrite List.filter_map_swap, length_map. done.
  - intros i. rewrite Nat.sub_0_r. by destruct (items !! i) as [[??]|].
Qed.

Lemma executeChanges_attempts sch kind cs rs conc w :
  FairSchedule sch -> length cs = length rs ->
  let r := (executeChanges env_of p sch kind cs rs conc w).2 in
  attempts r = length (actionable cs) /\ Failed r = length (Errors r).
Proof.
  intros Hf Hl. unfold executeChanges.
  assert (Hz : map fst (zip cs rs) = cs) by (apply fst_zip; lia).
  destruct (conc <=? 1)%Z.
  - destruct (execute_loop_attempts (zip cs rs) emptyResult w) as [H1 H2]. rewrite Hz in H1. auto.
  - unfold execute_parallel. fold (exec_fold (zip cs rs)
      (execute_order sch kind (started (zip cs rs))) (w, [])).
    destruct (exec_fold _ _ _) as [w' errs] eqn:E. simpl.
    edestruct (record_fold_attempts (zip cs rs) errs (record_order sch kind (started (zip cs rs))))
      as [H1 H2].
    + intros i Hi. rewrite record_perm in Hi. pose proof Hi as Hi'.
      apply started_spec in Hi as (c & r & Hi & _). split; [by rewrite Hi|].
      replace errs with (exec_fold (zip cs rs) (execute_order sch kind (started (zip cs rs))) (w, [])).2
        by (by rewrite E).
      eapply exec_fold_elem; [done|]. left. by rewrite execute_perm.
    + split; [|by apply H2]. rewrite H1. simpl.
      rewrite (Permutation_length (record_perm kind (started (zip cs rs)))).
      by rewrite started_length, Hz.
Qed.

(** ** The prune phase *)

Definition delete_change (kind : ResourceKind) (ri : ResourceInfo) : Change :=
  mkChange kind (ri_Name ri) ActionDelete ∅ "" false "".

(** A listed resource that the manifest owned and no longer declares. *)
Definition orphan (m : Manifest) (kind : ResourceKind) (ri : ResourceInfo) : bool :=
  String.eqb (ri_CreatedBy ri) "gcplane" && negb (in_manifest m kind (ri_Name ri)).

(** The deletions planned for one kind, given what was listed. *)
Definition prune_plan (m : Manifest) (kind : ResourceKind) (listed : list ResourceInfo) : list Change :=
  if unprunable kind then []
  else map (delete_change kind) (List.filter (orphan m kind) listed).

Lemma prune_remote_eq m dry kind w cs r ri :
  prune_remote p m dry kind (w, (cs, r)) ri =
    if orphan m kind ri then
      if dry then (w, ((cs ++ [delete_change kind ri])%list, r))
      else let '(w', d) := Delete p kind (ri_Name ri) w in
           (w', ((cs ++ [delete_change kind ri])%list,
                 record_outcome r kind (ri_Name ri) (res_error d)))
    else (w, (cs, r)).
Proof.
  unfold prune_remote, orphan. destruct (String.eqb (ri_CreatedBy ri) "gcplane"); [|done].
  by destruct (in_manifest m kind (ri_Name ri)).
Qed.

Lemma prune_remotes_changes m dry kind remotes w cs r :
  let out := foldl (prune_remote p m dry kind) (w, (cs, r)) remotes in
  out.2.1 = (cs ++ map (delete_change kind) (List.filter (orphan m kind) remotes))%list /\
  attempts out.2.2 = (attempts r
     + if dry then 0 else length (List.filter (orphan m kind) remotes))%nat /\
  (Failed r = length (Errors r) -> Failed out.2.2 = length (Errors out.2.2)).
Proof.
  revert w cs r. induction remotes as [|ri remotes IH]; intros w cs r;
    cbn [foldl List.filter map length fst snd].
  - rewrite app_nil_r. split; [done|]. split; [destruct dry; lia|done].
  - rewrite prune_remote_eq. destruct (orphan m kind ri); [|apply IH].
    cbn [map length]. destruct dry.
    + edestruct (IH w) as (H1 & H2 & H3). rewrite H1, H2. split; [|split; [lia|done]].
      by rewrite <- (assoc_L (++)).
    + destruct (Delete p kind (ri_Name ri) w) as [w' d].
      destruct (record_outcome_attempts r kind (ri_Name ri) (res_error d)) as [H4 H5].
      edestruct (IH w') as (H1 & H2 & H3). rewrite H1, H2, H4. split; [|split; [lia|auto]].
      by rewrite <- (assoc_L (++)).
Qed.

Lemma prune_kind_eq m dry w cr kind :
  prune_kind p m dry (w, cr) kind =
    if unprunable kind then (w, cr)
    else match ListAll p kind w with
         | (w', Err _) => (w', cr)
         | (w', Ok remotes) => foldl (prune_remote p m dry kind) (w', cr) remotes
         end.
Proof. reflexivity. Qed.

(** What [ListAll] returned for the kind, in some world; nothing when it failed. *)
Definition listing (kind : ResourceKind) (l : list ResourceInfo) : Prop :=
  l = [] \/ exists w, (ListAll p kind w).2 = Ok l.

Lemma prune_kinds_changes m dry kinds w cs r :
  let out := foldl (prune_kind p m dry) (w, (cs, r)) kinds in
  exists ls,
    Forall2 listing kinds ls /\
    out.2.1 = (cs ++ concat (zip_with (prune_plan m) kinds ls))%list /\
    attempts out.2.2 = (attempts r
       + if dry then 0 else length (concat (zip_with (prune_plan m) kinds ls)))%nat /\
    (Failed r = length (Errors r) -> Failed out.2.2 = length (Errors out.2.2)).
Proof.
  revert w cs r. induction kinds as [|k kinds IH]; intros w cs r; cbn [foldl].
  - exists []. simpl. rewrite app_nil_r. repeat split; [constructor|destruct dry; lia|done].
  - rewrite prune_kind_eq. destruct (unprunable k) eqn:Hk.
    { destruct (IH w cs r) as (ls & H1 & H2 & H3 & H4). exists ([] :: ls).
      cbn [zip_with concat]. replace (prune_plan m k []) with (@nil Change)
        by (unfold prune_plan; by rewrite Hk).
      split; [|done]. constructor; [by left|done]. }
    destruct (ListAll p k w) as [w' [remotes|e]] eqn:El.
    + destruct (foldl (prune_remote p m dry k) (w', (cs, r)) remotes) as [w2 [cs2 r2]] eqn:Ef.
      destruct (prune_remotes_changes m dry k remotes w' cs r) as (P1 & P2 & P3).
      rewrite Ef in P1, P2, P3. cbn [fst snd] in P1, P2, P3. subst cs2.
      destruct (IH w2 (cs ++ map (delete_change k) (List.filter (orphan m k) remotes))%list r2) as (ls & H1 & H2 & H3 & H4). exists (remotes :: ls).
      cbn [zip_with concat].
      replace (prune_plan m k remotes)
        with (map (delete_change k) (List.filter (orphan m k) remotes))
        by (unfold prune_plan; by rewrite Hk).
      split; [constructor; [right; exists w; by rewrite El|done]|].
      rewrite H2, H3, P2. split; [by rewrite <- (assoc_L (++))|].
      split; [|auto]. destruct dry; [lia|]. rewrite length_app, length_map. lia.
    + destruct (IH w' cs r) as (ls & H1 & H2 & H3 & H4). exists ([] :: ls).
      cbn [zip_with concat]. replace (prune_plan m k []) with (@nil Change)
        by (unfold prune_plan; by rewrite Hk).
      split; [|done]. constructor; [by left|done].
Qed.

Lemma prune_plan_change m k l : Forall (prune_change m) (prune_plan m k l).
Proof.
  unfold prune_plan. destruct (unprunable k) eqn:Hk; [constructor|].
  apply Forall_forall. intros c Hc. apply list_elem_of_fmap in Hc as (ri & -> & Hri).
  apply list_elem_of_In, filter_In in Hri as [_ Ho]. unfold orphan in Ho. split_and_true.
  by repeat split.
Qed.

Lemma prune_plans_change m kinds ls :
  Forall (prune_change m) (concat (zip_with (prune_plan m) kinds ls)).
Proof.
  revert ls. induction kinds as [|k kinds IH]; intros [|l ls]; simpl; try constructor.
  apply Forall_app. split; [apply prune_plan_change|apply IH].
Qed.

Lemma count_deletes plan ds :
  Forall (fun c => ch_Action c = ActionDelete /\ ch_Error c = "") ds -> plan_counts plan ->
  let plan' := foldl count_delete (add_changes plan ds) ds in
  Changes plan' = (Changes plan ++ ds)%list /\ plan_counts plan'.
Proof.
  intros Hd [H1 H2 H3 H4 H5].
  assert (E : forall q, foldl count_delete q ds
     = mkPlan (Changes q) (Creates q) (Updates q) (Deletes q + length ds)
              (Noops q) (PlanErrors q)).
  { clear -Hd. induction Hd as [|c ds [Hc _] Hd IH]; intros q; simpl.
    - rewrite Nat.add_0_r. by destruct q.
    - rewrite IH. unfold count_delete. rewrite bool_decide_eq_true_2 by done. simpl. f_equal. lia. }
  assert (Hc : forall a, a <> ActionDelete -> count_action a ds = 0%nat).
  { intros a Ha. clear -Hd Ha. induction Hd as [|c ds [Hc _] Hd IH]; [done|].
    unfold count_action in *. simpl. rewrite bool_decide_eq_false_2 by congruence. done. }
  assert (Hd2 : count_action ActionDelete ds = length ds).
  { clear -Hd. induction Hd as [|c ds [Hc _] Hd IH]; [done|].
    unfold count_action in *. simpl. rewrite bool_decide_eq_true_2 by done. simpl. by f_equal. }
  assert (He : List.filter (fun c => negb (String.eqb (ch_Error c) "")) ds = []).
  { clear -Hd. induction Hd as [|c ds [_ Hc] Hd IH]; [done|]. simpl. by rewrite Hc. }
  simpl. rewrite E. simpl. split; [done|]. split; simpl; rewrite ?count_action_app, ?Hd2, ?Hc by done;
    [lia|lia|lia|lia|]. rewrite List.filter_app, He, app_nil_r. done.
Qed.
(** ** The loop over the kinds *)

Lemma byKind_kind m k r : r ∈ byKind m k -> Kind r = k.
Proof.
  unfold byKind. rewrite list_elem_of_In, filter_In. intros [_ H]. by apply String.eqb_eq.
Qed.

Lemma actionable_app cs ds : actionable (cs ++ ds) = (actionable cs ++ actionable ds)%list.
Proof. apply List.filter_app. Qed.

(** The plan and the result after the kinds [ks], for the resources they name. *)
Record loop_inv (m : Manifest) (opts : ReconcileOpts) (ks : list ResourceKind)
    (plan : Plan) (result : ApplyResult) : Prop := {
  li_changes : Forall2 change_for (concat (map (byKind m) ks)) (Changes plan);
  li_counts : plan_counts plan;
  li_result : if DryRun opts then result = emptyResult
              else attempts result = length (actionable (Changes plan)) /\
                   Failed result = length (Errors result)
}.

Lemma reconcile_kind_step_inv sch m opts ks k w plan result :
  FairSchedule sch -> loop_inv m opts ks plan result ->
  let out := reconcile_kind_step env_of p sch m opts (w, (plan, result)) k in
  loop_inv m opts (ks ++ [k]) out.2.1 out.2.2.
Proof.
  intros Hf [Hc Hp Hr]. unfold reconcile_kind_step.
  destruct (byKind m k) as [|r0 rs0] eqn:Hk.
  { split; [|done|done]. rewrite map_app, concat_app. simpl. by rewrite Hk, !app_nil_r. }
  set (rs := r0 :: rs0) in *.
  pose proof (reconcileKind_for sch k rs (Force opts) (Concurrency opts) w Hf) as Hrc.
  destruct (reconcileKind env_of p sch k rs (Force opts) (Concurrency opts) w) as [w1 cs].
  cbn [snd] in Hrc. destruct (count_changes plan rs cs Hrc Hp) as [H1 H2].
  set (plan' := foldl _ plan (zip rs cs)) in *.
  assert (Hch : Forall2 change_for (concat (map (byKind m) (ks ++ [k]))) (Changes plan')).
  { rewrite H1, map_app, concat_app. simpl. rewrite Hk, app_nil_r. by apply Forall2_app. }
  destruct (DryRun opts) eqn:Hd; [split; [done|done|by rewrite Hd]|].
  pose proof (executeChanges_attempts sch k cs rs (Concurrency opts) w1 Hf
                (eq_sym (Forall2_length _ _ _ Hrc))) as [He1 He2].
  destruct (executeChanges env_of p sch k cs rs (Concurrency opts) w1) as [w2 kr].
  cbn [fst snd] in *. split; [done|done|]. rewrite Hd. destruct Hr as [Hr1 Hr2].
  unfold attempts in *. simpl. rewrite H1, actionable_app, !length_app. lia.
Qed.

Lemma reconcile_loop_inv sch m opts ks ks' w plan result :
  FairSchedule sch -> loop_inv m opts ks plan result ->
  let out := foldl (reconcile_kind_step env_of p sch m opts) (w, (plan, result)) ks' in
  loop_inv m opts (ks ++ ks') out.2.1 out.2.2.
Proof.
  intros Hf. revert ks w plan result. induction ks' as [|k ks' IH]; intros ks w plan result Hi.
  { by rewrite app_nil_r. }
  pose proof (reconcile_kind_step_inv sch m opts ks k w plan result Hf Hi) as Hs.
  cbn [foldl]. destruct (reconcile_kind_step env_of p sch m opts (w, (plan, result)) k)
    as [w' [plan' result']].
  rewrite cons_middle, (assoc_L (++)). by apply IH.
Qed.

(** Everything the plan and the result of a reconciliation satisfy. *)
Lemma Reconcile_inv sch m opts w w' plan result :
  FairSchedule sch -> Reconcile env_of p sch m opts w = (w', (plan, result)) ->
  exists cs ds,
    Changes plan = (cs ++ ds)%list /\
    Forall2 change_for (apply_sequence m) cs /\
    (if Prune opts
     then exists ls, Forall2 listing DeleteOrder ls /\
                     ds = concat (zip_with (prune_plan m) DeleteOrder ls)
     else ds = []) /\
    plan_counts plan /\
    (if DryRun opts then result = emptyResult
     else attempts result = length (actionable (Changes plan)) /\
          Failed result = length (Errors result)).
Proof.
  intros Hf. unfold Reconcile.
  assert (H0 : loop_inv m opts [] emptyPlan emptyResult).
  { split; [constructor|done|]. by destruct (DryRun opts). }
  pose proof (reconcile_loop_inv sch m opts [] ApplyOrder w _ _ Hf H0) as [H1 H2 H3].
  destruct (foldl (reconcile_kind_step env_of p sch m opts) (w, (emptyPlan, emptyResult)) ApplyOrder)
    as [w1 [plan1 result1]]. cbn [fst snd] in *.
  destruct (Prune opts).
  - unfold detectAndExecutePrunes.
    destruct (prune_kinds_changes m (DryRun opts) DeleteOrder w1 [] emptyResult)
      as (ls & P1 & P2 & P3 & P4).
    destruct (foldl (prune_kind p m (DryRun opts)) (w1, ([], emptyResult)) DeleteOrder)
      as [w2 [pc pr]]. cbn [fst snd app] in *.
    assert (Hpc : Forall (fun c => ch_Action c = ActionDelete /\ ch_Error c = "") pc).
    { rewrite P2. eapply Forall_impl; [apply prune_plans_change|]. by intros c (? & ? & _). }
    destruct (count_deletes plan1 pc Hpc H2) as [C1 C2]. cbv zeta in C1.
    intros [= <- <- <-]. exists (Changes plan1), pc. split; [done|]. split; [done|].
    split; [eauto|]. split; [done|].
    assert (Hact : actionable pc = pc).
    { clear -Hpc. induction Hpc as [|c pc [Hc He] _ IH]; [done|]. simpl. unfold skipped.
      rewrite Hc, He. simpl. by rewrite IH. }
    destruct (DryRun opts).
    + subst result1. unfold add_result. simpl. unfold attempts in P3. simpl in P3.
      specialize (P4 eq_refl). destruct pr as [a f es]. simpl in *. f_equal; [lia|lia|].
      destruct es; [done|simpl in *; lia].
    + rewrite C1, actionable_app, Hact, length_app. destruct H3 as [H3 H4].
      specialize (P4 eq_refl). rewrite <- P2 in P3. unfold attempts in *. simpl in *.
      rewrite length_app. lia.
  - intros [= <- <- <-]. exists (Changes plan1), []. rewrite app_nil_r.
    split; [done|]. split; [done|]. done.
Qed.
End props.
