(* ===== verification/EngineFrame.v ===== *)
(** * What a reconciliation leaves alone

    A reflexive and transitive relation between worlds that the operations of the provider
    keep is kept by the engine: by a dry run when [Observe] and [ListAll] keep it, by any
    run when all five operations do. *)
From Stdlib Require Import ZArith Lia Bool.
From Stdlib Require String.
From S2P Require Import Prelude GoStr GoValue Manifest Secrets Compare Engine EngineProps.

Section frame.
Context {U : Unicode} {W : Type} (env_of : W -> Env) (pr : ProviderInterface W).
Context (R : W -> W -> Prop) {refl : Reflexive R} {trans : Transitive R}.
Hypothesis frame_observe : forall k n w, R w (Observe pr k n w).1.
Hypothesis frame_list : forall k w, R w (ListAll pr k w).1.

Lemma frame_foldl {A B} (f : W * B -> A -> W * B) l acc :
  (forall acc a, R acc.1 (f acc a).1) -> R acc.1 (foldl f acc l).1.
Proof.
  intros Hf. revert acc. induction l as [|a l IH]; intros acc; simpl; [done|].
  transitivity (f acc a).1; [apply Hf|apply IH].
Qed.

Lemma frame_reconcileOne r force w : R w (reconcileOne env_of pr r force w).1.
Proof.
  unfold reconcileOne, run_steps, stepResolveSecrets, stepObserve. cbn.
  specialize (frame_observe (Kind r) (Name r) w).
  destruct (Observe _ _ _ _) as [w' [c|e]]; cbn; [|done].
  by destruct (stepCompare _) as [rc' [e|]].
Qed.

Lemma frame_reconcileKind sch k rs force conc w :
  R w (reconcileKind env_of pr sch k rs force conc w).1.
Proof.
  unfold reconcileKind. case_match.
  - revert w. induction rs as [|r rs IH]; intros w; simpl; [done|].
    pose proof (frame_reconcileOne r force w) as H1.
    destruct (reconcileOne _ _ _ _ _) as [w1 c]. specialize (IH w1).
    destruct (observe_loop _ _ _ _ _) as [w2 cs]. by etrans.
  - unfold observe_parallel.
    apply (frame_foldl _ _ (w, replicate (length rs) zeroChange)). intros [w1 cs] i. cbn.
    destruct (rs !! i) as [r|]; [|done]. pose proof (frame_reconcileOne r force w1) as H1.
    by destruct (reconcileOne _ _ _ _ _).
Qed.

Lemma frame_dry_run sch m opts w :
  DryRun opts = true -> R w (Reconcile env_of pr sch m opts w).1.
Proof.
  intros Hd. unfold Reconcile.
  assert (H1 : R w (foldl (reconcile_kind_step env_of pr sch m opts)
                      (w, (emptyPlan, emptyResult)) ApplyOrder).1).
  { apply (frame_foldl _ _ (w, (emptyPlan, emptyResult))). intros [w1 [plan r]] k.
    unfold reconcile_kind_step. destruct (byKind m k); [done|]. rewrite Hd.
    pose proof (frame_reconcileKind sch k (r0 :: l) (Force opts) (Concurrency opts) w1) as H.
    by destruct (reconcileKind _ _ _ _ _ _ _ _). }
  destruct (foldl _ _ _) as [w1 [plan r]]. destruct (Prune opts); [|done].
  assert (H2 : R w1 (detectAndExecutePrunes pr m (DryRun opts) w1).1).
  { unfold detectAndExecutePrunes. apply (frame_foldl _ _ (w1, ([], emptyResult))).
    intros [w2 [cs r2]] k. unfold prune_kind. destruct (unprunable k); [done|].
    pose proof (frame_list k w2) as HL. destruct (ListAll pr k w2) as [w3 [infos|e]]; [|done].
    etrans; [exact HL|]. apply (frame_foldl _ _ (w3, (cs, r2))). intros [w4 [cs4 r4]] ri.
    unfold prune_remote. rewrite Hd. by repeat case_match. }
  destruct (detectAndExecutePrunes _ _ _ _) as [w2 [cs r2]]. by etrans.
Qed.

(** ** Any run *)

Hypothesis frame_create : forall k n s w, R w (Create pr k n s w).1.
Hypothesis frame_update : forall k n s w, R w (Update pr k n s w).1.
Hypothesis frame_delete : forall k n w, R w (Delete pr k n w).1.

Lemma frame_execute c r w : R w (execute env_of pr c r w).1.
Proof.
  unfold execute. destruct (ch_Action c); try done.
  - match goal with |- context [Create pr ?k ?n ?s w] =>
      pose proof (frame_create k n s w); by destruct (Create pr k n s w) end.
  - match goal with |- context [Update pr ?k ?n ?s w] =>
      pose proof (frame_update k n s w); by destruct (Update pr k n s w) end.
Qed.

Lemma frame_execute_loop items result w : R w (execute_loop env_of pr items result w).1.
Proof.
  revert result w. induction items as [|[c r] items IH]; intros result w; simpl; [done|].
  destruct (skipped c); [apply IH|]. pose proof (frame_execute c r w) as H.
  destruct (execute env_of pr c r w) as [w1 e]. etrans; [exact H|apply IH].
Qed.

Lemma frame_executeChanges sch k cs rs conc w : R w (executeChanges env_of pr sch k cs rs conc w).1.
Proof.
  unfold executeChanges. case_match; [apply frame_execute_loop|]. unfold execute_parallel.
  match goal with |- context [foldl ?f ?acc ?l] =>
    assert (H1 : R w (foldl f acc l).1) by
      (apply (frame_foldl f l acc); intros [w1 errs] i; cbn;
       destruct (_ !! i) as [[c r]|]; [|done]; pose proof (frame_execute c r w1);
       by destruct (execute env_of pr c r w1));
    by destruct (foldl f acc l)
  end.
Qed.

Lemma frame_prune_remote m dry k acc ri : R acc.1 (prune_remote pr m dry k acc ri).1.
Proof.
  destruct acc as [w [cs r]]. rewrite prune_remote_eq. destruct (orphan m k ri); [|done].
  destruct dry; [done|]. pose proof (frame_delete k (ri_Name ri) w) as H. by destruct (Delete pr k (ri_Name ri) w).
Qed.

Lemma frame_prune_kind m dry acc k : R acc.1 (prune_kind pr m dry acc k).1.
Proof.
  destruct acc as [w cr]. rewrite prune_kind_eq. destruct (unprunable k); [done|].
  pose proof (frame_list k w) as H. destruct (ListAll pr k w) as [w1 [remotes|e]]; cbn [fst] in *; [|done].
  etrans; [exact H|]. apply (frame_foldl (prune_remote pr m dry k) remotes (w1, cr)).
  intros. apply frame_prune_remote.
Qed.

Lemma frame_run sch m opts w : R w (Reconcile env_of pr sch m opts w).1.
Proof.
  unfold Reconcile.
  assert (Hstep : forall acc k, R acc.1 (reconcile_kind_step env_of pr sch m opts acc k).1).
  { intros [w0 [plan result]] k. unfold reconcile_kind_step. destruct (byKind m k) as [|r0 rs0]; [done|].
    pose proof (frame_reconcileKind sch k (r0 :: rs0) (Force opts) (Concurrency opts) w0) as H1.
    destruct (reconcileKind env_of pr sch k (r0 :: rs0) (Force opts) (Concurrency opts) w0) as [w1 cs].
    destruct (DryRun opts); [done|].
    pose proof (frame_executeChanges sch k cs (r0 :: rs0) (Concurrency opts) w1) as H2.
    destruct (executeChanges env_of pr sch k cs (r0 :: rs0) (Concurrency opts) w1) as [w2 kr].
    etrans; [exact H1|exact H2]. }
  pose proof (frame_foldl (reconcile_kind_step env_of pr sch m opts) ApplyOrder
                (w, (emptyPlan, emptyResult)) Hstep) as H1.
  destruct (foldl (reconcile_kind_step env_of pr sch m opts) (w, (emptyPlan, emptyResult)) ApplyOrder)
    as [w1 [plan result]]. destruct (Prune opts); [|done].
  pose proof (frame_foldl (prune_kind pr m (DryRun opts)) DeleteOrder (w1, ([], emptyResult))
                ltac:(intros; apply frame_prune_kind)) as H2.
  unfold detectAndExecutePrunes.
  destruct (foldl (prune_kind pr m (DryRun opts)) (w1, ([], emptyResult)) DeleteOrder) as [w2 [pc pr2]].
  etrans; [exact H1|exact H2].
Qed.
End frame.
