(* ===== verification/EngineTrace.v ===== *)
(** * The calls a reconciliation makes

    Which operations of the provider a reconciliation calls: in a dry run none
    that change anything ([Reconcile] is a function of [Observe] and [ListAll]);
    otherwise exactly those the plan lists.  The mutating calls are read off a
    provider whose world records them ([Traced]); [instrument] turns any provider
    into one. *)
From Stdlib Require Import ZArith Lia Bool Ascii.
From Stdlib Require String.
From S2P Require Import Prelude GoStr GoValue Manifest Secrets Compare WriteOnly Engine EngineProps.

Local Open Scope string_scope.

Definition call : Type := Action * ResourceKind * string.

Definition call_of (c : Change) : call := (ch_Action c, ch_Kind c, ch_Name c).
Definition call_kind (x : call) : ResourceKind := x.1.2.

(** The world records the mutating calls. *)
Class Traced {W} (p : ProviderInterface W) (calls : W -> list call) : Prop := {
  calls_observe k n w : calls (Observe p k n w).1 = calls w;
  calls_list k w : calls (ListAll p k w).1 = calls w;
  calls_create k n s w : calls (Create p k n s w).1 = (calls w ++ [(ActionCreate, k, n)])%list;
  calls_update k n s w : calls (Update p k n s w).1 = (calls w ++ [(ActionUpdate, k, n)])%list;
  calls_delete k n w : calls (Delete p k n w).1 = (calls w ++ [(ActionDelete, k, n)])%list
}.

(** Any provider, with its mutating calls recorded beside its world. *)
Definition with_calls {W A} (m : M W A) (extra : list call) : M (W * list call) A :=
  fun wc => let '(w, cs) := wc in let '(w', r) := m w in ((w', cs ++ extra)%list, r).

Definition instrument {W} (p : ProviderInterface W) : ProviderInterface (W * list call) :=
  mkProvider _
    (fun k n => with_calls (Observe p k n) [])
    (fun k n s => with_calls (Create p k n s) [(ActionCreate, k, n)])
    (fun k n s => with_calls (Update p k n s) [(ActionUpdate, k, n)])
    (fun k n => with_calls (Delete p k n) [(ActionDelete, k, n)])
    (fun k => with_calls (ListAll p k) []).

#[export] Instance instrument_traced {W} (p : ProviderInterface W) : Traced (instrument p) snd.
Proof.
  split; intros; destruct w as [w cs]; unfold instrument, with_calls; simpl;
    repeat case_match; simplify_eq/=; by rewrite ?app_nil_r.
Qed.

(** ** Dry runs *)

Section dry_run.
Context {U : Unicode} {W : Type} (env_of : W -> Env) (p p' : ProviderInterface W).
Hypothesis same_observe : forall k n w, Observe p k n w = Observe p' k n w.
Hypothesis same_list : forall k w, ListAll p k w = ListAll p' k w.

Lemma reconcileOne_same res force w :
  reconcileOne env_of p res force w = reconcileOne env_of p' res force w.
Proof.
  unfold reconcileOne, run_steps, stepObserve, stepResolveSecrets. cbn [rc_resource].
  by rewrite same_observe.
Qed.

Lemma observe_loop_same rs force w :
  observe_loop env_of p rs force w = observe_loop env_of p' rs force w.
Proof.
  revert w. induction rs as [|r rs IH]; intros w; simpl; [done|].
  rewrite reconcileOne_same. destruct (reconcileOne env_of p' r force w). by rewrite IH.
Qed.

Lemma reconcileKind_same sch k rs force conc w :
  reconcileKind env_of p sch k rs force conc w = reconcileKind env_of p' sch k rs force conc w.
Proof.
  unfold reconcileKind. case_match; [apply observe_loop_same|].
  unfold observe_parallel. apply foldl_ext_elem. intros [w0 cs] i _.
  case_match; [|done]. by rewrite reconcileOne_same.
Qed.

Lemma dry_run_step sch m opts acc k :
  DryRun opts = true ->
  reconcile_kind_step env_of p sch m opts acc k = reconcile_kind_step env_of p' sch m opts acc k.
Proof.
  intros Hd. unfold reconcile_kind_step. destruct acc as [w [plan result]].
  destruct (byKind m k) as [|r rs]; [done|]. rewrite reconcileKind_same, Hd. done.
Qed.

Lemma dry_run_prune m w : detectAndExecutePrunes p m true w = detectAndExecutePrunes p' m true w.
Proof.
  unfold detectAndExecutePrunes. apply foldl_ext_elem. intros [w0 cr] k _.
  rewrite !prune_kind_eq, same_list. case_match; [done|].
  destruct (ListAll p' k w0) as [w1 [rs|e]]; [|done].
  apply foldl_ext_elem. intros [w2 [cs r]] ri _. rewrite !prune_remote_eq. done.
Qed.
End dry_run.

(** ** The mutating calls *)

Section traced.
Context {U : Unicode} {W : Type} (env_of : W -> Env) (p : ProviderInterface W).
Context (calls : W -> list call) {T : Traced p calls}.

Lemma reconcileOne_calls res force w :
  calls (reconcileOne env_of p res force w).1 = calls w.
Proof.
  unfold reconcileOne, run_steps, stepObserve, stepResolveSecrets. cbn [rc_resource].
  pose proof (calls_observe (Kind res) (Name res) w) as H.
  destruct (Observe p (Kind res) (Name res) w) as [w' [cur|e]]; simpl in *; [|done].
  by destruct (stepCompare _) as [rc' [e|]].
Qed.

Lemma observe_loop_calls rs force w : calls (observe_loop env_of p rs force w).1 = calls w.
Proof.
  revert w. induction rs as [|r rs IH]; intros w; simpl; [done|].
  pose proof (reconcileOne_calls r force w) as H.
  destruct (reconcileOne env_of p r force w) as [w1 c]. specialize (IH w1).
  destruct (observe_loop env_of p rs force w1). simpl in *. congruence.
Qed.

Lemma reconcileKind_calls sch k rs force conc w :
  calls (reconcileKind env_of p sch k rs force conc w).1 = calls w.
Proof.
  unfold reconcileKind. case_match; [apply observe_loop_calls|]. unfold observe_parallel.
  apply (foldl_invariant (fun acc : W * list Change => calls acc.1 = calls w)); [done|].
  intros [w0 cs] i _ Hw. simpl in *. destruct (rs !! i) as [res|]; [|done].
  pose proof (reconcileOne_calls res force w0) as Hone.
  destruct (reconcileOne env_of p res force w0). simpl in *. congruence.
Qed.

Lemma execute_calls c res w :
  change_for res c -> skipped c = false ->
  calls (execute env_of p c res w).1 = (calls w ++ [call_of c])%list.
Proof.
  intros [Hk Hn Ha He] Hs. unfold execute, call_of. rewrite Hk, Hn.
  unfold skipped in Hs. split_and_true. destruct Ha as [Ha|[Ha|Ha]]; rewrite Ha; [..|done].
  - match goal with |- context [Create p ?k ?n ?s w] =>
      pose proof (calls_create k n s w); destruct (Create p k n s w) end. done.
  - match goal with |- context [Update p ?k ?n ?s w] =>
      pose proof (calls_update k n s w); destruct (Update p k n s w) end. done.
Qed.

Lemma execute_loop_calls items result w :
  Forall (fun x => change_for x.2 x.1) items ->
  calls (execute_loop env_of p items result w).1
  = (calls w ++ map call_of (actionable (map fst items)))%list.
Proof.
  intros H. revert result w. induction H as [|[c res] items Hc H IH]; intros result w; simpl.
  { by rewrite app_nil_r. }
  destruct (skipped c) eqn:Hs; simpl; [apply IH|].
  pose proof (execute_calls c res w Hc Hs) as He.
  destruct (execute env_of p c res w) as [w' err]. rewrite IH. simpl in He.
  by rewrite He, <- (assoc_L (++)).
Qed.

Lemma exec_fold_calls items order w errs :
  Forall (fun x => change_for x.2 x.1) items ->
  (forall i, i ∈ order -> exists c r, items !! i = Some (c, r) /\ skipped c = false) ->
  calls (exec_fold env_of p items order (w, errs)).1
  = (calls w ++ omap (fun i => option_map (fun x => call_of x.1) (items !! i)) order)%list.
Proof.
  intros Hfor. revert w errs. induction order as [|i order IH]; intros w errs Hi; simpl.
  { by rewrite app_nil_r. }
  destruct (Hi i) as (c & res & Hx & Hs); [left|]. rewrite Hx. simpl.
  assert (Hc : change_for res c).
  { rewrite Forall_forall in Hfor. apply (Hfor (c, res)). by eapply list_elem_of_lookup_2. }
  pose proof (execute_calls c res w Hc Hs) as He.
  destruct (execute env_of p c res w) as [w' err]. simpl in He.
  assert (Hi' : forall j, j ∈ order -> exists c r, items !! j = Some (c, r) /\ skipped c = false)
    by (intros j Hj; apply Hi; by right).
  pose proof (IH w' ((i, err) :: errs) Hi') as E. unfold exec_fold in E |- *. rewrite E, He.
  by rewrite <- (assoc_L (++)).
Qed.

Lemma omap_seq_lookup {A B} (f : A -> B) (g : A -> bool) (l : list A) k :
  omap (fun i => option_map f (l !! (i - k)%nat))
    (List.filter (fun i => match l !! (i - k)%nat with Some x => g x | None => false end)
      (seq k (length l)))
  = map f (List.filter g l).
Proof.
  revert k. induction l as [|x l IH]; intros k; [done|].
  cbn [length seq List.filter]. rewrite Nat.sub_diag. cbn [lookup list_lookup].
  assert (E2 : forall q : list nat, (forall i, i ∈ q -> (k < i)%nat) ->
     omap (fun i => option_map f ((x :: l) !! (i - k)%nat)) q
     = omap (fun i => option_map f (l !! (i - S k)%nat)) q).
  { intros q Hq. apply list_omap_ext, Forall_Forall2_diag, Forall_forall. intros j Hj.
    specialize (Hq j Hj). by replace (j - k)%nat with (S (j - S k)) by lia. }
  rewrite filter_seq_shift. destruct (g x); simpl; rewrite ?Nat.sub_diag; simpl; rewrite E2, IH; try done;
    intros i Hi; apply list_elem_of_In, filter_In in Hi as [Hi%in_seq _]; lia.
Qed.

Lemma started_calls items :
  omap (fun i => option_map (fun x : Change * Resource => call_of x.1) (items !! i)) (started items)
  = map call_of (actionable (map fst items)).
Proof.
  pose proof (omap_seq_lookup (fun x : Change * Resource => call_of x.1)
                (fun x => negb (skipped x.1)) items 0) as H.
  unfold actionable. rewrite List.filter_map_swap, map_map, <- H. unfold started.
  rewrite (List.filter_ext _ (fun i => match items !! (i - 0)%nat with
     | Some x => negb (skipped x.1) | None => false end)).
  - apply list_omap_ext, Forall_Forall2_diag, Forall_true. intros i. by rewrite Nat.sub_0_r.
  - intros i. rewrite Nat.sub_0_r. by destruct (items !! i) as [[??]|].
Qed.

(** The calls made for the changes [cs]: one each, in the order of the changes when
    the engine runs sequentially, kind by kind otherwise. *)
Record performs (conc : Z) (ms : list call) (cs : list Change) : Prop := {
  pf_perm : ms ≡ₚ map call_of (actionable cs);
  pf_kinds : map call_kind ms = map ch_Kind (actionable cs);
  pf_seq : (conc <= 1)%Z -> ms = map call_of (actionable cs)
}.

Lemma performs_eq conc cs : performs conc (map call_of (actionable cs)) cs.
Proof. split; [done|by rewrite map_map|done]. Qed.

Lemma performs_app conc ms cs ms' cs' :
  performs conc ms cs -> performs conc ms' cs' -> performs conc (ms ++ ms') (cs ++ cs').
Proof.
  intros [P K S] [P' K' S']. split; rewrite actionable_app, ?map_app.
  - by rewrite P, P'.
  - by rewrite K, K'.
  - intros. by rewrite S, S'.
Qed.

(** A permutation of calls of one kind. *)
Lemma map_kind_const k ms cs :
  ms ≡ₚ map call_of cs -> Forall (fun c => ch_Kind c = k) cs -> map call_kind ms = map ch_Kind cs.
Proof.
  intros Hp Hk.
  assert (Hc : map ch_Kind cs = replicate (length cs) k).
  { clear Hp. induction Hk as [|c cs Hc _ IH]; simpl; [done|]. by rewrite Hc, IH. }
  assert (Hm : Forall (fun x => call_kind x = k) ms).
  { rewrite Hp. apply Forall_map. exact Hk. }
  assert (Hl : length ms = length cs) by (rewrite Hp; apply length_map).
  rewrite Hc, <- Hl. clear -Hm. induction Hm as [|x ms Hx _ IH]; simpl; [done|]. by rewrite Hx, IH.
Qed.

Lemma actionable_kinds k rs cs :
  Forall2 change_for rs cs -> Forall (fun r => Kind r = k) rs ->
  Forall (fun c => ch_Kind c = k) (actionable cs).
Proof.
  intros H Hk. unfold actionable. apply Forall_forall. intros c Hc.
  apply list_elem_of_In, filter_In in Hc as [Hc _]. apply list_elem_of_In in Hc.
  apply list_elem_of_lookup in Hc as [i Hi].
  destruct (Forall2_lookup_r _ _ _ _ _ H Hi) as (r & Hr & [Hck _ _ _]).
  rewrite Hck. apply (Forall_lookup_1 _ _ _ _ Hk Hr).
Qed.

Lemma Forall2_zip {A B} (R : A -> B -> Prop) (l : list A) (k : list B) :
  Forall2 R l k -> Forall (fun x => R x.2 x.1) (zip k l).
Proof. induction 1; simpl; by constructor. Qed.

Lemma executeChanges_calls sch k cs rs conc w :
  FairSchedule sch -> Forall2 change_for rs cs -> Forall (fun r => Kind r = k) rs ->
  exists ms, calls (executeChanges env_of p sch k cs rs conc w).1 = (calls w ++ ms)%list /\
             performs conc ms cs.
Proof.
  intros Hf Hfor Hk. unfold executeChanges.
  assert (Hz : map fst (zip cs rs) = cs) by (apply fst_zip; by rewrite (Forall2_length _ _ _ Hfor)).
  pose proof (Forall2_zip _ _ _ Hfor) as Hi.
  destruct (conc <=? 1)%Z eqn:Hc.
  - exists (map call_of (actionable cs)). split; [|apply performs_eq].
    rewrite execute_loop_calls by done. by rewrite Hz.
  - set (items := zip cs rs) in *. set (order := execute_order sch k (started items)).
    exists (omap (fun i => option_map (fun x => call_of x.1) (items !! i)) order). split.
    + rewrite <- (exec_fold_calls items order w []); [|done|].
      * unfold execute_parallel. fold (exec_fold env_of p items order (w, [])).
        by destruct (exec_fold env_of p items order (w, [])).
      * intros i Hio. apply started_spec. unfold order in Hio. by rewrite execute_perm in Hio.
    + assert (Hp : omap (fun i => option_map (fun x => call_of x.1) (items !! i)) order
                   ≡ₚ map call_of (actionable cs)).
      { rewrite <- Hz. fold items. rewrite <- started_calls. unfold order.
        by rewrite execute_perm. }
      split; [done| |lia]. eapply map_kind_const; [done|]. by eapply actionable_kinds.
Qed.

Lemma reconcile_kind_step_calls sch m opts w plan result k :
  FairSchedule sch ->
  let out := reconcile_kind_step env_of p sch m opts (w, (plan, result)) k in
  exists ms cs, calls out.1 = (calls w ++ ms)%list /\
    Changes out.2.1 = (Changes plan ++ cs)%list /\
    if DryRun opts then ms = [] else performs (Concurrency opts) ms cs.
Proof.
  intros Hf. unfold reconcile_kind_step.
  destruct (byKind m k) as [|r0 rs0] eqn:Hk.
  { exists [], []. rewrite !app_nil_r. split; [done|]. split; [done|].
    destruct (DryRun opts); [done|]. apply (performs_eq _ []). }
  set (rs := r0 :: rs0) in *.
  pose proof (reconcileKind_for env_of p sch k rs (Force opts) (Concurrency opts) w Hf) as Hrc.
  pose proof (reconcileKind_calls sch k rs (Force opts) (Concurrency opts) w) as Hcalls.
  destruct (reconcileKind env_of p sch k rs (Force opts) (Concurrency opts) w) as [w1 cs].
  cbn [fst snd] in Hrc, Hcalls.
  assert (Hch : Changes (foldl (fun plan '(res, change) => count_change plan res change) plan
                           (zip rs cs)) = (Changes plan ++ cs)%list).
  { clear -Hrc. revert plan. induction Hrc as [|r c rs cs _ H IH]; intros plan; simpl;
      [by rewrite app_nil_r|]. rewrite IH. simpl. by rewrite <- (assoc_L (++)). }
  destruct (DryRun opts) eqn:Hd.
  - exists [], cs. rewrite app_nil_r. done.
  - assert (Hkinds : Forall (fun r => Kind r = k) rs).
    { apply Forall_forall. intros r Hr. apply (byKind_kind m). by rewrite Hk. }
    destruct (executeChanges_calls sch k cs rs (Concurrency opts) w1 Hf Hrc Hkinds) as (ms & H1 & H2).
    destruct (executeChanges env_of p sch k cs rs (Concurrency opts) w1) as [w2 kr].
    exists ms, cs. cbn [fst snd] in *. rewrite H1, Hcalls. done.
Qed.

Lemma reconcile_loop_calls sch m opts ks w plan result :
  FairSchedule sch ->
  let out := foldl (reconcile_kind_step env_of p sch m opts) (w, (plan, result)) ks in
  exists ms cs, calls out.1 = (calls w ++ ms)%list /\
    Changes out.2.1 = (Changes plan ++ cs)%list /\
    if DryRun opts then ms = [] else performs (Concurrency opts) ms cs.
Proof.
  intros Hf. revert w plan result. induction ks as [|k ks IH]; intros w plan result; cbn [foldl].
  { exists [], []. rewrite !app_nil_r. split; [done|]. split; [done|].
    destruct (DryRun opts); [done|]. apply (performs_eq _ []). }
  destruct (reconcile_kind_step_calls sch m opts w plan result k Hf) as (ms & cs & H1 & H2 & H3).
  destruct (reconcile_kind_step env_of p sch m opts (w, (plan, result)) k) as [w1 [plan1 r1]].
  destruct (IH w1 plan1 r1) as (ms' & cs' & H1' & H2' & H3').
  exists (ms ++ ms')%list, (cs ++ cs')%list. cbn [fst snd] in *.
  rewrite H1', H1, H2', H2, <- !(assoc_L (++)). split; [done|]. split; [done|].
  destruct (DryRun opts); [by subst|]. by apply performs_app.
Qed.

Lemma prune_remotes_calls m dry k remotes w cs r :
  calls (foldl (prune_remote p m dry k) (w, (cs, r)) remotes).1
  = (calls w ++ if dry then [] else
       map call_of (map (delete_change k) (List.filter (orphan m k) remotes)))%list.
Proof.
  revert w cs r. induction remotes as [|ri remotes IH]; intros w cs r;
    cbn [foldl List.filter map].
  { destruct dry; by rewrite app_nil_r. }
  rewrite prune_remote_eq. destruct (orphan m k ri); [|apply IH]. cbn [map].
  destruct dry; [apply IH|]. pose proof (calls_delete k (ri_Name ri) w) as Hd.
  destruct (Delete p k (ri_Name ri) w) as [w' d]. rewrite IH. simpl in Hd.
  by rewrite Hd, <- (assoc_L (++)).
Qed.

Lemma prune_calls m dry kinds w cs r :
  let out := foldl (prune_kind p m dry) (w, (cs, r)) kinds in
  exists ds, out.2.1 = (cs ++ ds)%list /\
    calls out.1 = (calls w ++ if dry then [] else map call_of ds)%list.
Proof.
  revert w cs r. induction kinds as [|k kinds IH]; intros w cs r; cbn [foldl].
  { exists []. rewrite app_nil_r. split; [done|]. destruct dry; by rewrite app_nil_r. }
  rewrite prune_kind_eq. destruct (unprunable k); [apply IH|].
  pose proof (calls_list k w) as Hl. destruct (ListAll p k w) as [w' [remotes|e]]; cbn [fst] in Hl.
  - destruct (prune_remotes_changes p m dry k remotes w' cs r) as (P1 & _).
    pose proof (prune_remotes_calls m dry k remotes w' cs r) as P2.
    destruct (foldl (prune_remote p m dry k) (w', (cs, r)) remotes) as [w2 [cs2 r2]].
    cbn [fst snd] in P1, P2. destruct (IH w2 cs2 r2) as (ds & H1 & H2).
    eexists. cbn [fst snd] in *. split; [rewrite H1, P1, <- (assoc_L (++)); reflexivity|].
    rewrite H2, P2, Hl, <- (assoc_L (++)). f_equal. destruct dry; [done|]. by rewrite map_app.
  - destruct (IH w' cs r) as (ds & H1 & H2). exists ds. split; [done|]. by rewrite H2, Hl.
Qed.

(** The mutating calls of a reconciliation, and the changes of its plan. *)
Lemma Reconcile_calls sch m opts w w' plan result :
  FairSchedule sch -> Reconcile env_of p sch m opts w = (w', (plan, result)) ->
  exists ms, calls w' = (calls w ++ ms)%list /\
    if DryRun opts then ms = [] else performs (Concurrency opts) ms (Changes plan).
Proof.
  intros Hf HR. destruct (Reconcile_inv env_of p sch m opts w w' plan result Hf HR) as
    (cs0 & ds0 & _ & _ & Hds & _). revert HR. unfold Reconcile.
  destruct (reconcile_loop_calls sch m opts ApplyOrder w emptyPlan emptyResult Hf)
    as (ms & cs & H1 & H2 & H3).
  destruct (foldl (reconcile_kind_step env_of p sch m opts) (w, (emptyPlan, emptyResult)) ApplyOrder)
    as [w1 [plan1 r1]]. cbn [fst snd] in *.
  destruct (Prune opts).
  - unfold detectAndExecutePrunes.
    destruct (prune_calls m (DryRun opts) DeleteOrder w1 [] emptyResult) as (ds & D1 & D2).
    destruct (prune_kinds_changes p m (DryRun opts) DeleteOrder w1 [] emptyResult)
      as (ls & _ & P2 & _).
    destruct (foldl (prune_kind p m (DryRun opts)) (w1, ([], emptyResult)) DeleteOrder)
      as [w2 [pc pr]]. cbn [fst snd app] in *. subst pc.
    intros [= <- <- _]. exists (ms ++ if DryRun opts then [] else map call_of ds)%list.
    rewrite D2, H1, <- (assoc_L (++)). split; [done|].
    assert (Hd : Forall (prune_change m) ds) by (rewrite P2; apply prune_plans_change).
    assert (Hch : Changes (foldl count_delete (add_changes plan1 ds) ds) = (Changes plan1 ++ ds)%list).
    { clear. change (Changes plan1 ++ ds)%list with (Changes (add_changes plan1 ds)).
      generalize (add_changes plan1 ds). induction ds as [|d ds IH]; intros q; simpl; [done|].
      by rewrite IH. }
    assert (Hact : actionable ds = ds).
    { clear -Hd. induction Hd as [|c ds (Hc & He & _) _ IH]; [done|]. simpl. unfold skipped.
      rewrite Hc, He. simpl. by rewrite IH. }
    destruct (DryRun opts); [by rewrite H3|]. rewrite Hch. apply performs_app; [by rewrite H2|].
    rewrite <- Hact at 1. apply performs_eq.
  - intros [= <- <- _]. exists ms. split; [done|]. rewrite H2. done.
Qed.
End traced.
