(* ===== verification/EngineConverge.v ===== *)
(** * Convergence

    What the engine expects of a provider's store, as an interface
    ([LawfulStore]), and what it then delivers: after a reconciliation that
    reports no failure, the next one finds nothing to do.  [mem_provider] is a
    store in memory that meets the interface. *)
From Stdlib Require Import ZArith Lia Bool Ascii.
From Stdlib Require String.
From S2P Require Import Prelude GoStr GoValue Manifest Secrets Compare WriteOnly Engine EngineProps EngineTrace.

Local Open Scope string_scope.

#[local] Arguments CompareSpecExcluding : simpl never.
#[local] Arguments hash_drift : simpl never.
#[local] Arguments desired_hash : simpl never.

(** ** The interface *)

(** What an observation [v] returns of a spec [s] that was written: the fields
    compared, as they were sent; the hash, when the kind echoes one, and no other
    hash otherwise. *)
Record shows (kind : ResourceKind) (s v : gomap) : Prop := {
  shows_fields k x : mget k s = Some x -> k <> WriteOnlyHashField ->
    existsb (String.eqb k) (WriteOnlyFields kind) = false -> mget k v = Some x;
  shows_hash h : mget WriteOnlyHashField s = Some h ->
    if SupportsWriteOnlyHash kind then mget WriteOnlyHashField v = Some h
    else mget WriteOnlyHashField v = None \/ mget WriteOnlyHashField v = Some h
}.

Definition another (k k' : ResourceKind) (n n' : string) : Prop := k <> k' \/ n <> n'.

(** An operation on [(k, n)]: it leaves the environment and the other resources
    alone, and lists no resource that was not listed, but its own. *)
Record frames {W} (env_of : W -> Env) (view : W -> ResourceKind -> string -> option gomap)
    (listed : W -> ResourceKind -> list ResourceInfo)
    (k : ResourceKind) (n : string) (w w' : W) : Prop := {
  fr_env : env_of w' = env_of w;
  fr_view k' n' : another k k' n n' -> view w' k' n' = view w k' n';
  fr_list k' ri : ri ∈ listed w' k' -> ri ∈ listed w k' \/ (k' = k /\ ri_Name ri = n)
}.

Class LawfulStore {W} (env_of : W -> Env) (p : ProviderInterface W)
    (view : W -> ResourceKind -> string -> option gomap)
    (listed : W -> ResourceKind -> list ResourceInfo) : Prop := {
  store_observe k n w : Observe p k n w = (w, Ok (view w k n));
  store_list k w : ListAll p k w = (w, Ok (listed w k));
  store_create_frame k n s w : frames env_of view listed k n w (Create p k n s w).1;
  store_update_frame k n s w : frames env_of view listed k n w (Update p k n s w).1;
  store_delete_frame k n w : frames env_of view listed k n w (Delete p k n w).1;
  store_create k n s w w' : Create p k n s w = (w', Ok tt) ->
    exists v, view w' k n = Some v /\ shows k s v;
  store_update k n s w w' : Update p k n s w = (w', Ok tt) ->
    exists v, view w' k n = Some v /\ shows k s v;
  store_delete k n w w' : Delete p k n w = (w', Ok tt) ->
    forall ri, ri ∈ listed w' k -> ri ∈ listed w k /\ ri_Name ri <> n
}.

Section converge.
Context {U : Unicode} {W : Type} {env_of : W -> Env} {p : ProviderInterface W}.
Context {view : W -> ResourceKind -> string -> option gomap}.
Context {listed : W -> ResourceKind -> list ResourceInfo}.
Context {L : LawfulStore env_of p view listed}.

(** The spec that reaches the provider, before the hash is added. *)
Definition resolved (env : Env) (r : Resource) : gomap := resolveSpecSecrets env (specMap r).

(** A resource whose spec the comparison treats exactly. *)
Record exact_resource (env : Env) (r : Resource) : Prop := {
  ex_uniq : uniq_keys (resolved env r);
  ex_values : Forall (fun kv => proper_val kv.2) (resolved env r);
  ex_sets : set_fields_ok EmptyString (resolved env r);
  ex_hash : mget WriteOnlyHashField (resolved env r) = None
}.

Definition ignored (r : Resource) : bool :=
  String.eqb (strget AnnotationSyncPolicy (Annotations r)) SyncPolicyIgnore.

(** Nothing to do for [r]: its observation agrees with it. *)
Definition settled (w : W) (r : Resource) : Prop :=
  ignored r = true \/
  exists v, view w (Kind r) (Name r) = Some v /\
    CompareSpecExcluding (resolved (env_of w) r) v (WriteOnlyFields (Kind r)) = ∅ /\
    hash_drift (Kind r) (desired_hash r (resolved (env_of w) r)) (getStr WriteOnlyHashField v) = false.

(** ** One resource *)

Lemma desired_hash_if r spec :
  (if String.eqb (strget AnnotationIgnoreWriteOnly (Annotations r)) "true" then ""
   else desired_hash r spec) = desired_hash r spec.
Proof. unfold desired_hash. by case_match. Qed.

(** The change planned against the store. *)
Definition planned (r : Resource) (force : bool) (w : W) : Change :=
  rc_change (stepCompare
    (mkRc r (resolved (env_of w) r) (view w (Kind r) (Name r))
       (mkChange (Kind r) (Name r) ActionUnset ∅ "" false "") force None)).1.

Lemma reconcileOne_store r force w :
  reconcileOne env_of p r force w = (w, planned r force w).
Proof.
  unfold reconcileOne, run_steps, stepResolveSecrets, stepObserve, planned. cbn [rc_resource].
  rewrite store_observe. cbn. by destruct (stepCompare _) as [rc [e|]].
Qed.

Lemma planned_error r force w : ch_Error (planned r force w) = "".
Proof. unfold planned, stepCompare. cbn. repeat case_match; by simplify_eq/=. Qed.

Lemma planned_hash r force w :
  ignored r = false -> ch_WriteOnlyHash (planned r force w) = desired_hash r (resolved (env_of w) r).
Proof.
  unfold ignored, planned, stepCompare. cbn. intros ->.
  rewrite desired_hash_if. repeat case_match; by simplify_eq/=.
Qed.

(** The plan leaves a resource alone exactly when it is settled. *)
Lemma planned_noop_settled r force w :
  ch_Action (planned r force w) = ActionNoop -> settled w r.
Proof.
  unfold settled, ignored, planned, stepCompare. cbn.
  destruct (String.eqb (strget AnnotationSyncPolicy (Annotations r)) SyncPolicyIgnore); [by left|].
  rewrite desired_hash_if. destruct (view w (Kind r) (Name r)) as [v|]; [|done]. intros H. right. exists v.
  split; [done|]. destruct (hash_drift _ _ _) eqn:Hd; cbn in H.
  - rewrite bool_decide_eq_false_2 in H by apply insert_non_empty. done.
  - case_bool_decide; [done|]. done.
Qed.

Lemma settled_planned w r : settled w r -> ch_Action (planned r false w) = ActionNoop.
Proof.
  unfold settled, ignored, planned, stepCompare. cbn.
  destruct (String.eqb (strget AnnotationSyncPolicy (Annotations r)) SyncPolicyIgnore); [done|].
  intros [?|(v & -> & Hc & Hh)]; [done|].
  rewrite desired_hash_if, Hc, Hh. rewrite bool_decide_eq_true_2 by done. done.
Qed.

(** What is written for a resource settles it. *)
Lemma shows_settled w r v :
  exact_resource (env_of w) r ->
  view w (Kind r) (Name r) = Some v ->
  (let h := desired_hash r (resolved (env_of w) r) in
   shows (Kind r) (if String.eqb h "" then resolved (env_of w) r
                   else mset WriteOnlyHashField (VStr h) (resolved (env_of w) r)) v) ->
  settled w r.
Proof.
  intros [Hu Hp Hs Hh] Hv Hsh. right. exists v. split; [done|].
  set (h := desired_hash r (resolved (env_of w) r)) in *. cbv zeta in Hsh. split.
  - apply CompareSpecExcluding_covers; [done|done|]. intros k x Hin Hx.
    assert (Hk : k <> WriteOnlyHashField).
    { intros ->. apply mget_None in Hh. apply Hh. apply list_elem_of_fmap. by exists (WriteOnlyHashField, x). }
    apply (shows_fields _ _ _ Hsh); [|done|done].
    case_match; rewrite ?mget_mset_ne by done; by apply mget_in.
  - unfold hash_drift. destruct (String.eqb_spec h "") as [Hz|Hne]; [done|].
    pose proof (shows_hash _ _ _ Hsh (VStr h) (mget_mset_eq _ _ _)) as He.
    assert (Hh' : mget WriteOnlyHashField v = Some (VStr h) ->
                  String.eqb h (getStr WriteOnlyHashField v) = true).
    { unfold getStr, getAs. intros ->. apply String.eqb_refl. }
    destruct (SupportsWriteOnlyHash (Kind r)); [rewrite Hh' by done; done|].
    destruct He as [He|He]; [|by rewrite Hh'].
    unfold getStr, getAs. rewrite He. simpl. by rewrite andb_false_r.
Qed.

(** Settling is not undone by an operation on another resource. *)
Lemma settled_frame k n w w' r :
  frames env_of view listed k n w w' -> another k (Kind r) n (Name r) -> settled w r -> settled w' r.
Proof.
  intros [He Hv _] Ha [Hi|(v & Hv' & Hc & Hh)]; [by left|]. right. exists v.
  rewrite He, Hv by done. done.
Qed.

(** ** The observe phase *)

Lemma observe_loop_store rs force w :
  observe_loop env_of p rs force w = (w, map (fun r => planned r force w) rs).
Proof.
  induction rs as [|r rs IH]; simpl; [done|]. by rewrite reconcileOne_store, IH.
Qed.

(** Observations in any order fill the slots the sequential loop fills. *)
Lemma observe_parallel_store rs force order w :
  order ≡ₚ seq 0 (length rs) ->
  observe_parallel env_of p rs force order w = (w, map (fun r => planned r force w) rs).
Proof.
  intros Hp. unfold observe_parallel.
  set (f := fun acc i => let '(w, changes) := acc in
       match rs !! i with
       | Some res => let '(w', c) := reconcileOne env_of p res force w in (w', <[i:=c]> changes)
       | None => (w, changes) end).
  assert (H : forall cs, length cs = length rs ->
    (foldl f (w, cs) order).1 = w /\ length (foldl f (w, cs) order).2 = length rs /\
    forall i, (foldl f (w, cs) order).2 !! i =
      if decide (i ∈ order) then (fun r => planned r force w) <$> rs !! i else cs !! i).
  { clear Hp. induction order as [|j order IH]; intros cs Hl; cbn [foldl].
    { split; [done|]. split; [done|]. intros i. by rewrite decide_False by apply not_elem_of_nil. }
    destruct (rs !! j) as [rj|] eqn:Ej.
    - assert (Ef : f (w, cs) j = (w, <[j := planned rj force w]> cs)).
      { unfold f. by rewrite Ej, reconcileOne_store. }
      rewrite Ef. destruct (IH (<[j := planned rj force w]> cs)) as (H1 & H2 & H3);
        [by rewrite length_insert|].
      split; [done|]. split; [done|]. intros i. rewrite H3.
      destruct (decide (i ∈ order)) as [Hi|Hi]; [by rewrite decide_True by (by right)|].
      destruct (decide (i = j)) as [->|Hne].
      + rewrite decide_True by left. rewrite list_lookup_insert_eq, Ej; [done|].
        rewrite Hl. by eapply lookup_lt_Some.
      + rewrite decide_False by (rewrite elem_of_cons; tauto).
        by rewrite list_lookup_insert_ne by done.
    - assert (Ef : f (w, cs) j = (w, cs)) by (unfold f; by rewrite Ej).
      rewrite Ef. destruct (IH cs Hl) as (H1 & H2 & H3). split; [done|]. split; [done|].
      intros i. rewrite H3.
      destruct (decide (i ∈ order)) as [Hi|Hi]; [by rewrite decide_True by (by right)|].
      destruct (decide (i = j)) as [->|Hne].
      + rewrite decide_True by left. rewrite Ej. simpl.
        apply lookup_ge_None. apply lookup_ge_None in Ej. lia.
      + by rewrite decide_False by (rewrite elem_of_cons; tauto). }
  destruct (H (replicate (length rs) zeroChange)) as (H1 & H2 & H3); [apply length_replicate|].
  apply injective_projections; [done|]. apply list_eq. intros i. cbn [snd].
  change (map (fun r => planned r force w) rs) with ((fun r => planned r force w) <$> rs).
  rewrite H3, list_lookup_fmap.
  case_decide as Hi; [done|]. rewrite Hp, elem_of_seq in Hi.
  rewrite (lookup_ge_None_2 rs) by lia. apply lookup_ge_None. rewrite length_replicate. lia.
Qed.

Lemma reconcileKind_store sch k rs force conc w :
  FairSchedule sch ->
  reconcileKind env_of p sch k rs force conc w = (w, map (fun r => planned r force w) rs).
Proof.
  intros Hf. unfold reconcileKind. case_match; [apply observe_loop_store|].
  apply observe_parallel_store. apply observe_perm.
Qed.

(** ** The execute phase *)

(** Running the changes of [l] in order. *)
Fixpoint exec_list (l : list (Change * Resource)) (w : W) : W * list (option error) :=
  match l with
  | [] => (w, [])
  | (c, r) :: l' => let '(w1, e) := execute env_of p c r w in
                    let '(w2, es) := exec_list l' w1 in (w2, e :: es)
  end.

Lemma execute_frame c r w : frames env_of view listed (Kind r) (Name r) w (execute env_of p c r w).1.
Proof.
  unfold execute. destruct (ch_Action c).
  2: { match goal with |- context [Create p ?k ?n ?s w] =>
         pose proof (store_create_frame k n s w); by destruct (Create p k n s w) end. }
  2: { match goal with |- context [Update p ?k ?n ?s w] =>
         pose proof (store_update_frame k n s w); by destruct (Update p k n s w) end. }
  all: split; [done|done|by left].
Qed.

(** A change as the observe phase plans it, that is not skipped. *)
Definition planned_change (env : Env) (x : Change * Resource) : Prop :=
  change_for x.2 x.1 /\ skipped x.1 = false /\
  ch_WriteOnlyHash x.1 = desired_hash x.2 (resolved env x.2).

Lemma execute_settles c r w w' :
  planned_change (env_of w) (c, r) -> exact_resource (env_of w) r ->
  execute env_of p c r w = (w', None) -> settled w' r.
Proof.
  intros ([_ _ Ha _] & Hs & Hh) Hx He.
  pose proof (execute_frame c r w) as Hf. rewrite He in Hf. destruct Hf as [Henv _ _].
  cbn [fst snd] in *. unfold execute in He. rewrite Hh in He.
  unfold skipped in Hs. apply orb_false_iff in Hs as [Hn _]. apply bool_decide_eq_false in Hn.
  assert (Hv : exists v, view w' (Kind r) (Name r) = Some v /\
    shows (Kind r) (if String.eqb (desired_hash r (resolved (env_of w) r)) ""
                    then resolved (env_of w) r
                    else mset WriteOnlyHashField (VStr (desired_hash r (resolved (env_of w) r)))
                           (resolved (env_of w) r)) v).
  { destruct Ha as [Ha|[Ha|Ha]]; [| |done]; rewrite Ha in He.
    - destruct (Create p _ _ _ w) as [w1 [[]|e]] eqn:E; simplify_eq/=. by eapply store_create.
    - destruct (Update p _ _ _ w) as [w1 [[]|e]] eqn:E; simplify_eq/=. by eapply store_update. }
  destruct Hv as (v & Hv & Hsh). rewrite <- Henv in Hsh, Hx.
  by eapply shows_settled.
Qed.

(** The environment and the resources not touched by the changes of [l]. *)
Lemma exec_list_frame l w w' es :
  exec_list l w = (w', es) ->
  env_of w' = env_of w /\
  (forall r, Forall (fun x => resource_id x.2 <> resource_id r) l -> settled w r -> settled w' r) /\
  (forall k ri, ri ∈ listed w' k ->
     ri ∈ listed w k \/ (k, ri_Name ri) ∈ map (fun x => resource_id x.2) l).
Proof.
  revert w es. induction l as [|[c r0] l IH]; intros w es; simpl.
  { intros [= <- <-]. split; [done|]. split; [done|by left]. }
  pose proof (execute_frame c r0 w) as Hf. destruct (execute env_of p c r0 w) as [w1 e].
  destruct (exec_list l w1) as [w2 es'] eqn:E. intros [= <- <-].
  destruct (IH _ _ E) as (H1 & H2 & H3). cbn [fst] in Hf.
  split; [rewrite H1; apply Hf|]. split.
  - intros r Hr Hs. apply Forall_cons in Hr as [Hr0 Hr]. apply H2; [done|].
    eapply settled_frame; [done| |done]. unfold another, resource_id in *. simpl in Hr0.
    destruct (decide (Kind r0 = Kind r)); [right|by left]. intros ?. apply Hr0. congruence.
  - intros k ri Hri. apply H3 in Hri as [Hri|Hri]; [|right; by right].
    apply (fr_list _ _ _ _ _ _ _ Hf) in Hri as [?|[-> Hn]]; [by left|].
    right. rewrite Hn. left.
Qed.

Lemma exec_list_settles l w w' es :
  exec_list l w = (w', es) -> Forall (fun e => e = None) es ->
  NoDup (map (fun x => resource_id x.2) l) ->
  Forall (planned_change (env_of w)) l -> Forall (fun x => exact_resource (env_of w) x.2) l ->
  Forall (fun x => settled w' x.2) l.
Proof.
  revert w es. induction l as [|[c r] l IH]; intros w es; simpl; [constructor|].
  destruct (execute env_of p c r w) as [w1 e] eqn:Ex.
  destruct (exec_list l w1) as [w2 es'] eqn:E. intros [= <- <-] Hn Hnd Hpl Hex.
  apply Forall_cons in Hn as [-> Hn], Hpl as [Hp Hpl], Hex as [Hx Hex].
  apply NoDup_cons in Hnd as [Hni Hnd].
  pose proof (execute_frame c r w) as Hf. rewrite Ex in Hf. cbn [fst] in Hf.
  destruct (exec_list_frame _ _ _ _ E) as (_ & H2 & _).
  constructor.
  - apply H2; [|by eapply execute_settles]. apply Forall_forall. intros x Hxl Heq. apply Hni.
    cbn [snd] in *. rewrite <- Heq. apply list_elem_of_fmap. by exists x.
  - rewrite <- (fr_env _ _ _ _ _ _ _ Hf) in Hpl, Hex. by eapply IH.
Qed.

(** Both execute phases run the changes not skipped, in some order. *)
Definition todo (items : list (Change * Resource)) : list (Change * Resource) :=
  List.filter (fun x => negb (skipped x.1)) items.

Lemma execute_loop_list items r0 w :
  exists es, exec_list (todo items) w = ((execute_loop env_of p items r0 w).1, es) /\
    (Failed (execute_loop env_of p items r0 w).2 = 0%nat ->
     Failed r0 = 0%nat /\ Forall (fun e => e = None) es).
Proof.
  revert r0 w. induction items as [|[c r] items IH]; intros r0 w; simpl; [by exists []|].
  destruct (skipped c); simpl; [apply IH|].
  destruct (execute env_of p c r w) as [w1 e].
  destruct (IH (record_outcome r0 (ch_Kind c) (ch_Name c) e) w1) as (es & -> & H).
  exists (e :: es). split; [done|]. intros Hz. apply H in Hz as [Hz Hes].
  destruct e; simpl in *; [lia|]. auto.
Qed.

Lemma exec_fold_list items order w errs :
  exists es, exec_list (omap (fun i => items !! i) order) w
             = ((exec_fold env_of p items order (w, errs)).1, es) /\
    ((forall i, i ∈ order -> is_Some (items !! i)) ->
     length es = length order /\
     (exec_fold env_of p items order (w, errs)).2 = (reverse (zip order es) ++ errs)%list).
Proof.
  revert w errs. induction order as [|i order IH]; intros w errs; simpl; [by exists []|].
  destruct (items !! i) as [[c r]|] eqn:Hi.
  - destruct (execute env_of p c r w) as [w1 e] eqn:He.
    destruct (IH w1 ((i, e) :: errs)) as (es & H1 & H2). exists (e :: es).
    change (exec_list ((c, r) :: omap (fun i => items !! i) order) w
            = ((exec_fold env_of p items order (w1, (i, e) :: errs)).1, e :: es) /\
           ((forall j, j ∈ i :: order -> is_Some (items !! j)) ->
            length (e :: es) = S (length order) /\
            (exec_fold env_of p items order (w1, (i, e) :: errs)).2
            = (reverse ((i, e) :: zip order es) ++ errs)%list)).
    cbn [exec_list]. rewrite He, H1. split; [done|]. intros Hj.
    destruct H2 as [H2 H3]; [intros; apply Hj; by right|]. simpl. rewrite H2, H3.
    by rewrite reverse_cons, <- (assoc_L (++)).
  - destruct (IH w errs) as (es & H1 & H2). exists es. split; [done|]. intros Hj.
    destruct (Hj i) as [x Hx]; [left|congruence].
Qed.

(** A zero failure count means that every outcome recorded is a success. *)
Lemma record_fold_failed (items : list (Change * Resource)) errs order r0 :
  let r := foldl (fun result i =>
     match items !! i, list_find (fun p : nat * option error => p.1 = i) errs with
     | Some (change, _), Some (_, (_, err)) =>
       record_outcome result (ch_Kind change) (ch_Name change) err
     | _, _ => result
     end) r0 order in
  Failed r = 0%nat ->
  Failed r0 = 0%nat /\
  forall i x j e, i ∈ order -> items !! i = Some x ->
    list_find (fun p : nat * option error => p.1 = i) errs = Some (j, (i, e)) -> e = None.
Proof.
  revert r0. induction order as [|i order IH]; intros r0; simpl.
  { intros. split; [done|]. by intros i x j e ?%not_elem_of_nil. }
  intros Hz. apply IH in Hz as [Hz Hr]. split.
  - destruct (items !! i) as [[c r]|]; [|done].
    destruct (list_find _ errs) as [[j [i' e]]|]; [|done]. destruct e; simpl in *; lia.
  - intros i' x j e Hi Hx Hf. apply elem_of_cons in Hi as [->|Hi]; [|by eapply Hr].
    rewrite Hx in Hz. destruct x as [c r]. rewrite Hf in Hz. destruct e; [simpl in Hz; lia|done].
Qed.

Lemma omap_started items : omap (fun i => items !! i) (started items) = todo items.
Proof.
  pose proof (omap_seq_lookup (fun x : Change * Resource => x) (fun x => negb (skipped x.1)) items 0) as H.
  rewrite map_id in H. unfold todo. rewrite <- H. unfold started.
  rewrite (List.filter_ext _ (fun i => match items !! (i - 0)%nat with
     | Some x => negb (skipped x.1) | None => false end)).
  - apply list_omap_ext, Forall_Forall2_diag, Forall_true. intros i. rewrite Nat.sub_0_r.
    by destruct (items !! i).
  - intros i. rewrite Nat.sub_0_r. by destruct (items !! i) as [[??]|].
Qed.

Lemma started_NoDup items : NoDup (started items).
Proof. apply NoDup_ListNoDup, List.NoDup_filter, NoDup_ListNoDup, NoDup_seq. Qed.

Definition uniq_nat {A} (l : list (nat * A)) : Prop := NoDup (map fst l).

Lemma uniq_nat_eq {A} (l : list (nat * A)) i (x y : A) :
  uniq_nat l -> (i, x) ∈ l -> (i, y) ∈ l -> x = y.
Proof.
  unfold uniq_nat. induction l as [|[j z] l IH]; simpl; [by intros _ ?%not_elem_of_nil|].
  rewrite NoDup_cons, !elem_of_cons. intros [Hj Hn] [E1|Hx] [E2|Hy]; simplify_eq; [done|..|eauto];
    destruct Hj; apply list_elem_of_fmap; eexists; (split; [|done]); done.
Qed.

Lemma list_find_zip (order : list nat) (es : list (option error)) i e :
  NoDup order -> (i, e) ∈ zip order es ->
  exists j, list_find (fun p : nat * option error => p.1 = i) (reverse (zip order es)) = Some (j, (i, e)).
Proof.
  intros Hn Hin.
  destruct (list_find_elem_of (fun p : nat * option error => p.1 = i) (reverse (zip order es)) (i, e))
    as [[j [i' e']] Hf]; [by apply elem_of_reverse|done|].
  exists j. rewrite Hf. apply list_find_Some in Hf as (Hj & Heq & _). simpl in Heq. subst i'.
  apply list_elem_of_lookup_2 in Hj. rewrite elem_of_reverse in Hj.
  assert (Hu : uniq_nat (zip order es)).
  { unfold uniq_nat. clear -Hn. revert es. induction Hn as [|x l Hx Hn IH]; intros [|y k]; simpl;
      try constructor; [|apply IH]. intros Hin. apply list_elem_of_fmap in Hin as (q & -> & Hq).
    apply zip_elem_l in Hq as [Hq _]. done. }
  by rewrite (uniq_nat_eq _ _ _ _ Hu Hin Hj).
Qed.

Lemma executeChanges_list sch k cs rs conc w :
  FairSchedule sch ->
  let out := executeChanges env_of p sch k cs rs conc w in
  exists l es, l ≡ₚ todo (zip cs rs) /\ exec_list l w = (out.1, es) /\
    (Failed out.2 = 0%nat -> Forall (fun e => e = None) es).
Proof.
  intros Hf. unfold executeChanges. set (items := zip cs rs). destruct (conc <=? 1)%Z.
  - destruct (execute_loop_list items emptyResult w) as (es & H1 & H2).
    exists (todo items), es. split; [done|]. split; [done|]. intros Hz. by apply H2.
  - set (order := execute_order sch k (started items)).
    destruct (exec_fold_list items order w []) as (es & H1 & H2).
    assert (Hs : forall i, i ∈ order -> is_Some (items !! i)).
    { intros i Hi. unfold order in Hi. rewrite execute_perm in Hi.
      apply started_spec in Hi as (c & r & -> & _). done. }
    destruct (H2 Hs) as [Hl He]. rewrite app_nil_r in He.
    exists (omap (fun i => items !! i) order), es. unfold execute_parallel.
    fold (exec_fold env_of p items order (w, [])).
    destruct (exec_fold env_of p items order (w, [])) as [w' errs]. cbn [fst snd] in *.
    split; [unfold order; by rewrite execute_perm, omap_started|]. split; [done|].
    intros Hz. apply record_fold_failed in Hz as [_ Hz]. apply Forall_forall. intros e Hes.
    apply list_elem_of_lookup in Hes as [j Hj].
    destruct (lookup_lt_is_Some_2 order j) as [i Hi]; [rewrite <- Hl; by eapply lookup_lt_Some|].
    assert (Hio : i ∈ order) by (by eapply list_elem_of_lookup_2).
    destruct (Hs i Hio) as [x Hx].
    destruct (list_find_zip order es i e) as [j' Hf'].
    + unfold order. rewrite execute_perm. apply started_NoDup.
    + apply list_elem_of_lookup. exists j. apply lookup_zip_with_Some. eauto.
    + rewrite He in Hz. eapply Hz; [|done|done].
      rewrite record_perm. unfold order in Hio. by rewrite execute_perm in Hio.
Qed.

(** ** The loop over the kinds *)

Section manifest.
Context (m : Manifest) (env : Env).
Hypothesis ids : NoDup (map resource_id (Resources m)).
Hypothesis exact : Forall (exact_resource env) (Resources m).

Lemma byKind_elem k r : r ∈ byKind m k <-> r ∈ Resources m /\ Kind r = k.
Proof. unfold byKind. rewrite !list_elem_of_In, filter_In, String.eqb_eq. done. Qed.

Lemma byKind_ids k : NoDup (map resource_id (byKind m k)).
Proof.
  unfold byKind. clear exact. revert ids. induction (Resources m) as [|r rs IH]; simpl; [done|].
  rewrite NoDup_cons. intros [Hr Hn]. case_match; [|auto]. simpl. apply NoDup_cons.
  split; [|auto]. intros Hin. apply Hr. apply list_elem_of_fmap in Hin as (r' & -> & Hr').
  apply list_elem_of_fmap. exists r'. split; [done|].
  apply list_elem_of_In, filter_In in Hr' as [Hr' _]. by apply list_elem_of_In.
Qed.

(** The changes planned for one kind. *)
Definition items_of (k : ResourceKind) (force : bool) (w : W) : list (Change * Resource) :=
  zip (map (fun r => planned r force w) (byKind m k)) (byKind m k).

Lemma items_of_elem k force w x :
  x ∈ items_of k force w <-> exists r, r ∈ byKind m k /\ x = (planned r force w, r).
Proof.
  unfold items_of. induction (byKind m k) as [|r rs IH]; simpl.
  - split; [by intros ?%not_elem_of_nil|]. by intros (r & ?%not_elem_of_nil & _).
  - rewrite elem_of_cons, IH. setoid_rewrite elem_of_cons. naive_solver.
Qed.

Lemma todo_elem k force w x :
  x ∈ todo (items_of k force w) <->
  exists r, r ∈ byKind m k /\ x = (planned r force w, r) /\ skipped (planned r force w) = false.
Proof.
  unfold todo. rewrite list_elem_of_In, filter_In, <- list_elem_of_In, items_of_elem. split.
  - intros [(r & Hr & ->) Hs]. exists r. split; [done|]. split; [done|]. by apply negb_true_iff.
  - intros (r & Hr & -> & Hs). simpl. rewrite Hs. eauto.
Qed.

Lemma todo_ids k force w : NoDup (map (fun x => resource_id x.2) (todo (items_of k force w))).
Proof.
  pose proof (byKind_ids k) as Hn. unfold todo, items_of. clear ids exact.
  induction (byKind m k) as [|r rs IH]; simpl in *; [done|].
  apply NoDup_cons in Hn as [Hr Hn]. destruct (skipped (planned r force w)); simpl; [auto|].
  apply NoDup_cons. split; [|auto]. intros Hin. apply Hr.
  apply list_elem_of_fmap in Hin as (x & -> & Hx).
  apply list_elem_of_In, filter_In in Hx as [Hx _]. apply list_elem_of_In, zip_elem_l in Hx as [_ Hx].
  apply list_elem_of_fmap. by exists x.2.
Qed.

Lemma ignored_skipped r force w : ignored r = true -> skipped (planned r force w) = true.
Proof. unfold ignored, planned, stepCompare. cbn. intros ->. done. Qed.

Lemma todo_planned k force w :
  env_of w = env -> Forall (planned_change env) (todo (items_of k force w)).
Proof.
  intros He. apply Forall_forall. intros x Hx. apply todo_elem in Hx as (r & Hr & -> & Hs).
  split; [|split; [done|]].
  - pose proof (reconcileOne_for env_of p r force w) as H. by rewrite reconcileOne_store in H.
  - cbn [fst snd]. rewrite <- He. apply planned_hash.
    destruct (ignored r) eqn:Hi; [|done]. by rewrite ignored_skipped in Hs.
Qed.

(** What one kind's changes do to the store. *)
Lemma kind_changes_settle k force w w' l es :
  env_of w = env -> l ≡ₚ todo (items_of k force w) -> exec_list l w = (w', es) ->
  Forall (fun e => e = None) es ->
  Forall (settled w') (byKind m k).
Proof.
  intros He Hl Hx Hes. apply Forall_forall. intros r Hr.
  assert (Hlid : NoDup (map (fun x => resource_id x.2) l)) by (rewrite Hl; apply todo_ids).
  destruct (skipped (planned r force w)) eqn:Hs.
  - assert (Hset : settled w r).
    { unfold skipped in Hs. rewrite planned_error in Hs. simpl in Hs. rewrite orb_false_r in Hs.
      by apply bool_decide_eq_true, planned_noop_settled in Hs. }
    destruct (exec_list_frame _ _ _ _ Hx) as (_ & H & _). apply H; [|done].
    apply Forall_forall. intros x Hxl Heq. rewrite Hl in Hxl.
    apply todo_elem in Hxl as (r' & Hr' & -> & Hs'). cbn [snd] in Heq.
    rewrite (NoDup_map_inj resource_id (byKind m k) r' r (byKind_ids k) Hr' Hr Heq) in Hs'.
    congruence.
  - assert (Hin : (planned r force w, r) ∈ l) by (rewrite Hl; apply todo_elem; eauto).
    assert (Hset : Forall (fun x => settled w' x.2) l).
    { eapply exec_list_settles; [done|done|done| |]; rewrite He, Hl; [by apply todo_planned|].
      apply Forall_forall. intros x Hxl. apply todo_elem in Hxl as (r' & Hr' & -> & _).
      apply byKind_elem in Hr' as [Hr' _]. rewrite Forall_forall in exact. by apply exact. }
    rewrite Forall_forall in Hset. by apply (Hset _ Hin).
Qed.

(** Nothing is listed that was not, except the manifest's own resources. *)
Definition lists_known (w w' : W) : Prop :=
  forall k ri, ri ∈ listed w' k -> ri ∈ listed w k \/ in_manifest m k (ri_Name ri) = true.

Lemma in_manifest_spec k n :
  in_manifest m k n = true <-> (k, n) ∈ map resource_id (Resources m).
Proof.
  unfold in_manifest. rewrite existsb_exists, list_elem_of_fmap. split.
  - intros (r & Hr & H). split_and_true. exists r. apply String.eqb_eq in H as <-, H0 as <-.
    by apply list_elem_of_In in Hr.
  - intros (r & [= -> ->] & Hr). exists r. rewrite !String.eqb_refl. by apply list_elem_of_In in Hr.
Qed.

Lemma kind_step_settles sch opts w plan result k :
  FairSchedule sch -> DryRun opts = false -> env_of w = env ->
  let out := reconcile_kind_step env_of p sch m opts (w, (plan, result)) k in
  Failed out.2.2 = 0%nat ->
  Failed result = 0%nat /\ env_of out.1 = env /\ lists_known w out.1 /\
  Forall (settled out.1) (byKind m k) /\
  (forall r, Kind r <> k -> settled w r -> settled out.1 r).
Proof.
  intros Hf Hd He. unfold reconcile_kind_step.
  destruct (byKind m k) as [|r0 rs0] eqn:Hk.
  { intros Hz. split; [done|]. split; [done|]. split; [intros ???; by left|]. by split. }
  rewrite reconcileKind_store by done. rewrite Hd, <- Hk.
  destruct (executeChanges_list sch k (map (fun r => planned r (Force opts) w) (byKind m k)) (byKind m k)
              (Concurrency opts) w Hf) as (l & es & Hl & Hx & Hes).
  fold (items_of k (Force opts) w) in Hl.
  destruct (executeChanges env_of p sch k (map (fun r => planned r (Force opts) w) (byKind m k))
              (byKind m k) (Concurrency opts) w) as [w2 kr]. cbn [fst snd] in *.
  intros Hz. simpl in Hz. assert (Hkr : Failed kr = 0%nat) by lia.
  destruct (exec_list_frame _ _ _ _ Hx) as (H1 & H2 & H3).
  assert (Hin : forall x, x ∈ l -> x.2 ∈ Resources m /\ Kind x.2 = k).
  { intros x Hxl. rewrite Hl in Hxl. apply todo_elem in Hxl as (r & Hr & -> & _).
    by apply byKind_elem in Hr. }
  split; [lia|]. split; [by rewrite H1|]. split; [|split].
  - intros k' ri Hri. apply H3 in Hri as [?|Hri]; [by left|]. right. apply in_manifest_spec.
    apply list_elem_of_fmap in Hri as (x & Hxe & Hxl). rewrite Hxe. apply list_elem_of_fmap.
    exists x.2. split; [done|]. by apply Hin.
  - eapply kind_changes_settle; [exact He|done|done|by apply Hes].
  - intros r Hr Hs. apply H2; [|done]. apply Forall_forall. intros x Hxl Heq.
    apply Hin in Hxl as [_ Hxk]. unfold resource_id in Heq. congruence.
Qed.

Lemma lists_known_trans w1 w2 w3 : lists_known w1 w2 -> lists_known w2 w3 -> lists_known w1 w3.
Proof. intros H1 H2 k ri Hri. apply H2 in Hri as [Hri|?]; [by apply H1|by right]. Qed.

Lemma kind_loop_settles sch opts w plan result ks :
  FairSchedule sch -> DryRun opts = false -> env_of w = env ->
  let out := foldl (reconcile_kind_step env_of p sch m opts) (w, (plan, result)) ks in
  Failed out.2.2 = 0%nat ->
  Failed result = 0%nat /\ env_of out.1 = env /\ lists_known w out.1 /\
  (forall r, r ∈ Resources m -> Kind r ∈ ks \/ settled w r -> settled out.1 r).
Proof.
  intros Hf Hd. revert w plan result. induction ks as [|k ks IH]; intros w plan result He; cbn [foldl].
  { intros Hz. split; [done|]. split; [done|]. split; [intros ???; by left|].
    intros r _ [?%not_elem_of_nil|?]; done. }
  pose proof (kind_step_settles sch opts w plan result k Hf Hd He) as Hs. cbv zeta in Hs.
  destruct (reconcile_kind_step env_of p sch m opts (w, (plan, result)) k) as [w1 [plan1 r1]].
  cbn [fst snd] in Hs. intros Hz.
  destruct (decide (Failed r1 = 0%nat)) as [Hr1|Hr1].
  - destruct (Hs Hr1) as (H1 & H2 & H3 & H4 & H5).
    destruct (IH w1 plan1 r1 H2 Hz) as (H6 & H7 & H8 & H9).
    split; [done|]. split; [done|]. split; [by eapply lists_known_trans|].
    intros r Hr Hor. apply H9; [done|].
    destruct (decide (Kind r = k)) as [Hk|Hk].
    + right. rewrite Forall_forall in H4. apply H4. by apply byKind_elem.
    + destruct Hor as [Hor|Hor]; [|right; auto].
      apply elem_of_cons in Hor as [?|?]; [done|by left].
  - exfalso. clear -Hz Hr1. revert Hz.
    assert (Hmono : forall acc, (Failed acc.2.2 <= Failed
       (foldl (reconcile_kind_step env_of p sch m opts) acc ks).2.2)%nat).
    { induction ks as [|k' ks IH]; intros acc; cbn [foldl]; [done|].
      etrans; [|apply IH]. destruct acc as [w0 [plan0 r0]]. unfold reconcile_kind_step.
      destruct (byKind m k'); [done|]. destruct (reconcileKind _ _ _ _ _ _ _ _) as [w2 cs].
      destruct (DryRun opts); [done|]. destruct (executeChanges _ _ _ _ _ _ _ _). simpl. lia. }
    specialize (Hmono (w1, (plan1, r1))). simpl in Hmono. lia.
Qed.

(** ** The prune phase *)

(** The orphans of [w]: what the prune phase would delete. *)
Definition no_orphans (w : W) (k : ResourceKind) : Prop :=
  unprunable k = true \/ Forall (fun ri => orphan m k ri = false) (listed w k).

(** What deleting orphans preserves. *)
Record pruned (w w' : W) : Prop := {
  pr_env : env_of w' = env_of w;
  pr_settled r : r ∈ Resources m -> settled w r -> settled w' r;
  pr_list k ri : ri ∈ listed w' k -> orphan m k ri = true -> ri ∈ listed w k
}.

Lemma pruned_refl w : pruned w w.
Proof. by split. Qed.

Lemma pruned_trans w1 w2 w3 : pruned w1 w2 -> pruned w2 w3 -> pruned w1 w3.
Proof. intros [A1 A2 A3] [B1 B2 B3]. split; [congruence|auto|auto]. Qed.

Lemma delete_pruned k n w w' :
  in_manifest m k n = false -> Delete p k n w = (w', Ok tt) -> pruned w w'.
Proof.
  intros Hm Hd. pose proof (store_delete_frame k n w) as Hf. rewrite Hd in Hf. cbn [fst] in Hf.
  split; [apply Hf|..].
  - intros r Hr. eapply settled_frame; [done|]. unfold another.
    destruct (decide (k = Kind r)) as [->|]; [right|by left]. intros ->.
    assert (in_manifest m (Kind r) (Name r) = true); [|congruence].
    apply in_manifest_spec, list_elem_of_fmap. by exists r.
  - intros k' ri Hri _. destruct (decide (k' = k)) as [->|Hne].
    + by apply (store_delete _ _ _ _ Hd) in Hri as [? _].
    + apply (fr_list _ _ _ _ _ _ _ Hf) in Hri as [?|[? _]]; done.
Qed.

Lemma prune_remotes_pruned k remotes w cs r :
  let out := foldl (prune_remote p m false k) (w, (cs, r)) remotes in
  Failed out.2.2 = 0%nat ->
  Failed r = 0%nat /\ pruned w out.1 /\
  forall ri, ri ∈ listed out.1 k -> orphan m k ri = true -> ri ∉ remotes.
Proof.
  revert w cs r. induction remotes as [|r0 remotes IH]; intros w cs r; cbn [foldl].
  { intros Hz. split; [done|]. split; [apply pruned_refl|]. intros ri _ _. apply not_elem_of_nil. }
  rewrite prune_remote_eq. destruct (orphan m k r0) eqn:Ho.
  - destruct (Delete p k (ri_Name r0) w) as [w' [[]|e]] eqn:Hd; intros Hz.
    + apply IH in Hz as (H1 & H2 & H3). simpl in H1.
      assert (Hm : in_manifest m k (ri_Name r0) = false).
      { unfold orphan in Ho. split_and_true. done. }
      split; [done|]. pose proof (delete_pruned _ _ _ _ Hm Hd) as Hp.
      split; [by eapply pruned_trans|]. intros ri Hri Hor. apply not_elem_of_cons.
      split; [|by apply H3]. apply (pr_list _ _ H2) in Hri; [|done].
      apply (store_delete _ _ _ _ Hd) in Hri as [_ Hne]. congruence.
    + apply IH in Hz as (H1 & _). simpl in H1. lia.
  - intros Hz. apply IH in Hz as (H1 & H2 & H3). split; [done|]. split; [done|].
    intros ri Hri Hor. apply not_elem_of_cons. split; [congruence|by apply H3].
Qed.

Lemma prune_kinds_pruned kinds w cs r :
  let out := foldl (prune_kind p m false) (w, (cs, r)) kinds in
  Failed out.2.2 = 0%nat ->
  Failed r = 0%nat /\ pruned w out.1 /\
  forall k, k ∈ kinds \/ no_orphans w k -> no_orphans out.1 k.
Proof.
  revert w cs r. induction kinds as [|k kinds IH]; intros w cs r; cbn [foldl].
  { intros Hz. split; [done|]. split; [apply pruned_refl|]. by intros k [?%not_elem_of_nil|?]. }
  rewrite prune_kind_eq. destruct (unprunable k) eqn:Hk.
  { intros Hz. apply IH in Hz as (H1 & H2 & H3). split; [done|]. split; [done|].
    intros k' [Hk'|?]; [|apply H3; by right].
    apply elem_of_cons in Hk' as [->|?]; [by left|apply H3; by left]. }
  rewrite store_list.
  pose proof (prune_remotes_pruned k (listed w k) w cs r) as Hp. cbv zeta in Hp.
  destruct (foldl (prune_remote p m false k) (w, (cs, r)) (listed w k)) as [w1 [cs1 r1]].
  cbn [fst snd] in Hp. intros Hz. apply IH in Hz as (H1 & H2 & H3).
  destruct (Hp H1) as (H4 & H5 & H6). split; [done|]. split; [by eapply pruned_trans|].
  intros k' Hor. apply H3. destruct (decide (k' = k)) as [->|Hne].
  - right. right. apply Forall_forall. intros ri Hri. destruct (orphan m k ri) eqn:Ho; [|done].
    destruct (H6 ri Hri Ho). by eapply (pr_list _ _ H5).
  - destruct Hor as [Hor|Hor].
    + left. apply elem_of_cons in Hor as [?|?]; done.
    + right. destruct Hor as [?|Hor]; [by left|]. right. apply Forall_forall. intros ri Hri.
      destruct (orphan m k' ri) eqn:Ho; [|done].
      rewrite Forall_forall in Hor. rewrite <- (Hor ri); [done|]. by eapply (pr_list _ _ H5).
Qed.

(** ** A reconciliation of a settled store *)

Lemma planned_settled_change w r c :
  settled w r -> planned r false w = c -> ch_Action c = ActionNoop /\ skipped c = true.
Proof.
  intros Hs <-. pose proof (settled_planned w r Hs) as Ha. split; [done|].
  unfold skipped. by rewrite Ha.
Qed.

Lemma todo_settled k w : Forall (settled w) (byKind m k) -> todo (items_of k false w) = [].
Proof.
  intros Hs. unfold todo, items_of. induction Hs as [|r rs Hr Hs IH]; [done|]. simpl.
  destruct (planned_settled_change w r _ Hr eq_refl) as [_ ->]. done.
Qed.

Lemma settled_step sch opts w plan k :
  FairSchedule sch -> Force opts = false -> Forall (settled w) (byKind m k) ->
  exists plan', reconcile_kind_step env_of p sch m opts (w, (plan, emptyResult)) k
                = (w, (plan', emptyResult)) /\
    exists cs, Changes plan' = (Changes plan ++ cs)%list /\
               Forall (fun c => ch_Action c = ActionNoop /\ ch_Error c = "") cs.
Proof.
  intros Hf Hfo Hs. unfold reconcile_kind_step.
  destruct (byKind m k) as [|r0 rs0] eqn:Hk.
  { eexists. split; [done|]. exists []. by rewrite app_nil_r. }
  rewrite reconcileKind_store by done. rewrite <- Hk, Hfo in *.
  set (cs := map (fun r => planned r false w) (byKind m k)).
  set (plan' := foldl _ plan (zip (byKind m k) cs)).
  assert (Hch : exists cs, Changes plan' = (Changes plan ++ cs)%list /\
               Forall (fun c => ch_Action c = ActionNoop /\ ch_Error c = "") cs).
  { exists cs. split.
    - unfold plan', cs. generalize (byKind m k). clear. intros l. revert plan.
      induction l as [|r rs IH]; intros q; simpl; [by rewrite app_nil_r|]. rewrite IH. simpl. by rewrite <- (assoc_L (++)).
    - unfold cs. apply Forall_map. eapply Forall_impl; [exact Hs|]. intros r Hr. simpl.
      split; [by apply settled_planned|apply planned_error]. }
  destruct (DryRun opts); [by exists plan'|].
  assert (He : executeChanges env_of p sch k cs (byKind m k) (Concurrency opts) w = (w, emptyResult)).
  { pose proof (todo_settled k w Hs) as Ht. unfold items_of in Ht. fold cs in Ht.
    unfold executeChanges. destruct (Concurrency opts <=? 1)%Z.
    - clear -Ht. generalize emptyResult. induction (zip cs (byKind m k)) as [|[c r] l IH]; intros q; [done|].
      simpl in *. destruct (skipped c); [by apply IH|done].
    - assert (Hst : started (zip cs (byKind m k)) = []).
      { apply length_zero_iff_nil. rewrite started_length. unfold actionable.
        rewrite List.filter_map_swap, length_map. fold (todo (zip cs (byKind m k))). by rewrite Ht. }
      rewrite Hst. unfold execute_parallel.
      rewrite (proj1 (Permutation_nil_r _) (execute_perm k [])).
      by rewrite (proj1 (Permutation_nil_r _) (record_perm k [])). }
  rewrite He. exists plan'. split; [done|done].
Qed.

Lemma settled_loop sch opts w plan ks :
  FairSchedule sch -> Force opts = false ->
  (forall k, k ∈ ks -> Forall (settled w) (byKind m k)) ->
  exists plan', foldl (reconcile_kind_step env_of p sch m opts) (w, (plan, emptyResult)) ks
                = (w, (plan', emptyResult)) /\
    exists cs, Changes plan' = (Changes plan ++ cs)%list /\
               Forall (fun c => ch_Action c = ActionNoop /\ ch_Error c = "") cs.
Proof.
  intros Hf Hfo. revert plan. induction ks as [|k ks IH]; intros plan Hs; cbn [foldl].
  { exists plan. split; [done|]. exists []. by rewrite app_nil_r. }
  destruct (settled_step sch opts w plan k Hf Hfo) as (plan1 & -> & cs1 & H1 & H2);
    [apply Hs; left|].
  destruct (IH plan1) as (plan2 & -> & cs2 & H3 & H4); [intros; apply Hs; by right|].
  exists plan2. split; [done|]. exists (cs1 ++ cs2)%list.
  rewrite H3, H1, <- (assoc_L (++)). split; [done|]. by apply Forall_app.
Qed.

Lemma no_orphans_prune dry kinds w cr :
  (forall k, k ∈ kinds -> no_orphans w k) -> foldl (prune_kind p m dry) (w, cr) kinds = (w, cr).
Proof.
  induction kinds as [|k kinds IH]; intros Hn; cbn [foldl]; [done|].
  assert (Hk : no_orphans w k) by (apply Hn; left).
  assert (Hr : forall k, k ∈ kinds -> no_orphans w k) by (intros; apply Hn; by right).
  rewrite prune_kind_eq. destruct Hk as [-> | Hk]; [by apply IH|].
  destruct (unprunable k); [by apply IH|]. rewrite store_list.
  assert (E : foldl (prune_remote p m dry k) (w, cr) (listed w k) = (w, cr)).
  { clear -Hk. destruct cr as [cs r]. induction Hk as [|ri l Hri Hk IH]; cbn [foldl]; [done|].
    by rewrite prune_remote_eq, Hri. }
  rewrite E. by apply IH.
Qed.

(** A settled store is left as it is. *)
Lemma settled_Reconcile sch opts w :
  FairSchedule sch -> Force opts = false ->
  (forall r, r ∈ Resources m -> Kind r ∈ ApplyOrder -> settled w r) ->
  (Prune opts = true -> forall k, k ∈ DeleteOrder -> no_orphans w k) ->
  exists plan, Reconcile env_of p sch m opts w = (w, (plan, emptyResult)) /\
    Forall (fun c => ch_Action c = ActionNoop /\ ch_Error c = "") (Changes plan).
Proof.
  intros Hf Hfo Hs Hp. unfold Reconcile.
  destruct (settled_loop sch opts w emptyPlan ApplyOrder Hf Hfo) as (plan & -> & cs & H1 & H2).
  { intros k Hk. apply Forall_forall. intros r Hr. apply byKind_elem in Hr as [Hr <-]. auto. }
  simpl in H1. destruct (Prune opts).
  - unfold detectAndExecutePrunes. rewrite no_orphans_prune by auto.
    eexists. split; [done|]. simpl. rewrite H1, app_nil_r. done.
  - exists plan. split; [done|]. by rewrite H1.
Qed.

(** After a reconciliation with no failure the store is settled. *)
Lemma Reconcile_settles sch opts w w' plan result :
  FairSchedule sch -> env_of w = env -> DryRun opts = false ->
  Reconcile env_of p sch m opts w = (w', (plan, result)) -> Failed result = 0%nat ->
  (forall r, r ∈ Resources m -> Kind r ∈ ApplyOrder -> settled w' r) /\
  (Prune opts = true -> forall k, k ∈ DeleteOrder -> no_orphans w' k).
Proof.
  intros Hf He Hd. unfold Reconcile.
  pose proof (kind_loop_settles sch opts w emptyPlan emptyResult ApplyOrder Hf Hd He) as Hk.
  cbv zeta in Hk.
  destruct (foldl (reconcile_kind_step env_of p sch m opts) (w, (emptyPlan, emptyResult)) ApplyOrder)
    as [w1 [plan1 r1]]. cbn [fst snd] in Hk. destruct (Prune opts); rewrite ?Hd.
  - unfold detectAndExecutePrunes.
    pose proof (prune_kinds_pruned DeleteOrder w1 [] emptyResult) as Hp. cbv zeta in Hp.
    destruct (foldl (prune_kind p m false) (w1, ([], emptyResult)) DeleteOrder) as [w2 [pc pr]].
    cbn [fst snd] in Hp. intros [= <- <- <-] Hz. simpl in Hz.
    destruct Hk as (_ & _ & _ & Hs); [lia|]. destruct Hp as (_ & Hp & Ho); [lia|].
    split; [|auto]. intros r Hr Hkind. apply (pr_settled _ _ Hp); [done|]. apply Hs; auto.
  - intros [= <- <- <-] Hz. destruct (Hk Hz) as (_ & _ & _ & Hs). split; [|done].
    intros r Hr Hkind. apply Hs; auto.
Qed.
End manifest.
End converge.

(** ** A store in memory

    One record per resource: its spec as last written and who created it. *)

Record mem := mkMem {
  mem_env : Env;
  mem_map : list ((ResourceKind * string) * gomap)
}.

Definition id_eqb (a b : ResourceKind * string) : bool :=
  String.eqb a.1 b.1 && String.eqb a.2 b.2.

Fixpoint mem_get (id : ResourceKind * string) (l : list ((ResourceKind * string) * gomap)) : option gomap :=
  match l with
  | [] => None
  | (id', s) :: l' => if id_eqb id id' then Some s else mem_get id l'
  end.

Definition mem_del (id : ResourceKind * string) (l : list ((ResourceKind * string) * gomap)) :=
  List.filter (fun x => negb (id_eqb id x.1)) l.

Definition mem_put (k : ResourceKind) (n : string) (s : gomap) : M mem unit :=
  fun w => (mkMem (mem_env w) (((k, n), s) :: mem_del (k, n) (mem_map w)), Ok tt).

Definition mem_view (w : mem) (k : ResourceKind) (n : string) : option gomap := mem_get (k, n) (mem_map w).

Definition mem_listed (w : mem) (k : ResourceKind) : list ResourceInfo :=
  map (fun x => mkResourceInfo k x.1.2 "gcplane" "" false)
      (List.filter (fun x => String.eqb (x.1.1) k) (mem_map w)).

Definition mem_provider : ProviderInterface mem :=
  mkProvider _
    (fun k n w => (w, Ok (mem_view w k n)))
    mem_put mem_put
    (fun k n w => (mkMem (mem_env w) (mem_del (k, n) (mem_map w)), Ok tt))
    (fun k w => (w, Ok (mem_listed w k))).

Lemma id_eqb_spec a b : reflect (a = b) (id_eqb a b).
Proof.
  unfold id_eqb. destruct a as [a1 a2], b as [b1 b2]. simpl.
  destruct (String.eqb_spec a1 b1), (String.eqb_spec a2 b2); constructor; congruence.
Qed.

Lemma mem_get_del id id' l : mem_get id (mem_del id' l) = if id_eqb id id' then None else mem_get id l.
Proof.
  induction l as [|[i s] l IH]; simpl; [by case_match|].
  destruct (id_eqb_spec id' i) as [->|]; simpl.
  - rewrite IH. by destruct (id_eqb_spec id i).
  - destruct (id_eqb_spec id i) as [->|]; [|done]. by destruct (id_eqb_spec i id').
Qed.

Lemma mem_listed_elem w k ri :
  ri ∈ mem_listed w k ->
  exists s, ((k, ri_Name ri), s) ∈ mem_map w /\ ri = mkResourceInfo k (ri_Name ri) "gcplane" "" false.
Proof.
  unfold mem_listed. intros Hin. apply list_elem_of_fmap in Hin as ([[k' n] s] & -> & Hx).
  apply list_elem_of_In, filter_In in Hx as [Hx Hk]. apply list_elem_of_In in Hx.
  simpl in Hk. apply String.eqb_eq in Hk as ->. exists s. done.
Qed.

Lemma mem_listed_intro w k n s :
  ((k, n), s) ∈ mem_map w -> mkResourceInfo k n "gcplane" "" false ∈ mem_listed w k.
Proof.
  intros Hin. unfold mem_listed. apply list_elem_of_fmap. exists ((k, n), s). split; [done|].
  apply list_elem_of_In, filter_In. simpl. rewrite String.eqb_refl. split; [|done].
  by apply list_elem_of_In.
Qed.

Lemma mem_del_elem id x l : x ∈ mem_del id l -> x ∈ l /\ x.1 <> id.
Proof.
  unfold mem_del. rewrite !list_elem_of_In, filter_In. intros [? H]. split; [done|].
  destruct (id_eqb_spec id x.1); [done|]. congruence.
Qed.

Lemma mem_frames k n w l :
  (forall id, id <> (k, n) -> mem_get id l = mem_get id (mem_map w)) ->
  (forall x, x ∈ l -> x ∈ mem_map w \/ x.1 = (k, n)) ->
  frames mem_env mem_view mem_listed k n w (mkMem (mem_env w) l).
Proof.
  intros Hg Hl. split; [done|..].
  - intros k' n' Ha. unfold mem_view. apply Hg. unfold another in Ha. intros [= <- <-].
    by destruct Ha.
  - intros k' ri Hri. apply mem_listed_elem in Hri as (s & Hs & ->). simpl in Hs.
    apply Hl in Hs as [Hs|[= -> ->]]; [|by right]. left. by eapply mem_listed_intro.
Qed.

(** The store meets the engine's expectations. *)
#[export] Instance mem_lawful : LawfulStore mem_env mem_provider mem_view mem_listed.
Proof.
  assert (Hput : forall k n s w, frames mem_env mem_view mem_listed k n w (mem_put k n s w).1).
  { intros. apply mem_frames.
    - intros id Hne. cbn [mem_get]. destruct (id_eqb_spec id (k, n)); [done|].
      rewrite mem_get_del. by destruct (id_eqb_spec id (k, n)).
    - intros x Hx. apply elem_of_cons in Hx as [->|Hx]; [by right|].
      apply mem_del_elem in Hx as [? _]. by left. }
  assert (Hview : forall k n s w w', mem_put k n s w = (w', Ok tt) ->
            exists v, mem_view w' k n = Some v /\ shows k s v).
  { intros k n s w w' [= <-]. exists s. unfold mem_view. cbn [mem_get mem_map].
    destruct (id_eqb_spec (k, n) (k, n)); [|done]. split; [done|].
    split; [done|]. intros h ->. case_match; [done|by right]. }
  split; [done|done|exact Hput|exact Hput| |exact Hview|exact Hview|].
  - intros k n w. apply mem_frames.
    + intros id Hne. rewrite mem_get_del. by destruct (id_eqb_spec id (k, n)).
    + intros x Hx. apply mem_del_elem in Hx as [? _]. by left.
  - intros k n w w' [= <-] ri Hri. apply mem_listed_elem in Hri as (s & Hs & ->). simpl in *.
    apply mem_del_elem in Hs as [Hs Hne]. split; [by eapply mem_listed_intro|]. simpl in Hne.
    congruence.
Qed.

(** ** A store in a part of the world *)

(** The environment of a lawful store is not the store's. *)
Lemma lawful_env {P} env_of env (p : ProviderInterface P) view listed :
  LawfulStore env_of p view listed -> LawfulStore (fun _ => env) p view listed.
Proof.
  intros L.
  assert (Hfr : forall k n w w', frames env_of view listed k n w w' ->
            frames (fun _ => env) view listed k n w w') by (intros ???? [? H2 H3]; by split).
  split; intros; [apply store_observe|apply store_list|apply Hfr, store_create_frame
    |apply Hfr, store_update_frame|apply Hfr, store_delete_frame|by eapply store_create
    |by eapply store_update|by eapply store_delete].
Qed.

(** A part [V] of a world [W]. *)
Class Lens {W V} (get : W -> V) (put : V -> W -> W) : Prop := {
  get_put v w : get (put v w) = v;
  put_get w : put (get w) w = w
}.

Section zoom.
Context {W V : Type} (get : W -> V) (put : V -> W -> W) {LE : Lens get put}.

Definition zoom {A} (m : M V A) : M W A := fun w => let '(v, r) := m (get w) in (put v w, r).

Definition zoomed (p : ProviderInterface V) : ProviderInterface W :=
  mkProvider _ (fun k n => zoom (Observe p k n)) (fun k n s => zoom (Create p k n s))
    (fun k n s => zoom (Update p k n s)) (fun k n => zoom (Delete p k n)) (fun k => zoom (ListAll p k)).

Lemma zoom_get {A} (m : M V A) w : get (zoom m w).1 = (m (get w)).1.
Proof. unfold zoom. destruct (m (get w)). cbn. apply get_put. Qed.

Lemma zoom_ok {A} (m : M V A) w w' a : zoom m w = (w', Ok a) -> m (get w) = (get w', Ok a).
Proof. unfold zoom. destruct (m (get w)) as [v r]. intros [= <- ->]. by rewrite get_put. Qed.

(** What [put] keeps of the rest, an operation on the part keeps. *)
Lemma zoom_keeps {A} (R : W -> W -> Prop) (m : M V A) w : (forall v, R w (put v w)) -> R w (zoom m w).1.
Proof. intros H. unfold zoom. destruct (m (get w)). apply H. Qed.

Lemma zoomed_lawful env_of env (p : ProviderInterface V) view listed :
  (forall v w, env_of (put v w) = env_of w) -> LawfulStore (fun _ => env) p view listed ->
  LawfulStore env_of (zoomed p) (fun w => view (get w)) (fun w => listed (get w)).
Proof.
  intros He L.
  assert (Hfr : forall A (m : M V A) k n w, frames (fun _ => env) view listed k n (get w) (m (get w)).1 ->
            frames env_of (fun w => view (get w)) (fun w => listed (get w)) k n w (zoom m w).1).
  { intros A m k n w [_ H2 H3]. split; [by apply (zoom_keeps (fun w w' => env_of w' = env_of w))|..];
      intros; rewrite zoom_get in *; auto. }
  split; intros; simpl in *.
  - unfold zoom. by rewrite store_observe, put_get.
  - unfold zoom. by rewrite store_list, put_get.
  - apply Hfr, store_create_frame.
  - apply Hfr, store_update_frame.
  - apply Hfr, store_delete_frame.
  - apply zoom_ok in H. by eapply store_create.
  - apply zoom_ok in H. by eapply store_update.
  - apply zoom_ok in H. by eapply store_delete.
Qed.
End zoom.
