(* ===== verification/EngineForesee.v ===== *)
(** * What a dry run foresees

    Over a store that keeps its promises, the run that follows a dry run plans the same
    changes for the resources of the manifest, and deletes nothing that the dry run did
    not list.  [plan] and [apply] rely on it. *)
From Stdlib Require Import ZArith Lia Bool.
From Stdlib Require String.
From S2P Require Import Prelude GoStr GoValue Manifest Secrets Compare Engine EngineProps EngineTrace EngineConverge.

Local Open Scope string_scope.

(** The plan grows by the changes of a kind. *)
Lemma count_changes_changes rs cs plan :
  length rs = length cs ->
  Changes (foldl (fun plan '(res, change) => count_change plan res change) plan (zip rs cs))
  = (Changes plan ++ cs)%list.
Proof.
  revert cs plan. induction rs as [|r rs IH]; intros [|c cs] plan; try done; simpl; [by rewrite app_nil_r|].
  intros [= Hl]. rewrite IH by done. cbn [count_change Changes]. by rewrite <- (assoc_L (++)).
Qed.

Lemma count_deletes_changes ds plan :
  Changes (foldl count_delete plan ds) = Changes plan.
Proof. revert plan. induction ds as [|d ds IH]; intros plan; simpl; [done|]. by rewrite IH. Qed.

Section foresee.
Context {U : Unicode} {W : Type} {env_of : W -> Env} {p : ProviderInterface W}.
Context {view : W -> ResourceKind -> string -> option gomap}.
Context {listed : W -> ResourceKind -> list ResourceInfo}.
Context {L : LawfulStore env_of p view listed}.
Context (m : Manifest).

(** [w'] differs from [w] at most in the resources of the kinds [ks], and lists nothing
    else but resources of the manifest. *)
Record foreseen (ks : list ResourceKind) (w w' : W) : Prop := {
  fs_env : env_of w' = env_of w;
  fs_view k n : k ∉ ks -> view w' k n = view w k n;
  fs_list : lists_known (listed := listed) m w w'
}.

Lemma foreseen_refl ks w : foreseen ks w w.
Proof. split; [done|done|]. intros k ri Hri. by left. Qed.

Lemma foreseen_trans ks ks' w1 w2 w3 :
  foreseen ks w1 w2 -> foreseen ks' w2 w3 -> foreseen (ks ++ ks') w1 w3.
Proof.
  intros [A1 A2 A3] [B1 B2 B3]. split; [congruence| |by eapply lists_known_trans].
  intros k n Hk. rewrite elem_of_app in Hk. rewrite B2, A2 by tauto. done.
Qed.

Lemma planned_same force ks w w' r :
  foreseen ks w w' -> Kind r ∉ ks ->
  planned (env_of := env_of) (view := view) r force w' = planned (env_of := env_of) (view := view) r force w.
Proof. intros [He Hv _] Hk. unfold planned. by rewrite He, Hv by done. Qed.

Lemma exec_list_view l w w' es :
  exec_list (env_of := env_of) (p := p) l w = (w', es) ->
  forall k n, Forall (fun x => Kind x.2 <> k) l -> view w' k n = view w k n.
Proof.
  revert w es. induction l as [|[c r0] l IH]; intros w es; simpl; [by intros [= <- _]|].
  pose proof (execute_frame (env_of := env_of) (p := p) c r0 w) as Hf.
  destruct (execute env_of p c r0 w) as [w1 e].
  destruct (exec_list l w1) as [w2 es'] eqn:E. intros [= <- <-] k n Hk.
  apply Forall_cons in Hk as [Hr0 Hk]. rewrite (IH _ _ E) by done.
  apply (fr_view _ _ _ _ _ _ _ Hf). by left.
Qed.

(** ** The kinds *)

Definition planned_kind (force : bool) (w : W) (k : ResourceKind) : list Change :=
  map (fun r => planned (env_of := env_of) (view := view) r force w) (byKind m k).

Lemma kind_step_foreseen sch opts w plan result k :
  FairSchedule sch ->
  let out := reconcile_kind_step env_of p sch m opts (w, (plan, result)) k in
  Changes out.2.1 = (Changes plan ++ planned_kind (Force opts) w k)%list /\
  foreseen [k] w out.1 /\ (DryRun opts = true -> out.1 = w).
Proof.
  intros Hf. unfold reconcile_kind_step, planned_kind.
  destruct (byKind m k) as [|r0 rs0] eqn:Hk.
  { simpl. rewrite app_nil_r. split; [done|]. split; [apply foreseen_refl|done]. }
  rewrite reconcileKind_store by done. rewrite <- Hk.
  set (cs := map _ (byKind m k)).
  assert (Hl : length (byKind m k) = length cs) by (unfold cs; by rewrite length_map).
  destruct (DryRun opts).
  { cbn [fst snd]. rewrite count_changes_changes by done. split; [done|]. split; [apply foreseen_refl|done]. }
  destruct (executeChanges_list (env_of := env_of) (p := p) sch k cs (byKind m k) (Concurrency opts) w Hf)
    as (l & es & Hp & Hx & _).
  destruct (executeChanges env_of p sch k cs (byKind m k) (Concurrency opts) w) as [w2 kr].
  cbn [fst snd] in *. rewrite count_changes_changes by done. split; [done|]. split; [|done].
  assert (Hin : Forall (fun x => x.2 ∈ Resources m /\ Kind x.2 = k) l).
  { apply Forall_forall. intros x Hxl. rewrite Hp in Hxl. unfold todo in Hxl.
    rewrite list_elem_of_In, filter_In, <- list_elem_of_In in Hxl. destruct Hxl as [Hxl _].
    apply zip_elem_l, proj2 in Hxl. by apply byKind_elem. }
  destruct (exec_list_frame _ _ _ _ Hx) as (H1 & _ & H3). split; [done| |].
  - intros k' n Hn. apply (exec_list_view _ _ _ _ Hx). eapply Forall_impl; [exact Hin|].
    intros x [_ Hkx]. cbn beta in *. rewrite Hkx. intros ->. apply Hn. by left.
  - intros k' ri Hri. apply H3 in Hri as [?|Hri]; [by left|]. right. apply in_manifest_spec.
    apply list_elem_of_fmap in Hri as (x & Hxe & Hxl). rewrite Hxe. apply list_elem_of_fmap.
    exists x.2. split; [done|]. rewrite Forall_forall in Hin. by apply Hin.
Qed.

Lemma planned_kind_same force ks w w' k :
  foreseen ks w w' -> k ∉ ks -> planned_kind force w' k = planned_kind force w k.
Proof.
  intros Hf Hk. apply map_ext_in. intros r Hr. apply list_elem_of_In, byKind_elem in Hr as [_ Hr].
  eapply planned_same; [done|]. by rewrite Hr.
Qed.

(** Each kind is planned as it would have been before the kinds that ran ahead of it. *)
Lemma kind_loop_foreseen sch opts w0 gone w plan result ks :
  FairSchedule sch -> NoDup (gone ++ ks) -> foreseen gone w0 w ->
  let out := foldl (reconcile_kind_step env_of p sch m opts) (w, (plan, result)) ks in
  Changes out.2.1 = (Changes plan ++ concat (map (planned_kind (Force opts) w0) ks))%list /\
  foreseen (gone ++ ks) w0 out.1 /\ (DryRun opts = true -> out.1 = w).
Proof.
  intros Hf. revert gone w plan result. induction ks as [|k ks IH]; intros gone w plan result Hn Hw; cbn [foldl].
  { simpl. rewrite !app_nil_r. done. }
  destruct (kind_step_foreseen sch opts w plan result k Hf) as (H1 & H2 & H3).
  destruct (reconcile_kind_step env_of p sch m opts (w, (plan, result)) k) as [w1 [plan1 r1]].
  cbn [fst snd] in *. rewrite cons_middle, (assoc_L (++)) in Hn.
  destruct (IH (gone ++ [k])%list w1 plan1 r1 Hn (foreseen_trans _ _ _ _ _ Hw H2)) as (H4 & H5 & H6).
  split; [|split].
  - rewrite H4, H1, <- (assoc_L (++)). cbn [map concat]. rewrite (planned_kind_same _ gone w0 w k); [done|done|].
    intros Hk. apply NoDup_app in Hn as [Hn _]. apply NoDup_app in Hn as (_ & Hn & _).
    apply (Hn k Hk). by left.
  - by rewrite cons_middle, (assoc_L (++)).
  - intros Hd. rewrite H6 by done. by apply H3.
Qed.

(** ** The prune phase *)

(** Deleting resources of one kind lists no more of another. *)
Lemma prune_remotes_list k remotes w cs r :
  let out := foldl (prune_remote p m false k) (w, (cs, r)) remotes in
  forall k' ri, k' <> k -> ri ∈ listed out.1 k' -> ri ∈ listed w k'.
Proof.
  revert w cs r. induction remotes as [|x remotes IH]; intros w cs r; cbn [foldl]; [done|].
  rewrite prune_remote_eq. destruct (orphan m k x); [|apply IH].
  pose proof (store_delete_frame k (ri_Name x) w) as Hf.
  destruct (Delete p k (ri_Name x) w) as [w' d]. cbn [fst] in Hf.
  intros k' ri Hk Hri. eapply IH in Hri; [|done].
  apply (fr_list _ _ _ _ _ _ _ Hf) in Hri as [?|[? _]]; done.
Qed.

Lemma prune_remotes_dry k remotes w cs r :
  (foldl (prune_remote p m true k) (w, (cs, r)) remotes).1 = w.
Proof.
  revert cs r. induction remotes as [|x remotes IH]; intros cs r; cbn [foldl]; [done|].
  rewrite prune_remote_eq. destruct (orphan m k x); apply IH.
Qed.

(** The deletions come from lists no longer than those of the world the phase began in. *)
Lemma prune_foreseen dry kinds w cs r :
  NoDup kinds ->
  let out := foldl (prune_kind p m dry) (w, (cs, r)) kinds in
  exists ls, Forall2 (fun k l => forall ri, ri ∈ l -> ri ∈ listed w k) kinds ls /\
    out.2.1 = (cs ++ concat (zip_with (prune_plan m) kinds ls))%list /\
    (dry = true -> out.1 = w /\ ls = map (listed w) kinds).
Proof.
  revert w cs r. induction kinds as [|k kinds IH]; intros w cs r Hn; cbn [foldl].
  { exists []. simpl. rewrite app_nil_r. split; [constructor|done]. }
  apply NoDup_cons in Hn as [Hk Hn]. rewrite prune_kind_eq, store_list.
  destruct (unprunable k) eqn:Hu.
  { destruct (IH w cs r Hn) as (ls & H1 & H2 & H3). exists (listed w k :: ls).
    split; [by constructor|]. cbn [zip_with concat]. unfold prune_plan at 1. rewrite Hu. simpl.
    split; [done|]. intros Hd. destruct (H3 Hd) as [? ->]. done. }
  destruct (prune_remotes_changes p m dry k (listed w k) w cs r) as (P1 & _ & _).
  pose proof (prune_remotes_list k (listed w k) w cs r) as P2.
  pose proof (prune_remotes_dry k (listed w k) w cs r) as P3.
  assert (Hlist : let w2 := (foldl (prune_remote p m dry k) (w, (cs, r)) (listed w k)).1 in
                  forall k' ri, k' <> k -> ri ∈ listed w2 k' -> ri ∈ listed w k').
  { destruct dry; [|done]. cbv zeta. by rewrite P3. }
  assert (Hdry : dry = true -> (foldl (prune_remote p m dry k) (w, (cs, r)) (listed w k)).1 = w)
    by (by intros ->).
  destruct (foldl (prune_remote p m dry k) (w, (cs, r)) (listed w k)) as [w2 [cs2 r2]].
  cbn [fst snd] in *. destruct (IH w2 cs2 r2 Hn) as (ls & H1 & H2 & H3).
  exists (listed w k :: ls). split; [|split].
  - constructor; [done|]. clear -H1 Hlist Hk. induction H1 as [|k' l kinds ls Hl _ IH]; [constructor|].
    apply not_elem_of_cons in Hk as [Hne Hk]. constructor; [|by apply IH].
    intros ri Hri. apply Hlist; [congruence|]. by apply Hl.
  - rewrite H2, P1. cbn [zip_with concat]. unfold prune_plan at 2. rewrite Hu. by rewrite <- (assoc_L (++)).
  - intros Hd. destruct (H3 Hd) as [-> ->]. rewrite Hdry by done. done.
Qed.

(** ** The run *)

Definition planned_all (force : bool) (w : W) : list Change :=
  concat (map (planned_kind force w) ApplyOrder).

(** The deletions a dry run lists in [w]. *)
Definition orphans_of (w : W) : list Change :=
  concat (map (fun k => prune_plan m k (listed w k)) DeleteOrder).

Lemma zip_with_map {A B D} (f : A -> B -> D) (g : A -> B) l :
  zip_with f l (map g l) = map (fun x => f x (g x)) l.
Proof. induction l as [|x l IH]; simpl; [done|]. by rewrite IH. Qed.

Lemma prune_plan_elem k l c :
  c ∈ prune_plan m k l <->
  unprunable k = false /\ exists ri, ri ∈ l /\ orphan m k ri = true /\ c = delete_change k ri.
Proof.
  unfold prune_plan. destruct (unprunable k); [by split; [intros ?%not_elem_of_nil|intros [? _]]|].
  rewrite list_elem_of_fmap. setoid_rewrite list_elem_of_In. setoid_rewrite filter_In. naive_solver.
Qed.

Lemma orphans_known w w' ls c :
  lists_known (listed := listed) m w w' ->
  Forall2 (fun k l => forall ri, ri ∈ l -> ri ∈ listed w' k) DeleteOrder ls ->
  c ∈ concat (zip_with (prune_plan m) DeleteOrder ls) -> c ∈ orphans_of w.
Proof.
  unfold orphans_of. intros Hk. generalize DeleteOrder. intros kinds H2.
  induction H2 as [|k l kinds ls Hl _ IH]; simpl; [done|]. rewrite !elem_of_app.
  intros [Hc|Hc]; [left|right; by apply IH]. revert Hc. rewrite !prune_plan_elem.
  intros (Hu & ri & Hri & Ho & ->). split; [done|]. exists ri. split; [|done].
  apply Hl, Hk in Hri as [Hri|Hri]; [done|]. unfold orphan in Ho. rewrite Hri, andb_false_r in Ho. done.
Qed.

(** The plan of a dry run. *)
Lemma dry_run_plan sch opts w :
  FairSchedule sch -> DryRun opts = true ->
  let out := Reconcile env_of p sch m opts w in
  out.1 = w /\
  Changes out.2.1 = (planned_all (Force opts) w ++ if Prune opts then orphans_of w else [])%list.
Proof.
  intros Hf Hd. unfold Reconcile.
  destruct (kind_loop_foreseen sch opts w [] w emptyPlan emptyResult ApplyOrder Hf) as (H1 & _ & H3);
    [exact ApplyOrder_NoDup|apply foreseen_refl|].
  destruct (foldl (reconcile_kind_step env_of p sch m opts) (w, (emptyPlan, emptyResult)) ApplyOrder)
    as [w1 [plan1 r1]]. cbn [fst snd] in *. rewrite (H3 Hd) in *.
  destruct (Prune opts); [|cbn; split; [done|]; by rewrite app_nil_r].
  unfold detectAndExecutePrunes. rewrite Hd.
  destruct (prune_foreseen true DeleteOrder w [] emptyResult DeleteOrder_NoDup) as (ls & _ & P2 & P3).
  destruct (foldl (prune_kind p m true) (w, ([], emptyResult)) DeleteOrder) as [w2 [pc pr]].
  cbn [fst snd app] in *. destruct (P3 eq_refl) as [-> ->]. split; [done|].
  rewrite count_deletes_changes. cbn [add_changes Changes]. by rewrite H1, P2, zip_with_map.
Qed.

(** The run: the changes foreseen, and deletions among those foreseen. *)
Lemma run_foreseen sch opts w w0 :
  FairSchedule sch -> foreseen [] w0 w ->
  let out := Reconcile env_of p sch m opts w in
  exists ds, Changes out.2.1 = (planned_all (Force opts) w0 ++ ds)%list /\
    Forall (prune_change m) ds /\
    (Prune opts = true -> Forall (fun c => c ∈ orphans_of w0) ds) /\ (Prune opts = false -> ds = []).
Proof.
  intros Hf H0. unfold Reconcile.
  destruct (kind_loop_foreseen sch opts w0 [] w emptyPlan emptyResult ApplyOrder Hf) as (H1 & H2 & _);
    [exact ApplyOrder_NoDup|done|].
  destruct (foldl (reconcile_kind_step env_of p sch m opts) (w, (emptyPlan, emptyResult)) ApplyOrder)
    as [w1 [plan1 r1]]. cbn [fst snd] in *.
  destruct (Prune opts).
  - unfold detectAndExecutePrunes.
    destruct (prune_foreseen (DryRun opts) DeleteOrder w1 [] emptyResult DeleteOrder_NoDup) as (ls & P1 & P2 & _).
    destruct (foldl (prune_kind p m (DryRun opts)) (w1, ([], emptyResult)) DeleteOrder) as [w2 [pc pr]].
    cbn [fst snd app] in *. exists pc. rewrite count_deletes_changes. cbn [add_changes Changes].
    rewrite H1. split; [done|]. subst pc. split; [apply prune_plans_change|]. split; [|done].
    intros _. apply Forall_forall. intros c Hc. eapply orphans_known; [apply H2|done|done].
  - exists []. cbn. rewrite app_nil_r. split; [done|]. split; [constructor|done].
Qed.

Lemma planned_all_for force w : Forall2 change_for (apply_sequence m) (planned_all force w).
Proof.
  unfold planned_all, apply_sequence. generalize ApplyOrder. intros ks.
  induction ks as [|k ks IH]; simpl; [constructor|]. apply Forall2_app; [|done].
  unfold planned_kind. induction (byKind m k) as [|r rs IHr]; simpl; [constructor|].
  constructor; [|done]. pose proof (reconcileOne_for env_of p r force w) as H.
  by rewrite reconcileOne_store in H.
Qed.
End foresee.
