(* ===== verification/EngineClaims.v ===== *)
(** * What the reconciliation engine guarantees

    The properties of [Reconcile], with an example manifest and an in-memory store
    for their witnesses. *)
From Stdlib Require Import ZArith Lia Bool Ascii.
From Stdlib Require String.
From S2P Require Import Prelude GoStr GoValue Filepath Manifest Secrets Compare WriteOnly Engine.
From S2P Require Import EngineProps EngineTrace EngineConverge.

Local Open Scope string_scope.

(** ** An example *)

Definition ex_res (k n : string) (spec : gomap) : Resource := mkResource k n [] [] (Some spec).

Definition ex_manifest : Manifest :=
  mkManifest "gcplane.io/v1" "Manifest" (mkMetadata "prod" "") (mkConnection "http://x" "t" "" "")
    [ ex_res KindChannel "slack" [("type", VStr "slack"); ("agentKey", VStr "bot")];
      ex_res KindProvider "openai" [("displayName", VStr "OpenAI"); ("apiKey", VStr "${KEY}")];
      ex_res KindAgent "bot" [("model", VStr "gpt"); ("limits", VMap [("maxTokens", VInt 100)])] ].

Definition ex_store : mem :=
  mkMem (mkEnv [("KEY", "s3cret")] (mkFs (FDir []) []))
    [ ((KindProvider, "openai"), [("displayName", VStr "old name")]);
      ((KindAgent, "stale"), [("model", VStr "gpt")]) ].

(** Every goroutine order reversed. *)
Definition backwards : Schedule :=
  mkSchedule (fun _ l => reverse l) (fun _ l => reverse l) (fun _ l => l).

#[export] Instance backwards_fair : FairSchedule backwards.
Proof. split; intros; simpl; [apply reverse_Permutation..|done]. Qed.

#[local] Existing Instance ascii_unicode.

Definition ex_opts : ReconcileOpts := mkOpts false true false 4.

Definition ex_run : mem * (Plan * ApplyResult) :=
  Reconcile mem_env mem_provider backwards ex_manifest ex_opts ex_store.

Lemma ex_run_eq : Reconcile mem_env mem_provider backwards ex_manifest ex_opts ex_store
                  = (ex_run.1, (ex_run.2.1, ex_run.2.2)).
Proof. unfold ex_run. by destruct (Reconcile _ _ _ _ _ _) as [? [??]]. Qed.

(** Decides [exact_resource] on concrete resources. *)
Ltac decide_exact :=
  repeat apply Forall_cons_2; try apply Forall_nil_2;
  (split; [apply (bool_decide_unpack _); vm_compute; exact I
          |repeat apply Forall_cons_2; try apply Forall_nil_2;
           (split; [apply wf_valb_ok; reflexivity|reflexivity])
          |apply set_fields_okb_ok; reflexivity|reflexivity]).

Lemma ex_exact : Forall (exact_resource (mem_env ex_store)) (Resources ex_manifest).
Proof. decide_exact. Qed.

(** ** Convergence *)

(** C1: against a store that keeps its promises, reconciliation converges: after a
    run that reports no failure (sequential or concurrent, with or without prune),
    a further run of the same manifest without force plans only no-ops, changes
    nothing and reports nothing. *)
Theorem reconcile_converges {U : Unicode} {W} {env_of : W -> Env} {p : ProviderInterface W}
    {view listed} {L : LawfulStore env_of p view listed} sch sch' m opts opts' w w' plan result :
  FairSchedule sch -> FairSchedule sch' ->
  NoDup (map resource_id (Resources m)) -> Forall (exact_resource (env_of w)) (Resources m) ->
  Reconcile env_of p sch m opts w = (w', (plan, result)) ->
  DryRun opts = false -> Failed result = 0%nat ->
  Force opts' = false -> (Prune opts' = true -> Prune opts = true) ->
  exists plan', Reconcile env_of p sch' m opts' w' = (w', (plan', emptyResult)) /\
    Forall (fun c => ch_Action c = ActionNoop /\ ch_Error c = "") (Changes plan') /\
    Creates plan' = 0%nat /\ Updates plan' = 0%nat /\ Deletes plan' = 0%nat.
Proof.
  intros Hf Hf' Hids Hex HR Hd Hz Hfo Hp.
  destruct (Reconcile_settles m (env_of w) Hids Hex sch opts w w' plan result Hf eq_refl Hd HR Hz)
    as [Hs Ho].
  destruct (settled_Reconcile m sch' opts' w' Hf' Hfo Hs) as (plan' & HR' & Hn); [auto|].
  exists plan'. split; [done|]. split; [done|].
  destruct (Reconcile_inv env_of p sch' m opts' w' w' plan' emptyResult Hf' HR')
    as (_ & _ & _ & _ & _ & [H1 H2 H3 _ _] & _).
  assert (Hc : forall a, a <> ActionNoop -> count_action a (Changes plan') = 0%nat).
  { intros a Ha. unfold count_action. clear -Hn Ha.
    induction Hn as [|c cs [Hc _] _ IH]; [done|]. simpl.
    by rewrite bool_decide_eq_false_2 by congruence. }
  by rewrite H1, H2, H3, !Hc by done.
Qed.

Lemma reconcile_converges_witness :
  exists plan', Reconcile mem_env mem_provider sequential ex_manifest (mkOpts false true false 0) ex_run.1
                = (ex_run.1, (plan', emptyResult)) /\
    Forall (fun c => ch_Action c = ActionNoop /\ ch_Error c = "") (Changes plan') /\
    Creates plan' = 0%nat /\ Updates plan' = 0%nat /\ Deletes plan' = 0%nat.
Proof.
  apply (reconcile_converges backwards sequential ex_manifest ex_opts (mkOpts false true false 0)
           ex_store ex_run.1 ex_run.2.1 ex_run.2.2); [apply _|apply _| |apply ex_exact|apply ex_run_eq|..].
  - apply (bool_decide_unpack _). vm_compute. exact I.
  - reflexivity.
  - vm_compute. reflexivity.
  - reflexivity.
  - done.
Defined.

(** ** Plans *)

(** C3: the plan lists one change per declared resource, kind by kind in the
    dependency order and in manifest order within a kind, followed by deletions
    only of kinds that may be pruned and of resources the manifest does not
    declare (none unless pruning was asked for); the counters count the changes
    listed. *)
Theorem reconcile_plan {U : Unicode} {W} (env_of : W -> Env) (p : ProviderInterface W)
    sch m opts w w' plan result :
  FairSchedule sch -> Reconcile env_of p sch m opts w = (w', (plan, result)) ->
  exists cs ds, Changes plan = (cs ++ ds)%list /\
    Forall2 change_for (apply_sequence m) cs /\ Forall (prune_change m) ds /\
    (Prune opts = false -> ds = []) /\ plan_counts plan.
Proof.
  intros Hf HR. destruct (Reconcile_inv _ _ _ _ _ _ _ _ _ Hf HR) as (cs & ds & H1 & H2 & H3 & H4 & _).
  exists cs, ds. split; [done|]. split; [done|]. destruct (Prune opts).
  - destruct H3 as (ls & _ & ->). split; [apply prune_plans_change|]. done.
  - subst ds. split; [constructor|]. done.
Qed.

Lemma reconcile_plan_witness :
  exists cs ds, Changes ex_run.2.1 = (cs ++ ds)%list /\
    Forall2 change_for (apply_sequence ex_manifest) cs /\ Forall (prune_change ex_manifest) ds /\
    (Prune ex_opts = false -> ds = []) /\ plan_counts ex_run.2.1.
Proof.
  apply (reconcile_plan mem_env mem_provider backwards ex_manifest ex_opts ex_store ex_run.1
           ex_run.2.1 ex_run.2.2); [apply _|apply ex_run_eq].
Defined.


(** The result accounts for every attempt: in a dry run nothing is applied or
    failed; otherwise applied plus failed is the number of planned changes that
    are neither no-ops nor failed observations, and each failure has its message. *)
Theorem reconcile_result_counts {U : Unicode} {W} (env_of : W -> Env) (p : ProviderInterface W)
    sch m opts w w' plan result :
  FairSchedule sch -> Reconcile env_of p sch m opts w = (w', (plan, result)) ->
  if DryRun opts then result = emptyResult
  else (Applied result + Failed result)%nat = length (actionable (Changes plan)) /\
       Failed result = length (Errors result).
Proof.
  intros Hf HR. by destruct (Reconcile_inv _ _ _ _ _ _ _ _ _ Hf HR) as (_ & _ & _ & _ & _ & _ & H).
Qed.

Lemma reconcile_result_counts_witness :
  (Applied ex_run.2.2 + Failed ex_run.2.2)%nat = length (actionable (Changes ex_run.2.1)) /\
  Failed ex_run.2.2 = length (Errors ex_run.2.2).
Proof.
  apply (reconcile_result_counts mem_env mem_provider backwards ex_manifest ex_opts ex_store ex_run.1
           ex_run.2.1 ex_run.2.2); [apply _|apply ex_run_eq].
Defined.

(** ** Calls *)

(** A dry run never calls an operation that changes the provider: two providers
    that agree on [Observe] and [ListAll] give the same plan, result and world,
    whatever their [Create], [Update] and [Delete] do. *)
Theorem dry_run_reads_only {U : Unicode} {W} (env_of : W -> Env) (p p' : ProviderInterface W)
    sch m opts w :
  (forall k n w, Observe p k n w = Observe p' k n w) ->
  (forall k w, ListAll p k w = ListAll p' k w) ->
  DryRun opts = true ->
  Reconcile env_of p sch m opts w = Reconcile env_of p' sch m opts w.
Proof.
  intros Ho Hl Hd. unfold Reconcile.
  rewrite (foldl_ext_elem (reconcile_kind_step env_of p sch m opts)
             (reconcile_kind_step env_of p' sch m opts)) by (intros; by apply dry_run_step).
  destruct (foldl _ _ ApplyOrder) as [w1 [plan result]]. destruct (Prune opts); [|done].
  by rewrite Hd, (dry_run_prune p p' Hl).
Qed.

(** A store whose mutating operations fail. *)
Definition broken_provider : ProviderInterface mem :=
  mkProvider _ (Observe mem_provider) (fun _ _ _ => failM (errorf "down"))
    (fun _ _ _ => failM (errorf "down")) (fun _ _ => failM (errorf "down")) (ListAll mem_provider).

Lemma dry_run_reads_only_witness :
  Reconcile mem_env mem_provider sequential ex_manifest (mkOpts true true false 0) ex_store
  = Reconcile mem_env broken_provider sequential ex_manifest (mkOpts true true false 0) ex_store.
Proof. by apply dry_run_reads_only. Defined.

(** C2: a reconciliation performs its plan: the mutating calls it makes are, one for
    one, the changes of the plan that are not skipped, with the plan's action, kind
    and name; sequentially in the plan's order, concurrently in an order that
    never mixes kinds.  A dry run makes none. *)
Theorem reconcile_performs_plan {U : Unicode} {W} (env_of : W -> Env) (p : ProviderInterface W)
    (calls : W -> list call) {T : Traced p calls} sch m opts w w' plan result :
  FairSchedule sch -> Reconcile env_of p sch m opts w = (w', (plan, result)) ->
  exists ms, calls w' = (calls w ++ ms)%list /\
    if DryRun opts then ms = [] else
      ms ≡ₚ map call_of (actionable (Changes plan)) /\
      map call_kind ms = map ch_Kind (actionable (Changes plan)) /\
      ((Concurrency opts <= 1)%Z -> ms = map call_of (actionable (Changes plan))).
Proof.
  intros Hf HR. destruct (Reconcile_calls env_of p calls _ _ _ _ _ _ _ Hf HR) as (ms & H1 & H2).
  exists ms. split; [done|]. destruct (DryRun opts); [done|]. by destruct H2.
Qed.

Lemma reconcile_performs_plan_witness :
  exists ms, ms = (Reconcile (fun w => mem_env w.1) (instrument mem_provider) backwards ex_manifest ex_opts
                     (ex_store, [])).1.2 /\
    map call_kind ms = [KindProvider; KindAgent; KindChannel; KindAgent].
Proof.
  destruct (Reconcile (fun w => mem_env w.1) (instrument mem_provider) backwards ex_manifest ex_opts
              (ex_store, [])) as [w' [plan result]] eqn:E.
  destruct (reconcile_performs_plan (fun w => mem_env w.1) (instrument mem_provider) snd backwards
              ex_manifest ex_opts (ex_store, []) w' plan result _ E) as (ms & H1 & H2 & H3 & _).
  exists ms. split; [done|]. rewrite H3.
  assert (Hp : plan = (Reconcile (fun w => mem_env w.1) (instrument mem_provider) backwards ex_manifest
                         ex_opts (ex_store, [])).2.1) by (by rewrite E).
  rewrite Hp. vm_compute. reflexivity.
Defined.

(** ** One resource *)

(** C5: a no-op hides nothing the provider can show: when an observed resource that
    does not opt out is left alone without error, it exists, no compared field of
    its desired spec is missing or different, and its write-only hash is absent,
    equal to the observed one, or not echoed by a kind that never echoes it. *)
Theorem noop_in_sync {U : Unicode} {W} (env_of : W -> Env) (p : ProviderInterface W) r force w :
  let c := (reconcileOne env_of p r force w).2 in
  ch_Action c = ActionNoop -> ch_Error c = "" -> ignored r = false ->
  exists cur, (Observe p (Kind r) (Name r) w).2 = Ok (Some cur) /\
    let spec := resolveSpecSecrets (env_of w) (specMap r) in
    let want := desired_hash r spec in
    let have := getStr WriteOnlyHashField cur in
    (forall path fd, ~ differs (WriteOnlyFields (Kind r)) EmptyString spec cur path fd) /\
    (want = "" \/ want = have \/ (have = "" /\ SupportsWriteOnlyHash (Kind r) = false)).
Proof.
  unfold ignored, reconcileOne, run_steps, stepResolveSecrets, stepObserve. cbn [rc_resource].
  destruct (Observe p (Kind r) (Name r) w) as [w' [cur|e]]; [|done].
  unfold stepCompare. cbn -[CompareSpecExcluding hash_drift desired_hash]. intros Ha _ Hi. revert Ha.
  rewrite Hi, desired_hash_if. destruct cur as [cur|]; [|done].
  cbn -[CompareSpecExcluding hash_drift desired_hash]. intros Ha. exists cur. split; [done|].
  set (spec := resolveSpecSecrets (env_of w) (specMap r)) in *.
  destruct (hash_drift (Kind r) (desired_hash r spec) (getStr WriteOnlyHashField cur)) eqn:Hd.
  { rewrite bool_decide_eq_false_2 in Ha by apply insert_non_empty. done. }
  case_bool_decide as He; [|done]. split; [by apply CompareSpecExcluding_empty|].
  unfold hash_drift in Hd.
  destruct (String.eqb_spec (desired_hash r spec) ""); [by left|]. right.
  destruct (String.eqb_spec (desired_hash r spec) (getStr WriteOnlyHashField cur)); [by left|]. right.
  destruct (String.eqb_spec (getStr WriteOnlyHashField cur) ""); [|done]. by destruct (SupportsWriteOnlyHash (Kind r)).
Qed.

Definition ex_agent : Resource := ex_res KindAgent "stale" [("model", VStr "gpt")].

Lemma noop_in_sync_witness :
  exists cur, mem_view ex_store KindAgent "stale" = Some cur /\
    forall path fd, ~ differs (WriteOnlyFields KindAgent) EmptyString
      (resolveSpecSecrets (mem_env ex_store) (specMap ex_agent)) cur path fd.
Proof.
  destruct (noop_in_sync mem_env mem_provider ex_agent false ex_store) as (cur & H1 & H2 & _);
    [vm_compute; reflexivity..|].
  exists cur. split; [|exact H2]. change (Ok (mem_view ex_store KindAgent "stale") = Ok (Some cur)) in H1. congruence.
Defined.
