(* ===== verification/EngineConc.v ===== *)
(** * The goroutines of one kind

    With [Concurrency > 1] the engine runs one goroutine per resource of a kind
    through an [errgroup] with a limit ([reconcileKind], [executeChanges] of
    [engine.go]).  A goroutine is started while fewer than the limit are alive, in
    the order of the loop; it calls the provider; it stores the outcome, under the
    result mutex or in its own slot; [Wait] returns when all are done.  This file
    gives these steps as a relation ([pool_step]) and shows that every complete run
    of it is one of the engine's schedules, that no run blocks, and that all end. *)
From Stdlib Require Import ZArith Lia Bool Ascii.
From Stdlib Require String.
From stdpp Require Import relations.
From S2P Require Import Prelude GoStr GoValue Manifest Secrets Compare WriteOnly Engine EngineProps.
From S2P Require Import EngineConverge EngineClaims.

Local Open Scope string_scope.

(** ** The pool *)

Section pool.
Context {W R A : Type}.
Variable call : nat -> W -> W * R.         (** the goroutine's call of the provider *)
Variable store : nat -> R -> A -> A.       (** what it does with the outcome *)
Variable limit : nat.

Record pool := mkPool {
  queued : list nat;                       (** not started yet, in loop order *)
  running : list nat;                      (** started, before the call *)
  returned : list (nat * R);               (** after the call, before the outcome is stored *)
  world : W;
  stored : A
}.

Definition alive (s : pool) : nat := length (running s) + length (returned s).

Inductive pool_step : pool -> pool -> Prop :=
  | step_start i q s :
      queued s = i :: q -> (alive s < limit)%nat ->
      pool_step s (mkPool q (running s ++ [i]) (returned s) (world s) (stored s))
  | step_call i r1 r2 s :
      running s = (r1 ++ i :: r2)%list ->
      pool_step s (mkPool (queued s) (r1 ++ r2) (returned s ++ [(i, (call i (world s)).2)])
                     (call i (world s)).1 (stored s))
  | step_store i r l1 l2 s :
      returned s = (l1 ++ (i, r) :: l2)%list ->
      pool_step s (mkPool (queued s) (running s) (l1 ++ l2) (world s) (store i r (stored s))).

Definition start (idx : list nat) (w : W) (a : A) : pool := mkPool idx [] [] w a.

Definition finished (s : pool) : Prop := queued s = [] /\ running s = [] /\ returned s = [].

(** The calls in one order, with their outcomes. *)
Fixpoint calls_in (order : list nat) (w : W) : W * list (nat * R) :=
  match order with
  | [] => (w, [])
  | i :: rest => let '(w1, r) := call i w in
                 let '(w2, rs) := calls_in rest w1 in (w2, (i, r) :: rs)
  end.

(** The outcomes stored in one order. *)
Definition store_all (rs : list (nat * R)) (a : A) : A :=
  foldl (fun a ir => store ir.1 ir.2 a) a rs.

Lemma calls_in_app o1 o2 w :
  calls_in (o1 ++ o2) w
  = let '(w1, r1) := calls_in o1 w in let '(w2, r2) := calls_in o2 w1 in (w2, r1 ++ r2)%list.
Proof.
  revert w. induction o1 as [|i o1 IH]; intros w; simpl.
  - by destruct (calls_in o2 w).
  - destruct (call i w) as [w1 r]. rewrite IH. destruct (calls_in o1 w1) as [w2 r1].
    by destruct (calls_in o2 w2).
Qed.

Lemma calls_in_fst order w : map fst (calls_in order w).2 = order.
Proof.
  revert w. induction order as [|i order IH]; intros w; simpl; [done|].
  destruct (call i w) as [w1 r]. specialize (IH w1). destruct (calls_in order w1). simpl in *.
  by rewrite IH.
Qed.

(** What a run has done so far: the calls in some order, part of their outcomes
    stored in some order. *)
Definition progress (idx : list nat) (w : W) (a : A) (s : pool) : Prop :=
  exists order done,
    (calls_in order w).1 = world s /\
    (calls_in order w).2 ≡ₚ (returned s ++ done)%list /\
    stored s = store_all done a /\
    idx ≡ₚ (queued s ++ running s ++ order)%list.

Lemma pool_step_progress idx w a s s' :
  progress idx w a s -> pool_step s s' -> progress idx w a s'.
Proof.
  intros (order & done & Hw & Hr & Ha & Hi) Hs. inversion Hs as [i q ? Hq Hl|i r1 r2 ? Hrun|i r l1 l2 ? Hret];
    subst; cbn.
  - exists order, done. repeat (split; [done|]). cbn. rewrite Hi, Hq. solve_Permutation.
  - exists (order ++ [i])%list, done. cbn. rewrite calls_in_app.
    destruct (calls_in order w) as [w1 rs]. cbn in Hw, Hr. subst w1. cbn.
    destruct (call i (world s)) as [w2 r]. cbn. split; [done|]. split; [|split; [done|]].
    + rewrite Hr. solve_Permutation.
    + rewrite Hi, Hrun. solve_Permutation.
  - exists order, (done ++ [(i, r)])%list. cbn. split; [done|]. split; [|split; [|done]].
    + rewrite Hr, Hret. solve_Permutation.
    + rewrite Ha. unfold store_all. by rewrite foldl_app.
Qed.

(** Every finished run is the calls in one order and the stores in another. *)
Lemma pool_run idx w a s :
  rtc pool_step (start idx w a) s -> finished s ->
  exists order done,
    order ≡ₚ idx /\ (calls_in order w).1 = world s /\ (calls_in order w).2 ≡ₚ done /\
    stored s = store_all done a.
Proof.
  intros Hrun (Hq & Hr & Hret).
  assert (H : progress idx w a s).
  { refine (rtc_ind_r (R := pool_step) (progress idx w a) (start idx w a) _ _ s Hrun).
    - exists [], []. cbn. by rewrite app_nil_r.
    - intros. by eapply pool_step_progress. }
  destruct H as (order & done & Hw & Hp & Ha & Hi). exists order, done.
  rewrite Hq, Hr in Hi. rewrite Hret in Hp. by rewrite Hi.
Qed.

(** No deadlock: a run that is not finished can go on. *)
Lemma pool_live s : (0 < limit)%nat -> ~ finished s -> exists s', pool_step s s'.
Proof.
  intros Hl Hf. destruct (returned s) as [|[i r] l] eqn:Hret.
  - destruct (running s) as [|i l] eqn:Hrun.
    + destruct (queued s) as [|i q] eqn:Hq; [by destruct Hf|].
      eexists. eapply step_start; [exact Hq|]. unfold alive. rewrite Hret, Hrun. done.
    + eexists. by apply (step_call i [] l).
  - eexists. by apply (step_store i r [] l).
Qed.

(** Termination: every step brings some goroutine closer to its end. *)
Definition steps_left (s : pool) : nat :=
  3 * length (queued s) + 2 * length (running s) + length (returned s).

Lemma pool_step_decreases s s' : pool_step s s' -> steps_left s = Datatypes.S (steps_left s').
Proof.
  unfold steps_left. intros Hs.
  inversion Hs as [i q ? Hq Hl|i r1 r2 ? Hrun|i r l1 l2 ? Hret]; subst; cbn.
  - rewrite Hq, length_app. simpl. lia.
  - rewrite Hrun, !length_app. simpl. lia.
  - rewrite Hret, !length_app. simpl. lia.
Qed.

Lemma pool_bounded s s' n : nsteps pool_step n s s' -> steps_left s = (n + steps_left s')%nat.
Proof.
  revert s. induction n as [|n IH]; intros s Hn; inversion Hn as [|? ? y ? Hs Hr]; subst; [done|].
  rewrite (pool_step_decreases _ _ Hs). simpl. f_equal. by apply IH.
Qed.

(** Never more than [limit] goroutines are alive. *)
Lemma pool_limit s s' : (alive s <= limit)%nat -> pool_step s s' -> (alive s' <= limit)%nat.
Proof.
  unfold alive. intros Ha Hs.
  inversion Hs as [i q ? Hq Hl|i r1 r2 ? Hrun|i r l1 l2 ? Hret]; subst; cbn.
  - unfold alive in Hl. rewrite length_app. simpl. lia.
  - rewrite Hrun in Ha. rewrite !length_app in *. simpl in *. lia.
  - rewrite Hret in Ha. rewrite !length_app in *. simpl in *. lia.
Qed.

Lemma pool_limit_run idx w a n s : nsteps pool_step n (start idx w a) s -> (alive s <= limit)%nat.
Proof.
  intros Hn. apply rtc_nsteps_2 in Hn.
  refine (rtc_ind_r (R := pool_step) (fun s => alive s <= limit)%nat (start idx w a) _ _ s Hn).
  - unfold alive. cbn. lia.
  - intros y z _ Hs Hy. by eapply pool_limit.
Qed.
End pool.
Arguments mkPool {W R A}.
Arguments pool W R A : clear implicits.

(** ** The two phases as pools *)

Section phases.
Context {U : Unicode} {W : Type} (env_of : W -> Env) (p : ProviderInterface W).

(** The goroutine of [executeChanges]: [execute], then the outcome under the mutex. *)
Definition exec_call (items : list (Change * Resource)) (i : nat) (w : W) : W * option error :=
  match items !! i with Some (change, res) => execute env_of p change res w | None => (w, None) end.

Definition exec_store (items : list (Change * Resource)) (i : nat) (err : option error)
    (result : ApplyResult) : ApplyResult :=
  match items !! i with
  | Some (change, _) => record_outcome result (ch_Kind change) (ch_Name change) err
  | None => result
  end.

(** The goroutine of [reconcileKind]: [reconcileOne], then its own slot. *)
Definition observe_call (resources : list Resource) (force : bool) (i : nat) (w : W) : W * Change :=
  match resources !! i with Some res => reconcileOne env_of p res force w | None => (w, zeroChange) end.

Definition observe_store (i : nat) (c : Change) (changes : list Change) : list Change :=
  <[ i := c ]> changes.

(** A schedule with the given orders for one kind. *)
Definition schedule_of (kind : ResourceKind) (idx order done : list nat) : Schedule :=
  let pick o k l := if bool_decide (k = kind /\ l = idx) then o else l in
  mkSchedule (pick order) (pick order) (pick done).

Lemma schedule_of_fair kind idx order done :
  order ≡ₚ idx -> done ≡ₚ idx -> FairSchedule (schedule_of kind idx order done).
Proof.
  intros Ho Hd. split; intros k l; cbn; case_bool_decide as H; by destruct_and?; subst.
Qed.

Lemma exec_calls items order w errs :
  Forall (fun i => is_Some (items !! i)) order ->
  foldl (fun acc i =>
           let '(w, errs) := acc in
           match items !! i with
           | Some (change, res) => let '(w', err) := execute env_of p change res w in (w', (i, err) :: errs)
           | None => (w, errs)
           end) (w, errs) order
  = ((calls_in (exec_call items) order w).1,
     (reverse (calls_in (exec_call items) order w).2 ++ errs)%list).
Proof.
  intros Ho. revert w errs. induction Ho as [|i order [[c r] Hi] _ IH]; intros w errs; [done|].
  cbn [foldl calls_in]. unfold exec_call at 1 3. rewrite Hi.
  destruct (execute env_of p c r w) as [w1 err]. rewrite IH.
  destruct (calls_in (exec_call items) order w1) as [w2 rs]. cbn [fst snd].
  by rewrite reverse_cons, <- (assoc_L (++)%list).
Qed.

Lemma list_find_key (errs : list (nat * option error)) i e :
  NoDup (map fst errs) -> (i, e) ∈ errs ->
  exists j, list_find (fun q : nat * option error => q.1 = i) errs = Some (j, (i, e)).
Proof.
  intros Hn Hin. destruct (list_find_elem_of (fun q : nat * option error => q.1 = i) errs (i, e) Hin eq_refl)
    as [[j [i' e']] Hf]. exists j. rewrite Hf.
  apply list_find_Some in Hf as (Hj & Hi & _). cbn in Hi. subst i'. do 2 f_equal.
  apply list_elem_of_lookup in Hin as [k Hk].
  assert (j = k); [|by simplify_eq].
  eapply NoDup_lookup; [exact Hn| |]; rewrite list_lookup_fmap; [by rewrite Hj|by rewrite Hk].
Qed.

Lemma store_recorded items errs (done : list (nat * option error)) a :
  NoDup (map fst errs) -> done ⊆ errs ->
  foldl (fun result i =>
           match items !! i, list_find (fun q : nat * option error => q.1 = i) errs with
           | Some (change, _), Some (_, (_, err)) =>
             record_outcome result (ch_Kind change) (ch_Name change) err
           | _, _ => result
           end) a (map fst done)
  = store_all (exec_store items) done a.
Proof.
  intros Hn. revert a. induction done as [|[i e] done IH]; intros a Hs; [done|].
  unfold store_all. cbn [map foldl fst snd].
  destruct (list_find_key errs i e Hn (Hs _ (list_elem_of_here _ _))) as [j Hj].
  rewrite Hj. rewrite IH by (intros x Hx; apply Hs; by right).
  unfold exec_store. by destruct (items !! i) as [[c r]|].
Qed.

Lemma execute_run_schedule kind changes resources conc w s :
  (1 < conc)%Z ->
  let items := zip changes resources in
  rtc (pool_step (exec_call items) (exec_store items) (Z.to_nat conc))
      (start (started items) w emptyResult) s ->
  finished s ->
  exists sch, FairSchedule sch /\
    executeChanges env_of p sch kind changes resources conc w = (world s, stored s).
Proof.
  intros Hc items Hrun Hf.
  destruct (pool_run _ _ _ _ _ _ _ Hrun Hf) as (order & done & Ho & Hw & Hp & Ha).
  pose proof (calls_in_fst (exec_call items) order w) as Hfst.
  assert (Hd : map fst done ≡ₚ started items).
  { rewrite <- Ho, <- Hfst. unfold map. by rewrite Hp. }
  exists (schedule_of kind (started items) order (map fst done)).
  split; [by apply schedule_of_fair|].
  unfold executeChanges. fold items. destruct (Z.leb_spec conc 1); [lia|].
  cbn [execute_order record_order schedule_of]. rewrite !bool_decide_eq_true_2 by done.
  unfold execute_parallel. rewrite exec_calls.
  2:{ rewrite Forall_forall. intros i Hi. rewrite Ho in Hi. apply started_spec in Hi as (c & r & Hi & _).
      by rewrite Hi. }
  rewrite app_nil_r, Hw, Ha. f_equal. apply store_recorded.
  - assert (Hr : map fst (reverse (calls_in (exec_call items) order w).2) ≡ₚ started items)
      by (rewrite reverse_Permutation, Hfst; exact Ho).
    rewrite Hr. apply NoDup_ListNoDup, List.NoDup_filter, NoDup_ListNoDup, NoDup_seq.
  - intros x. rewrite <- Hp. by rewrite elem_of_reverse.
Qed.

(** Storing into distinct slots, in any order. *)
Lemma slots_lookup (rs : list (nat * Change)) cs j :
  NoDup (map fst rs) ->
  store_all observe_store rs cs !! j
  = match list_find (fun q : nat * Change => q.1 = j) rs with
    | Some (_, (_, c)) => if bool_decide (j < length cs)%nat then Some c else None
    | None => cs !! j
    end.
Proof.
  revert cs. induction rs as [|[i c] rs IH]; intros cs Hn; [done|].
  cbn [map] in Hn. apply NoDup_cons in Hn as [Hi Hn].
  unfold store_all. cbn [foldl fst snd]. fold (store_all observe_store rs (observe_store i c cs)).
  rewrite IH by done. unfold observe_store. rewrite length_insert. cbn [list_find].
  case_decide as Hij; cbn [fst] in Hij.
  - subst i. destruct (list_find _ rs) as [[k [i' c']]|] eqn:Hf.
    + apply list_find_Some in Hf as (Hk & Hi' & _). cbn in Hi'. subst i'. destruct Hi.
      apply list_elem_of_lookup_2 in Hk. apply list_elem_of_fmap. by exists (j, c').
    + case_bool_decide as Hj; [by apply list_lookup_insert_eq|].
      apply lookup_ge_None. rewrite length_insert. lia.
  - destruct (list_find _ rs) as [[k [i' c']]|]; [done|]. by apply list_lookup_insert_ne.
Qed.

Lemma slots_perm (rs rs' : list (nat * Change)) cs :
  NoDup (map fst rs) -> rs ≡ₚ rs' ->
  store_all observe_store rs cs = store_all observe_store rs' cs.
Proof.
  intros Hn Hp. apply list_eq. intros j.
  assert (Hn' : NoDup (map fst rs')) by (unfold map in *; by rewrite <- Hp).
  rewrite !slots_lookup by done.
  assert (Hf : forall l : list (nat * Change), NoDup (map fst l) -> forall c,
    (exists k i, list_find (fun q : nat * Change => q.1 = j) l = Some (k, (i, c))) <-> (j, c) ∈ l).
  { intros l Hl c. split.
    - intros (k & i & (Hk & Hi & _)%list_find_Some). cbn in Hi. subst i. by eapply list_elem_of_lookup_2.
    - intros Hin. destruct (list_find_elem_of (fun q : nat * Change => q.1 = j) l (j, c) Hin eq_refl)
        as [[k [i c']] Hk]. exists k, i. rewrite Hk.
      apply list_find_Some in Hk as (Hk & Hi & _). cbn in Hi. subst i.
      apply list_elem_of_lookup in Hin as [k' Hk'].
      assert (k = k'); [|by simplify_eq].
      eapply NoDup_lookup; [exact Hl| |]; rewrite list_lookup_fmap; [by rewrite Hk|by rewrite Hk']. }
  destruct (list_find _ rs) as [[k [i c]]|] eqn:E1, (list_find _ rs') as [[k' [i' c']]|] eqn:E2; try done.
  - assert (H1 : (j, c) ∈ rs) by (apply Hf; eauto). rewrite Hp in H1.
    apply (Hf rs' Hn') in H1 as (k2 & i2 & H2). rewrite E2 in H2. by simplify_eq.
  - assert (H1 : (j, c) ∈ rs) by (apply Hf; eauto). rewrite Hp in H1.
    apply (Hf rs' Hn') in H1 as (k2 & i2 & H2). congruence.
  - assert (H1 : (j, c') ∈ rs') by (apply Hf; eauto). rewrite <- Hp in H1.
    apply (Hf rs Hn) in H1 as (k2 & i2 & H2). congruence.
Qed.

Lemma observe_calls resources force order w cs :
  Forall (fun i => is_Some (resources !! i)) order ->
  foldl (fun acc i =>
           let '(w, changes) := acc in
           match resources !! i with
           | Some res => let '(w', c) := reconcileOne env_of p res force w in (w', <[ i := c ]> changes)
           | None => (w, changes)
           end) (w, cs) order
  = ((calls_in (observe_call resources force) order w).1,
     store_all observe_store (calls_in (observe_call resources force) order w).2 cs).
Proof.
  intros Ho. revert w cs. induction Ho as [|i order [r Hi] _ IH]; intros w cs; [done|].
  cbn [foldl calls_in]. unfold observe_call at 1 3. rewrite Hi.
  destruct (reconcileOne env_of p r force w) as [w1 c]. rewrite IH.
  by destruct (calls_in (observe_call resources force) order w1) as [w2 rs].
Qed.

Lemma observe_run_schedule kind resources force conc w s :
  (1 < conc)%Z ->
  let idx := seq 0 (length resources) in
  rtc (pool_step (observe_call resources force) observe_store (Z.to_nat conc))
      (start idx w (replicate (length resources) zeroChange)) s ->
  finished s ->
  exists sch, FairSchedule sch /\
    reconcileKind env_of p sch kind resources force conc w = (world s, stored s).
Proof.
  intros Hc idx Hrun Hf.
  destruct (pool_run _ _ _ _ _ _ _ Hrun Hf) as (order & done & Ho & Hw & Hp & Ha).
  pose proof (calls_in_fst (observe_call resources force) order w) as Hfst.
  exists (schedule_of kind idx order order). split; [by apply schedule_of_fair|].
  unfold reconcileKind. fold idx. destruct (Z.leb_spec conc 1); [lia|].
  cbn [observe_order schedule_of]. rewrite bool_decide_eq_true_2 by done.
  unfold observe_parallel. rewrite observe_calls.
  2:{ rewrite Forall_forall. intros i Hi. rewrite Ho in Hi. apply elem_of_seq in Hi.
      apply lookup_lt_is_Some. lia. }
  rewrite Hw, Ha. f_equal. apply slots_perm; [|done].
  rewrite Hfst, Ho. apply NoDup_seq.
Qed.
End phases.

(** C31: with a limit above one, every complete run of the goroutines of a kind, from
    the first start to [Wait], comes to what the engine's definitions compute under
    some fair schedule, in the observe phase and in the execute phase; and no run of
    either phase blocks, exceeds the limit, or takes more than three steps for each
    goroutine. *)
Theorem goroutines_refine_schedules {U : Unicode} {W} (env_of : W -> Env) (p : ProviderInterface W)
    kind resources changes force conc w :
  (1 < conc)%Z ->
  let limit := Z.to_nat conc in
  let items := zip changes resources in
  let observe := pool_step (observe_call env_of p resources force) observe_store limit in
  let observe0 := start (seq 0 (length resources)) w (replicate (length resources) zeroChange) in
  let exec := pool_step (exec_call env_of p items) (exec_store items) limit in
  let exec0 := start (started items) w emptyResult in
  (forall s, rtc observe observe0 s -> finished s ->
     exists sch, FairSchedule sch /\
       reconcileKind env_of p sch kind resources force conc w = (world s, stored s)) /\
  (forall s, rtc exec exec0 s -> finished s ->
     exists sch, FairSchedule sch /\
       executeChanges env_of p sch kind changes resources conc w = (world s, stored s)) /\
  (forall s, ~ finished s -> (exists s', observe s s')) /\
  (forall s, ~ finished s -> (exists s', exec s s')) /\
  (forall n s, nsteps observe n observe0 s -> (n <= 3 * length resources /\ alive s <= limit)%nat) /\
  (forall n s, nsteps exec n exec0 s -> (n <= 3 * length (started items) /\ alive s <= limit)%nat).
Proof.
  intros Hc limit items observe observe0 exec exec0.
  assert (Hl : (0 < limit)%nat) by (unfold limit; lia).
  split; [intros s Hr Hf; by eapply observe_run_schedule|].
  split; [intros s Hr Hf; by eapply execute_run_schedule|].
  split; [intros s Hf; by apply pool_live|]. split; [intros s Hf; by apply pool_live|].
  split; intros n s Hn; (split; [pose proof (pool_bounded _ _ _ _ _ _ Hn) as Hb;
    unfold steps_left in Hb; cbn in Hb; rewrite ?length_seq in Hb; lia|]).
  - revert Hn. apply pool_limit_run.
  - revert Hn. apply pool_limit_run.
Qed.

#[local] Existing Instance ascii_unicode.

(** The three resources of the example manifest, two goroutines at a time: some run
    of the observe phase completes and computes what some schedule computes. *)
Lemma goroutines_refine_schedules_witness :
  let observe := pool_step (observe_call mem_env mem_provider (Resources ex_manifest) false)
                   observe_store 2 in
  let observe0 := start (seq 0 3) ex_store (replicate 3 zeroChange) in
  exists s sch, rtc observe observe0 s /\ finished s /\ FairSchedule sch /\
    reconcileKind mem_env mem_provider sch KindAgent (Resources ex_manifest) false 2 ex_store
    = (world s, stored s).
Proof.
  intros observe observe0.
  destruct (goroutines_refine_schedules mem_env mem_provider KindAgent (Resources ex_manifest) []
              false 2 ex_store ltac:(lia)) as (Hobs & _ & Hlive & _ & Hbound & _).
  assert (Hend : forall fuel s n, nsteps observe n observe0 s -> (fuel + n = 10)%nat ->
            exists s', rtc observe observe0 s' /\ finished s').
  { induction fuel as [|fuel IH]; intros s n Hn Hfuel.
    - destruct (Hbound n s Hn) as [Hle _]. simpl in Hle. lia.
    - destruct (decide (queued s = [] /\ length (running s) = 0 /\ length (returned s) = 0)%nat)
        as [(H1 & H2 & H3)|Hnf].
      + exists s. split; [by eapply rtc_nsteps_2|]. split; [done|].
        split; by apply nil_length_inv.
      + destruct (Hlive s) as [s' Hs'].
        { intros (H1 & H2 & H3). apply Hnf. by rewrite H1, H2, H3. }
        apply (IH s' (Datatypes.S n)); [|lia]. by eapply nsteps_r. }
  destruct (Hend 10%nat observe0 0%nat) as (s & Hs & Hf); [constructor|done|].
  destruct (Hobs s Hs Hf) as (sch & Hsch & Heq). by exists s, sch.
Defined.
