(* ===== verification/Regexp.v ===== *)
(** * Regular expressions

    The part of package [regexp] the validators use: a pattern anchored at both
    ends, over ASCII classes, matched by derivatives.  [match_lang] is its
    correctness against the language of the pattern. *)
From Stdlib Require Import ZArith Lia Bool Ascii.
From Stdlib Require String.
From S2P Require Import Prelude GoStr.

Inductive re :=
  | REmpty                          (** no text *)
  | REps                            (** the empty text *)
  | RCls (f : ascii -> bool)        (** one character of a class *)
  | RAlt (a b : re)
  | RCat (a b : re)
  | RStar (a : re).

Definition ROpt (a : re) : re := RAlt REps a.

(** [a{1,n}]. *)
Fixpoint RUpTo (n : nat) (a : re) : re :=
  match n with
  | O => REmpty
  | S O => a
  | S n => RCat a (ROpt (RUpTo n a))
  end.

Fixpoint nullable (r : re) : bool :=
  match r with
  | REps | RStar _ => true
  | REmpty | RCls _ => false
  | RAlt a b => nullable a || nullable b
  | RCat a b => nullable a && nullable b
  end.

Fixpoint deriv (c : ascii) (r : re) : re :=
  match r with
  | REmpty | REps => REmpty
  | RCls f => if f c then REps else REmpty
  | RAlt a b => RAlt (deriv c a) (deriv c b)
  | RCat a b => if nullable a then RAlt (RCat (deriv c a) b) (deriv c b) else RCat (deriv c a) b
  | RStar a => RCat (deriv c a) (RStar a)
  end.

(** [MatchString] of [^r$]. *)
Definition MatchString (r : re) (s : string) : bool :=
  nullable (foldl (fun r c => deriv c r) r (bytes_of s)).

(** ** The language of a pattern *)

Inductive lang : re -> list ascii -> Prop :=
  | lang_eps : lang REps []
  | lang_cls f c : f c = true -> lang (RCls f) [c]
  | lang_alt_l a b s : lang a s -> lang (RAlt a b) s
  | lang_alt_r a b s : lang b s -> lang (RAlt a b) s
  | lang_cat a b s t : lang a s -> lang b t -> lang (RCat a b) (s ++ t)
  | lang_star_nil a : lang (RStar a) []
  | lang_star_cons a s t : lang a s -> lang (RStar a) t -> lang (RStar a) (s ++ t).

Lemma lang_nil_nullable r s : lang r s -> s = [] -> nullable r = true.
Proof.
  induction 1 as [| | | | a b s t _ IHa _ IHb| |]; simpl; intros E; try done.
  - by rewrite IHlang.
  - rewrite IHlang by done. apply orb_true_r.
  - apply app_nil in E as [-> ->]. by rewrite IHa, IHb.
Qed.

Lemma nullable_lang r : nullable r = true <-> lang r [].
Proof.
  split; [|intros H; by eapply lang_nil_nullable].
  induction r as [| |f|a IHa b IHb|a IHa b IHb|a IHa]; simpl; intros H; try done; [constructor|..].
  - apply orb_true_iff in H as [H|H]; [apply lang_alt_l|apply lang_alt_r]; auto.
  - split_and_true. apply (lang_cat a b [] []); auto.
  - constructor.
Qed.

Lemma deriv_sound r c s : lang (deriv c r) s -> lang r (c :: s).
Proof.
  revert s. induction r as [| |f|a IHa b IHb|a IHa b IHb|a IHa]; simpl; intros s H;
    try by inversion H.
  - destruct (f c) eqn:E; inversion H; subst. by constructor.
  - inversion H; subst; [apply lang_alt_l|apply lang_alt_r]; auto.
  - assert (Hc : forall s, lang (RCat (deriv c a) b) s -> lang (RCat a b) (c :: s)).
    { intros s0 H0. inversion H0; subst. apply (lang_cat a b (c :: s1) t); auto. }
    destruct (nullable a) eqn:E; [|auto]. inversion H; subst; [auto|].
    apply (lang_cat a b [] (c :: s)); [by apply nullable_lang|auto].
  - inversion H; subst. apply (lang_star_cons a (c :: s0) t); auto.
Qed.

Lemma deriv_complete r c s : lang r s -> forall s', s = c :: s' -> lang (deriv c r) s'.
Proof.
  induction 1 as [|f d Hf|a b s H IH|a b s H IH|a b s t Ha IHa Hb IHb|a|a s t Ha IHa Hb IHb];
    intros s' E; simpl; try done.
  - injection E as -> <-. rewrite Hf. constructor.
  - apply lang_alt_l; auto.
  - apply lang_alt_r; auto.
  - destruct s as [|d s]; simpl in E.
    + assert (nullable a = true) as -> by (by apply nullable_lang). apply lang_alt_r. auto.
    + injection E as -> <-.
      assert (Hc : lang (RCat (deriv c a) b) (s ++ t)) by (apply lang_cat; auto).
      destruct (nullable a); [by apply lang_alt_l|done].
  - destruct s as [|d s]; simpl in E; [auto|]. injection E as -> <-. apply lang_cat; auto.
Qed.

Lemma match_lang r s : MatchString r s = true <-> lang r (bytes_of s).
Proof.
  unfold MatchString. revert r. induction (bytes_of s) as [|c l IH]; intros r; simpl.
  - apply nullable_lang.
  - rewrite IH. split; [apply deriv_sound|]. intros H. by eapply deriv_complete.
Qed.
