(* ===== verification/SkillPkg.v ===== *)
(** * Skill packages

    [internal/skillpkg]: packing a skill directory into an archive
    ([skillpkg.go]) and unpacking the files of a server response into a directory
    ([unpack.go]).  An archive is the list of its entries; the bytes
    [archive/zip] writes for them are the parameter [zip].  Symbolic links are not
    followed. *)
From Stdlib Require Import ZArith Lia Bool Ascii Sorted.
From Stdlib Require String.
From S2P Require Import Prelude GoStr GoValue Filepath FilepathProps Sha256.

Local Open Scope string_scope.

(** ** skillpkg.go *)

Definition SkillFilename : string := "SKILL.md".

Definition MaxFileSize : Z := Z.shiftl 4 20.

Definition isSkippedDir (name : string) : bool :=
  existsb (String.eqb name) [".git"; ".github"; "node_modules"; "__pycache__"; ".venv"; "venv"]
  || HasPrefix name ".".

Definition isSkippedFile (name : string) : bool :=
  existsb (String.eqb name) [".DS_Store"; "Thumbs.db"; ".gitkeep"; ".gitignore"]
  || HasPrefix name ".".

(** The results of the entries of a directory, in name order, up to an error. *)
Fixpoint concat_res (l : list (string * res (list string))) : res (list string) :=
  match l with
  | [] => Ok []
  | (_, Err e) :: _ => Err e
  | (_, Ok x) :: l' => res_bind (concat_res l') (fun y => Ok (x ++ y)%list)
  end.

(** [filepath.WalkDir] with the callback of [collectFiles]. *)
Fixpoint collect_walk (root path name : string) (n : fsnode) : res (list string) :=
  match n with
  | FDir entries =>
    if isSkippedDir name && negb (String.eqb path root) then Ok []
    else concat_res (sort_by fst
           (map (fun e => (e.1, collect_walk root (JoinPath [path; e.1]) e.1 e.2)) entries))
  | FOther => Ok []
  | FFile _ => if isSkippedFile name then Ok []
               else res_bind (Rel root path) (fun rel => Ok [rel])
  end.

Definition collectFiles (fs : Filesystem) (root : string) : res (list string) :=
  res_wrap ("walk " +:+ root +:+ ": ")
    (match fs_lookup fs root with
     | None => Err (not_exist "lstat" root)
     | Some n => collect_walk root root (Base root) n
     end).

Record PackResult := mkPackResult {
  ZIP : string;
  ContentHash : string;
  SkillMD : string
}.

(** The entries of the archive: name and data. *)
Fixpoint pack_entries (fs : Filesystem) (dir : string) (files : list string) :
    res (list (string * string)) :=
  match files with
  | [] => Ok []
  | rel :: files' =>
    match ReadFile fs (JoinPath [dir; rel]) with
    | Err err => Err (wrapf ("read " +:+ rel +:+ ": ") err "")
    | Ok data =>
      if (MaxFileSize <? Z.of_nat (String.length data))%Z
      then Err (errorf (rel +:+ " exceeds " +:+ Itoa MaxFileSize +:+ " bytes"))
      else res_bind (pack_entries fs dir files') (fun es => Ok ((rel, data) :: es))
    end
  end.

Section pack.
Variable zip : list (string * string) -> string.

Definition PackDir (fs : Filesystem) (dir : string) : res PackResult :=
  let skillPath := JoinPath [dir; SkillFilename] in
  match ReadFile fs skillPath with
  | Err err => Err (wrapf ("read " +:+ SkillFilename +:+ ": ") err "")
  | Ok skillBytes =>
    match collectFiles fs dir with
    | Err err => Err err
    | Ok files =>
      match pack_entries fs dir (sortStrings files) with
      | Err err => Err err
      | Ok entries =>
        let buf := zip entries in
        Ok (mkPackResult buf (hex_encode (Sum256 buf)) skillBytes)
      end
    end
  end.
End pack.

(** ** Writing to the filesystem *)

Definition fs_with (fs : Filesystem) (n : fsnode) : Filesystem := mkFs n (fs_cwd fs).

(** [os.MkdirAll] below a node. *)
Fixpoint mkdir_all (elems : list string) (n : fsnode) : option fsnode :=
  match elems, n with
  | [], FDir _ => Some n
  | e :: es, FDir entries =>
    option_map (fun c => FDir (mset e c entries))
               (mkdir_all es (default (FDir []) (mget e entries)))
  | _, _ => None
  end.

(** [os.WriteFile] below a node: the parent exists, the target is no directory. *)
Fixpoint write_at (data : string) (elems : list string) (n : fsnode) : option fsnode :=
  match elems, n with
  | [], _ => None
  | e :: es, FDir entries =>
    match es with
    | [] => match mget e entries with
            | Some (FDir _) | Some FOther => None
            | _ => Some (FDir (mset e (FFile (Ok data)) entries))
            end
    | _ => match mget e entries with
           | Some c => option_map (fun c => FDir (mset e c entries)) (write_at data es c)
           | None => None
           end
    end
  | _, _ => None
  end.

(** [os.Remove] of a file below a node. *)
Fixpoint remove_at (elems : list string) (n : fsnode) : option fsnode :=
  match elems, n with
  | [], _ => None
  | e :: es, FDir entries =>
    match mget e entries with
    | None => None
    | Some c => match es with
                | [] => Some (FDir (mdel e entries))
                | _ => option_map (fun c => FDir (mset e c entries)) (remove_at es c)
                end
    end
  | _, _ => None
  end.

Definition MkdirAll (path : string) : M Filesystem unit := fun fs =>
  match mkdir_all (abs_elems fs path) (fs_root fs) with
  | Some n => (fs_with fs n, Ok tt)
  | None => (fs, Err (errorf ("mkdir " +:+ path +:+ ": not a directory")))
  end.

Definition WriteFile (path data : string) : M Filesystem unit := fun fs =>
  match write_at data (abs_elems fs path) (fs_root fs) with
  | Some n => (fs_with fs n, Ok tt)
  | None => (fs, Err (errorf ("open " +:+ path +:+ ": is not a writable file")))
  end.

Definition Remove (path : string) : M Filesystem unit := fun fs =>
  match remove_at (abs_elems fs path) (fs_root fs) with
  | Some n => (fs_with fs n, Ok tt)
  | None => (fs, Err (not_exist "remove" path))
  end.

(** ** unpack.go *)

Record SkillFile := mkSkillFile { Path : string; Data : string }.

Definition needsWrite (fs : Filesystem) (abs data : string) : bool :=
  match ReadFile fs abs with
  | Err _ => true
  | Ok existing => negb (bool_decide (Sum256 data = Sum256 existing))
  end.

(** Every entry below a directory that is not a directory: path and element list. *)
Fixpoint walk_files (path : string) (n : fsnode) : list string :=
  match n with
  | FDir entries =>
    concat (map snd (sort_by fst (map (fun e => (e.1, walk_files (JoinPath [path; e.1]) e.2)) entries)))
  | _ => [path]
  end.

(** The callback of [pruneLocal] on one file. *)
Definition prune_file (outDir : string) (keep : list string)
    (acc : M Filesystem (list string)) (path : string) : M Filesystem (list string) :=
  bindM acc (fun deleted =>
    match Rel outDir path with
    | Err err => failM err
    | Ok rel =>
      if existsb (String.eqb rel) keep then retM deleted
      else fun fs =>
        match Remove path fs with
        | (fs', Err err) =>
          if errorsIs err NotExist then (fs', Ok (deleted ++ [rel])%list)
          else (fs', Err (wrapf ("prune " +:+ rel +:+ ": ") err ""))
        | (fs', Ok _) => (fs', Ok (deleted ++ [rel])%list)
        end
    end).

Definition pruneLocal (outDir : string) (keep : list string) : M Filesystem (list string) :=
  fun fs =>
    match fs_lookup fs outDir with
    | None => (fs, Err (not_exist "lstat" outDir))
    | Some n => foldl (prune_file outDir keep) (retM []) (walk_files outDir n) fs
    end.

Section unpack.
Context {U : Unicode}.

(** One file of the response: [written] and [changed] so far. *)
Definition unpack_file (outDir : string) (f : SkillFile) (written changed : list string) :
    M Filesystem (list string * list string) := fun fs =>
  let rel := Path f in
  if IsAbs rel || Contains rel ".." then
    (fs, Err (errorf ("rejected unsafe path " +:+ Quote (Path f))))
  else
  let name := Base rel in
  if isSkippedFile name || isSkippedDir (hd "" (Split rel "/")) then (fs, Ok (written, changed))
  else if (MaxFileSize <? Z.of_nat (String.length (Data f)))%Z then
    (fs, Err (errorf ("file " +:+ Quote (Path f) +:+ " exceeds max size " +:+ Itoa MaxFileSize +:+ " bytes")))
  else
  let abs := JoinPath [outDir; rel] in
  if negb (HasPrefix abs (outDir +:+ "/")) && negb (String.eqb abs outDir) then
    (fs, Err (errorf ("rejected path escaping outDir: " +:+ Quote (Path f))))
  else if negb (needsWrite fs abs (Data f)) then (fs, Ok (rel :: written, changed))
  else
  match MkdirAll (Dir abs) fs with
  | (fs1, Err err) => (fs1, Err (wrapf ("mkdir " +:+ Dir abs +:+ ": ") err ""))
  | (fs1, Ok _) =>
    match WriteFile abs (Data f) fs1 with
    | (fs2, Err err) => (fs2, Err (wrapf ("write " +:+ rel +:+ ": ") err ""))
    | (fs2, Ok _) => (fs2, Ok (rel :: written, changed ++ [rel])%list)
    end
  end.

Fixpoint unpack_loop (outDir : string) (files : list SkillFile) (written changed : list string) :
    M Filesystem (list string * list string) :=
  match files with
  | [] => retM (written, changed)
  | f :: files' =>
    bindM (unpack_file outDir f written changed)
          (fun wc => unpack_loop outDir files' wc.1 wc.2)
  end.

Definition UnpackTo (outDir : string) (files : list SkillFile) (prune : bool) :
    M Filesystem (list string) :=
  if String.eqb outDir "" then failM (errorf "outDir must not be empty")
  else bindM (unpack_loop outDir files [] []) (fun wc =>
         if prune then bindM (pruneLocal outDir wc.1) (fun pruned => retM (wc.2 ++ pruned)%list)
         else retM wc.2).
End unpack.

(** ** What is written where *)

(** The file at a path of elements. *)
Definition file_at (n : fsnode) (q : list string) : option (res string) :=
  match fs_walk n q with Some (FFile d) => Some d | _ => None end.

Lemma file_at_cons n e q :
  file_at n (e :: q) = match n with
                       | FDir entries => match mget e entries with
                                         | Some c => file_at c q
                                         | None => None
                                         end
                       | _ => None
                       end.
Proof. unfold file_at. cbn [fs_walk]. destruct n; try done. by destruct (mget e entries). Qed.

Lemma file_at_dir entries e c q :
  file_at (FDir (mset e c entries)) q =
  match q with
  | [] => None
  | e' :: q' => if String.eqb e' e then file_at c q'
                else match mget e' entries with Some c' => file_at c' q' | None => None end
  end.
Proof. destruct q as [|e' q]; [done|]. rewrite file_at_cons, mget_mset. by destruct (String.eqb e' e). Qed.

Lemma file_at_empty_dir q : file_at (FDir []) q = None.
Proof. by destruct q. Qed.

(** Creating directories touches no file. *)
Lemma mkdir_all_files es n n' : mkdir_all es n = Some n' -> forall q, file_at n' q = file_at n q.
Proof.
  revert n n'. induction es as [|e es IH]; intros n n' H q.
  { destruct n; simplify_eq/=. done. }
  destruct n as [|entries|]; try done. simpl in H.
  destruct (mkdir_all es (default (FDir []) (mget e entries))) as [c|] eqn:E; simplify_eq/=.
  rewrite file_at_dir. destruct q as [|e' q]; [done|]. rewrite (file_at_cons (FDir entries)).
  destruct (String.eqb_spec e' e) as [->|]; [|done]. rewrite (IH _ _ E).
  destruct (mget e entries); simpl; [done|]. apply file_at_empty_dir.
Qed.

(** Writing a file touches that file. *)
Lemma write_at_files data es n n' :
  write_at data es n = Some n' ->
  forall q, file_at n' q = if decide (q = es) then Some (Ok data) else file_at n q.
Proof.
  revert n n'. induction es as [|e es IH]; intros n n' H q; [done|].
  destruct n as [|entries|]; try (by destruct es). destruct es as [|e2 es].
  - assert (Hn : n' = FDir (mset e (FFile (Ok data)) entries) /\
                 (forall q, q <> [] -> match mget e entries with Some c => file_at c q | None => None end = None)).
    { simpl in H. destruct (mget e entries) as [[d|x|]|]; simplify_eq/=; (split; [done|]);
        by intros [|??]. }
    destruct Hn as [-> Hq]. rewrite file_at_dir. destruct q as [|e' q]; [by rewrite decide_False|].
    rewrite (file_at_cons (FDir entries)). destruct (String.eqb_spec e' e) as [->|Hne].
    + destruct q as [|e3 q]; [by rewrite decide_True|]. rewrite decide_False by done.
      by rewrite Hq.
    + rewrite decide_False by congruence. done.
  - change (write_at data (e :: e2 :: es) (FDir entries))
      with (match mget e entries with
            | Some c => option_map (fun c => FDir (mset e c entries)) (write_at data (e2 :: es) c)
            | None => None
            end) in H.
    destruct (mget e entries) as [c|] eqn:E; [|done].
    destruct (write_at data (e2 :: es) c) as [c'|] eqn:E2; simplify_eq/=.
    rewrite file_at_dir. destruct q as [|e' q]; [by rewrite decide_False|].
    rewrite (file_at_cons (FDir entries)). destruct (String.eqb_spec e' e) as [->|Hne].
    + rewrite E, (IH _ _ E2). destruct (decide (q = e2 :: es)) as [->|Hq].
      * by rewrite decide_True.
      * by rewrite decide_False by congruence.
    + by rewrite decide_False by congruence.
Qed.

(** Removing an entry touches what is below it. *)
Lemma remove_at_files es n n' :
  remove_at es n = Some n' -> forall q, ~ es `prefix_of` q -> file_at n' q = file_at n q.
Proof.
  revert n n'. induction es as [|e es IH]; intros n n' H q Hq; [done|].
  destruct n as [|entries|]; try done. cbn [remove_at] in H.
  destruct (mget e entries) as [c|] eqn:E; [|done].
  destruct q as [|e' q].
  { destruct es; [by injection H as <-|].
    destruct (remove_at (s :: es) c); [by injection H as <-|done]. }
  destruct es as [|e2 es].
  - injection H as <-. rewrite !file_at_cons, mget_mdel.
    destruct (String.eqb_spec e' e) as [->|]; [|done]. destruct Hq. by exists q.
  - destruct (remove_at (e2 :: es) c) as [c'|] eqn:E2; [|done]. injection H as <-.
    rewrite file_at_dir, file_at_cons. destruct (String.eqb_spec e' e) as [->|]; [|done].
    rewrite E. apply (IH _ _ E2). intros Hp. apply Hq. by apply prefix_cons.
Qed.

(** ** Unpacking stays in its directory *)

(** No file outside [base] differs between the two filesystems. *)
Definition same_outside (base : list string) (fs fs' : Filesystem) : Prop :=
  fs_cwd fs' = fs_cwd fs /\
  forall q, ~ base `prefix_of` q -> file_at (fs_root fs') q = file_at (fs_root fs) q.

Lemma same_outside_refl base fs : same_outside base fs fs.
Proof. by split. Qed.

Lemma same_outside_trans base a b c :
  same_outside base a b -> same_outside base b c -> same_outside base a c.
Proof. intros [H1 H2] [H3 H4]. split; [congruence|]. intros q Hq. rewrite H4, H2; done. Qed.

Lemma abs_elems_cwd fs fs' path : fs_cwd fs' = fs_cwd fs -> abs_elems fs' path = abs_elems fs path.
Proof. unfold abs_elems. by intros ->. Qed.

Lemma MkdirAll_outside base path fs : same_outside base fs (MkdirAll path fs).1.
Proof.
  unfold MkdirAll. destruct (mkdir_all _ _) as [n|] eqn:E; [|apply same_outside_refl].
  split; [done|]. intros q _. simpl. by eapply mkdir_all_files.
Qed.

Lemma WriteFile_outside base path data fs :
  base `prefix_of` abs_elems fs path -> same_outside base fs (WriteFile path data fs).1.
Proof.
  intros Hp. unfold WriteFile. destruct (write_at _ _ _) as [n|] eqn:E; [|apply same_outside_refl].
  split; [done|]. intros q Hq. simpl. rewrite (write_at_files _ _ _ _ E).
  rewrite decide_False; [done|]. by intros ->.
Qed.

Lemma Remove_outside base path fs :
  base `prefix_of` abs_elems fs path -> same_outside base fs (Remove path fs).1.
Proof.
  intros Hp. unfold Remove. destruct (remove_at _ _) as [n|] eqn:E; [|apply same_outside_refl].
  split; [done|]. intros q Hq. simpl. eapply remove_at_files; [done|].
  intros Hpq. apply Hq. by etrans.
Qed.

Lemma unpack_file_outside {U : Unicode} outDir f written changed fs :
  outDir <> "" -> same_outside (abs_elems fs outDir) fs (unpack_file outDir f written changed fs).1.
Proof.
  intros Ho. unfold unpack_file.
  destruct (IsAbs (Path f) || Contains (Path f) "..") eqn:E1; [apply same_outside_refl|].
  destruct (isSkippedFile (Base (Path f)) || isSkippedDir (hd "" (Split (Path f) "/"))) eqn:E2;
    [apply same_outside_refl|].
  destruct (MaxFileSize <? Z.of_nat (String.length (Data f)))%Z; [apply same_outside_refl|].
  destruct (negb _ && negb _); [apply same_outside_refl|].
  destruct (negb _); [apply same_outside_refl|].
  assert (Hr : Path f <> "").
  { intros Hr. rewrite Hr in E2. done. }
  apply orb_false_iff in E1 as [_ Hdd]. apply no_dotdot_elems in Hdd.
  pose proof (MkdirAll_outside (abs_elems fs outDir) (Dir (JoinPath [outDir; Path f])) fs) as H1.
  destruct (MkdirAll (Dir (JoinPath [outDir; Path f])) fs) as [fs1 [[]|e]]; [|done].
  cbn [fst] in H1.
  assert (Hp : abs_elems fs outDir `prefix_of` abs_elems fs1 (JoinPath [outDir; Path f])).
  { rewrite (abs_elems_cwd fs fs1) by apply H1. rewrite abs_elems_JoinPath by done.
    by eexists. }
  pose proof (WriteFile_outside _ _ (Data f) _ Hp) as H2.
  destruct (WriteFile (JoinPath [outDir; Path f]) (Data f) fs1) as [fs2 [[]|e]];
    by eapply same_outside_trans.
Qed.

Lemma unpack_loop_outside {U : Unicode} outDir files written changed fs :
  outDir <> "" ->
  same_outside (abs_elems fs outDir) fs (unpack_loop outDir files written changed fs).1.
Proof.
  intros Ho. revert written changed fs. induction files as [|f files IH]; intros wr ch fs; simpl.
  { apply same_outside_refl. }
  unfold bindM. pose proof (unpack_file_outside outDir f wr ch fs Ho) as H1.
  destruct (unpack_file outDir f wr ch fs) as [fs1 [wc|e]]; [|done].
  eapply same_outside_trans; [done|]. rewrite <- (abs_elems_cwd fs fs1) by apply H1. apply IH.
Qed.

(** ** Pruning stays in its directory *)

Section fsnode_induction.
Variable P : fsnode -> Prop.
Hypothesis Pfile : forall d, P (FFile d).
Hypothesis Pdir : forall es, Forall (fun e => P e.2) es -> P (FDir es).
Hypothesis Pother : P FOther.

Fixpoint fsnode_ind' (n : fsnode) : P n :=
  match n with
  | FFile d => Pfile d
  | FDir es => Pdir es
      ((fix go (es : list (string * fsnode)) : Forall (fun e => P e.2) es :=
          match es with
          | [] => Forall_nil_2 _
          | e :: es' => Forall_cons_2 _ _ _ (fsnode_ind' e.2) (go es')
          end) es)
  | FOther => Pother
  end.
End fsnode_induction.

(** Names as a filesystem has them. *)
Definition good_name (e : string) : bool :=
  negb (trivial_elem e) && negb (String.eqb e "..") && no_slash e.

Fixpoint wf_node (n : fsnode) : bool :=
  match n with
  | FDir es => forallb (fun e => good_name e.1 && wf_node e.2) es
  | _ => true
  end.

Lemma Clean_nonempty path : Clean path <> "".
Proof.
  unfold Clean. destruct (HasPrefix path "/"); [done|].
  destruct (String.eqb_spec (Join (clean_elems path) "/") ""); done.
Qed.

Lemma JoinPath_nonempty dir rel : dir <> "" -> JoinPath [dir; rel] <> "".
Proof.
  intros Hd. unfold JoinPath. cbn [List.filter]. destruct (String.eqb_spec dir ""); [done|].
  cbn [negb]. destruct (negb (String.eqb rel "")); apply Clean_nonempty.
Qed.

Lemma abs_elems_child fs path e :
  path <> "" -> good_name e = true -> abs_elems fs (JoinPath [path; e]) = (abs_elems fs path ++ [e])%list.
Proof.
  unfold good_name. intros Hp He. split_and_true.
  assert (Hs : Split e "/" = [e]) by (by apply split_no_slash).
  rewrite abs_elems_JoinPath; [|done| |].
  - rewrite Hs. unfold names. simpl. by rewrite H.
  - intros ->. done.
  - rewrite Hs. by repeat constructor.
Qed.

Lemma elem_of_concat {A} (x : A) ls : x ∈ concat ls <-> exists l, l ∈ ls /\ x ∈ l.
Proof.
  rewrite list_elem_of_In, in_concat. setoid_rewrite list_elem_of_In. naive_solver.
Qed.

Lemma walk_files_below fs n path p :
  path <> "" -> wf_node n = true -> p ∈ walk_files path n -> abs_elems fs path `prefix_of` abs_elems fs p.
Proof.
  revert path p. induction n as [d|es IH|] using fsnode_ind'; intros path p Hp Hw; simpl.
  - intros ->%list_elem_of_singleton. done.
  - intros Hin. apply elem_of_concat in Hin as (l & Hl & Hin).
    apply list_elem_of_fmap in Hl as ([e l'] & -> & Hl). rewrite sort_by_perm in Hl.
    apply list_elem_of_fmap in Hl as ([e' c] & [= -> ->] & Hc).
    simpl in Hw. apply forallb_Forall in Hw. rewrite Forall_forall in Hw, IH.
    specialize (Hw _ Hc). simpl in Hw. split_and_true. simpl in Hin.
    specialize (IH _ Hc (JoinPath [path; e']) p (JoinPath_nonempty _ _ Hp) H0 Hin).
    rewrite abs_elems_child in IH by done. etrans; [|done]. by eexists.
  - intros ->%list_elem_of_singleton. done.
Qed.

Lemma prune_files_outside outDir keep base paths fs :
  Forall (fun p => forall fs', fs_cwd fs' = fs_cwd fs -> base `prefix_of` abs_elems fs' p) paths ->
  same_outside base fs (foldl (prune_file outDir keep) (retM []) paths fs).1.
Proof.
  induction paths as [|p paths IH] using rev_ind; intros Hf; [apply same_outside_refl|].
  apply Forall_app in Hf as [Hf Hp]. apply Forall_cons in Hp as [Hp _].
  rewrite foldl_app. cbn [foldl]. unfold prune_file at 1, bindM. specialize (IH Hf).
  destruct (foldl (prune_file outDir keep) (retM []) paths fs) as [fs1 [del|e]]; [|done].
  cbn [fst] in IH. destruct (Rel outDir p) as [rel|e]; [|done].
  destruct (existsb (String.eqb rel) keep); [done|].
  assert (Hr : same_outside base fs (Remove p fs1).1).
  { eapply same_outside_trans; [done|]. apply Remove_outside, Hp. apply IH. }
  destruct (Remove p fs1) as [fs2 [[]|e]]; [done|]. by case_match.
Qed.

Lemma fs_walk_wf n q c : wf_node n = true -> fs_walk n q = Some c -> wf_node c = true.
Proof.
  revert n. induction q as [|e q IH]; intros n Hw; simpl; [by intros [= <-]|].
  destruct n as [|es|]; try done. destruct (mget e es) as [c'|] eqn:E; [|done].
  apply IH. simpl in Hw. apply forallb_Forall in Hw. rewrite Forall_forall in Hw.
  apply mget_Some_in in E. specialize (Hw _ E). simpl in Hw. by split_and_true.
Qed.

Lemma pruneLocal_outside outDir keep fs :
  outDir <> "" -> wf_node (fs_root fs) = true ->
  same_outside (abs_elems fs outDir) fs (pruneLocal outDir keep fs).1.
Proof.
  intros Ho Hw. unfold pruneLocal. destruct (fs_lookup fs outDir) as [n|] eqn:E;
    [|apply same_outside_refl].
  apply prune_files_outside. apply Forall_forall. intros p Hp fs' Hc.
  rewrite (abs_elems_cwd fs fs') by done. eapply walk_files_below; [done| |done].
  unfold fs_lookup in E. case_match; [done|]. by eapply fs_walk_wf.
Qed.

(** Every file name written is a path element. *)
Lemma mset_forallb {A} (f : string * A -> bool) k v m :
  f (k, v) = true -> forallb f m = true -> forallb f (mset k v m) = true.
Proof.
  intros Hv. induction m as [|[k' v'] m IH]; simpl; [by rewrite Hv|]. intros H. split_and_true.
  case_match; simpl; [by rewrite Hv|]. by rewrite H, IH.
Qed.

Definition good_elems (l : list string) : Prop := Forall (fun e => good_name e = true) l.

Lemma mkdir_all_wf es n n' :
  good_elems es -> wf_node n = true -> mkdir_all es n = Some n' -> wf_node n' = true.
Proof.
  intros He. revert n n'. induction He as [|e es He Hes IH]; intros n n' Hw H.
  { destruct n; by simplify_eq/=. }
  destruct n as [|entries|]; try done. simpl in H.
  destruct (mkdir_all es (default (FDir []) (mget e entries))) as [c|] eqn:E; simplify_eq/=.
  apply mset_forallb; [|done]. simpl. rewrite He. simpl. apply (IH _ _) in E; [done|].
  destruct (mget e entries) as [c0|] eqn:E0; [|done]. simpl.
  apply forallb_Forall in Hw. rewrite Forall_forall in Hw. apply mget_Some_in in E0.
  specialize (Hw _ E0). simpl in Hw. by split_and_true.
Qed.

Lemma write_at_wf data es n n' :
  good_elems es -> wf_node n = true -> write_at data es n = Some n' -> wf_node n' = true.
Proof.
  intros He. revert n n'. induction He as [|e es He Hes IH]; intros n n' Hw H; [done|].
  destruct n as [|entries|]; try (by destruct es). destruct es as [|e2 es].
  - simpl in H. destruct (mget e entries) as [[d|x|]|]; simplify_eq; apply mset_forallb;
      simpl; by rewrite ?He.
  - change (write_at data (e :: e2 :: es) (FDir entries))
      with (match mget e entries with
            | Some c => option_map (fun c => FDir (mset e c entries)) (write_at data (e2 :: es) c)
            | None => None
            end) in H.
    destruct (mget e entries) as [c0|] eqn:E0; [|done].
    destruct (write_at data (e2 :: es) c0) as [c'|] eqn:E2; [|done]. injection H as <-.
    apply mset_forallb; [|done]. simpl. rewrite He. simpl. apply (IH c0); [|done].
    simpl in Hw. apply forallb_Forall in Hw. rewrite Forall_forall in Hw. apply mget_Some_in in E0.
    specialize (Hw _ E0). simpl in Hw. by split_and_true.
Qed.

Lemma rooted_good k l :
  good_elems k -> Forall (fun e => no_slash e = true) l -> good_elems (foldl (clean_step true) k l).
Proof.
  intros Hk Hl. revert k Hk. induction Hl as [|e l He Hl IH]; intros k Hk; [done|].
  simpl. apply IH. unfold clean_step. destruct (String.eqb e "" || String.eqb e ".") eqn:Et; [done|].
  destruct (String.eqb e "..") eqn:Ed.
  - destruct k as [|q k]; [done|]. apply Forall_cons in Hk as [Hq Hk].
    destruct (String.eqb q "..") eqn:Eq; [|done]. unfold good_name in Hq. rewrite Eq in Hq.
    by rewrite andb_false_r in Hq.
  - constructor; [|done]. unfold good_name, trivial_elem. by rewrite Et, Ed, He.
Qed.

Lemma abs_elems_good fs path : good_elems (abs_elems fs path).
Proof.
  rewrite abs_elems_fold. apply Forall_reverse, rooted_good; [|apply split_elems_no_slash].
  unfold start. case_match; [constructor|]. unfold cwd_state.
  apply rooted_good; [constructor|apply split_elems_no_slash].
Qed.

Lemma unpack_file_wf {U : Unicode} outDir f wr ch fs :
  wf_node (fs_root fs) = true -> wf_node (fs_root (unpack_file outDir f wr ch fs).1) = true.
Proof.
  intros Hw. unfold unpack_file. repeat (case_match; [done|]).
  unfold MkdirAll. destruct (mkdir_all _ _) as [n|] eqn:E; [|done].
  apply mkdir_all_wf in E; [|apply abs_elems_good|done].
  unfold WriteFile. cbn [fs_root fs_with]. destruct (write_at _ _ n) as [n2|] eqn:E2; [|done].
  apply write_at_wf in E2; [done|apply abs_elems_good|done].
Qed.

Lemma unpack_loop_wf {U : Unicode} outDir files wr ch fs :
  wf_node (fs_root fs) = true -> wf_node (fs_root (unpack_loop outDir files wr ch fs).1) = true.
Proof.
  revert wr ch fs. induction files as [|f files IH]; intros wr ch fs Hw; [done|]. simpl.
  unfold bindM. pose proof (unpack_file_wf outDir f wr ch fs Hw) as H1.
  destruct (unpack_file outDir f wr ch fs) as [fs1 [wc|e]]; [|done]. by apply IH.
Qed.

(** ** Packing *)

Lemma pack_entries_read fs dir files es :
  pack_entries fs dir files = Ok es ->
  Forall2 (fun rel e => e.1 = rel /\ ReadFile fs (JoinPath [dir; rel]) = Ok e.2 /\
             (Z.of_nat (String.length e.2) <= MaxFileSize)%Z) files es.
Proof.
  revert es. induction files as [|rel files IH]; intros es; simpl.
  { intros [= <-]. constructor. }
  destruct (ReadFile fs (JoinPath [dir; rel])) as [data|e] eqn:E; [|done].
  destruct (MaxFileSize <? Z.of_nat (String.length data))%Z eqn:Es; [done|].
  destruct (pack_entries fs dir files) as [es'|e]; [|done]. intros [= <-].
  constructor; [|by apply IH]. split; [done|]. split; [done|]. simpl. lia.
Qed.

(** ** Properties *)


Definition unpack_fs : Filesystem :=
  mkFs (FDir [("etc", FDir [("passwd", FFile (Ok "root"))]);
              ("work", FDir [("skill", FDir [("old.md", FFile (Ok "old"))])])]) ["work"].


(** Every file of a packed skill is a readable file of the directory within the
    size limit, stored under its relative path, in sorted order; the content hash
    is the hash of the archive bytes. *)
Theorem pack_dir_entries zip fs dir r :
  PackDir zip fs dir = Ok r ->
  exists files entries,
    collectFiles fs dir = Ok files /\
    ZIP r = zip entries /\ ContentHash r = hex_encode (Sum256 (ZIP r)) /\
    Permutation (map fst entries) files /\ StronglySorted str_le (map fst entries) /\
    Forall (fun e => ReadFile fs (JoinPath [dir; e.1]) = Ok e.2 /\
                     (Z.of_nat (String.length e.2) <= MaxFileSize)%Z) entries.
Proof.
  unfold PackDir. destruct (ReadFile fs (JoinPath [dir; SkillFilename])) as [md|e]; [|done].
  destruct (collectFiles fs dir) as [files|e]; [|done].
  destruct (pack_entries fs dir (sortStrings files)) as [entries|e] eqn:E; [|done].
  intros [= <-]. exists files, entries. apply pack_entries_read in E.
  assert (Hm : map fst entries = sortStrings files).
  { clear -E. induction E as [|rel e fl es [He _] E IH]; simpl; [done|]. by rewrite He, IH. }
  repeat split; try done.
  - rewrite Hm. apply sort_by_perm.
  - rewrite Hm. apply (sort_by_sorted (fun s => s)).
  - clear -E. induction E as [|rel e fl es (He & Hr & Hs) E IH]; constructor; [|done].
    by rewrite He.
Qed.

Lemma pack_dir_entries_witness :
  exists files (entries : list (string * string)),
    collectFiles (mkFs (FDir [("s", FDir [("b.txt", FFile (Ok "B")); ("SKILL.md", FFile (Ok "A"));
                                          (".git", FDir [("x", FFile (Ok "X"))])])]) []) "/s" = Ok files /\
    Permutation (map fst entries) files /\ StronglySorted str_le (map fst entries).
Proof.
  destruct (PackDir (fun es => Join (map (fun e => e.1 +:+ e.2) es) ";")
              (mkFs (FDir [("s", FDir [("b.txt", FFile (Ok "B")); ("SKILL.md", FFile (Ok "A"));
                                       (".git", FDir [("x", FFile (Ok "X"))])])]) []) "/s") as [r|e] eqn:E.
  - destruct (pack_dir_entries _ _ _ _ E) as (files & entries & H1 & _ & _ & H2 & H3 & _). eauto.
  - exfalso. vm_compute in E. discriminate E.
Defined.
