(* ===== verification/Validate.v ===== *)
(** * Manifest validation

    [internal/manifest/validate.go] and [validate_refs.go].  The versions of
    [requires.cli] are checked by [golang.org/x/mod/semver], a parameter
    ([Semver]); [skillpkg.PackDir] reads the filesystem [fs]. *)
From Stdlib Require Import ZArith Lia Bool Ascii.
From Stdlib Require String.
From S2P Require Import Prelude GoStr GoValue Filepath Manifest Regexp SkillPkg.

Local Open Scope string_scope.

(** The functions of package semver the validators call. *)
Record Semver := mkSemver {
  IsValid : string -> bool;
  SemverCompare : string -> string -> Z
}.

(** ** Names and kinds *)

Definition char_in (lo hi : Z) (c : ascii) : bool := between lo (byteZ c) hi.

(** [[a-z0-9]] and [[a-z0-9-]]. *)
Definition lower_digit (c : ascii) : bool := char_in 97 122 c || char_in 48 57 c.
Definition lower_digit_hyphen (c : ascii) : bool := lower_digit c || Ascii.eqb c "-".

Definition keyRe : re :=
  RCat (RCls lower_digit) (ROpt (RCat (RStar (RCls lower_digit_hyphen)) (RCls lower_digit))).

(** [[a-zA-Z0-9._-]]. *)
Definition sys_key_char (c : ascii) : bool :=
  lower_digit c || char_in 65 90 c || Ascii.eqb c "." || Ascii.eqb c "_" || Ascii.eqb c "-".

Definition sysConfigKeyRe : re := RUpTo 100 (RCls sys_key_char).

Definition validKinds : list (ResourceKind * bool) :=
  [ (KindTenant, true); (KindProvider, true); (KindAgent, true); (KindChannel, true);
    (KindCronJob, true); (KindMCPServer, true); (KindSkill, true); (KindAgentTeam, true);
    (KindBuiltinToolConfig, true); (KindSkillConfig, true); (KindSystemConfig, true);
    (KindMCPCredentials, true); (KindSecureCLI, true); (KindSecureCLIGrant, true);
    (KindAgentLink, true); (KindWorkstation, true) ].

Definition validKind (k : ResourceKind) : bool := default false (mget k validKinds).

(** ** Specs *)

Definition skillVisibilityValues : list string := ["private"; "internal"; "public"; "tenant"].
Definition skillStatusValues : list string := ["active"; "archived"; "deleted"; "draft"].

Definition mem_str (s : string) (l : list string) : bool := existsb (String.eqb s) l.

Definition normalizeSemver (s : string) : string :=
  let s := TrimSpace s in
  match s with
  | EmptyString => s
  | String c _ => if Ascii.eqb c "v" || Ascii.eqb c "V" then s else "v" +:+ s
  end.

(** [specStr]. *)
Definition specStr (spec : gomap) (key : string) : string := getStr key spec.

(** [specStrSlice]. *)
Definition specStrSlice (spec : gomap) (key : string) : list string :=
  match getAs asSlice key spec with
  | Some arr => omap asStr arr
  | None => []
  end.

Section validate.
Context {U : Unicode} (sv : Semver).

Definition unsupported_shape (s : string) : error :=
  errorf ("unsupported constraint shape " +:+ Quote s +:+ "; only >=X.Y supported in this release").

Definition validateCliConstraintShape (s : string) : option error :=
  let s := TrimSpace s in
  if String.eqb s "" then Some (errorf "constraint must not be empty")
  else if ContainsAny s "^~" then Some (unsupported_shape s)
  else if ContainsAny s "," then Some (unsupported_shape s)
  else if negb (HasPrefix s ">=") then Some (unsupported_shape s)
  else
    let rest := TrimSpace (TrimPrefix s ">=") in
    if String.eqb rest "" then Some (errorf ("missing version after >= in " +:+ Quote s))
    else if negb (IsValid sv (normalizeSemver rest)) then
      Some (errorf ("invalid semver " +:+ Quote rest +:+ " after >="))
    else None.

(** The loop over [spec.tags]: the index, the tags seen. *)
Fixpoint validate_tags (prefix : string) (i : nat) (seen : list string) (tags : list gval) : list error :=
  match tags with
  | [] => []
  | t :: rest =>
    match asStr t with
    | None => errorf (prefix +:+ ": spec.tags[" +:+ Itoa (Z.of_nat i) +:+ "] must be a string")
              :: validate_tags prefix (S i) seen rest
    | Some s =>
      (if mem_str s seen then [errorf (prefix +:+ ": spec.tags duplicate " +:+ Quote s)] else [])
      ++ validate_tags prefix (S i) (s :: seen) rest
    end
  end%list.

(** The loop over [spec.requires.cli]. *)
Definition validate_cli (prefix : string) (kv : string * gval) : list error :=
  let '(binary, raw) := kv in
  match asStr raw with
  | None => [errorf (prefix +:+ ": spec.requires.cli." +:+ binary +:+ " must be a string")]
  | Some constraint =>
    match validateCliConstraintShape constraint with
    | Some err => [wrapf (prefix +:+ ": spec.requires.cli." +:+ binary +:+ ": ") err ""]
    | None => []
    end
  end.

(** [spec["requires"]["cli"]], each a [map[string]any]. *)
Definition requires_cli (spec : gomap) : option gomap :=
  match getAs asMap "requires" spec with
  | Some reqs => getAs asMap "cli" reqs
  | None => None
  end.

Variable zip : list (string * string) -> string.
Variable fs : Filesystem.

Definition check_enum (prefix field : string) (values : list string) (spec : gomap) : list error :=
  match getAs asStr field spec with
  | Some v =>
    if negb (String.eqb v "") && negb (mem_str v values) then
      [errorf (prefix +:+ ": spec." +:+ field +:+ " " +:+ Quote v +:+ " must be one of ["
               +:+ Join values " " +:+ "]")]
    else []
  | None => []
  end.

Definition validateSkillSpec (prefix : string) (spec : option gomap) : list error :=
  match spec with
  | None => []
  | Some spec =>
    check_enum prefix "visibility" skillVisibilityValues spec
    ++ check_enum prefix "status" skillStatusValues spec
    ++ (match mget "tags" spec with
        | None | Some VNil => []
        | Some (VSlice list) => validate_tags prefix 0 [] list
        | Some _ => [errorf (prefix +:+ ": spec.tags must be a list of strings")]
        end)
    ++ (match getAs asStr "sourceDir" spec with
        | Some src =>
          if String.eqb src "" then []
          else match PackDir zip fs src with
               | Err err => [wrapf (prefix +:+ ": spec.sourceDir " +:+ Quote src +:+ ": ") err ""]
               | Ok _ => []
               end
        | None => []
        end)
    ++ (match requires_cli spec with
        | Some cli => concat (map (validate_cli prefix) cli)
        | None => []
        end)
  end%list.

(** ** References *)

Definition splitAgentLinkName (name : string) : res (string * string) :=
  let bad := Err (errorf ("invalid AgentLink name " +:+ Quote name
                          +:+ ": expected format sourceAgent--targetAgent")) in
  match Split name "--" with
  | [a; b] => if String.eqb a "" || String.eqb b "" then bad else Ok (a, b)
  | _ => bad
  end.

(** [index[kind][name]]. *)
Definition declared (m : Manifest) (kind : ResourceKind) (name : string) : bool :=
  existsb (fun r => String.eqb (Kind r) kind && String.eqb (Name r) name) (Resources m).

(** [if ref != "" && !index[kind][ref] { errs = append(...) }]. *)
Definition check_ref (m : Manifest) (prefix what : string) (kind : ResourceKind) (ref : string) : list error :=
  if String.eqb ref "" then []
  else if declared m kind ref then []
  else [errorf (prefix +:+ ": " +:+ what +:+ " " +:+ kind +:+ " " +:+ Quote ref +:+ " which is not declared")].

(** The same without the emptiness guard. *)
Definition check_decl (m : Manifest) (prefix what : string) (kind : ResourceKind) (ref : string) : list error :=
  if declared m kind ref then []
  else [errorf (prefix +:+ ": " +:+ what +:+ " " +:+ kind +:+ " " +:+ Quote ref +:+ " which is not declared")].

Definition validate_ref (m : Manifest) (i : nat) (r : Resource) : list error :=
  let prefix := "resources[" +:+ Itoa (Z.of_nat i) +:+ "] " +:+ Kind r +:+ "/" +:+ Name r in
  let spec := specMap r in
  let agentKey := check_ref m prefix "references" KindAgent (specStr spec "agentKey") in
  if String.eqb (Kind r) KindAgent then
    check_ref m prefix "references" KindProvider (specStr spec "provider")
  else if String.eqb (Kind r) KindChannel then agentKey
  else if String.eqb (Kind r) KindCronJob then agentKey
  else if String.eqb (Kind r) KindMCPServer then
    match getAs asMap "grants" spec with
    | Some grants =>
      concat (map (check_decl m prefix "grants references" KindAgent) (specStrSlice grants "agents"))
    | None => []
    end
  else if String.eqb (Kind r) KindSecureCLIGrant then
    agentKey ++ check_ref m prefix "references" KindSecureCLI (specStr spec "binaryName")
  else if String.eqb (Kind r) KindAgentTeam then
    check_ref m prefix "lead references" KindAgent (specStr spec "lead")
    ++ concat (map (check_decl m prefix "member references" KindAgent) (specStrSlice spec "members"))
  else if String.eqb (Kind r) KindAgentLink then
    match splitAgentLinkName (Name r) with
    | Err parseErr => [errorf (prefix +:+ ": " +:+ Error parseErr)]
    | Ok (nameSrc, nameTgt) =>
      let specSrc := specStr spec "sourceAgent" in
      let specTgt := specStr spec "targetAgent" in
      (if negb (String.eqb specSrc "") && negb (String.eqb specSrc nameSrc) then
         [errorf (prefix +:+ ": spec.sourceAgent " +:+ Quote specSrc +:+ " must match name prefix "
                  +:+ Quote nameSrc)] else [])
      ++ (if negb (String.eqb specTgt "") && negb (String.eqb specTgt nameTgt) then
         [errorf (prefix +:+ ": spec.targetAgent " +:+ Quote specTgt +:+ " must match name suffix "
                  +:+ Quote nameTgt)] else [])
      ++ check_decl m prefix "sourceAgent references" KindAgent nameSrc
      ++ check_decl m prefix "targetAgent references" KindAgent nameTgt
    end
  else []%list.

Definition validateReferences (m : Manifest) : list error :=
  concat (imap (validate_ref m) (Resources m)).

(** ** Validate *)

Definition uid (r : Resource) : string := Kind r +:+ "/" +:+ Name r.

Definition validate_name (prefix : string) (r : Resource) : list error :=
  if String.eqb (Name r) "" then [errorf (prefix +:+ ": name is required")]
  else if String.eqb (Kind r) KindSystemConfig then
    if negb (MatchString sysConfigKeyRe (Name r)) then
      [errorf (prefix +:+ ": name " +:+ Quote (Name r) +:+ " must match [a-zA-Z0-9._-]{1,100}")]
    else []
  else if negb (MatchString keyRe (Name r)) then
    [errorf (prefix +:+ ": name " +:+ Quote (Name r) +:+ " must be kebab-case (a-z0-9, hyphens)")]
  else [].

Fixpoint validate_resources (i : nat) (seen : list string) (rs : list Resource) : list error :=
  match rs with
  | [] => []
  | r :: rest =>
    let prefix := "resources[" +:+ Itoa (Z.of_nat i) +:+ "]" in
    (if validKind (Kind r) then [] else [errorf (prefix +:+ ": unknown kind " +:+ Quote (Kind r))])
    ++ validate_name prefix r
    ++ (if mem_str (uid r) seen then [errorf (prefix +:+ ": duplicate resource " +:+ uid r)] else [])
    ++ (match Spec r with
        | None => [errorf (prefix +:+ ": spec is required for " +:+ uid r)]
        | Some _ => []
        end)
    ++ (if String.eqb (Kind r) KindSkill then validateSkillSpec prefix (Spec r) else [])
    ++ validate_resources (S i) (uid r :: seen) rest
  end%list.

Definition Validate (m : Manifest) : list error :=
  ((if String.eqb (APIVersion m) "gcplane.io/v1" then []
    else [errorf ("unsupported apiVersion " +:+ Quote (APIVersion m) +:+ ", expected gcplane.io/v1")])
   ++ (if String.eqb (ManifestKind m) "Manifest" then []
       else [errorf ("unsupported kind " +:+ Quote (ManifestKind m) +:+ ", expected Manifest")])
   ++ validate_resources 0 [] (Resources m)
   ++ validateReferences m)%list.

(** ** CrossCheckRequiresCli *)

(** The loop over the constraints: the warnings so far and the first error. *)
Fixpoint cross_check (installed : strmap) (warnings : list string) (cli : gomap) :
    list string * option error :=
  match cli with
  | [] => (warnings, None)
  | (binary, raw) :: rest =>
    match asStr raw with
    | None => (warnings, Some (errorf ("requires.cli." +:+ binary +:+ " must be a string")))
    | Some constraint =>
      match validateCliConstraintShape constraint with
      | Some err => (warnings, Some (wrapf ("requires.cli." +:+ binary +:+ ": ") err ""))
      | None =>
        let want := normalizeSemver (TrimSpace (TrimPrefix (TrimSpace constraint) ">=")) in
        match mget binary installed with
        | None => cross_check installed
                    (warnings ++ ["requires.cli." +:+ binary +:+
                       ": binary not registered on server — skipping version check"])%list rest
        | Some got =>
          if (SemverCompare sv (normalizeSemver got) want <? 0)%Z then
            (warnings, Some (errorf ("requires.cli." +:+ binary +:+ ": installed " +:+ got
                                     +:+ " does not satisfy " +:+ constraint)))
          else cross_check installed warnings rest
        end
      end
    end
  end.

Definition CrossCheckRequiresCli (spec : option gomap) (installed : strmap) :
    list string * option error :=
  match spec with
  | None => ([], None)
  | Some spec => match requires_cli spec with
                 | None => ([], None)
                 | Some cli => cross_check installed [] cli
                 end
  end.
End validate.
