(* ===== verification/Loader.v ===== *)
(** * Loading manifests

    [internal/manifest/loader.go] (files and directories), [composite.go] (composite
    definitions and their instances) and [skill_loader.go] (skills and overrides found
    on disk), and [internal/source/file_source.go], which adds the content hash.  The
    YAML package and the template engine are parameters ([Yaml], [Template]); the file
    tree is explicit.  The slice expression that can panic is an [outcome]. *)
From Stdlib Require Import ZArith Lia Bool Ascii.
From Stdlib Require String.
From S2P Require Import Prelude GoStr GoValue Filepath Manifest Validate Sha256.

Local Open Scope string_scope.

(** ** Outcomes *)

(** A call returns, with a result or an error, or panics. *)
Inductive outcome (A : Type) := Returned (r : res A) | Panicked.
Arguments Returned {A} r.
Arguments Panicked {A}.

Definition bindO {A B} (m : outcome A) (k : A -> outcome B) : outcome B :=
  match m with
  | Returned (Ok a) => k a
  | Returned (Err e) => Returned (Err e)
  | Panicked => Panicked
  end.

Definition wrapO {A} (pre : string) (m : outcome A) : outcome A :=
  match m with Returned r => Returned (res_wrap pre r) | Panicked => Panicked end.

Notation "'let*' x ':=' m 'in' k" := (bindO m (fun x => k))
  (at level 10, x pattern, m at level 100, k at level 200) : go_scope.
Local Open Scope go_scope.

(** ** What the loader uses of yaml.v3 and text/template *)

(** [SKILL.md] front matter, [frontmatter.yaml] and [skill-overrides.yaml]; the
    overrides in the order the loop visits them. *)
Record skillFrontmatter := mkFrontmatter { fm_Name : string; fm_Description : string }.

Record skillOverlay := mkOverlay {
  ov_Tags : list string;
  ov_Status : string;
  ov_Grants : option (list string)
}.

Definition skillOverridesDoc : Type := list (string * bool).

(** [yaml.Unmarshal] into each type the loader decodes, and [yaml.Marshal]. *)
Record Yaml := mkYaml {
  y_manifest : string -> res Manifest;
  y_map : string -> res (option gomap);
  y_frontmatter : string -> res skillFrontmatter;
  y_overlay : string -> res skillOverlay;
  y_overrides : string -> res skillOverridesDoc;
  y_marshal : option gomap -> res string
}.

(** [renderTemplate]: the text, executed with a context. *)
Definition Template : Type := string -> gomap -> res string.

Section loader.
Context {U : Unicode} (yaml : Yaml) (renderTemplate : Template) (semver : Semver).

(** ** composite.go *)

Record compositeDefinition := mkDefinition { def_name : string; def_templates : list Resource }.

Definition compositeRegistry : Type := list (string * compositeDefinition).

(** One element of [spec.resources]. *)
Definition parse_template (defName : string) (i : nat) (raw : gval) : res Resource :=
  match asMap raw with
  | None => Err (errorf ("CompositeDefinition " +:+ defName +:+ ": resources["
                         +:+ Itoa (Z.of_nat i) +:+ "] must be a map"))
  | Some resMap =>
    Ok (mkResource (getStr "kind" resMap) (getStr "name" resMap) [] [] (getAs asMap "spec" resMap))
  end.

Fixpoint parse_templates (defName : string) (i : nat) (raws : list gval) : res (list Resource) :=
  match raws with
  | [] => Ok []
  | raw :: raws' =>
    let? t := parse_template defName i raw in
    let? ts := parse_templates defName (S i) raws' in
    Ok (t :: ts)
  end.

Definition parseDefinition (r : Resource) : res compositeDefinition :=
  match getAs asSlice "resources" (specMap r) with
  | None => Err (errorf ("CompositeDefinition " +:+ Name r +:+ ": spec.resources must be an array"))
  | Some raws => let? ts := parse_templates (Name r) 0 raws in Ok (mkDefinition (Name r) ts)
  end.

Definition is_definition (r : Resource) : bool := String.eqb (Kind r) "CompositeDefinition".

(** The loop of [extractDefinitions]. *)
Fixpoint extract (registry : compositeRegistry) (remaining resources : list Resource) :
    res (compositeRegistry * list Resource) :=
  match resources with
  | [] => Ok (registry, remaining)
  | r :: rs =>
    if is_definition r then
      let? def := parseDefinition r in
      extract (mset (Name r) def registry) remaining rs
    else extract registry (remaining ++ [r])%list rs
  end.

Definition extractDefinitions (resources : list Resource) : res (compositeRegistry * list Resource) :=
  extract [] [] resources.

(** The instance's name, which an entry [name] of the spec hides. *)
Definition buildContext (r : Resource) : gomap :=
  foldl (fun ctx kv => mset kv.1 kv.2 ctx) [("name", VStr (Name r))] (specMap r).

Definition expandResource (tmpl : Resource) (ctx : gomap) : res Resource :=
  let? name := res_wrap "expand name: " (renderTemplate (Name tmpl) ctx) in
  let? specYAML := res_wrap "marshal spec: " (y_marshal yaml (Spec tmpl)) in
  let? expandedYAML := res_wrap "expand spec: " (renderTemplate specYAML ctx) in
  let? spec := res_wrap "unmarshal expanded spec: " (y_map yaml expandedYAML) in
  Ok (mkResource (Kind tmpl) name [] [] spec).

(** The resources of one instance. *)
Fixpoint expand_templates (def : compositeDefinition) (r : Resource) (ctx : gomap)
    (tmpls : list Resource) : res (list Resource) :=
  match tmpls with
  | [] => Ok []
  | tmpl :: tmpls' =>
    let? r' := res_wrap ("expand " +:+ def_name def +:+ "/" +:+ Name r +:+ ": ")
                 (expandResource tmpl ctx) in
    let r' := match Labels r with
              | [] => r'
              | ls => mkResource (Kind r') (Name r') ls (Annotations r') (Spec r')
              end in
    let? rest := expand_templates def r ctx tmpls' in
    Ok (r' :: rest)
  end.

Fixpoint expand_all (registry : compositeRegistry) (expanded resources : list Resource) :
    res (list Resource) :=
  match resources with
  | [] => Ok expanded
  | r :: rs =>
    match mget (Kind r) registry with
    | None => expand_all registry (expanded ++ [r])%list rs
    | Some def =>
      let? new := expand_templates def r (buildContext r) (def_templates def) in
      expand_all registry (expanded ++ new)%list rs
    end
  end.

Definition expandInstances (resources : list Resource) (registry : compositeRegistry) :
    res (list Resource) := expand_all registry [] resources.

Definition with_resources (m : Manifest) (rs : list Resource) : Manifest :=
  mkManifest (APIVersion m) (ManifestKind m) (ManifestMetadata m) (ManifestConnection m) rs.

Definition ExpandComposites (m : Manifest) : res Manifest :=
  let? (registry, remaining) := extractDefinitions (Resources m) in
  match registry with
  | [] => Ok m
  | _ => let? expanded := expandInstances remaining registry in Ok (with_resources m expanded)
  end.

(** ** skill_loader.go *)

Definition systemTenant : string := "_system".
Definition skillsSubdir : string := "skills".
Definition skillOverridesFile : string := "skill-overrides.yaml".

Definition newline : string := of_bytes [byte_of 10].
Definition utf8_bom : string := of_bytes (map byte_of [239; 187; 191]%Z).

(** What the fences are looked for in. *)
Definition normalize_md (content : string) : string :=
  ReplaceAll (TrimLeft (TrimPrefix content utf8_bom) (of_bytes (map byte_of [32; 9; 13; 10]%Z)))
    (of_bytes (map byte_of [13; 10]%Z)) newline.

Definition no_fence : error :=
  errorf "SKILL.md must start with a '---' frontmatter fence on its own line".
Definition no_close : error := errorf "SKILL.md frontmatter is missing closing '---' fence".

(** The text before the closing fence. *)
Definition frontmatter_block (rest : string) : option string :=
  match Cut rest (newline +:+ "---" +:+ newline) with
  | Some (block, _) => Some block
  | None => match LastIndex rest (newline +:+ "---") with
            | Some i => if (i + 4 =? String.length rest)%nat then Some (str_take i rest) else None
            | None => None
            end
  end.

Definition parseFrontmatter (content : string) : outcome skillFrontmatter :=
  let normalized := normalize_md content in
  if negb (HasPrefix normalized ("---" +:+ newline)) && negb (String.eqb normalized "---")
  then Returned (Err no_fence)
  else if (String.length normalized <? 4)%nat then Panicked      (* normalized[4:] *)
  else match frontmatter_block (str_drop 4 normalized) with
       | None => Returned (Err no_close)
       | Some block => Returned (res_wrap "parse frontmatter: " (y_frontmatter yaml block))
       end.

Context (fs : Filesystem).

(** The entries of the overlay that are set. *)
Definition apply_overlay (ov : skillOverlay) (spec : gomap) : gomap :=
  let spec := if String.eqb (ov_Status ov) "" then spec
              else mset "status" (VStr (ov_Status ov)) spec in
  let spec := match ov_Tags ov with
              | [] => spec
              | tags => mset "tags" (VSlice (map VStr tags)) spec
              end in
  match ov_Grants ov with
  | Some (a :: agents) =>
    mset "grants" (VMap [("agents", VSlice (map VStr (a :: agents)))]) spec
  | _ => spec
  end.

(** [if data, err := os.ReadFile(path); err == nil { ... } else if !os.IsNotExist(err)]. *)
Definition read_optional (path : string) : res (option string) :=
  match ReadFile fs path with
  | Ok data => Ok (Some data)
  | Err e => if errorsIs e NotExist then Ok None else Err (wrapf ("read " +:+ path +:+ ": ") e "")
  end.

Definition loadSkillDir (skillDir slug scope : string) : outcome Resource :=
  let skillMDPath := JoinPath [skillDir; "SKILL.md"] in
  let* md := Returned (res_wrap ("read " +:+ skillMDPath +:+ ": ") (ReadFile fs skillMDPath)) in
  let* fm := wrapO (skillMDPath +:+ ": ") (parseFrontmatter md) in
  if String.eqb (fm_Name fm) ""
  then Returned (Err (errorf (skillMDPath +:+ ": frontmatter is missing required field 'name'")))
  else
    let visibility := if String.eqb scope "global" then "public" else "internal" in
    let spec := [("description", VStr (fm_Description fm)); ("visibility", VStr visibility);
                 ("sourceDir", VStr skillDir)] in
    let overlayPath := JoinPath [skillDir; "frontmatter.yaml"] in
    let* data := Returned (read_optional overlayPath) in
    let* spec := match data with
                 | None => Returned (Ok spec)
                 | Some d => Returned (res_map (fun ov => apply_overlay ov spec)
                                         (res_wrap (overlayPath +:+ ": ") (y_overlay yaml d)))
                 end in
    Returned (Ok (mkResource KindSkill slug [] [] (Some spec))).

(** The loop over the entries of the skills directory. *)
Fixpoint load_skills (skillsDir scope : string) (seen : strmap) (out : list Resource)
    (es : list (string * fsnode)) : outcome (list Resource) :=
  match es with
  | [] => Returned (Ok out)
  | (name, node) :: es' =>
    if negb (isDir node) || HasPrefix name "." then load_skills skillsDir scope seen out es'
    else
      let skillDir := JoinPath [skillsDir; name] in
      let* r := loadSkillDir skillDir name scope in
      match mget (Name r) seen with
      | Some prior => Returned (Err (errorf ("duplicate skill slug " +:+ Quote (Name r) +:+ " at "
                                             +:+ prior +:+ " and " +:+ skillDir)))
      | None => load_skills skillsDir scope (mset (Name r) skillDir seen) (out ++ [r])%list es'
      end
  end.

Definition override_resource (o : string * bool) : Resource :=
  mkResource KindSkillConfig o.1 [] [] (Some [("enabled", VBool o.2)]).

Definition LoadSkillResources (dir : string) : outcome (list Resource) :=
  let scope := if String.eqb (Base dir) systemTenant then "global" else "tenant" in
  let skillsDir := JoinPath [dir; skillsSubdir] in
  let* out :=
    match Stat fs skillsDir with
    | Ok node =>
      if isDir node then
        let* es := Returned (res_wrap ("readdir " +:+ skillsDir +:+ ": ") (ReadDir fs skillsDir)) in
        load_skills skillsDir scope [] [] es
      else Returned (Ok [])
    | Err _ => Returned (Ok [])
    end in
  let overridesPath := JoinPath [dir; skillOverridesFile] in
  let* data := Returned (read_optional overridesPath) in
  match data with
  | None => Returned (Ok out)
  | Some d =>
    let* doc := Returned (res_wrap ("parse " +:+ overridesPath +:+ ": ") (y_overrides yaml d)) in
    Returned (Ok (out ++ map override_resource doc)%list)
  end.

(** ** loader.go *)

Definition maxManifestFileSize : Z := Z.shiftl 10 20.

(** [info.Size()]; the tree keeps no size for what cannot be read. *)
Definition node_size (n : fsnode) : Z :=
  match n with FFile (Ok data) => Z.of_nat (String.length data) | _ => 0 end.

Definition with_defaults (m : Manifest) : Manifest :=
  mkManifest (if String.eqb (APIVersion m) "" then "gcplane.io/v1" else APIVersion m)
    (if String.eqb (ManifestKind m) "" then "Manifest" else ManifestKind m)
    (ManifestMetadata m) (ManifestConnection m) (Resources m).

Definition loadFile (path : string) : res Manifest :=
  let? info := res_wrap ("stat " +:+ path +:+ ": ") (Stat fs path) in
  if (maxManifestFileSize <? node_size info)%Z
  then Err (errorf ("manifest file " +:+ path +:+ " is " +:+ Itoa (node_size info)
                    +:+ " bytes, exceeds " +:+ Itoa maxManifestFileSize +:+ " byte limit"))
  else
    let? data := res_wrap ("read " +:+ path +:+ ": ") (ReadFile fs path) in
    let? m := res_wrap ("parse " +:+ path +:+ ": ") (y_manifest yaml data) in
    res_wrap ("expand composites in " +:+ path +:+ ": ") (ExpandComposites (with_defaults m)).

(** A YAML file that is part of the manifest of its directory. *)
Definition is_manifest_entry (e : string * fsnode) : bool :=
  let ext := ToLower (Ext e.1) in
  negb (isDir e.2) && (String.eqb ext ".yaml" || String.eqb ext ".yml")
  && negb (String.eqb e.1 skillOverridesFile).

Definition resource_key (r : Resource) : string := Kind r +:+ "/" +:+ Name r.

(** The resources of one file, or those found on disk, added to the merged ones. *)
Fixpoint merge_resources (dup : string -> error) (seen : list string) (rs : list Resource) :
    res (list string) :=
  match rs with
  | [] => Ok seen
  | r :: rs' => if mem_str (resource_key r) seen then Err (dup (resource_key r))
                else merge_resources dup (resource_key r :: seen) rs'
  end.

(** Connection and metadata of the first file that has them. *)
Definition merge_manifest (merged m : Manifest) : Manifest :=
  mkManifest (APIVersion merged) (ManifestKind merged)
    (if String.eqb (MetaName (ManifestMetadata merged)) ""
        && negb (String.eqb (MetaName (ManifestMetadata m)) "")
     then ManifestMetadata m else ManifestMetadata merged)
    (if String.eqb (Endpoint (ManifestConnection merged)) ""
        && negb (String.eqb (Endpoint (ManifestConnection m)) "")
     then ManifestConnection m else ManifestConnection merged)
    (Resources merged ++ Resources m)%list.

Fixpoint merge_files (dir : string) (seen : list string) (merged : Manifest)
    (es : list (string * fsnode)) : res (list string * Manifest) :=
  match es with
  | [] => Ok (seen, merged)
  | e :: es' =>
    if is_manifest_entry e then
      let? m := loadFile (JoinPath [dir; e.1]) in
      let? seen := merge_resources
                     (fun key => errorf ("duplicate resource " +:+ key +:+ " in directory " +:+ dir))
                     seen (Resources m) in
      merge_files dir seen (merge_manifest merged m) es'
    else merge_files dir seen merged es'
  end.

Definition emptyManifest : Manifest :=
  mkManifest "gcplane.io/v1" "Manifest" (mkMetadata "" "") (mkConnection "" "" "" "") [].

Definition loadDir (dir : string) : outcome Manifest :=
  let* es := Returned (res_wrap ("readdir " +:+ dir +:+ ": ") (ReadDir fs dir)) in
  let* (seen, merged) := Returned (merge_files dir [] emptyManifest es) in
  let* skillRes := wrapO ("load filesystem skills in " +:+ dir +:+ ": ") (LoadSkillResources dir) in
  let* _ := Returned (merge_resources
                        (fun key => errorf (key +:+ " declared both in YAML and as filesystem skill "
                                            +:+ of_bytes (encode_rune 8212) +:+ " remove one (dir: "
                                            +:+ dir +:+ ")"))
                        seen skillRes) in
  Returned (res_wrap ("expand composites in " +:+ dir +:+ ": ")
              (ExpandComposites (with_resources merged (Resources merged ++ skillRes)%list))).

Definition Load (path : string) : outcome Manifest :=
  let* info := Returned (res_wrap ("stat " +:+ path +:+ ": ") (Stat fs path)) in
  if isDir info then loadDir path else Returned (loadFile path).

(** ** source/file_source.go *)

Definition hex_sum (data : string) : string := hex_encode (Sum256 data).

Definition is_yaml_entry (e : string * fsnode) : bool :=
  let ext := ToLower (Ext e.1) in
  negb (isDir e.2) && (String.eqb ext ".yaml" || String.eqb ext ".yml").

(** What is written to the hash: each file's name and content. *)
Fixpoint hash_input (dir : string) (files : list string) : res string :=
  match files with
  | [] => Ok ""
  | name :: files' =>
    let? data := res_wrap ("read " +:+ name +:+ ": ") (ReadFile fs (JoinPath [dir; name])) in
    let? rest := hash_input dir files' in
    Ok (name +:+ ":" +:+ data +:+ rest)
  end.

Definition hashDir (dir : string) : res string :=
  let? es := res_wrap ("readdir " +:+ dir +:+ ": ") (ReadDir fs dir) in
  let files := sortStrings (map fst (List.filter is_yaml_entry es)) in
  res_map hex_sum (hash_input dir files).
End loader.
