(* ===== verification/LoaderProps.v ===== *)
(** * What loading guarantees

    Composites are expanded exactly as their last definition says, in place; a
    directory loads as the concatenation of its files and of the skills on disk, with
    no resource twice. *)
From Stdlib Require Import ZArith Lia Bool Ascii.
From Stdlib Require String.
From S2P Require Import Prelude GoStr GoValue Filepath Manifest Validate Loader.

Local Open Scope string_scope.

(** ** Composites *)

Section composites.
Context (yaml : Yaml) (renderTemplate : Template).

(** The last definition of a custom kind. *)
Definition last_definition (rs : list Resource) (k : ResourceKind) : option Resource :=
  last (List.filter (fun r => is_definition r && String.eqb (Name r) k) rs).

(** What the instance [r] becomes under the template [t]. *)
Definition instantiates (r t r' : Resource) : Prop :=
  exists e, expandResource yaml renderTemplate t (buildContext r) = Ok e /\
    Kind r' = Kind t /\ Name r' = Name e /\ Spec r' = Spec e /\ Labels r' = Labels r /\
    Annotations r' = [].

(** What one resource of the manifest becomes. *)
Definition expands_to (rs : list Resource) (r : Resource) (part : list Resource) : Prop :=
  match last_definition rs (Kind r) with
  | None => part = [r]
  | Some d => exists def, parseDefinition d = Ok def /\
                Forall2 (instantiates r) (def_templates def) part
  end.

Definition plain (rs : list Resource) : list Resource :=
  List.filter (fun r => negb (is_definition r)) rs.

Lemma expandResource_shape t ctx e :
  expandResource yaml renderTemplate t ctx = Ok e ->
  Kind e = Kind t /\ Labels e = [] /\ Annotations e = [].
Proof.
  unfold expandResource, res_bind, res_wrap. intros H.
  repeat (case_match_in H; simplify_eq). done.
Qed.

Lemma expand_templates_exact def r ts part :
  expand_templates yaml renderTemplate def r (buildContext r) ts = Ok part
  <-> Forall2 (instantiates r) ts part.
Proof.
  revert part. induction ts as [|t ts IH]; intros part; cbn [expand_templates].
  { split; [intros [= <-]; constructor|by inversion 1]. }
  destruct (expandResource yaml renderTemplate t (buildContext r)) as [e|err] eqn:E; cbn [res_wrap res_bind].
  2:{ split; [done|]. inversion 1 as [|? ? ? ? (e & He & _)]; congruence. }
  destruct (expandResource_shape _ _ _ E) as (Hk & Hl & Ha).
  set (e' := match Labels r with [] => e | ls => _ end).
  assert (He' : forall r', instantiates r t r' <-> r' = e').
  { intros r'. split.
    - intros (e2 & He2 & H1 & H2 & H3 & H4 & H5). assert (e2 = e) as -> by congruence.
      destruct r', e; unfold e'; simpl in *; subst. by destruct (Labels r).
    - intros ->. exists e. split; [done|]. unfold e'. destruct (Labels r); simpl; repeat split; congruence. }
  destruct (expand_templates yaml renderTemplate def r (buildContext r) ts) as [rest|err] eqn:Er; cbn [res_bind].
  - split.
    + intros [= <-]. constructor; [by apply He'|by apply IH].
    + inversion 1 as [|? r' ? part' H1 H2]; subst. apply He' in H1 as ->. apply IH in H2. congruence.
  - split; [done|]. inversion 1 as [|? r' ? part' H1 H2]; subst. apply IH in H2. congruence.
Qed.

(** The registry holds the parsed last definition of each name. *)
Definition registry_of (rs : list Resource) (reg : compositeRegistry) : Prop :=
  forall k, match last_definition rs k with
            | Some d => exists def, parseDefinition d = Ok def /\ mget k reg = Some def
            | None => mget k reg = None
            end.

Lemma last_definition_snoc rs r k :
  last_definition (rs ++ [r]) k
  = if is_definition r && String.eqb (Name r) k then Some r else last_definition rs k.
Proof.
  unfold last_definition. rewrite List.filter_app. cbn [List.filter].
  destruct (_ && _); [by rewrite last_snoc|by rewrite app_nil_r].
Qed.

Definition parses (r : Resource) : Prop :=
  is_definition r = true -> exists def, parseDefinition r = Ok def.

Lemma extract_exact reg rem past rs out :
  registry_of past reg -> rem = plain past ->
  extract reg rem rs = Ok out ->
  registry_of (past ++ rs) out.1 /\ out.2 = plain (past ++ rs) /\ Forall parses rs.
Proof.
  revert reg rem past. induction rs as [|r rs IH]; intros reg rem past Hreg Hrem; cbn [extract].
  { intros [= <-]. rewrite app_nil_r. by split. }
  destruct (is_definition r) eqn:Er.
  - destruct (parseDefinition r) as [def|e] eqn:Ed; cbn [res_bind]; [|done]. intros H.
    destruct (IH (mset (Name r) def reg) rem (past ++ [r])%list) as (H1 & H2 & H3); [| |done|].
    + intros k. rewrite last_definition_snoc, Er, mget_mset, (String.eqb_sym k).
      destruct (String.eqb_spec (Name r) k) as [<-|]; simpl; [by exists def|apply Hreg].
    + unfold plain in *. rewrite List.filter_app, Hrem. cbn [List.filter]. rewrite Er. cbn.
      by rewrite app_nil_r.
    + rewrite <- app_assoc in *. split; [done|]. split; [done|]. constructor; [by exists def|done].
  - intros H. destruct (IH reg (rem ++ [r])%list (past ++ [r])%list) as (H1 & H2 & H3); [| |done|].
    + intros k. rewrite last_definition_snoc, Er. apply Hreg.
    + unfold plain in *. rewrite List.filter_app, Hrem. cbn [List.filter]. by rewrite Er.
    + rewrite <- app_assoc in *. split; [done|]. split; [done|].
      constructor; [by unfold parses; rewrite Er|done].
Qed.

Lemma extract_total reg rem rs : Forall parses rs -> exists out, extract reg rem rs = Ok out.
Proof.
  intros H. revert reg rem. induction H as [|r rs Hr Hrs IH]; intros; cbn [extract]; [eauto|].
  destruct (is_definition r) eqn:Er; [|apply IH].
  destruct (Hr Er) as [def ->]. cbn [res_bind]. apply IH.
Qed.

Lemma expand_all_exact rs reg acc todo out :
  registry_of rs reg ->
  expand_all yaml renderTemplate reg acc todo = Ok out
  <-> exists parts, Forall2 (expands_to rs) todo parts /\ out = (acc ++ concat parts)%list.
Proof.
  intros Hreg. revert acc out. induction todo as [|r todo IH]; intros acc out; cbn [expand_all].
  { split.
    - intros [= <-]. exists []. by rewrite app_nil_r.
    - intros (parts & Hp & ->). inversion Hp; subst. by rewrite app_nil_r. }
  specialize (Hreg (Kind r)) as Hr. unfold expands_to at 1.
  assert (Hsplit : (exists parts, Forall2 (expands_to rs) (r :: todo) parts /\
                                  out = (acc ++ concat parts)%list)
                   <-> exists part parts, expands_to rs r part /\ Forall2 (expands_to rs) todo parts
                         /\ out = ((acc ++ part) ++ concat parts)%list).
  { split.
    - intros (parts & Hp & ->). inversion Hp as [|? part ? parts']; subst.
      exists part, parts'. by rewrite <- app_assoc.
    - intros (part & parts & Hp & Hps & ->). exists (part :: parts). rewrite <- app_assoc.
      split; [by constructor|done]. }
  rewrite Hsplit. unfold expands_to at 1.
  destruct (last_definition rs (Kind r)) as [d|].
  - destruct Hr as (def & Hd & ->).
    destruct (expand_templates yaml renderTemplate def r (buildContext r) (def_templates def))
      as [new|e] eqn:En; cbn [res_bind].
    + rewrite IH. pose proof (proj1 (expand_templates_exact _ _ _ _) En). split.
      * intros (parts & Hps & ->). exists new, parts. split; [by exists def|done].
      * intros (part & parts & (def' & Hd' & Hp) & Hps & ->). exists parts. split; [done|].
        assert (def' = def) as -> by congruence. apply (expand_templates_exact def) in Hp. congruence.
    + split; [done|]. intros (part & parts & (def' & Hd' & Hp) & _).
      assert (def' = def) as -> by congruence. apply (expand_templates_exact def) in Hp. congruence.
  - rewrite Hr, IH. split.
    + intros (parts & Hps & ->). by exists [r], parts.
    + intros (part & parts & -> & Hps & ->). by exists parts.
Qed.

Lemma registry_nil rs : registry_of rs [] -> Forall (fun r => is_definition r = false) rs.
Proof.
  intros H. apply Forall_forall. intros r Hr. destruct (is_definition r) eqn:Er; [|done].
  specialize (H (Name r)). unfold last_definition in H. case_match_in H; [|].
  - by destruct H as (? & _ & ?).
  - apply last_None in Heqo. assert (Hin : In r []); [|done]. rewrite <- Heqo.
    apply filter_In. split; [by apply list_elem_of_In|]. by rewrite Er, String.eqb_refl.
Qed.

Lemma plain_none rs : Forall (fun r => is_definition r = false) rs -> plain rs = rs.
Proof. unfold plain. induction 1 as [|r l Hr Hl IH]; simpl; [done|]. rewrite Hr. by f_equal. Qed.

Lemma expands_none rs todo parts :
  registry_of rs [] -> Forall2 (expands_to rs) todo parts <-> parts = map (fun r => [r]) todo.
Proof.
  intros Hreg. assert (Hnone : forall r part, expands_to rs r part <-> part = [r]).
  { intros r part. unfold expands_to. specialize (Hreg (Kind r)).
    destruct (last_definition rs (Kind r)); [by destruct Hreg as (? & _ & ?)|done]. }
  split.
  - induction 1 as [|r part todo parts Hr _ IH]; simpl; [done|]. apply Hnone in Hr. by subst.
  - intros ->. induction todo; simpl; constructor; [by apply Hnone|done].
Qed.

(** C35: composites are expanded exactly: the manifest is rewritten without error to the
    resources obtained by replacing, in place and in order, every instance by one
    resource for each template of the last definition of its kind (name and spec
    rendered in the instance's context, labels the instance's), keeping the others and
    dropping the definitions, if and only if every definition parses and every
    template renders; nothing else of the manifest changes. *)
Theorem expand_composites_exact (m m' : Manifest) :
  let rs := Resources m in
  ExpandComposites yaml renderTemplate m = Ok m' <->
  Forall parses rs /\
  (exists parts, Forall2 (expands_to rs) (plain rs) parts /\ m' = with_resources m (concat parts)).
Proof.
  intros rs. unfold ExpandComposites, extractDefinitions. fold rs.
  assert (Hnil : registry_of [] []) by done.
  assert (Hout : forall out, extract [] [] rs = Ok out ->
            registry_of rs out.1 /\ out.2 = plain rs /\ Forall parses rs).
  { intros out Ho. by apply (extract_exact [] [] [] rs out). }
  destruct (extract [] [] rs) as [[reg rem]|e] eqn:Ee; cbn [res_bind].
  2:{ split; [done|]. intros [Hp _]. destruct (extract_total [] [] rs Hp). congruence. }
  destruct (Hout _ eq_refl) as (Hreg & Hrem & Hp). simpl in Hreg, Hrem. subst rem.
  assert (Hexp := fun out => expand_all_exact rs reg [] (plain rs) out Hreg).
  destruct reg as [|x reg].
  - pose proof (registry_nil rs Hreg) as Hno.
    pose proof (plain_none rs Hno) as Hpl.
    assert (Hall := fun parts => expands_none rs rs parts Hreg).
    assert (Hm : m = with_resources m (concat (map (fun r => [r]) rs))).
    { assert (Hc : concat (map (fun r => [r]) rs) = rs) by (clear; induction rs; simpl; congruence).
      rewrite Hc. by destruct m. }
    rewrite Hpl. split.
    + intros [= <-]. split; [done|]. exists (map (fun r => [r]) rs). split; [by apply Hall|done].
    + intros (_ & parts & ->%Hall & ->). by rewrite <- Hm.
  - unfold expandInstances.
    destruct (expand_all yaml renderTemplate (x :: reg) [] (plain rs)) as [out|e] eqn:Ex; cbn [res_bind].
    + split.
      * intros [= <-]. split; [done|]. destruct (proj1 (Hexp out) eq_refl) as (parts & Hps & ->).
        by exists parts.
      * intros (_ & parts & Hps & ->).
        pose proof (proj2 (Hexp (concat parts)) (ex_intro _ parts (conj Hps eq_refl))). congruence.
    + split; [done|]. intros (_ & parts & Hps & _).
      by pose proof (proj2 (Hexp (concat parts)) (ex_intro _ parts (conj Hps eq_refl))).
Qed.
End composites.

(** ** Directories *)

Section directories.
Context {U : Unicode} (yaml : Yaml) (renderTemplate : Template) (fs : Filesystem).

Definition fresh_keys (seen : list string) (rs : list Resource) : Prop :=
  NoDup (map resource_key rs) /\ Forall (fun r => resource_key r ∉ seen) rs.

Definition add_keys (seen : list string) (rs : list Resource) : list string :=
  foldl (fun s r => resource_key r :: s) seen rs.

Lemma mem_str_elem s l : mem_str s l = true <-> s ∈ l.
Proof.
  unfold mem_str. rewrite existsb_Exists, Exists_exists. setoid_rewrite String.eqb_eq. naive_solver.
Qed.

Lemma elem_add_keys k seen rs : k ∈ add_keys seen rs <-> k ∈ seen \/ k ∈ map resource_key rs.
Proof.
  revert seen. unfold add_keys. induction rs as [|r rs IH]; intros seen; cbn [foldl map].
  - rewrite elem_of_nil. naive_solver.
  - rewrite IH, !elem_of_cons. naive_solver.
Qed.

Lemma merge_resources_exact dup seen rs out :
  merge_resources dup seen rs = Ok out <-> fresh_keys seen rs /\ out = add_keys seen rs.
Proof.
  revert seen. unfold fresh_keys. induction rs as [|r rs IH]; intros seen; cbn [merge_resources].
  { unfold add_keys. cbn. split; [intros [= <-]; repeat constructor|]. naive_solver. }
  destruct (mem_str (resource_key r) seen) eqn:Em.
  - apply mem_str_elem in Em. split; [done|]. intros ((_ & Hf) & _).
    apply Forall_cons in Hf as [Hf _]. done.
  - assert (Hn : resource_key r ∉ seen) by (rewrite <- mem_str_elem; congruence).
    rewrite IH. cbn [map]. rewrite NoDup_cons, Forall_cons.
    assert (Hall : Forall (fun r' => resource_key r' ∉ resource_key r :: seen) rs
                   <-> resource_key r ∉ map resource_key rs /\
                       Forall (fun r' => resource_key r' ∉ seen) rs).
    { rewrite !Forall_forall. setoid_rewrite not_elem_of_cons.
      split.
      - intros H. split; [|naive_solver]. intros (r' & He & Hr')%list_elem_of_fmap.
        by destruct (H r' Hr').
      - intros [H1 H2] r' Hr'. split; [|auto]. intros He. apply H1. apply list_elem_of_fmap.
        by exists r'. }
    rewrite Hall. unfold add_keys. cbn [foldl]. naive_solver.
Qed.

Lemma merge_resources_fresh dup seen rs :
  fresh_keys seen rs -> merge_resources dup seen rs = Ok (add_keys seen rs).
Proof. intros H. by apply merge_resources_exact. Qed.

(** The first of the values that passes the test. *)
Definition first_with {A} (test : A -> bool) (zero : A) (l : list A) : A :=
  default zero (List.find test l).

Definition has_endpoint (c : Connection) : bool := negb (String.eqb (Endpoint c) "").
Definition has_name (m : Metadata) : bool := negb (String.eqb (MetaName m) "").

(** What the files of a directory come to, before the skills. *)
Definition merged_files (merged : Manifest) (ms : list Manifest) : Manifest :=
  mkManifest (APIVersion merged) (ManifestKind merged)
    (if has_name (ManifestMetadata merged) then ManifestMetadata merged
     else first_with has_name (ManifestMetadata merged) (map ManifestMetadata ms))
    (if has_endpoint (ManifestConnection merged) then ManifestConnection merged
     else first_with has_endpoint (ManifestConnection merged) (map ManifestConnection ms))
    (Resources merged ++ concat (map Resources ms))%list.

Lemma merged_files_step merged m ms :
  merged_files (merge_manifest merged m) ms = merged_files merged (m :: ms).
Proof.
  unfold merged_files, merge_manifest, first_with, has_name, has_endpoint. cbn.
  rewrite <- app_assoc. f_equal.
  - destruct (String.eqb (MetaName (ManifestMetadata merged)) "") eqn:E1;
      destruct (String.eqb (MetaName (ManifestMetadata m)) "") eqn:E2; cbn; by rewrite ?E1, ?E2.
  - destruct (String.eqb (Endpoint (ManifestConnection merged)) "") eqn:E1;
      destruct (String.eqb (Endpoint (ManifestConnection m)) "") eqn:E2; cbn; by rewrite ?E1, ?E2.
Qed.

Definition loads (dir : string) (e : string * fsnode) (m : Manifest) : Prop :=
  loadFile yaml renderTemplate fs (JoinPath [dir; e.1]) = Ok m.

Lemma fresh_keys_app seen rs rs' :
  fresh_keys seen (rs ++ rs') <-> fresh_keys seen rs /\ fresh_keys (add_keys seen rs) rs'.
Proof.
  unfold fresh_keys. rewrite map_app, NoDup_app, Forall_app.
  assert (H : Forall (fun r => resource_key r ∉ add_keys seen rs) rs' <->
              Forall (fun r => resource_key r ∉ seen) rs' /\
              (forall k, k ∈ map resource_key rs -> k ∉ map resource_key rs')).
  { rewrite !Forall_forall. setoid_rewrite elem_add_keys.
    setoid_rewrite (list_elem_of_fmap resource_key rs'). naive_solver. }
  rewrite H. naive_solver.
Qed.

Lemma merge_files_exact dir es seen merged out :
  merge_files yaml renderTemplate fs dir seen merged es = Ok out <->
  exists ms, Forall2 (loads dir) (List.filter is_manifest_entry es) ms /\
    fresh_keys seen (concat (map Resources ms)) /\
    out = (add_keys seen (concat (map Resources ms)), merged_files merged ms).
Proof.
  revert seen merged. induction es as [|e es IH]; intros seen merged; cbn [merge_files List.filter].
  { split.
    - intros [= <-]. exists []. split; [constructor|]. split; [repeat constructor|].
      unfold merged_files, first_with. cbn. rewrite app_nil_r. by destruct merged, has_name, has_endpoint.
    - intros (ms & Hms & _ & ->). inversion Hms; subst. unfold merged_files, first_with. cbn.
      rewrite app_nil_r. by destruct merged, has_name, has_endpoint. }
  destruct (is_manifest_entry e); [|apply IH].
  assert (Hsplit : (exists ms, Forall2 (loads dir) (e :: List.filter is_manifest_entry es) ms /\
              fresh_keys seen (concat (map Resources ms)) /\
              out = (add_keys seen (concat (map Resources ms)), merged_files merged ms)) <->
            exists m ms, loads dir e m /\ Forall2 (loads dir) (List.filter is_manifest_entry es) ms /\
              fresh_keys seen (Resources m) /\
              fresh_keys (add_keys seen (Resources m)) (concat (map Resources ms)) /\
              out = (add_keys (add_keys seen (Resources m)) (concat (map Resources ms)),
                     merged_files (merge_manifest merged m) ms)).
  { assert (Hadd : forall s a b, add_keys s (a ++ b) = add_keys (add_keys s a) b).
    { intros. unfold add_keys. by rewrite foldl_app. }
    split.
    - intros (ms & Hms & Hf & ->). inversion Hms as [|? m ? ms' Hm Hms']; subst.
      cbn [map concat] in *. apply fresh_keys_app in Hf as [Hf1 Hf2]. exists m, ms'.
      by rewrite Hadd, merged_files_step.
    - intros (m & ms & Hm & Hms & Hf1 & Hf2 & ->). exists (m :: ms). cbn [map concat].
      rewrite Hadd, merged_files_step. split; [by constructor|]. split; [by apply fresh_keys_app|done]. }
  rewrite Hsplit. unfold loads at 1.
  destruct (loadFile yaml renderTemplate fs (JoinPath [dir; e.1])) as [m|err]; cbn [res_bind].
  2:{ split; [done|]. by intros (m & ms & Hm & _). }
  destruct (merge_resources _ seen (Resources m)) as [seen'|err] eqn:Em; cbn [res_bind].
  - apply merge_resources_exact in Em as [Hf ->]. rewrite IH. split.
    + intros (ms & H). exists m, ms. naive_solver.
    + intros (m' & ms & [= <-] & H). exists ms. naive_solver.
  - split; [done|]. intros (m' & ms & [= <-] & _ & Hf & _).
    by rewrite (merge_resources_fresh _ _ _ Hf) in Em.
Qed.

(** C32: loading a directory succeeds exactly when its listing, each of its YAML files and
    its skills load, no two resources share kind and name, and the merged manifest
    expands; the merged manifest is the files' resources in name order, then the
    skills, with the connection of the first file that has an endpoint and the metadata
    of the first that has a name. *)
Theorem load_dir_exact (dir : string) (m : Manifest) :
  loadDir yaml renderTemplate fs dir = Returned (Ok m) <->
  exists es ms skills,
    ReadDir fs dir = Ok es /\
    Forall2 (loads dir) (List.filter is_manifest_entry es) ms /\
    LoadSkillResources yaml fs dir = Returned (Ok skills) /\
    NoDup (map resource_key (concat (map Resources ms) ++ skills)) /\
    ExpandComposites yaml renderTemplate
      (mkManifest "gcplane.io/v1" "Manifest"
         (first_with has_name (mkMetadata "" "") (map ManifestMetadata ms))
         (first_with has_endpoint (mkConnection "" "" "" "") (map ManifestConnection ms))
         (concat (map Resources ms) ++ skills)) = Ok m.
Proof.
  unfold loadDir. destruct (ReadDir fs dir) as [es|e]; cbn [res_wrap bindO].
  2:{ split; [done|]. by intros (es & ms & sk & H & _). }
  assert (Hmf := fun out => merge_files_exact dir es [] emptyManifest out).
  assert (Hfresh : forall rs, fresh_keys [] rs <-> NoDup (map resource_key rs)).
  { intros rs. unfold fresh_keys. rewrite Forall_forall. split; [by intros [? _]|].
    intros H. split; [done|]. intros r _. apply not_elem_of_nil. }
  destruct (merge_files yaml renderTemplate fs dir [] emptyManifest es) as [[seen merged]|e]; cbn [bindO].
  2:{ split; [done|]. intros (es' & ms & sk & [= <-] & Hms & _ & Hnd & _). exfalso.
      rewrite map_app in Hnd. apply NoDup_app in Hnd as [Hnd _]. apply Hfresh in Hnd.
      by pose proof (proj2 (Hmf _) (ex_intro _ ms (conj Hms (conj Hnd eq_refl)))). }
  destruct (proj1 (Hmf _) eq_refl) as (ms & Hms & Hf & [= -> ->]).
  assert (Huniq : forall ms', Forall2 (loads dir) (List.filter is_manifest_entry es) ms' -> ms' = ms).
  { clear - Hms. revert ms Hms. generalize (List.filter is_manifest_entry es) as l.
    induction l as [|e l IH]; intros ms Hms ms' Hms'.
    - by inversion Hms; inversion Hms'; subst.
    - inversion Hms as [|? m1 ? ms1 Ha Hsa]; inversion Hms' as [|? m2 ? ms2 Hb Hsb]; subst.
      unfold loads in *. f_equal; [congruence|]. by apply IH. }
  destruct (LoadSkillResources yaml fs dir) as [[skills|e]|]; cbn [wrapO res_wrap bindO].
  2,3: split; [done|]; by intros (es' & ms' & sk & _ & _ & H & _).
  destruct (merge_resources _ _ skills) as [out|e] eqn:Em; cbn [bindO].
  - apply merge_resources_exact in Em as [Hf' _].
    assert (Hnd : NoDup (map resource_key (concat (map Resources ms) ++ skills))).
    { apply (proj1 (Hfresh _)), fresh_keys_app. by split. }
    unfold with_resources, merged_files, emptyManifest. cbn.
    destruct (ExpandComposites yaml renderTemplate _) as [m'|e] eqn:Ex; cbn [res_wrap].
    + split.
      * intros [= <-]. exists es, ms, skills. done.
      * intros (es' & ms' & sk & [= <-] & Hms' & [= <-] & _ & Hx). rewrite (Huniq _ Hms') in Hx. congruence.
    + split; [done|]. intros (es' & ms' & sk & [= <-] & Hms' & [= <-] & _ & Hx).
      rewrite (Huniq _ Hms') in Hx. congruence.
  - split; [done|]. intros (es' & ms' & sk & [= <-] & Hms' & [= <-] & Hnd & _). exfalso.
    rewrite (Huniq _ Hms') in Hnd. apply Hfresh, fresh_keys_app in Hnd as [_ Hf'].
    by rewrite (merge_resources_fresh _ _ _ Hf') in Em.
Qed.
End directories.

(** ** An example: a definition and its instance in two files *)

Definition ex_definition : Resource :=
  mkResource "CompositeDefinition" "Bot" [] []
    (Some [("resources", VSlice [VMap [("kind", VStr "Agent"); ("name", VStr "{{.name}}");
                                       ("spec", VMap [("model", VStr "gpt")])]])]).

Definition ex_instance : Resource := mkResource "Bot" "helper" [("team", "a")] [] (Some []).

Definition ex_file (rs : list Resource) : Manifest :=
  mkManifest "" "" (mkMetadata "" "") (mkConnection "" "" "" "") rs.

(** A decoder of the three texts the example uses. *)
Definition ex_yaml : Yaml := {|
  y_manifest s := Ok (ex_file (if String.eqb s "definition" then [ex_definition]
                               else if String.eqb s "instance" then [ex_instance]
                               else [ex_definition; ex_instance]));
  y_map _ := Ok (Some [("model", VStr "gpt")]);
  y_frontmatter _ := Ok (mkFrontmatter "s" "");
  y_overlay _ := Ok (mkOverlay [] "" None);
  y_overrides _ := Ok [];
  y_marshal _ := Ok "model: gpt" |}.

Definition ex_template : Template := fun text ctx =>
  Ok (if String.eqb text "{{.name}}" then getStr "name" ctx else text).

Definition ex_fs : Filesystem :=
  mkFs (FDir [("two", FDir [("a.yaml", FFile (Ok "definition")); ("b.yaml", FFile (Ok "instance"))]);
              ("one", FDir [("a.yaml", FFile (Ok "both"))])]) [].

(** In one file the instance is expanded; from another file it stays as it is. *)
Lemma composite_of_another_file :
  let U := ascii_unicode in
  loadDir ex_yaml ex_template ex_fs "/one"
  = Returned (Ok (with_resources emptyManifest
                    [mkResource "Agent" "helper" [("team", "a")] [] (Some [("model", VStr "gpt")])])) /\
  loadDir ex_yaml ex_template ex_fs "/two" = Returned (Ok (with_resources emptyManifest [ex_instance])).
Proof. split; vm_compute; reflexivity. Qed.

(** A SKILL.md of three hyphens. *)
Lemma frontmatter_panics yaml : parseFrontmatter yaml "---" = Panicked.
Proof. reflexivity. Qed.
