(* ===== verification/Source.v ===== *)
(** * Manifest sources

    [internal/source]: the manifest on disk with its content hash ([file_source.go]) and
    the clone of a git repository ([git_source.go]).  Git is the environment: a command
    with its directory and arguments, over an explicit world that also holds the file
    tree.  A fetch that panics (the loader can) has no result. *)
From Stdlib Require Import ZArith Lia Bool Ascii.
From Stdlib Require String.
From S2P Require Import Prelude GoStr GoValue Filepath Manifest Validate Loader.

Local Open Scope string_scope.
Local Open Scope go_scope.

Section source.
Context {U : Unicode} (yaml : Yaml) (renderTemplate : Template) (semver : Semver)
  (zip : list (string * string) -> string).

(** The end of both [Fetch] methods. *)
Definition validated (fs : Filesystem) (m : Manifest) (hash : string) : res (Manifest * string) :=
  match Validate semver zip fs m with
  | [] => Ok (m, hash)
  | e :: _ => Err (errorf ("validate manifest: " +:+ Error e))
  end.

(** ** file_source.go *)

Record FileSource := mkFileSource { fsrc_path : string }.

Definition NewFileSource (path : string) : FileSource := mkFileSource path.

Definition FetchFile (fs : Filesystem) (s : FileSource) : outcome (Manifest * string) :=
  let path := fsrc_path s in
  let* info := Returned (res_wrap "stat manifest path: " (Stat fs path)) in
  let* hash := Returned (if isDir info then res_wrap "hash dir: " (hashDir fs path)
                         else res_map hex_sum (res_wrap "read manifest file: " (ReadFile fs path))) in
  let* m := wrapO "load manifest: " (Load yaml renderTemplate fs path) in
  Returned (validated fs m hash).

(** ** git_source.go *)

Record GitSource := mkGit {
  g_repo : string;
  g_branch : string;
  g_path : string;
  g_dir : string
}.

Definition NewGitSource (repo branch path : string) : res GitSource :=
  let branch := if String.eqb branch "" then "main" else branch in
  let path := if String.eqb path "" then "manifest.yaml" else path in
  match List.find (fun v => HasPrefix v "-") [repo; branch; path] with
  | Some v => Err (errorf ("invalid git parameter " +:+ Quote v +:+ ": must not start with '-'"))
  | None => Ok (mkGit repo branch path "")
  end.

(** What the source asks of the system: a git command gives its combined output and the
    error of its exit. *)
Record Git (W : Type) := mkGitOps {
  git_fs : W -> Filesystem;
  MkdirTemp : W -> W * res string;
  RemoveAll : string -> W -> W;
  git : string -> list string -> W -> W * (string * option string)
}.
Arguments git_fs {W}. Arguments MkdirTemp {W}. Arguments RemoveAll {W}. Arguments git {W}.

Definition clone_args (s : GitSource) (dir : string) : list string :=
  ["clone"; "--depth"; "1"; "--single-branch"; "--branch"; g_branch s; g_repo s; dir].
Definition fetch_args (s : GitSource) : list string := ["fetch"; "origin"; g_branch s].
Definition reset_args (s : GitSource) : list string := ["reset"; "--hard"; "origin/" +:+ g_branch s].

Section git.
Context {W : Type} (sys : Git W).

Definition runGitIn (dir : string) (args : list string) : M W string := fun w =>
  let '(w, (out, err)) := git sys dir args w in
  (w, match err with
      | Some e => Err (errorf (e +:+ ": " +:+ TrimSpace out))
      | None => Ok (TrimSpace out)
      end).

Definition runGit (s : GitSource) (args : list string) : M W string := runGitIn (g_dir s) args.

Definition clone (s : GitSource) (w : W) : W * res GitSource :=
  match MkdirTemp sys w with
  | (w, Err e) => (w, Err (wrapf "create temp dir: " e ""))
  | (w, Ok dir) =>
    match runGitIn "" (clone_args s dir) w with
    | (w, Err e) => (RemoveAll sys dir w, Err (wrapf "git clone: " e ""))
    | (w, Ok _) => (w, Ok (mkGit (g_repo s) (g_branch s) (g_path s) dir))
    end
  end.

Definition fetch (s : GitSource) : M W unit :=
  bindM (wrapM "git fetch: " (runGit s (fetch_args s))) (fun _ =>
  bindM (wrapM "git reset: " (runGit s (reset_args s))) (fun _ => retM tt)).

(** The source with its clone, up to date, or the error. *)
Definition update_clone (s : GitSource) (w : W) : W * (GitSource * res unit) :=
  if String.eqb (g_dir s) "" then
    match clone s w with
    | (w, Ok s') => (w, (s', Ok tt))
    | (w, Err e) => (w, (s, Err e))
    end
  else let '(w, r) := fetch s w in (w, (s, r)).

Definition FetchGit (s : GitSource) (w : W) : W * (GitSource * outcome (Manifest * string)) :=
  match update_clone s w with
  | (w, (s, Err e)) => (w, (s, Returned (Err e)))
  | (w, (s, Ok _)) =>
    match wrapM "git rev-parse HEAD: " (runGit s ["rev-parse"; "HEAD"]) w with
    | (w, Err e) => (w, (s, Returned (Err e)))
    | (w, Ok hash) =>
      (w, (s, let* m := wrapO "load manifest from repo: "
                          (Load yaml renderTemplate (git_fs sys w) (JoinPath [g_dir s; g_path s])) in
              Returned (validated (git_fs sys w) m hash)))
    end
  end.

Definition Cleanup (s : GitSource) (w : W) : W :=
  if String.eqb (g_dir s) "" then w else RemoveAll sys (g_dir s) w.
End git.

(** ** What a fetch returns *)

Lemma validated_valid fs m h m' h' :
  validated fs m h = Ok (m', h') -> m' = m /\ h' = h /\ Validate semver zip fs m = [].
Proof. unfold validated. case_match; [by intros [= <- <-]|done]. Qed.

Lemma bindO_Ok {A B} (o : outcome A) (k : A -> outcome B) b :
  bindO o k = Returned (Ok b) -> exists a, o = Returned (Ok a) /\ k a = Returned (Ok b).
Proof. destruct o as [[a|e]|]; simpl; [eauto|done|done]. Qed.

Lemma wrapO_Ok {A} pre (o : outcome A) a : wrapO pre o = Returned (Ok a) -> o = Returned (Ok a).
Proof. destruct o as [[x|e]|]; simpl; [by intros [= ->]|done|done]. Qed.

Lemma fetch_file_valid fs s m h :
  FetchFile fs s = Returned (Ok (m, h)) ->
  Load yaml renderTemplate fs (fsrc_path s) = Returned (Ok m) /\ Validate semver zip fs m = [] /\
  (h = hex_sum (default "" (match ReadFile fs (fsrc_path s) with Ok d => Some d | _ => None end)) \/
   hashDir fs (fsrc_path s) = Ok h).
Proof.
  unfold FetchFile. intros (info & Hi & (hash & Hh & (m' & Hm%wrapO_Ok & Hv)%bindO_Ok)%bindO_Ok)%bindO_Ok.
  injection Hv as (-> & -> & Hval)%validated_valid. split; [done|]. split; [done|].
  injection Hh as Hh. destruct (isDir info).
  - right. by destruct (hashDir fs _); simplify_eq/=.
  - left. by destruct (ReadFile fs _); simplify_eq/=.
Qed.

(** No git command takes a value of the configuration for an option: the arguments that
    start with a hyphen are the literals. *)
Lemma git_no_options repo branch path s dir :
  NewGitSource repo branch path = Ok s -> HasPrefix dir "-" = false ->
  List.filter (fun a => HasPrefix a "-") (clone_args s dir) =
    ["--depth"; "--single-branch"; "--branch"] /\
  List.filter (fun a => HasPrefix a "-") (fetch_args s) = [] /\
  List.filter (fun a => HasPrefix a "-") (reset_args s) = ["--hard"] /\
  HasPrefix (g_path s) "-" = false.
Proof.
  unfold NewGitSource. intros Hs Hd. case_match eqn:Hf; [done|]. injection Hs as <-.
  pose proof (fun v => find_none _ _ Hf v) as Hn. cbn [In] in Hn.
  assert (Hr := Hn _ (or_introl eq_refl)). assert (Hb := Hn _ (or_intror (or_introl eq_refl))).
  assert (Hp := Hn _ (or_intror (or_intror (or_introl eq_refl)))). cbv beta in Hr, Hb, Hp.
  unfold clone_args, fetch_args, reset_args. cbn [g_branch g_repo g_path g_dir].
  cbn [List.filter]. rewrite Hr, Hb, Hd, Hp. done.
Qed.

(** A clone is made once: it is kept when it succeeds, and dropped, to be tried again,
    when it fails. *)
Lemma fetch_git_dir {W} (sys : Git W) s w :
  (g_dir s <> "" -> (FetchGit sys s w).2.1 = s) /\
  (g_dir s = "" -> (exists e, (clone sys s w).2 = Err e) -> (FetchGit sys s w).2.1 = s) /\
  (forall s', g_dir s = "" -> (clone sys s w).2 = Ok s' -> (FetchGit sys s w).2.1 = s').
Proof.
  unfold FetchGit, update_clone. split; [|split].
  - intros Hd. rewrite (proj2 (String.eqb_neq _ _) Hd). destruct (fetch sys s w) as [w1 [[]|e]]; [|done].
    by destruct (wrapM _ _ w1) as [w2 [h|e]].
  - intros -> [e He]. destruct (clone sys s w) as [w1 r]. simpl in He. by subst r.
  - intros s' -> He. destruct (clone sys s w) as [w1 r]. simpl in He. subst r. cbn.
    by destruct (wrapM _ _ w1) as [w2 [h|e]].
Qed.

Lemma fetch_git_valid {W} (sys : Git W) s w m h :
  (FetchGit sys s w).2.2 = Returned (Ok (m, h)) ->
  let s' := (FetchGit sys s w).2.1 in
  Load yaml renderTemplate (git_fs sys (FetchGit sys s w).1) (JoinPath [g_dir s'; g_path s'])
    = Returned (Ok m) /\ Validate semver zip (git_fs sys (FetchGit sys s w).1) m = [].
Proof.
  unfold FetchGit. destruct (update_clone sys s w) as [w1 [s1 [u|e]]]; [|done].
  destruct (wrapM _ _ w1) as [w2 [hash|e]]; [|done]. cbn [fst snd].
  intros (m' & Hm%wrapO_Ok & Hv)%bindO_Ok. by injection Hv as (-> & -> & Hval)%validated_valid.
Qed.
End source.

Arguments git_fs {W}. Arguments MkdirTemp {W}. Arguments RemoveAll {W}. Arguments git {W}.

(** ** source.go *)

(** The interface the controller uses. *)
Record ManifestSource (W : Type) := mkSource { Fetch : W -> W * outcome (Manifest * string) }.
Arguments Fetch {W}.

(** Implementations validate the manifest, against the file tree they read. *)
Class ValidSource {U : Unicode} {W : Type} (semver : Semver) (zip : list (string * string) -> string)
    (fs_of : W -> Filesystem) (src : ManifestSource W) : Prop :=
  fetch_valid w w' m h :
    Fetch src w = (w', Returned (Ok (m, h))) -> Validate semver zip (fs_of w') m = [].

Definition file_source {U : Unicode} {W : Type} (yaml : Yaml) (renderTemplate : Template)
    (semver : Semver) (zip : list (string * string) -> string) (fs_of : W -> Filesystem)
    (s : FileSource) : ManifestSource W :=
  mkSource W (fun w => (w, FetchFile yaml renderTemplate semver zip (fs_of w) s)).

(** The clone directory is part of the world. *)
Definition git_source {U : Unicode} {W : Type} (yaml : Yaml) (renderTemplate : Template)
    (semver : Semver) (zip : list (string * string) -> string) (sys : Git W) :
    ManifestSource (W * GitSource) :=
  mkSource (W * GitSource) (fun ws =>
    let '(w, (s, r)) := FetchGit yaml renderTemplate semver zip sys ws.2 ws.1 in ((w, s), r)).

#[export] Instance file_source_valid {U : Unicode} {W} yaml renderTemplate semver zip
    (fs_of : W -> Filesystem) s :
  ValidSource semver zip fs_of (file_source yaml renderTemplate semver zip fs_of s).
Proof. intros w w' m h [= <- Hf]. by destruct (fetch_file_valid _ _ _ _ _ _ _ _ Hf) as (_ & ? & _). Qed.

#[export] Instance git_source_valid {U : Unicode} {W} yaml renderTemplate semver zip (sys : Git W) :
  ValidSource semver zip (fun ws => git_fs sys ws.1) (git_source yaml renderTemplate semver zip sys).
Proof.
  intros [w s] [w' s'] m h. simpl.
  pose proof (fetch_git_valid yaml renderTemplate semver zip sys s w m h) as Hv.
  destruct (FetchGit _ _ _ _ sys s w) as [w1 [s1 r]]. intros [= <- <- ->].
  by apply Hv.
Qed.
