(* ===== verification/ValidateProps.v ===== *)
(** * What validation establishes

    [Validate] accepts exactly the manifests that are valid by a declarative
    specification, and a valid manifest's references all point to resources that
    are applied earlier. *)
From Stdlib Require Import ZArith Lia Bool Ascii.
From Stdlib Require String.
From S2P Require Import Prelude GoStr GoValue Filepath Manifest Regexp SkillPkg Validate.
From S2P Require Import Engine EngineProps.

Local Open Scope string_scope.

(** ** Names *)

(** Lower-case letters, digits and inner hyphens. *)
Definition kebab (s : string) : Prop :=
  exists l, bytes_of s = l /\ Forall (fun c => lower_digit_hyphen c = true) l /\
    match l with [] => False | c :: _ => lower_digit c = true end /\
    match List.last l "-"%char with c => lower_digit c = true end.

Definition sys_key (s : string) : Prop :=
  (1 <= String.length s <= 100)%nat /\ Forall (fun c => sys_key_char c = true) (bytes_of s).

Lemma lang_star_cls f s : lang (RStar (RCls f)) s <-> Forall (fun c => f c = true) s.
Proof.
  split.
  - remember (RStar (RCls f)) as r eqn:E. intros H. induction H; simplify_eq; [constructor|].
    inversion H; subst. simpl. constructor; auto.
  - induction 1 as [|c s Hc Hs IH]; [constructor|]. apply (lang_star_cons _ [c] s); [|done].
    by constructor.
Qed.

Lemma lang_cls f s : lang (RCls f) s <-> exists c, s = [c] /\ f c = true.
Proof.
  split; [intros H; inversion H; subst; eauto|]. intros (c & -> & Hc). by constructor.
Qed.

Lemma lang_cat_iff a b s : lang (RCat a b) s <-> exists u v, s = (u ++ v)%list /\ lang a u /\ lang b v.
Proof.
  split; [intros H; inversion H; subst; eauto|]. intros (u & v & -> & ? & ?). by constructor.
Qed.

Lemma lang_opt a s : lang (ROpt a) s <-> s = [] \/ lang a s.
Proof.
  split.
  - intros H. inversion H as [| |? ? ? H1|? ? ? H1| | |]; subst; [left; by inversion H1|by right].
  - intros [->|H]; [apply lang_alt_l; constructor|by apply lang_alt_r].
Qed.

Lemma lower_digit_class c : lower_digit c = true -> lower_digit_hyphen c = true.
Proof. unfold lower_digit_hyphen. by intros ->. Qed.

Lemma keyRe_kebab s : MatchString keyRe s = true <-> kebab s.
Proof.
  rewrite match_lang. unfold keyRe, kebab. rewrite lang_cat_iff. split.
  - intros (u & v & -> & Hu & Hv). exists (u ++ v)%list. split; [done|].
    apply lang_cls in Hu as (c & -> & Hc). apply lang_opt in Hv as [->|Hv].
    + split; [repeat constructor; by apply lower_digit_class|done].
    + apply lang_cat_iff in Hv as (x & y & -> & Hx & Hy). apply lang_star_cls in Hx.
      apply lang_cls in Hy as (d & -> & Hd). split.
      * apply Forall_app. split; [repeat constructor; by apply lower_digit_class|].
        apply Forall_app. split; [done|]. repeat constructor. by apply lower_digit_class.
      * split; [done|]. rewrite (assoc_L (++)), List.last_last. done.
  - intros (l & -> & Hall & Hfirst & Hlast). destruct l as [|c l]; [done|].
    exists [c], l. split; [done|]. split; [by constructor|]. apply lang_opt.
    destruct l as [|d l] using rev_ind; [by left|]. right. apply lang_cat_iff. exists l, [d].
    split; [done|]. apply Forall_cons in Hall as [_ Hall]. apply Forall_app in Hall as [Hall _].
    split; [by apply lang_star_cls|]. constructor.
    by rewrite app_comm_cons, List.last_last in Hlast.
Qed.

Lemma lang_upto n f s :
  lang (RUpTo n (RCls f)) s <-> (1 <= length s <= n)%nat /\ Forall (fun c => f c = true) s.
Proof.
  revert s. induction n as [|n IH]; intros s.
  { split; [intros H; inversion H|]. intros [? _]. lia. }
  assert (H1 : lang (RCls f) s <-> (1 <= length s <= 1)%nat /\ Forall (fun c => f c = true) s).
  { rewrite lang_cls. split.
    - intros (c & -> & Hc). split; [simpl; lia|by repeat constructor].
    - intros [Hl Hf]. destruct s as [|c [|d s]]; simpl in Hl; try lia.
      apply Forall_cons in Hf as [? _]. eauto. }
  destruct n as [|n]; [done|]. change (RUpTo (S (S n)) (RCls f)) with
    (RCat (RCls f) (ROpt (RUpTo (S n) (RCls f)))). rewrite lang_cat_iff. split.
  - intros (u & v & -> & Hu & Hv). apply lang_cls in Hu as (c & -> & Hc).
    apply lang_opt in Hv as [->|Hv]; [split; [simpl; lia|by repeat constructor]|].
    apply IH in Hv as [Hl Hf]. split; [simpl; lia|]. by constructor.
  - intros [Hl Hf]. destruct s as [|c s]; [simpl in Hl; lia|]. apply Forall_cons in Hf as [Hc Hf].
    exists [c], s. split; [done|]. split; [by constructor|]. apply lang_opt.
    destruct s as [|d s]; [by left|]. right. apply IH. split; [simpl in *; lia|done].
Qed.

Lemma sysConfigKeyRe_key s : MatchString sysConfigKeyRe s = true <-> sys_key s.
Proof.
  rewrite match_lang. unfold sysConfigKeyRe, sys_key. rewrite lang_upto.
  by replace (String.length s) with (length (bytes_of s)) by (induction s; simpl; congruence).
Qed.

(** ** References *)

(** The resources a resource refers to. *)
Definition refs (r : Resource) : list (ResourceKind * string) :=
  let spec := specMap r in
  let one k s := if String.eqb s "" then [] else [(k, s)] in
  let agentKey := one KindAgent (specStr spec "agentKey") in
  if String.eqb (Kind r) KindAgent then one KindProvider (specStr spec "provider")
  else if String.eqb (Kind r) KindChannel then agentKey
  else if String.eqb (Kind r) KindCronJob then agentKey
  else if String.eqb (Kind r) KindMCPServer then
    match getAs asMap "grants" spec with
    | Some grants => map (pair KindAgent) (specStrSlice grants "agents")
    | None => []
    end
  else if String.eqb (Kind r) KindSecureCLIGrant then
    agentKey ++ one KindSecureCLI (specStr spec "binaryName")
  else if String.eqb (Kind r) KindAgentTeam then
    one KindAgent (specStr spec "lead") ++ map (pair KindAgent) (specStrSlice spec "members")
  else if String.eqb (Kind r) KindAgentLink then
    match Split (Name r) "--" with
    | [a; b] => [(KindAgent, a); (KindAgent, b)]
    | _ => []
    end
  else []%list.

(** An AgentLink is named after its ends, and its spec does not contradict them. *)
Definition link_ok (r : Resource) : Prop :=
  Kind r = KindAgentLink ->
  exists a b, Split (Name r) "--" = [a; b] /\ a <> "" /\ b <> "" /\
    (specStr (specMap r) "sourceAgent" = "" \/ specStr (specMap r) "sourceAgent" = a) /\
    (specStr (specMap r) "targetAgent" = "" \/ specStr (specMap r) "targetAgent" = b).

Definition refs_ok (m : Manifest) (r : Resource) : Prop :=
  Forall (fun x => x ∈ map resource_id (Resources m)) (refs r).

Lemma declared_spec m k n : declared m k n = true <-> (k, n) ∈ map resource_id (Resources m).
Proof.
  unfold declared. rewrite existsb_exists, list_elem_of_fmap. split.
  - intros (r & Hr & H). split_and_true. exists r. apply String.eqb_eq in H as <-, H0 as <-.
    by apply list_elem_of_In in Hr.
  - intros (r & [= -> ->] & Hr). exists r. rewrite !String.eqb_refl. by apply list_elem_of_In in Hr.
Qed.

Section refs.
Context {U : Unicode} (m : Manifest).

Definition one_ok (k : ResourceKind) (s : string) : Prop :=
  Forall (fun x => x ∈ map resource_id (Resources m)) (if String.eqb s "" then [] else [(k, s)]).

Lemma check_decl_nil prefix what k s :
  check_decl m prefix what k s = [] <-> (k, s) ∈ map resource_id (Resources m).
Proof. unfold check_decl. rewrite <- declared_spec. by destruct (declared m k s). Qed.

Lemma check_ref_nil prefix what k s : check_ref m prefix what k s = [] <-> one_ok k s.
Proof.
  unfold check_ref, one_ok. destruct (String.eqb s ""); [split; [constructor|done]|].
  rewrite Forall_cons, Forall_nil, <- declared_spec. destruct (declared m k s); naive_solver.
Qed.

Lemma check_decls_nil prefix what k l :
  concat (map (check_decl m prefix what k) l) = [] <->
  Forall (fun x => x ∈ map resource_id (Resources m)) (map (pair k) l).
Proof.
  rewrite concat_nil_iff. rewrite !Forall_map. apply Forall_proper; [|done].
  intros s. apply check_decl_nil.
Qed.

Lemma if_nil_error (b : bool) (e : error) : (if b then [e] else []) = [] <-> b = false.
Proof. by destruct b. Qed.

Lemma validate_ref_nil i r : validate_ref m i r = [] <-> refs_ok m r /\ link_ok r.
Proof.
  unfold validate_ref, refs_ok, refs, link_ok.
  assert (Hother : forall k, String.eqb (Kind r) k = true -> k <> KindAgentLink ->
                   (Kind r = KindAgentLink -> False)) by (intros k ->%String.eqb_eq; done).
  repeat match goal with
  | |- context [if String.eqb (Kind r) ?k then _ else _] =>
      let E := fresh "E" in destruct (String.eqb (Kind r) k) eqn:E
  end;
  rewrite ?app_eq_nil_iff, ?Forall_app, ?check_ref_nil, ?check_decls_nil.
  all: try (split; [intros H; split; [tauto|intros Hk; exfalso; eapply Hother; eauto; done]|tauto]).
  - destruct (getAs asMap "grants" (specMap r)) as [g|]; rewrite ?check_decls_nil;
      (split; [intros H; split; [try done; constructor|intros Hk; exfalso; eapply Hother; eauto; done]|tauto]).
  - unfold splitAgentLinkName.
    destruct (Split (Name r) "--") as [|a [|b [|c l]]] eqn:Es;
      try (split; [done|]; intros [_ H]; apply String.eqb_eq in E5; destruct (H E5) as (x & y & ? & _); done).
    destruct (String.eqb_spec a "") as [->|Ha]; [split; [done|]; intros [_ H];
      apply String.eqb_eq in E5; destruct (H E5) as (x & y & [= <- <-] & ? & _); done|].
    destruct (String.eqb_spec b "") as [->|Hb]; [split; [done|]; intros [_ H];
      apply String.eqb_eq in E5; destruct (H E5) as (x & y & [= <- <-] & _ & ? & _); done|].
    cbn [orb]. rewrite !app_eq_nil_iff, !if_nil_error, !check_decl_nil, !Forall_cons, !andb_false_iff,
      !negb_false_iff, !String.eqb_eq. split.
    + intros (H1 & H2 & H3 & H4). split; [done|]. intros _. exists a, b. done.
    + intros [[H1 [H2 _]] H]. apply String.eqb_eq in E5.
      destruct (H E5) as (x & y & [= <- <-] & _ & _ & ? & ?). done.
  - split; [|done]. intros _. split; [constructor|]. intros Hk. by rewrite Hk in E5.
Qed.

Lemma validateReferences_nil :
  validateReferences m = [] <-> Forall (fun r => refs_ok m r /\ link_ok r) (Resources m).
Proof.
  unfold validateReferences. rewrite concat_nil_iff.
  rewrite !Forall_forall. split.
  - intros H r Hr. apply list_elem_of_lookup in Hr as [i Hi].
    apply (validate_ref_nil i), H. apply list_elem_of_lookup. exists i.
    by rewrite list_lookup_imap, Hi.
  - intros H l Hl. apply list_elem_of_lookup in Hl as [i Hi].
    rewrite list_lookup_imap in Hi. destruct (Resources m !! i) as [r|] eqn:E; simplify_eq/=.
    apply validate_ref_nil, H. by eapply list_elem_of_lookup_2.
Qed.
End refs.

(** ** Valid manifests *)

Section validity.
Context {U : Unicode} (sv : Semver) (zip : list (string * string) -> string) (fs : Filesystem).

(** A skill's spec: known enum values, distinct string tags, a packable source
    directory and supported version constraints. *)
Record skill_ok (spec : gomap) : Prop := {
  sk_visibility v : getAs asStr "visibility" spec = Some v -> v = "" \/ v ∈ skillVisibilityValues;
  sk_status v : getAs asStr "status" spec = Some v -> v = "" \/ v ∈ skillStatusValues;
  sk_tags : mget "tags" spec = None \/ mget "tags" spec = Some VNil \/
            exists l, mget "tags" spec = Some (VSlice (map VStr l)) /\ NoDup l;
  sk_source src : getAs asStr "sourceDir" spec = Some src -> src <> "" ->
                  is_ok (PackDir zip fs src) = true;
  sk_requires cli : requires_cli spec = Some cli ->
    Forall (fun kv => exists c, kv.2 = VStr c /\ validateCliConstraintShape sv c = None) cli
}.

(** One resource, apart from references. *)
Record resource_ok (r : Resource) : Prop := {
  ro_kind : Kind r ∈ ApplyOrder;
  ro_name : if String.eqb (Kind r) KindSystemConfig then sys_key (Name r) else kebab (Name r);
  ro_spec : is_Some (Spec r);
  ro_skill spec : Kind r = KindSkill -> Spec r = Some spec -> skill_ok spec
}.

Record valid_manifest (m : Manifest) : Prop := {
  vm_version : APIVersion m = "gcplane.io/v1";
  vm_kind : ManifestKind m = "Manifest";
  vm_resources : Forall resource_ok (Resources m);
  vm_unique : NoDup (map uid (Resources m));
  vm_refs : Forall (fun r => refs_ok m r /\ link_ok r) (Resources m)
}.

Lemma mem_str_spec s l : mem_str s l = true <-> s ∈ l.
Proof.
  unfold mem_str. rewrite existsb_exists. setoid_rewrite String.eqb_eq.
  rewrite list_elem_of_In. naive_solver.
Qed.

Lemma check_enum_nil prefix field values spec :
  check_enum prefix field values spec = [] <->
  forall v, getAs asStr field spec = Some v -> v = "" \/ v ∈ values.
Proof.
  unfold check_enum. destruct (getAs asStr field spec) as [v|]; [|by split].
  rewrite if_nil_error, andb_false_iff, !negb_false_iff, String.eqb_eq, mem_str_spec. naive_solver.
Qed.

Lemma validate_tags_nil prefix i seen tags :
  validate_tags prefix i seen tags = [] <->
  exists l, tags = map VStr l /\ NoDup l /\ Forall (fun s => s ∉ seen) l.
Proof.
  revert i seen. induction tags as [|t tags IH]; intros i seen; cbn [validate_tags].
  { split; [|done]. intros _. exists []. split; [done|]. split; constructor. }
  destruct t as [| | | | | |s| | | | |]; cbn [asStr];
    try (split; [done|]; by intros ([|? ?] & ? & _)).
  rewrite app_eq_nil_iff, if_nil_error, IH. split.
  - intros (Hs & l & -> & Hn & Hf). exists (s :: l). split; [done|].
    apply not_true_iff_false in Hs. rewrite mem_str_spec in Hs.
    rewrite Forall_forall in Hf. split.
    + apply NoDup_cons. split; [|done]. intros Hin. apply (Hf s Hin). left.
    + apply Forall_cons. split; [done|]. apply Forall_forall. intros x Hx Hseen.
      apply (Hf x Hx). by right.
  - intros ([|x l] & [= -> ->] & Hn & Hf). apply NoDup_cons in Hn as [Hx Hn].
    apply Forall_cons in Hf as [Hs Hf]. split.
    + apply not_true_iff_false. by rewrite mem_str_spec.
    + exists l. split; [done|]. split; [done|]. apply Forall_forall. intros y Hy.
      rewrite Forall_forall in Hf. rewrite not_elem_of_cons. split; [congruence|auto].
Qed.

Lemma validate_cli_nil prefix cli :
  concat (map (validate_cli sv prefix) cli) = [] <->
  Forall (fun kv => exists c, kv.2 = VStr c /\ validateCliConstraintShape sv c = None) cli.
Proof.
  rewrite concat_nil_iff, Forall_map. apply Forall_proper; [|done]. intros [k v]. simpl.
  destruct v; simpl; try (split; [done|by intros (? & ? & _)]).
  destruct (validateCliConstraintShape sv s) eqn:E; (split; [try done|]);
    [|intros _; eauto|done].
  intros (c & [= <-] & H). congruence.
Qed.

Lemma validateSkillSpec_nil prefix spec :
  validateSkillSpec sv zip fs prefix (Some spec) = [] <-> skill_ok spec.
Proof.
  unfold validateSkillSpec. rewrite !app_eq_nil_iff, !check_enum_nil.
  assert (Htags : match mget "tags" spec with
      | None | Some VNil => []
      | Some (VSlice list) => validate_tags prefix 0 [] list
      | Some _ => [errorf (prefix +:+ ": spec.tags must be a list of strings")]
      end = [] <->
      mget "tags" spec = None \/ mget "tags" spec = Some VNil \/
      exists l, mget "tags" spec = Some (VSlice (map VStr l)) /\ NoDup l).
  { destruct (mget "tags" spec) as [v|]; [|naive_solver].
    destruct v; try (split; [done|]; naive_solver); [naive_solver|].
    rewrite validate_tags_nil. split.
    - intros (l' & -> & Hn & _). eauto 10.
    - intros [?|[?|(l' & [= ->] & Hn)]]; [done..|]. exists l'. split; [done|]. split; [done|].
      apply Forall_forall. intros ? _. apply not_elem_of_nil. }
  rewrite Htags.
  assert (Hsrc : match getAs asStr "sourceDir" spec with
      | Some src => if String.eqb src "" then []
          else match PackDir zip fs src with
               | Err err => [wrapf (prefix +:+ ": spec.sourceDir " +:+ Quote src +:+ ": ") err ""]
               | Ok _ => []
               end
      | None => []
      end = [] <->
      forall src, getAs asStr "sourceDir" spec = Some src -> src <> "" -> is_ok (PackDir zip fs src) = true).
  { destruct (getAs asStr "sourceDir" spec) as [src|]; [|naive_solver].
    destruct (String.eqb_spec src "") as [->|Hs]; [naive_solver|].
    destruct (PackDir zip fs src) eqn:E; split; try done.
    - intros _ src' [= <-] _. by rewrite E.
    - intros H. specialize (H src eq_refl Hs). by rewrite E in H. }
  rewrite Hsrc.
  assert (Hcli : match requires_cli spec with
      | Some cli => concat (map (validate_cli sv prefix) cli)
      | None => []
      end = [] <->
      forall cli, requires_cli spec = Some cli ->
        Forall (fun kv => exists c, kv.2 = VStr c /\ validateCliConstraintShape sv c = None) cli).
  { destruct (requires_cli spec) as [cli|]; [|naive_solver]. rewrite validate_cli_nil. naive_solver. }
  rewrite Hcli. split.
  - by intros (? & ? & ? & ? & ?).
  - by intros [].
Qed.

Lemma validKind_spec k : validKind k = true <-> k ∈ ApplyOrder.
Proof.
  unfold validKind. split.
  - intros H. destruct (mget k validKinds) as [b|] eqn:E; [|done].
    apply mget_Some_in in E. unfold validKinds in E.
    repeat (apply elem_of_cons in E as [[= -> ->]|E];
      [apply (bool_decide_unpack _); vm_compute; exact I|]).
    by apply not_elem_of_nil in E.
  - intros H. unfold ApplyOrder in H.
    repeat (apply elem_of_cons in H as [->|H]; [reflexivity|]). by apply not_elem_of_nil in H.
Qed.

Lemma validate_name_nil prefix r :
  validate_name prefix r = [] <->
  if String.eqb (Kind r) KindSystemConfig then sys_key (Name r) else kebab (Name r).
Proof.
  unfold validate_name. destruct (String.eqb_spec (Name r) "") as [->|Hn].
  - split; [done|]. destruct (String.eqb (Kind r) KindSystemConfig).
    + intros [[H _] _]. simpl in H. lia.
    + intros (l & <- & _ & H & _). done.
  - destruct (String.eqb (Kind r) KindSystemConfig);
      rewrite if_nil_error, negb_false_iff; [apply sysConfigKeyRe_key|apply keyRe_kebab].
Qed.

Lemma validate_resources_nil i seen rs :
  validate_resources sv zip fs i seen rs = [] <->
  Forall resource_ok rs /\ NoDup (map uid rs) /\ Forall (fun r => uid r ∉ seen) rs.
Proof.
  revert i seen. induction rs as [|r rs IH]; intros i seen; cbn [validate_resources].
  { split; [|done]. intros _. split; [constructor|]. split; constructor. }
  rewrite !app_eq_nil_iff, IH, validate_name_nil. cbn [map].
  generalize ("resources[" +:+ Itoa (Z.of_nat i) +:+ "]"). intros pre.
  rewrite NoDup_cons, !Forall_cons.
  assert (Hk : (if validKind (Kind r) then [] else
      [errorf (pre +:+ ": unknown kind " +:+ Quote (Kind r))]) = []
      <-> Kind r ∈ ApplyOrder).
  { rewrite <- validKind_spec. by destruct (validKind (Kind r)). }
  rewrite Hk.
  rewrite if_nil_error.
  assert (Hu : mem_str (uid r) seen = false <-> uid r ∉ seen).
  { by rewrite <- not_true_iff_false, mem_str_spec. }
  rewrite Hu.
  assert (Hseen : Forall (fun r0 => uid r0 ∉ uid r :: seen) rs <->
                  uid r ∉ map uid rs /\ Forall (fun r0 => uid r0 ∉ seen) rs).
  { rewrite !Forall_forall. rewrite list_elem_of_fmap. setoid_rewrite not_elem_of_cons. split.
    - intros H. split; [intros (y & Hy & Hin); destruct (H y Hin); congruence|]. intros y Hy. by apply (H y).
    - intros [H1 H2] y Hy. split; [|by apply H2]. intros E; apply H1; eauto. }
  rewrite Hseen.
  assert (Hs : match Spec r with
      | Some _ => []
      | None => [errorf (pre +:+ ": spec is required for " +:+ uid r)]
      end = [] <-> is_Some (Spec r)).
  { destruct (Spec r); [split; eauto|]. split; [done|]. by intros [? ?]. }
  rewrite Hs.
  assert (Hskill : is_Some (Spec r) ->
      (if String.eqb (Kind r) KindSkill
       then validateSkillSpec sv zip fs pre (Spec r) else []) = []
      <-> (forall spec, Kind r = KindSkill -> Spec r = Some spec -> skill_ok spec)).
  { intros [spec ->]. destruct (String.eqb_spec (Kind r) KindSkill) as [E|E]; [|naive_solver].
    rewrite validateSkillSpec_nil. split; [by intros ? ? _ [= <-]|auto]. }
  split.
  - intros (H1 & H2 & H3 & H4 & H5 & H6). pose proof (proj1 (Hskill H4) H5).
    destruct H6 as (? & ? & ? & ?). split; [split; [by split|done]|]. split; done.
  - intros ((Hr & H1) & (H2 & H3) & H4 & H5). destruct Hr as [R1 R2 R3 R4].
    pose proof (proj2 (Hskill R3) R4). by repeat split.
Qed.

Lemma Validate_nil m : Validate sv zip fs m = [] <-> valid_manifest m.
Proof.
  unfold Validate. rewrite !app_eq_nil_iff, validate_resources_nil, validateReferences_nil.
  assert (Hif : forall (b : bool) (e : error), (if b then [] else [e]) = [] <-> b = true)
    by (intros [] e; done).
  rewrite !Hif, !String.eqb_eq. split.
  - by intros (H1 & H2 & (H3 & H4 & _) & H5).
  - intros []. repeat split; try done. apply Forall_forall. intros ? _. apply not_elem_of_nil.
Qed.
End validity.

(** ** References and the dependency order *)

Lemma kind_rank_refs r x : x ∈ refs r -> (kind_rank x.1 < kind_rank (Kind r))%nat.
Proof.
  unfold refs. intros H.
  repeat match type of H with
  | context [if String.eqb (Kind r) ?k then _ else _] =>
      destruct (String.eqb_spec (Kind r) k) as [->|]
  end;
  repeat match type of H with
  | context [if String.eqb ?s "" then _ else _] => destruct (String.eqb s "")
  | context [match ?v with _ => _ end] => destruct v
  end;
  rewrite ?elem_of_app, ?elem_of_cons in H;
  repeat match goal with
  | H : _ \/ _ |- _ => destruct H as [H|H]
  | H : _ = _ |- _ => subst x
  | H : _ ∈ [] |- _ => by apply not_elem_of_nil in H
  | H : _ ∈ map _ _ |- _ => apply list_elem_of_fmap in H as (? & -> & _)
  end; vm_compute; lia.
Qed.

Lemma concat_kinds_order (f : ResourceKind -> list Resource) ks k1 k2 r1 r2 :
  (forall k r, r ∈ f k -> Kind r = k) ->
  r1 ∈ f k1 -> r2 ∈ f k2 -> k1 ∈ ks -> k2 ∈ ks ->
  (index_of k1 ks < index_of k2 ks)%nat ->
  forall j, concat (map f ks) !! j = Some r2 ->
  exists i, (i < j)%nat /\ concat (map f ks) !! i = Some r1.
Proof.
  intros Hf H1 H2. induction ks as [|k ks IH]; intros Hk1 Hk2 Hlt j Hj; [by apply not_elem_of_nil in Hk1|].
  cbn [index_of map concat] in *.
  destruct (String.eqb_spec k2 k) as [->|Hne2]; [lia|].
  assert (Hj2 : (length (f k) <= j)%nat).
  { destruct (decide (j < length (f k))%nat) as [Hl|]; [|lia].
    rewrite lookup_app_l in Hj by done. apply list_elem_of_lookup_2 in Hj.
    apply Hf in Hj. rewrite (Hf _ _ H2) in Hj. congruence. }
  destruct (String.eqb_spec k1 k) as [->|Hne1].
  - apply list_elem_of_lookup in H1 as [i Hi]. exists i. split.
    + apply lookup_lt_Some in Hi. lia.
    + by apply lookup_app_l_Some.
  - apply elem_of_cons in Hk1 as [?|Hk1]; [done|]. apply elem_of_cons in Hk2 as [?|Hk2]; [done|].
    rewrite lookup_app_r in Hj by done.
    destruct (IH Hk1 Hk2 ltac:(lia) _ Hj) as (i & Hi & Hr). exists (length (f k) + i)%nat.
    split; [lia|]. rewrite lookup_app_r by lia. by replace (length (f k) + i - length (f k))%nat with i by lia.
Qed.

(** ** Properties *)

(** C24: validation reports no error exactly for the valid manifests: the supported
    version and kind, known resource kinds, well-formed and distinct names, specs
    present, well-formed skills, and references that all resolve. *)
Theorem validate_exact {U : Unicode} sv zip fs m :
  Validate sv zip fs m = [] <-> valid_manifest sv zip fs m.
Proof. apply Validate_nil. Qed.

(** C25: in a manifest that passes validation, every resource is processed after the
    resources it refers to: each reference resolves to a resource at an earlier
    position of the engine's sequence. *)
Theorem references_applied_first {U : Unicode} sv zip fs m j r x :
  Validate sv zip fs m = [] ->
  apply_sequence m !! j = Some r -> x ∈ refs r ->
  exists i s, (i < j)%nat /\ apply_sequence m !! i = Some s /\ resource_id s = x.
Proof.
  intros [_ _ Hres _ Href]%Validate_nil Hj Hx.
  assert (Hbk : forall k q, q ∈ byKind m k <-> q ∈ Resources m /\ Kind q = k).
  { intros k q. unfold byKind. by rewrite !list_elem_of_In, filter_In, String.eqb_eq. }
  assert (Hr : r ∈ Resources m).
  { apply list_elem_of_lookup_2 in Hj. unfold apply_sequence in Hj.
    apply list_elem_of_In, in_concat in Hj as (l & Hl & Hin).
    apply in_map_iff in Hl as (k & <- & _). apply list_elem_of_In, Hbk in Hin. tauto. }
  rewrite Forall_forall in Href, Hres. destruct (Href r Hr) as [Hok _].
  unfold refs_ok in Hok. rewrite Forall_forall in Hok. specialize (Hok x Hx).
  apply list_elem_of_fmap in Hok as (s & -> & Hs).
  pose proof (kind_rank_refs r (resource_id s) Hx) as Hrank. simpl in Hrank.
  destruct (concat_kinds_order (byKind m) ApplyOrder (Kind s) (Kind r) s r) with (j := j)
    as (i & Hi & Hsi); try done.
  - intros k q Hq. by apply Hbk in Hq as [_ ?].
  - by apply Hbk.
  - by apply Hbk.
  - by apply Hres.
  - by apply Hres.
  - exists i, s. done.
Qed.

Definition valid_ex : Manifest :=
  mkManifest "gcplane.io/v1" "Manifest" (mkMetadata "prod" "") (mkConnection "http://x" "t" "" "")
    [ mkResource KindChannel "slack" [] [] (Some [("agentKey", VStr "bot")]);
      mkResource KindAgent "bot" [] [] (Some [("provider", VStr "openai")]);
      mkResource KindProvider "openai" [] [] (Some []) ].

Definition no_semver : Semver := mkSemver (fun _ => false) (fun _ _ => 0%Z).

Lemma references_applied_first_witness :
  exists i s, (i < 2)%nat /\ apply_sequence valid_ex !! i = Some s /\ resource_id s = (KindAgent, "bot").
Proof.
  apply (@references_applied_first ascii_unicode no_semver (fun _ => "") (mkFs (FDir []) []) valid_ex 2
           (mkResource KindChannel "slack" [] [] (Some [("agentKey", VStr "bot")]))).
  - vm_compute. reflexivity.
  - reflexivity.
  - vm_compute. left.
Defined.
