(* ===== verification/JsonParse.v ===== *)
(** * JSON decoding

    [json.Unmarshal] as the program uses it: into [any] and [map[string]any], and
    into the small structs of the provider's responses.  The text is parsed into a
    syntax tree that keeps member order and repeated names ([jval]), which the
    decoders then read: numbers become float64, correctly rounded; invalid UTF-8
    and lone surrogates become U+FFFD; a struct field accepts its name in any
    letter case.  The text of a decoding error is not modelled beyond its kind. *)
From Stdlib Require Import ZArith Lia Bool Ascii.
From Stdlib Require Import Floats.SpecFloat.
From Stdlib Require String.
From S2P Require Import Prelude GoStr GoValue.

Local Open Scope Z_scope.

(** A number is [(-1)^neg * m * 10^e]; [plain] when its literal has neither a
    fraction nor an exponent, which decoding into an integer type requires. *)
#[warnings="-register-all"]
Inductive jval :=
  | JNull
  | JBool (b : bool)
  | JNum (neg : bool) (m e : Z) (plain : bool)
  | JStr (s : string)
  | JArr (l : list jval)
  | JObj (m : list (string * jval)).

(** ** Scanning *)

Definition is_ws (c : ascii) : bool :=
  (byteZ c =? 32) || (byteZ c =? 9) || (byteZ c =? 13) || (byteZ c =? 10).

Definition skip_ws (s : list ascii) : list ascii := drop_while is_ws s.

Definition hex_value (c : Z) : option Z :=
  if between 48 c 57 then Some (c - 48)
  else if between 97 c 102 then Some (c - 87)
  else if between 65 c 70 then Some (c - 55)
  else None.

(** The bytes between the quotes of a string literal, escapes included. *)
Fixpoint scan_string (s : list ascii) : option (list ascii * list ascii) :=
  match s with
  | [] => None
  | c :: t =>
    if byteZ c =? 34 then Some ([], t)
    else if byteZ c <? 32 then None
    else if byteZ c =? 92 then
      match t with
      | e :: t' =>
        if existsb (Ascii.eqb e) (bytes_of "bfnrtu\/" ++ [byte_of 34])
        then match scan_string t' with Some (r, rest) => Some (c :: e :: r, rest) | None => None end
        else None
      | [] => None
      end
    else match scan_string t with Some (r, rest) => Some (c :: r, rest) | None => None end
  end.

Definition hex4 (a b c d : runeseg) : option Z :=
  match hex_value a.1, hex_value b.1, hex_value c.1, hex_value d.1 with
  | Some x, Some y, Some z, Some w => Some (((x * 16 + y) * 16 + z) * 16 + w)
  | _, _, _, _ => None
  end.

Definition surrogate (r : Z) : bool := between 55296 r 57343.
Definition high_surrogate (r : Z) : bool := between 55296 r 56319.
Definition low_surrogate (r : Z) : bool := between 56320 r 57343.

Definition simple_escape (c : Z) : Z :=
  if c =? 98 then 8 else if c =? 102 then 12 else if c =? 110 then 10
  else if c =? 114 then 13 else if c =? 116 then 9 else c.

(** The runes a string literal denotes, [None] on a malformed [\u] escape. *)
Fixpoint unquote (l : list runeseg) : option (list Z) :=
  match l with
  | [] => Some []
  | (92, _) :: (117, _) :: h1 :: h2 :: h3 :: h4 :: t =>
    match hex4 h1 h2 h3 h4 with
    | None => None
    | Some r =>
      match t with
      | (92, _) :: (117, _) :: g1 :: g2 :: g3 :: g4 :: t' =>
        match hex4 g1 g2 g3 g4 with
        | Some q =>
          if high_surrogate r && low_surrogate q
          then option_map (cons ((r - 55296) * 1024 + (q - 56320) + 65536)) (unquote t')
          else option_map (cons (if surrogate r then RuneError else r)) (unquote t)
        | None => None
        end
      | _ => option_map (cons (if surrogate r then RuneError else r)) (unquote t)
      end
    end
  | (92, _) :: (117, _) :: _ => None
  | (92, _) :: (c, _) :: t => option_map (cons (simple_escape c)) (unquote t)
  | (r, _) :: t => option_map (cons r) (unquote t)
  end.

Definition parse_string (s : list ascii) : option (string * list ascii) :=
  match scan_string s with
  | Some (raw, rest) =>
    option_map (fun rs => (string_of_runes rs, rest)) (unquote (decode raw))
  | None => None
  end.

(** A run of digits: how many, their value after [acc], what follows. *)
Fixpoint scan_digits (n acc : Z) (s : list ascii) : Z * Z * list ascii :=
  match s with
  | c :: t => if ascii_digit (byteZ c) then scan_digits (n + 1) (acc * 10 + (byteZ c - 48)) t
              else (n, acc, s)
  | [] => (n, acc, s)
  end.

Definition first_is (z : Z) (s : list ascii) : bool :=
  match s with c :: _ => byteZ c =? z | [] => false end.

Definition parse_exponent (s : list ascii) : option (Z * list ascii) :=
  match s with
  | c :: t =>
    if (byteZ c =? 101) || (byteZ c =? 69) then
      let neg := first_is 45 t in
      let t := if neg || first_is 43 t then tail t else t in
      let '(n, e, rest) := scan_digits 0 0 t in
      if n =? 0 then None else Some (if neg then - e else e, rest)
    else Some (0, s)
  | [] => Some (0, s)
  end.

(** [-? (0 | [1-9][0-9]* ) (. [0-9]+)? ([eE] [+-]? [0-9]+)?]. *)
Definition parse_number (s : list ascii) : option (jval * list ascii) :=
  let neg := first_is 45 s in
  let s := if neg then tail s else s in
  let '(n, m, rest) := if first_is 48 s then (1, 0, tail s) else scan_digits 0 0 s in
  if n =? 0 then None
  else
    let '(k, m, rest) :=
      if first_is 46 rest then scan_digits 0 m (tail rest) else (-1, m, rest) in
    if k =? 0 then None
    else match parse_exponent rest with
         | Some (e, rest') =>
           Some (JNum neg m (e - Z.max 0 k) ((k <? 0) && (length rest =? length rest')%nat), rest')
         | None => None
         end.

Fixpoint parse_literal (w : list ascii) (v : jval) (s : list ascii) : option (jval * list ascii) :=
  match w, s with
  | [], _ => Some (v, s)
  | a :: w', b :: s' => if Ascii.eqb a b then parse_literal w' v s' else None
  | _ :: _, [] => None
  end.

Definition maxNestingDepth : Z := 10000.

(** A value, the elements of an array and the members of an object, each call
    spending one unit of fuel. *)
Fixpoint parse_value (fuel : nat) (depth : Z) (s : list ascii) : option (jval * list ascii) :=
  match fuel with
  | O => None
  | S n =>
    match skip_ws s with
    | [] => None
    | c :: t =>
      let b := byteZ c in
      if b =? 123 then
        if maxNestingDepth <=? depth then None
        else if first_is 125 (skip_ws t) then Some (JObj [], tail (skip_ws t))
        else match parse_members n (depth + 1) t with
             | Some (ms, rest) => Some (JObj ms, rest)
             | None => None
             end
      else if b =? 91 then
        if maxNestingDepth <=? depth then None
        else if first_is 93 (skip_ws t) then Some (JArr [], tail (skip_ws t))
        else match parse_elements n (depth + 1) t with
             | Some (vs, rest) => Some (JArr vs, rest)
             | None => None
             end
      else if b =? 34 then option_map (fun sr => (JStr sr.1, sr.2)) (parse_string t)
      else if b =? 116 then parse_literal (bytes_of "true") (JBool true) (c :: t)
      else if b =? 102 then parse_literal (bytes_of "false") (JBool false) (c :: t)
      else if b =? 110 then parse_literal (bytes_of "null") JNull (c :: t)
      else parse_number (c :: t)
    end
  end
with parse_elements (fuel : nat) (depth : Z) (s : list ascii) :
    option (list jval * list ascii) :=
  match fuel with
  | O => None
  | S n =>
    match parse_value n depth s with
    | None => None
    | Some (v, rest) =>
      let rest := skip_ws rest in
      if first_is 93 rest then Some ([v], tail rest)
      else if first_is 44 rest then
        match parse_elements n depth (tail rest) with
        | Some (vs, rest') => Some (v :: vs, rest')
        | None => None
        end
      else None
    end
  end
with parse_members (fuel : nat) (depth : Z) (s : list ascii) :
    option (list (string * jval) * list ascii) :=
  match fuel with
  | O => None
  | S n =>
    let s := skip_ws s in
    if first_is 34 s then
      match parse_string (tail s) with
      | None => None
      | Some (k, rest) =>
        let rest := skip_ws rest in
        if first_is 58 rest then
          match parse_value n depth (tail rest) with
          | None => None
          | Some (v, rest) =>
            let rest := skip_ws rest in
            if first_is 125 rest then Some ([(k, v)], tail rest)
            else if first_is 44 rest then
              match parse_members n depth (tail rest) with
              | Some (ms, rest') => Some ((k, v) :: ms, rest')
              | None => None
              end
            else None
          end
        else None
      end
    else None
  end.

Definition json_syntax_error : error := errorf "invalid JSON".
Definition json_type_error : error := errorf "json: cannot unmarshal value".

(** A complete document.  Every nested call reads at least one byte or is the
    first element of a bracket just read, so twice the length is enough fuel. *)
Definition parse_json (s : string) : res jval :=
  let bs := bytes_of s in
  match parse_value (2 * length bs + 2)%nat 0 bs with
  | Some (v, rest) => match skip_ws rest with [] => Ok v | _ => Err json_syntax_error end
  | None => Err json_syntax_error
  end.

(** ** Numbers *)

(** [strconv.ParseFloat(s, 64)]: correctly rounded, [None] when out of range. *)
Definition parse_float64 (neg : bool) (m e : Z) : option spec_float :=
  match m with
  | Zpos p =>
    let mag := Z.log2 m * 302 / 1000 + e in
    if 400 <? mag then None
    else if mag <? -400 then Some (S754_zero neg)
    else
      let f :=
        if 0 <=? e then binary_normalize 53 1024 (if neg then - (m * 10 ^ e) else m * 10 ^ e) 0 neg
        else
          let '(q, e', l) := SFdiv_core_binary 53 1024 m 0 (10 ^ (- e)) 0 in
          binary_round_aux 53 1024 neg q e' l in
      match f with S754_infinity _ => None | _ => Some f end
  | _ => Some (S754_zero neg)
  end.

(** ** Decoding into [any] *)

Fixpoint seq_res {A} (l : list (res A)) : res (list A) :=
  match l with
  | [] => Ok []
  | Ok a :: l' => res_map (cons a) (seq_res l')
  | Err e :: _ => Err e
  end.

Fixpoint to_any (v : jval) : res gval :=
  match v with
  | JNull => Ok VNil
  | JBool b => Ok (VBool b)
  | JNum neg m e _ =>
    match parse_float64 neg m e with Some f => Ok (VFloat64 f) | None => Err json_type_error end
  | JStr s => Ok (VStr s)
  | JArr l => res_map VSlice (seq_res (map to_any l))
  | JObj ms =>
    res_map (fun kvs => VMap (foldl (fun m kv => mset kv.1 kv.2 m) [] kvs))
      (seq_res (map (fun kv => res_map (pair kv.1) (to_any kv.2)) ms))
  end.

(** [json.Unmarshal(data, &v)] for [var v any]. *)
Definition Unmarshal (data : string) : res gval := res_bind (parse_json data) to_any.

(** ... for [var m map[string]any]: [null] leaves the map nil. *)
Definition to_map (v : jval) : res gomap :=
  match v with
  | JNull => Ok []
  | JObj _ => res_bind (to_any v) (fun g => match g with VMap m => Ok m | _ => Err json_type_error end)
  | _ => Err json_type_error
  end.

Definition UnmarshalMap (data : string) : res gomap := res_bind (parse_json data) to_map.

(** ** Decoding into structs *)

(** [foldName]: the case folding of field names, on the runes that fold to ASCII. *)
Definition fold_rune (r : Z) : Z :=
  if r =? 383 then 83 else if r =? 8490 then 75 else ascii_to_upper r.

Definition field_match (name key : string) : bool :=
  bool_decide (map fold_rune (runes key) = map fold_rune (runes name)).

(** One field of a struct: [dec] decodes each member with that name over the
    value so far, [null] and absence leaving the zero value. *)
Definition struct_field {A} (name : string) (zero : A) (dec : jval -> res A) (v : jval) : res A :=
  match v with
  | JNull => Ok zero
  | JObj ms =>
    foldl (fun acc kv => let? a := acc in
                         if field_match name kv.1 then
                           match kv.2 with JNull => Ok a | x => dec x end
                         else Ok a)%go (Ok zero) ms
  | _ => Err json_type_error
  end.

Definition decode_slice {A} (dec : jval -> res A) (v : jval) : res (list A) :=
  match v with
  | JNull => Ok []
  | JArr l => seq_res (map dec l)
  | _ => Err json_type_error
  end.

Definition decode_string (v : jval) : res string :=
  match v with JNull => Ok EmptyString | JStr s => Ok s | _ => Err json_type_error end.

Definition decode_bool (v : jval) : res bool :=
  match v with JNull => Ok false | JBool b => Ok b | _ => Err json_type_error end.

Definition decode_strmap (v : jval) : res (list (string * string)) :=
  match v with
  | JNull => Ok []
  | JObj ms =>
    res_map (foldl (fun m kv => mset kv.1 kv.2 m) [])
      (seq_res (map (fun kv => res_map (pair kv.1) (decode_string kv.2)) ms))
  | _ => Err json_type_error
  end.

(** Into [int64] and, on a 64-bit platform, [int]. *)
Definition decode_int64 (v : jval) : res Z :=
  match v with
  | JNull => Ok 0
  | JNum neg m _ true =>
    let z := if neg then - m else m in
    if (MinInt64 <=? z) && (z <=? MaxInt64) then Ok z else Err json_type_error
  | _ => Err json_type_error
  end.

(** A string field when the error of [json.Unmarshal] is dropped: the decoder goes
    on past a member of another type, and fills in the others. *)
Definition lenient_string_field (name : string) (v : jval) : string :=
  match v with
  | JObj ms =>
    foldl (fun acc kv => if field_match name kv.1
                         then match kv.2 with JStr s => s | _ => acc end else acc) EmptyString ms
  | _ => EmptyString
  end.

(** [struct{ F []map[string]any `json:"<field>"` }]. *)
Definition unmarshal_maps (field data : string) : res (list gomap) :=
  (let? v := parse_json data in struct_field field [] (decode_slice to_map) v)%go.

(** JSON text written with single quotes. *)
Definition js (s : string) : string :=
  of_bytes (map (fun c => if Ascii.eqb c "'" then byte_of 34 else c) (bytes_of s)).

Example parse_sample :
  Unmarshal (js " {'a' : [1, -2.5e1, 'x\u00e9\ud83d\ude00', null], 'a':true, 'b':{}} ")
  = Ok (VMap [("a", VBool true); ("b", VMap [])]).
Proof. vm_compute. reflexivity. Qed.

Example parse_escapes :
  Unmarshal (js "'\u0041\ud83d\ude00\ud800x\n'")
  = Ok (VStr (string_of_runes [65; 128512; 65533; 120; 10])).
Proof. vm_compute. reflexivity. Qed.

Example parse_numbers :
  Unmarshal "[0.1, 1e400]" = Err json_type_error /\
  Unmarshal "[0.1, 12, 5e-324]" =
    Ok (VSlice [VFloat64 (S754_finite false 7205759403792794 (-56));
                VFloat64 (S754_finite false 6755399441055744 (-49));
                VFloat64 (S754_finite false 1 (-1074))]).
Proof. split; vm_compute; reflexivity. Qed.
