(* ===== verification/JsonRound.v ===== *)
(** * JSON written and read back

    What [Json] writes, [JsonParse] reads: the text of a tree of strings, integers,
    literals, arrays and objects parses to that tree, with the bytes of its strings that are not
    UTF-8 replaced by U+FFFD, as both sides of the program's own protocol rely on. *)
From Stdlib Require Import ZArith Lia Bool Ascii.
From Stdlib Require String.
From S2P Require Import Prelude GoStr GoValue Filepath Json JsonParse.

Local Open Scope Z_scope.

(** ** Decoding bytes *)

(** What a segment of [decode] can be: an ASCII byte; an invalid byte; or the bytes of a
    longer rune, which decode to it whatever follows. *)
Inductive segment : runeseg -> Prop :=
  | seg_ascii c : byteZ c < 128 -> segment (byteZ c, [c])
  | seg_bad c : 128 <= byteZ c -> segment (RuneError, [c])
  | seg_long r bs :
      (forall l, decode (bs ++ l) = (r, bs) :: decode l) -> Forall (fun c => 128 <= byteZ c) bs ->
      128 <= r -> (1 < length bs)%nat -> segment (r, bs).

Lemma decode_cons_ascii c l : byteZ c < 128 -> decode (c :: l) = (byteZ c, [c]) :: decode l.
Proof. intros H. cbn [decode]. by rewrite (proj2 (Z.ltb_lt _ _) H). Qed.

Lemma cont_range c : cont c = true -> 128 <= byteZ c <= 191.
Proof. unfold cont, between. rewrite andb_true_iff, !Z.leb_le. done. Qed.

Lemma between_spec lo x hi : between lo x hi = true <-> lo <= x <= hi.
Proof. unfold between. by rewrite andb_true_iff, !Z.leb_le. Qed.
Lemma decode_segments l : Forall segment (decode l).
Proof.
  remember (length l) as n eqn:Hn. assert (Hle : (length l <= n)%nat) by lia. clear Hn. revert l Hle.
  induction n as [|n IH]; intros [|c0 t0] Hle; simpl in Hle; try constructor; [lia|].
  cbn [decode]. destruct (Z.ltb_spec (byteZ c0) 128) as [H0|H0].
  { constructor; [by apply seg_ascii|apply IH; lia]. }
  assert (Hbad : Forall segment ((RuneError, [c0]) :: decode t0)).
  { constructor; [by apply seg_bad|apply IH; lia]. }
  destruct t0 as [|c1 t1]; [done|]. simpl in Hle.
  destruct (between 194 (byteZ c0) 223 && cont c1) eqn:E1.
  { constructor; [|apply IH; lia]. split_and_true. apply between_spec in H. apply cont_range in H1 as Hc.
    apply seg_long; [|repeat constructor; lia|unfold low6; lia|simpl; lia].
    intros l. cbn [decode app]. rewrite (proj2 (Z.ltb_ge _ _) H0), H1, (proj2 (between_spec _ _ _) H). done. }
  destruct t1 as [|c2 t2]; [done|]. simpl in Hle.
  match goal with |- context [if ?b then _ else _] => destruct b eqn:E2 end.
  { constructor; [|apply IH; lia].
    apply seg_long; [|split_and_true..].
    - intros l. cbn [decode app]. by rewrite (proj2 (Z.ltb_ge _ _) H0), E1, E2.
    - apply cont_range in H3, H4. repeat constructor; lia.
    - apply between_spec in H. apply cont_range in H3, H4. unfold low6.
      apply andb_false_iff in H2. rewrite Z.eqb_neq, Z.ltb_ge in H2. lia.
    - simpl; lia. }
  destruct t2 as [|c3 t3]; [done|]. simpl in Hle.
  match goal with |- context [if ?b then _ else _] => destruct b eqn:E3 end; [|done].
  constructor; [|apply IH; lia].
  apply seg_long; [|split_and_true..].
  - intros l. cbn [decode app]. by rewrite (proj2 (Z.ltb_ge _ _) H0), E1, E2, E3.
  - apply cont_range in H3, H4, H5. repeat constructor; lia.
  - apply between_spec in H. apply cont_range in H3, H4, H5. unfold low6.
    apply andb_false_iff in H2. rewrite Z.eqb_neq, Z.ltb_ge in H2. lia.
  - simpl; lia.
Qed.

(** ** Strings *)

Definition escaped (segs : list runeseg) : list ascii := concat (map json_escape segs).

(** How an escaped segment begins: a short escape, a [\u] escape that is not of a
    surrogate, or a segment copied as it is. *)
Inductive chunk : runeseg -> Prop :=
  | chunk_short r bs e :
      json_escape (r, bs) = [byte_of 92; e] -> existsb (Ascii.eqb e) (bytes_of "bfnrtu\/" ++ [byte_of 34]) = true ->
      byteZ e < 117 -> simple_escape (byteZ e) = r -> chunk (r, bs)
  | chunk_u r bs h1 h2 h3 h4 :
      json_escape (r, bs) = [byte_of 92; byte_of 117; h1; h2; h3; h4] ->
      Forall (fun h => byteZ h < 128 /\ is_Some (hex_value (byteZ h))) [h1; h2; h3; h4] ->
      hex4 (byteZ h1, [h1]) (byteZ h2, [h2]) (byteZ h3, [h3]) (byteZ h4, [h4]) = Some r ->
      surrogate r = false -> chunk (r, bs)
  | chunk_raw r bs :
      json_escape (r, bs) = bs -> (forall l, decode (bs ++ l) = (r, bs) :: decode l) ->
      Forall (fun c => 32 <= byteZ c /\ byteZ c <> 34 /\ byteZ c <> 92) bs -> r <> 92 -> bs <> [] -> chunk (r, bs).

Lemma byte_cases (P : ascii -> Prop) : (forall z, 0 <= z < 256 -> P (byte_of z)) -> forall c, P c.
Proof. intros H c. rewrite <- (byte_of_byteZ c). apply H, byteZ_range. Qed.

Definition ascii_chunk_ok (z : Z) : bool :=
  let c := byte_of z in
  match json_escape (z, [c]) with
  | [b; e] => (byteZ b =? 92) && existsb (Ascii.eqb e) (bytes_of "bfnrtu\/" ++ [byte_of 34])
              && (byteZ e <? 117) && (simple_escape (byteZ e) =? z)
  | [b; u; h1; h2; h3; h4] =>
    (byteZ b =? 92) && (byteZ u =? 117)
    && forallb (fun h => (byteZ h <? 128) && match hex_value (byteZ h) with Some _ => true | None => false end)
         [h1; h2; h3; h4]
    && bool_decide (hex4 (byteZ h1, [h1]) (byteZ h2, [h2]) (byteZ h3, [h3]) (byteZ h4, [h4]) = Some z)
    && negb (surrogate z)
  | [b] => (byteZ b =? z) && (32 <=? z) && negb (z =? 34) && negb (z =? 92)
  | _ => false
  end.

Lemma ascii_chunks : forallb ascii_chunk_ok (map Z.of_nat (seq 0 128)) = true.
Proof. vm_compute. reflexivity. Qed.

Lemma ascii_chunk c : byteZ c < 128 -> chunk (byteZ c, [c]).
Proof.
  intros Hc. pose proof (byteZ_range c) as Hr.
  assert (H : ascii_chunk_ok (byteZ c) = true).
  { pose proof ascii_chunks as H. rewrite List.forallb_forall in H. apply H.
    apply in_map_iff. exists (Z.to_nat (byteZ c)). rewrite in_seq. lia. }
  unfold ascii_chunk_ok in H. rewrite byte_of_byteZ in H.
  destruct (json_escape (byteZ c, [c])) as [|b [|e [|h1 [|h2 [|h3 [|h4 [|? ?]]]]]]] eqn:E; try done.
  - split_and_true. apply Z.eqb_eq, byteZ_inj in H as ->. apply Z.leb_le in H2.
    apply Z.eqb_neq in H1, H0.
    apply chunk_raw; [done|intros l; by apply decode_cons_ascii| |done|done]. by repeat constructor.
  - split_and_true. apply Z.eqb_eq in H, H0. apply Z.ltb_lt in H1. rewrite <- (byteZ_byte_of 92) in H by lia.
    apply byteZ_inj in H as ->. by eapply chunk_short.
  - split_and_true. apply Z.eqb_eq in H, H3. rewrite <- (byteZ_byte_of 92) in H by lia.
    rewrite <- (byteZ_byte_of 117) in H3 by lia. apply byteZ_inj in H as ->, H3 as ->.
    eapply chunk_u; [exact E| |done|done]. apply forallb_Forall in H2.
    eapply Forall_impl; [exact H2|]. simpl. intros h [Hh1 Hh2]%andb_true_iff.
    apply Z.ltb_lt in Hh1. split; [done|]. by destruct (hex_value (byteZ h)).
Qed.

Lemma json_escape_plain r bs :
  128 <= r -> (r =? RuneError) && (length bs =? 1)%nat = false -> r <> 8232 -> r <> 8233 ->
  json_escape (r, bs) = bs.
Proof.
  intros Hr Hb H1 H2. unfold json_escape. rewrite Hb.
  repeat match goal with |- context [?a =? ?b] => destruct (Z.eqb_spec a b); try lia end.
  destruct (Z.ltb_spec r 32); [lia|]. done.
Qed.

Lemma segment_chunk x : segment x -> chunk x.
Proof.
  destruct 1 as [c Hc|c Hc|r bs Hd Hb Hr Hl].
  - by apply ascii_chunk.
  - eapply chunk_u; [reflexivity|repeat constructor; eauto|reflexivity|done].
  - destruct (decide (r = 8232)) as [->|H1]; [|destruct (decide (r = 8233)) as [->|H2]].
    1-2: destruct bs as [|? [|? ?]]; simpl in Hl; [lia..|].
    1-2: eapply chunk_u; [reflexivity|repeat constructor; eauto|reflexivity|done].
    apply chunk_raw; [|done| |lia|by destruct bs; simpl in Hl; [lia|]].
    + apply json_escape_plain; [done| |done|done]. apply andb_false_iff. right. apply Nat.eqb_neq. lia.
    + eapply Forall_impl; [exact Hb|]. simpl. lia.
Qed.

Lemma scan_chunk x : chunk x -> forall s,
  scan_string (json_escape x ++ s)
  = match scan_string s with Some (r, rest) => Some (json_escape x ++ r, rest) | None => None end.
Proof.
  destruct 1 as [r bs e E He _ _|r bs h1 h2 h3 h4 E Hh _ _|r bs E _ Hb _ _]; intros s; rewrite E.
  - cbn [app scan_string]. change (byteZ (byte_of 92)) with 92. cbn [Z.eqb Z.ltb Z.compare Pos.eqb Pos.compare Pos.compare_cont].
    rewrite He. by destruct (scan_string s) as [[? ?]|].
  - assert (Hp : Forall (fun h => (byteZ h =? 34) = false /\ (byteZ h <? 32) = false /\ (byteZ h =? 92) = false)
                   [h1; h2; h3; h4]).
    { eapply Forall_impl; [exact Hh|]. simpl. intros h [_ [v Hv]]. unfold hex_value, between in Hv.
      rewrite Z.eqb_neq, Z.ltb_ge, Z.eqb_neq. repeat case_match; split_and_true; rewrite ?Z.leb_le in *; (done || lia). }
    inversion_clear Hp as [|? ? (A1 & B1 & C1) Hp1]. inversion_clear Hp1 as [|? ? (A2 & B2 & C2) Hp2].
    inversion_clear Hp2 as [|? ? (A3 & B3 & C3) Hp3]. inversion_clear Hp3 as [|? ? (A4 & B4 & C4) _].
    cbn [app scan_string]. change (byteZ (byte_of 92)) with 92.
    change (existsb (Ascii.eqb (byte_of 117)) (bytes_of "bfnrtu\/" ++ [byte_of 34])) with true.
    cbn [Z.eqb Z.ltb Z.compare Pos.eqb Pos.compare Pos.compare_cont].
    rewrite A1, B1, C1, A2, B2, C2, A3, B3, C3, A4, B4, C4. by destruct (scan_string s) as [[? ?]|].
  - clear E. induction Hb as [|c bs (H1 & H2 & H3) Hb IH]; cbn [app scan_string].
    + by destruct (scan_string s) as [[? ?]|].
    + rewrite (proj2 (Z.eqb_neq _ _) H2), (proj2 (Z.ltb_ge _ _) H1), (proj2 (Z.eqb_neq _ _) H3), IH.
      by destruct (scan_string s) as [[? ?]|].
Qed.

Lemma scan_escaped segs rest :
  Forall chunk segs ->
  scan_string (escaped segs ++ byte_of 34 :: rest) = Some (escaped segs, rest).
Proof.
  unfold escaped. induction 1 as [|x segs Hx _ IH]; [done|]. cbn [map concat].
  rewrite <- app_assoc, scan_chunk, IH by done. done.
Qed.

(** A [\u] escape that is not of a surrogate stands for its rune, whatever follows. *)
Lemma unquote_u h1 h2 h3 h4 b1 b2 r t rs :
  hex4 h1 h2 h3 h4 = Some r -> surrogate r = false -> unquote t = Some rs ->
  unquote ((92, b1) :: (117, b2) :: h1 :: h2 :: h3 :: h4 :: t) = Some (r :: rs).
Proof.
  intros Hr Hs Ht.
  assert (Hh : high_surrogate r = false).
  { apply not_true_is_false. intros H. apply not_true_iff_false in Hs. apply Hs.
    unfold surrogate, high_surrogate in *. apply between_spec in H. apply between_spec. lia. }
  cbn [unquote]. rewrite Hr, Hs, Hh. cbn [andb].
  assert (Hplain : option_map (cons r) (unquote t) = Some (r :: rs)) by by rewrite Ht.
  repeat (case_match; subst; try exact Hplain).
  cbn [unquote] in Ht. by repeat case_match.
Qed.

Lemma unquote_copy r bs l rs :
  r <> 92 -> unquote l = Some rs -> unquote ((r, bs) :: l) = Some (r :: rs).
Proof.
  intros Hr Hl. assert (H : unquote ((r, bs) :: l) = option_map (cons r) (unquote l)).
  { cbn [unquote]. repeat (case_match; subst; try done). }
  by rewrite H, Hl.
Qed.

Lemma unquote_short e bs be l rs :
  byteZ e < 117 -> unquote l = Some rs ->
  unquote ((92, be) :: (byteZ e, bs) :: l) = Some (simple_escape (byteZ e) :: rs).
Proof.
  intros He Hl.
  assert (H : unquote ((92, be) :: (byteZ e, bs) :: l) = option_map (cons (simple_escape (byteZ e))) (unquote l)).
  { remember (byteZ e) as z eqn:Hz. clear Hz. cbn [unquote]. repeat (case_match; subst; try done; try lia). }
  by rewrite H, Hl.
Qed.

Lemma unquote_escaped segs :
  Forall chunk segs -> unquote (decode (escaped segs)) = Some (map fst segs).
Proof.
  unfold escaped. induction 1 as [|x segs Hx _ IH]; [done|]. cbn [map concat].
  destruct Hx as [r bs e E He Hlt <-|r bs h1 h2 h3 h4 E Hh H4 Hs|r bs E Hd _ Hr _]; rewrite E; cbn [fst].
  - cbn [app]. rewrite !decode_cons_ascii by (change (byteZ (byte_of 92)) with 92 || idtac; lia).
    by apply unquote_short.
  - inversion_clear Hh as [|? ? [A1 _] Hp1]. inversion_clear Hp1 as [|? ? [A2 _] Hp2].
    inversion_clear Hp2 as [|? ? [A3 _] Hp3]. inversion_clear Hp3 as [|? ? [A4 _] _].
    cbn [app]. rewrite !decode_cons_ascii by (done || lia). by apply unquote_u.
  - rewrite Hd. by apply unquote_copy.
Qed.

(** A string with its invalid bytes replaced. *)
Definition valid_utf8 (s : string) : string := string_of_runes (runes s).

Lemma parse_escaped s rest :
  parse_string (escaped (decode (bytes_of s)) ++ byte_of 34 :: rest) = Some (valid_utf8 s, rest).
Proof.
  assert (H : Forall chunk (decode (bytes_of s))).
  { eapply Forall_impl; [apply decode_segments|]. apply segment_chunk. }
  unfold parse_string. rewrite scan_escaped, unquote_escaped by done. done.
Qed.

Lemma valid_utf8_ascii s : ascii_string s = true -> valid_utf8 s = s.
Proof.
  intros H. unfold valid_utf8. rewrite runes_ascii, string_of_runes_bytes by done.
  apply String.string_of_list_ascii_of_string.
Qed.

(** ** Values *)

(** The text of a tree whose numbers are integers. *)
Fixpoint jprint (v : jval) : string :=
  match v with
  | JNull => "null"
  | JBool b => if b then "true" else "false"
  | JNum neg m _ _ => (if neg then "-" else "") +:+ Itoa m
  | JStr s => json_string s
  | JArr l => json_array (map jprint l)
  | JObj m => json_object (map (fun kv => (kv.1, jprint kv.2)) m)
  end.

Fixpoint ints_only (v : jval) : bool :=
  match v with
  | JNum _ m e plain => (0 <=? m) && (e =? 0) && plain
  | JArr l => forallb ints_only l
  | JObj m => forallb (fun kv => ints_only kv.2) m
  | _ => true
  end.

(** The tree with its strings as they are read. *)
Fixpoint clean (v : jval) : jval :=
  match v with
  | JStr s => JStr (valid_utf8 s)
  | JArr l => JArr (map clean l)
  | JObj m => JObj (map (fun kv => (valid_utf8 kv.1, clean kv.2)) m)
  | _ => v
  end.

Fixpoint height (v : jval) : Z :=
  match v with
  | JArr l => 1 + foldr (fun x acc => Z.max (height x) acc) 0 l
  | JObj m => 1 + foldr (fun kv acc => Z.max (height kv.2) acc) 0 m
  | _ => 0
  end.

(** Fuel that is enough, and no more than the length of the text. *)
Fixpoint need (v : jval) : nat :=
  match v with
  | JArr l => S (foldr (fun x acc => S (need x + acc)) O l)
  | JObj m => S (foldr (fun kv acc => S (need kv.2 + acc)) O m)
  | _ => 1
  end.

Definition need_elements (l : list jval) : nat := foldr (fun x acc => S (need x + acc)) 0%nat l.
Definition need_members (m : list (string * jval)) : nat := foldr (fun kv acc => S (need kv.2 + acc)) 0%nat m.
Definition height_elements (l : list jval) : Z := foldr (fun x acc => Z.max (height x) acc) 0 l.
Definition height_members (m : list (string * jval)) : Z := foldr (fun kv acc => Z.max (height kv.2) acc) 0 m.

Definition jbytes (v : jval) : list ascii := bytes_of (jprint v).
Definition member_text (kv : string * jval) : string := json_string kv.1 +:+ ":" +:+ jprint kv.2.

Section jval_induction.
Variable P : jval -> Prop.
Hypothesis Hnull : P JNull.
Hypothesis Hbool : forall b, P (JBool b).
Hypothesis Hnum : forall neg m e p, P (JNum neg m e p).
Hypothesis Hstr : forall s, P (JStr s).
Hypothesis Harr : forall l, Forall P l -> P (JArr l).
Hypothesis Hobj : forall m, Forall (fun kv => P kv.2) m -> P (JObj m).

Fixpoint jval_ind' (v : jval) : P v :=
  match v with
  | JNull => Hnull
  | JBool b => Hbool b
  | JNum neg m e p => Hnum neg m e p
  | JStr s => Hstr s
  | JArr l => Harr l ((fix go (l : list jval) : Forall P l :=
                         match l with
                         | [] => Forall_nil_2 _
                         | x :: l' => Forall_cons_2 _ _ _ (jval_ind' x) (go l')
                         end) l)
  | JObj m => Hobj m ((fix go (m : list (string * jval)) : Forall (fun kv => P kv.2) m :=
                         match m with
                         | [] => Forall_nil_2 _
                         | x :: m' => Forall_cons_2 _ _ _ (jval_ind' x.2) (go m')
                         end) m)
  end.
End jval_induction.

Lemma bytes_json_string s rest :
  bytes_of (json_string s) ++ rest = byte_of 34 :: escaped (decode (bytes_of s)) ++ byte_of 34 :: rest.
Proof.
  unfold json_string. rewrite String.list_ascii_of_string_of_list_ascii. cbn [app].
  by rewrite <- app_assoc.
Qed.

Lemma Join_cons a b l sep : Join (a :: b :: l) sep = a +:+ sep +:+ Join (b :: l) sep.
Proof. done. Qed.

(** *** Integers *)

(** What may follow a number: a byte that does not continue it. *)
Definition stops (rest : list ascii) : bool :=
  match rest with
  | [] => true
  | c :: _ => let b := byteZ c in negb (ascii_digit b || (b =? 46) || (b =? 101) || (b =? 69))
  end.

(** [ds] are the digits of [x]. *)
Record digits_of (x : N) (ds : list ascii) : Prop := {
  do_text s : bytes_of (pretty_N_go x s) = ds ++ bytes_of s;
  do_scan n acc t :
    scan_digits n acc (ds ++ t) = scan_digits (n + Z.of_nat (length ds)) (acc * 10 ^ Z.of_nat (length ds) + Z.of_N x) t;
  do_head : exists c ds', ds = c :: ds' /\ 49 <= byteZ c <= 57
}.

Lemma digit_char x : (x < 10)%N -> byteZ (pretty_N_char x) = 48 + Z.of_N x.
Proof.
  intros H. assert (x = 0 \/ x = 1 \/ x = 2 \/ x = 3 \/ x = 4 \/ x = 5 \/ x = 6 \/ x = 7 \/ x = 8 \/ x = 9)%N
    as Hx by lia.
  by repeat (destruct Hx as [->|Hx]; [done|]); subst.
Qed.

Lemma scan_digit x n acc t :
  (x < 10)%N -> scan_digits n acc (pretty_N_char x :: t) = scan_digits (n + 1) (acc * 10 + Z.of_N x) t.
Proof.
  intros H. cbn [scan_digits]. rewrite digit_char by done. unfold ascii_digit, between.
  destruct (Z.leb_spec 48 (48 + Z.of_N x)), (Z.leb_spec (48 + Z.of_N x) 57); try lia.
  simpl. f_equal. lia.
Qed.

Lemma digits_exist x : (0 < x)%N -> exists ds, digits_of x ds.
Proof.
  induction (N.lt_wf_0 x) as [x _ IH]. intros Hx.
  assert (Hm : (x `mod` 10 < 10)%N) by (apply N.mod_lt; lia).
  assert (Hdiv : (x = 10 * (x `div` 10) + x `mod` 10)%N) by (apply N.div_mod; lia).
  destruct (decide (x < 10)%N) as [Hlt|Hge].
  - rewrite N.mod_small in * by done. exists [pretty_N_char x]. split.
    + intros s. rewrite pretty_N_go_step, N.div_small, N.mod_small by done. by rewrite pretty_N_go_0.
    + intros n acc t. cbn [app length]. rewrite scan_digit by done. f_equal; lia.
    + exists (pretty_N_char x), []. rewrite digit_char by done. split; [done|lia].
  - destruct (IH (x `div` 10)%N) as [ds [Ht Hs (c & ds' & -> & Hc)]];
      [by apply N.div_lt|by apply N.div_str_pos; lia|].
    exists ((c :: ds') ++ [pretty_N_char (x `mod` 10)]). split.
    + intros s. rewrite pretty_N_go_step, Ht, <- app_assoc by done. done.
    + intros n acc t. rewrite length_app, <- app_assoc, Hs. cbn [app]. rewrite scan_digit by done.
      f_equal; [cbn [length]; lia|]. rewrite Nat2Z.inj_add, Z.pow_add_r by lia.
      change (10 ^ Z.of_nat (length [_])) with 10.
      assert (HZ : Z.of_N x = 10 * Z.of_N (x `div` 10) + Z.of_N (x `mod` 10)) by lia.
      rewrite HZ. ring.
    + exists c, (ds' ++ [pretty_N_char (x `mod` 10)]). done.
Qed.

Lemma scan_stop n acc rest : stops rest = true -> scan_digits n acc rest = (n, acc, rest).
Proof.
  destruct rest as [|c rest]; [done|]. cbn [scan_digits stops]. intros H.
  destruct (ascii_digit (byteZ c)); [done|]. done.
Qed.

Lemma stop_exponent rest : stops rest = true -> parse_exponent rest = Some (0, rest) /\ first_is 46 rest = false.
Proof.
  destruct rest as [|c rest]; [done|]. cbn [stops parse_exponent first_is]. intros H.
  apply negb_true_iff in H. rewrite !orb_false_iff in H. destruct H as [[[_ ->] ->] ->]. done.
Qed.

Lemma Itoa_digits m : 0 < m -> exists ds, digits_of (Z.to_N m) ds /\ bytes_of (Itoa m) = ds.
Proof.
  intros Hm. destruct (digits_exist (Z.to_N m)) as [ds Hds]; [lia|]. exists ds. split; [done|].
  destruct m as [|p|p]; [lia| |lia]. unfold Itoa, pretty, pretty_Z, pretty, pretty_positive, pretty, pretty_N.
  rewrite decide_False by done. change (N.pos p) with (Z.to_N (Z.pos p)).
  rewrite (do_text _ _ Hds). by rewrite app_nil_r.
Qed.

Lemma parse_integer neg m rest :
  0 <= m -> stops rest = true ->
  parse_number (bytes_of (jprint (JNum neg m 0 true)) ++ rest) = Some (JNum neg m 0 true, rest).
Proof.
  intros Hm Hr. destruct (stop_exponent rest Hr) as [He Hf].
  assert (Hd : exists n, n =? 0 = false /\
    (if first_is 48 (bytes_of (Itoa m) ++ rest) then (1, 0, tail (bytes_of (Itoa m) ++ rest))
     else scan_digits 0 0 (bytes_of (Itoa m) ++ rest)) = (n, m, rest) /\
    first_is 45 (bytes_of (Itoa m) ++ rest) = false).
  { destruct (decide (m = 0)) as [->|Hne]; [by exists 1|].
    destruct (Itoa_digits m) as (ds & Hds & ->); [lia|].
    destruct (do_head _ _ Hds) as (c & ds' & Heq & Hc).
    exists (Z.of_nat (length ds)). rewrite (do_scan _ _ Hds), scan_stop by done.
    rewrite Heq. cbn [app first_is length].
    destruct (Z.eqb_spec (byteZ c) 48), (Z.eqb_spec (byteZ c) 45); try lia.
    split; [by apply Z.eqb_neq|]. split; [|done]. f_equal. f_equal. lia. }
  destruct Hd as (n & Hn & Hscan & H45). unfold parse_number. cbn [jprint].
  rewrite bytes_of_app, <- app_assoc.
  assert (Hneg : first_is 45 (bytes_of (if neg then "-" else "") ++ bytes_of (Itoa m) ++ rest) = neg)
    by by destruct neg.
  rewrite Hneg.
  assert (Htl : (if neg then tail (bytes_of (if neg then "-" else "") ++ bytes_of (Itoa m) ++ rest)
                 else bytes_of (if neg then "-" else "") ++ bytes_of (Itoa m) ++ rest)
                = bytes_of (Itoa m) ++ rest) by by destruct neg.
  rewrite Htl, Hscan, Hn, Hf. cbn [Z.eqb]. rewrite He, Nat.eqb_refl. done.
Qed.

(** An integer begins with a digit or a sign. *)
Definition integer_start (c : ascii) : Prop := byteZ c = 45 \/ 48 <= byteZ c <= 57.

Lemma integer_first neg m rest :
  0 <= m -> exists c t, bytes_of (jprint (JNum neg m 0 true)) ++ rest = c :: t /\ integer_start c.
Proof.
  intros Hm. cbn [jprint]. rewrite bytes_of_app. destruct neg; [by eexists _, _; split; [|left]|].
  destruct (decide (m = 0)) as [->|Hne]; [by eexists _, _; split; [|right]|].
  destruct (Itoa_digits m) as (ds & Hds & ->); [lia|].
  destruct (do_head _ _ Hds) as (c & ds' & -> & Hc). exists c, (ds' ++ rest). split; [done|right; lia].
Qed.

(** A printed value begins with a byte that is neither space nor a closing bracket. *)
Lemma jbytes_first v rest :
  ints_only v = true ->
  exists c t, jbytes v ++ rest = c :: t /\ is_ws c = false /\ byteZ c <> 93 /\ byteZ c <> 125.
Proof.
  destruct v as [|[]|neg m e p|s|l|m]; intros H; try (by eexists _, _).
  cbn [ints_only] in H. split_and_true. destruct (integer_first neg m rest) as (c & t & Ht & Hc); [lia|].
  exists c, t. split; [exact Ht|]. unfold integer_start in Hc. split; [|lia]. unfold is_ws.
  repeat match goal with |- context [?a =? ?b] => destruct (Z.eqb_spec a b); try lia end; done.
Qed.

Lemma jbytes_head v rest :
  ints_only v = true ->
  first_is 93 (skip_ws (jbytes v ++ rest)) = false /\ first_is 125 (skip_ws (jbytes v ++ rest)) = false.
Proof.
  intros H. destruct (jbytes_first v rest H) as (c & t & -> & Hw & ? & ?).
  unfold skip_ws. cbn [drop_while]. rewrite Hw. cbn [first_is]. by rewrite !Z.eqb_neq.
Qed.

Lemma skip_ws_first z s : is_ws (byte_of z) = false -> skip_ws (byte_of z :: s) = byte_of z :: s.
Proof. intros H. unfold skip_ws. cbn [drop_while]. by rewrite H. Qed.

Lemma elements_text x l :
  bytes_of (Join (map jprint (x :: l)) ",") =
  jbytes x ++ match l with [] => [] | _ => byte_of 44 :: bytes_of (Join (map jprint l) ",") end.
Proof.
  destruct l as [|y l]; cbn [map]; [by rewrite app_nil_r|]. rewrite Join_cons, !bytes_of_app. done.
Qed.

Lemma members_text x m :
  bytes_of (Join (map member_text (x :: m)) ",") =
  bytes_of (member_text x) ++ match m with [] => [] | _ => byte_of 44 :: bytes_of (Join (map member_text m) ",") end.
Proof.
  destruct m as [|y m]; cbn [map]; [by rewrite app_nil_r|]. rewrite Join_cons, !bytes_of_app. done.
Qed.

Lemma object_text m :
  jbytes (JObj m) = byte_of 123 :: bytes_of (Join (map member_text m) "," +:+ "}").
Proof. unfold jbytes, json_object, member_text. cbn [jprint]. unfold json_object. by rewrite map_map. Qed.

Lemma fold_max_nonneg {A} (f : A -> Z) l : 0 <= foldr (fun x acc => Z.max (f x) acc) 0 l.
Proof. induction l; simpl; lia. Qed.

(** The three functions with one unit of fuel more, given what they do with [n]. *)
Section parse_step.
Context (n : nat).
Hypothesis IHv : forall v depth rest, (need v <= n)%nat -> ints_only v = true -> stops rest = true ->
  depth + height v <= maxNestingDepth -> parse_value n depth (jbytes v ++ rest) = Some (clean v, rest).
Hypothesis IHe : forall l depth rest, l <> [] -> (need_elements l <= n)%nat -> forallb ints_only l = true ->
  depth + height_elements l <= maxNestingDepth ->
  parse_elements n depth (bytes_of (Join (map jprint l) ",") ++ byte_of 93 :: rest) = Some (map clean l, rest).
Hypothesis IHm : forall m depth rest, m <> [] -> (need_members m <= n)%nat ->
  forallb (fun kv => ints_only kv.2) m = true -> depth + height_members m <= maxNestingDepth ->
  parse_members n depth (bytes_of (Join (map member_text m) ",") ++ byte_of 125 :: rest)
  = Some (map (fun kv => (valid_utf8 kv.1, clean kv.2)) m, rest).

Lemma elements_step l depth rest :
  l <> [] -> (need_elements l <= S n)%nat -> forallb ints_only l = true ->
  depth + height_elements l <= maxNestingDepth ->
  parse_elements (S n) depth (bytes_of (Join (map jprint l) ",") ++ byte_of 93 :: rest)
  = Some (map clean l, rest).
Proof using IHv IHe.
  destruct l as [|x l]; [done|]. intros _ Hn Hnum Hh. cbn [forallb] in Hnum. split_and_true.
  cbn in Hn, Hh. fold (need_elements l) in Hn. fold (height_elements l) in Hh.
  rewrite elements_text, <- app_assoc. cbn [parse_elements].
  rewrite IHv by (done || lia || by destruct l).
  destruct l as [|y l]; cbn [app]; rewrite skip_ws_first by done; [done|].
  cbn [first_is tail]. rewrite IHe by (done || lia). done.
Qed.

Lemma members_step m depth rest :
  m <> [] -> (need_members m <= S n)%nat -> forallb (fun kv => ints_only kv.2) m = true ->
  depth + height_members m <= maxNestingDepth ->
  parse_members (S n) depth (bytes_of (Join (map member_text m) ",") ++ byte_of 125 :: rest)
  = Some (map (fun kv => (valid_utf8 kv.1, clean kv.2)) m, rest).
Proof using IHv IHm.
  destruct m as [|[k v] m]; [done|]. intros _ Hn Hnum Hh. cbn [forallb] in Hnum. split_and_true.
  cbn in Hn, Hh. fold (need_members m) in Hn. fold (height_members m) in Hh.
  rewrite members_text. unfold member_text at 1. cbn [fst snd].
  rewrite !bytes_of_app, <- !app_assoc, bytes_json_string. cbn [parse_members].
  rewrite skip_ws_first by done. cbn [first_is tail]. change (byteZ (byte_of 34) =? 34) with true. cbv iota.
  rewrite parse_escaped. change (bytes_of ":") with [byte_of 58]. cbn [app].
  rewrite skip_ws_first by done. cbn [first_is tail]. change (byteZ (byte_of 58) =? 58) with true. cbv iota.
  change (bytes_of (jprint v)) with (jbytes v).
  rewrite IHv by (done || lia || by destruct m).
  destruct m as [|y m]; cbn [app]; rewrite skip_ws_first by done; [done|].
  cbn [first_is tail]. change (byteZ (byte_of 44) =? 125) with false. change (byteZ (byte_of 44) =? 44) with true.
  cbv iota. rewrite IHm by (done || lia). done.
Qed.

Lemma value_step v depth rest :
  (need v <= S n)%nat -> ints_only v = true -> stops rest = true -> depth + height v <= maxNestingDepth ->
  parse_value (S n) depth (jbytes v ++ rest) = Some (clean v, rest).
Proof using IHe IHm.
  destruct v as [|[]|neg m e p|s|l|m]; cbn [need ints_only height]; intros Hn Hnum Hr Hh; try done.
  - destruct (jbytes_first (JNum neg m e p) rest Hnum) as (c & t & Heq & Hw & _).
    rewrite !andb_true_iff in Hnum. destruct Hnum as [[Hm%Z.leb_le ->%Z.eqb_eq] ->].
    cbn [clean]. rewrite <- (parse_integer neg m rest Hm Hr). unfold jbytes in *.
    assert (Hs : integer_start c).
    { destruct (integer_first neg m rest Hm) as (c' & t' & Heq' & Hs). rewrite Heq' in Heq. by injection Heq as -> ->. }
    rewrite Heq. cbn [parse_value]. unfold skip_ws. cbn [drop_while]. rewrite Hw.
    unfold integer_start in Hs. rewrite !(proj2 (Z.eqb_neq _ _)) by lia. done.
  - change (jbytes (JStr s)) with (bytes_of (json_string s)). rewrite bytes_json_string. cbn [parse_value].
    rewrite skip_ws_first by done. change (byteZ (byte_of 34)) with 34. cbn [Z.eqb Pos.eqb].
    by rewrite parse_escaped.
  - change (jbytes (JArr l)) with (byte_of 91 :: bytes_of (Join (map jprint l) "," +:+ "]")).
    cbn [parse_value app]. rewrite skip_ws_first by done. change (byteZ (byte_of 91)) with 91. cbn [Z.eqb Pos.eqb].
    fold (need_elements l) in Hn. fold (height_elements l) in Hh.
    destruct l as [|x l]; [cbn in Hh; destruct (Z.leb_spec maxNestingDepth depth); [lia|done]|].
    assert (Hpos : 0 <= height_elements (x :: l)) by apply fold_max_nonneg.
    destruct (Z.leb_spec maxNestingDepth depth); [lia|].
    rewrite bytes_of_app, <- app_assoc. change (bytes_of "]" ++ rest) with (byte_of 93 :: rest).
    rewrite IHe by (done || lia). rewrite elements_text, <- app_assoc.
    apply andb_true_iff in Hnum as Hx. by rewrite (proj1 (jbytes_head x _ (proj1 Hx))).
  - rewrite object_text. cbn [parse_value app]. rewrite skip_ws_first by done. change (byteZ (byte_of 123)) with 123. cbn [Z.eqb Pos.eqb].
    fold (need_members m) in Hn. fold (height_members m) in Hh.
    destruct m as [|x m]; [cbn in Hh; destruct (Z.leb_spec maxNestingDepth depth); [lia|done]|].
    assert (Hpos : 0 <= height_members (x :: m)) by apply fold_max_nonneg.
    destruct (Z.leb_spec maxNestingDepth depth); [lia|].
    rewrite bytes_of_app, <- app_assoc. change (bytes_of "}" ++ rest) with (byte_of 125 :: rest).
    rewrite IHm by (done || lia). rewrite members_text. unfold member_text at 1.
    by rewrite bytes_of_app, <- !app_assoc, bytes_json_string.
Qed.
End parse_step.

Lemma parse_print_value v depth rest n :
  (need v <= n)%nat -> ints_only v = true -> stops rest = true -> depth + height v <= maxNestingDepth ->
  parse_value n depth (jbytes v ++ rest) = Some (clean v, rest).
Proof.
  assert (H :
    (forall v depth rest, (need v <= n)%nat -> ints_only v = true -> stops rest = true -> depth + height v <= maxNestingDepth ->
       parse_value n depth (jbytes v ++ rest) = Some (clean v, rest)) /\
    (forall l depth rest, l <> [] -> (need_elements l <= n)%nat -> forallb ints_only l = true ->
       depth + height_elements l <= maxNestingDepth ->
       parse_elements n depth (bytes_of (Join (map jprint l) ",") ++ byte_of 93 :: rest)
       = Some (map clean l, rest)) /\
    (forall m depth rest, m <> [] -> (need_members m <= n)%nat -> forallb (fun kv => ints_only kv.2) m = true ->
       depth + height_members m <= maxNestingDepth ->
       parse_members n depth (bytes_of (Join (map member_text m) ",") ++ byte_of 125 :: rest)
       = Some (map (fun kv => (valid_utf8 kv.1, clean kv.2)) m, rest))); [|apply H].
  clear v depth rest. induction n as [|n (IHv & IHe & IHm)].
  - split; [|split]; [intros []; simpl; lia|intros [] ? ?; simpl; [done|lia]..].
  - split; [|split]; intros; [by apply value_step|by apply elements_step|by apply members_step].
Qed.

(** The text is at least as long as the fuel. *)
Lemma need_elements_length l :
  Forall (fun v => (need v <= length (jbytes v))%nat) l ->
  (need_elements l <= length (bytes_of (Join (map jprint l) ",")) + 1)%nat.
Proof.
  induction 1 as [|x l Hx _ IH]; [simpl; lia|]. rewrite elements_text, length_app.
  cbn [need_elements foldr]. fold (need_elements l). destruct l; cbn [length] in *; [simpl|]; lia.
Qed.

Lemma need_members_length m :
  Forall (fun kv => (need kv.2 <= length (jbytes kv.2))%nat) m ->
  (need_members m <= length (bytes_of (Join (map member_text m) ",")) + 1)%nat.
Proof.
  induction 1 as [|x m Hx _ IH]; [simpl; lia|]. rewrite members_text, length_app.
  cbn [need_members foldr]. fold (need_members m).
  unfold member_text at 1. rewrite !bytes_of_app, !length_app. unfold jbytes in Hx.
  destruct m; cbn [length] in *; [simpl|]; lia.
Qed.

Lemma need_length v : ints_only v = true -> (need v <= length (jbytes v))%nat.
Proof.
  induction v as [|[]|neg m e p|s|l IH|m IH] using jval_ind'; cbn [ints_only need]; intros Hnum.
  1-3: simpl; lia.
  - destruct (jbytes_first (JNum neg m e p) [] Hnum) as (c & t & Ht & _).
    rewrite app_nil_r in Ht. rewrite Ht. simpl. lia.
  - change (jbytes (JStr s)) with (bytes_of (json_string s)).
    rewrite <- (app_nil_r (bytes_of _)), bytes_json_string. simpl. lia.
  - fold (need_elements l). change (jbytes (JArr l)) with (byte_of 91 :: bytes_of (Join (map jprint l) "," +:+ "]")).
    rewrite bytes_of_app. cbn [length]. rewrite length_app. change (length (bytes_of "]")) with 1%nat.
    enough (need_elements l <= length (bytes_of (Join (map jprint l) ",")) + 1)%nat by lia.
    apply need_elements_length. apply forallb_Forall in Hnum. rewrite Forall_forall in *. naive_solver.
  - fold (need_members m). rewrite object_text, bytes_of_app. cbn [length]. rewrite length_app.
    change (length (bytes_of "}")) with 1%nat.
    enough (need_members m <= length (bytes_of (Join (map member_text m) ",")) + 1)%nat by lia.
    apply need_members_length. apply forallb_Forall in Hnum. rewrite Forall_forall in *. naive_solver.
Qed.

(** Writing a tree and parsing it gives the tree back. *)
Lemma parse_print v :
  ints_only v = true -> height v <= maxNestingDepth -> parse_json (jprint v) = Ok (clean v).
Proof.
  intros Hnum Hh. unfold parse_json. fold (jbytes v). rewrite <- (app_nil_r (jbytes v)) at 2.
  rewrite parse_print_value; [done| |done|done|lia]. pose proof (need_length v Hnum). lia.
Qed.

(** ... also with the newline that [json.Encoder] ends the text with. *)
Lemma parse_print_line v :
  ints_only v = true -> height v <= maxNestingDepth ->
  parse_json (jprint v +:+ of_bytes [byte_of 10]) = Ok (clean v).
Proof.
  intros Hnum Hh. unfold parse_json. rewrite bytes_of_app. fold (jbytes v).
  rewrite parse_print_value; [done| |done|done|lia]. pose proof (need_length v Hnum).
  rewrite length_app. lia.
Qed.
