(* ===== verification/JsonWire.v ===== *)
(** * Values on the wire

    What becomes of a dynamic value that one side writes with [json.Marshal] and the
    other decodes into [any]: a map comes back sorted by key and an integer as the
    float64 nearest to it ([wire]).  [carried] are the values this is stated for: nil,
    booleans, integers of 64 bits, UTF-8 strings, slices and maps of such, which is
    what a manifest holds but for fractions. *)
From Stdlib Require Import ZArith Lia Bool Ascii.
From Stdlib Require Import Floats.SpecFloat.
From Stdlib Require String.
From S2P Require Import Prelude GoStr GoValue Filepath Json JsonParse JsonRound Keyconv Compare.

Local Open Scope Z_scope.

(** ** Definitions *)

Definition utf8 (s : string) : bool := String.eqb (valid_utf8 s) s.

Definition int64 (z : Z) : bool := (MinInt64 <=? z) && (z <=? MaxInt64).

Fixpoint carried (v : gval) : bool :=
  match v with
  | VNil | VBool _ => true
  | VInt z | VInt64 z => int64 z
  | VStr s => utf8 s
  | VSlice l => forallb carried l
  | VMap m => bool_decide (NoDup (mkeys m)) && forallb (fun kv => utf8 kv.1 && carried kv.2) m
  | _ => false
  end.

(** The tree that is written. *)
Fixpoint to_json (v : gval) : jval :=
  match v with
  | VBool b => JBool b
  | VInt z | VInt64 z => JNum (z <? 0) (Z.abs z) 0 true
  | VStr s => JStr s
  | VSlice l => JArr (map to_json l)
  | VMap m => JObj (sort_by fst (map (fun kv => (kv.1, to_json kv.2)) m))
  | _ => JNull
  end.

(** The value that is read. *)
Fixpoint wire (v : gval) : gval :=
  match v with
  | VInt z | VInt64 z => VFloat64 (float64_of_Z z)
  | VSlice l => VSlice (map wire l)
  | VMap m => VMap (sort_by fst (map (fun kv => (kv.1, wire kv.2)) m))
  | _ => v
  end.

Definition wire_map (m : gomap) : gomap := sort_by fst (map (fun kv => (kv.1, wire kv.2)) m).

Lemma wire_VMap m : wire (VMap m) = VMap (wire_map m).
Proof. done. Qed.

Example wire_ex :
  wire (VMap [("b", VInt (-2)); ("a", VSlice [VStr "x"; VNil])])
  = VMap [("a", VSlice [VStr "x"; VNil]); ("b", VFloat64 (float64_of_Z (-2)))].
Proof. vm_compute. reflexivity. Qed.

(** ** Integers of 64 bits are floats *)

Lemma digits2_pos_bound p k : 0 <= k -> Z.pos p < 2 ^ k -> Z.pos (digits2_pos p) <= k.
Proof.
  revert k. induction p as [p IH|p IH|]; intros k Hk Hp; cbn [digits2_pos].
  1-2: assert (Hk1 : 1 <= k) by (destruct (decide (k = 0)) as [->|]; [simpl in Hp; lia|lia]);
    pose proof (IH (k - 1)); replace (2 ^ k) with (2 * 2 ^ (k - 1)) in Hp
      by (rewrite <- Z.pow_succ_r by lia; f_equal; lia); lia.
  destruct (decide (k = 0)) as [->|]; [simpl in Hp; lia|lia].
Qed.

Lemma digits_bound m k : 0 <= k -> 0 <= m < 2 ^ k -> Zdigits2 m <= k.
Proof. intros Hk Hm. destruct m; cbn; [lia|apply digits2_pos_bound; lia|lia]. Qed.

Lemma shr_exponent r e n : (shr r e n).2 = e + Z.max 0 n.
Proof. unfold shr. destruct n; simpl; lia. Qed.

Lemma shr_1_le r : 0 <= shr_m r -> 0 <= shr_m (shr_1 r) <= shr_m r.
Proof. destruct r as [m r s]. destruct m as [|[p|p|]|[p|p|]]; simpl; lia. Qed.

Lemma iter_pos_inv {A} (P : A -> Prop) (f : A -> A) :
  (forall x, P x -> P (f x)) -> forall n x, P x -> P (SpecFloat.iter_pos f n x).
Proof. intros H n. induction n as [n IH|n IH|]; intros x Hx; simpl; auto. Qed.

Lemma shr_le r e n : 0 <= shr_m r -> 0 <= shr_m (shr r e n).1 <= shr_m r.
Proof.
  intros H. unfold shr. destruct n as [|p|p]; simpl; [lia| |lia].
  apply (iter_pos_inv (fun r' => 0 <= shr_m r' <= shr_m r)); [|lia].
  intros r' Hr. pose proof (shr_1_le r'). lia.
Qed.

(** A mantissa of at most 117 bits with a small exponent does not overflow. *)
Lemma shr_fexp_bound m e k :
  0 <= m < 2 ^ k -> 0 <= k -> e <= 64 ->
  (shr_fexp 53 1024 m e loc_Exact).2 <= Z.max 64 (k + 64 - 53) /\
  0 <= shr_m (shr_fexp 53 1024 m e loc_Exact).1 <= m.
Proof.
  intros Hm Hk He. unfold shr_fexp. rewrite shr_exponent.
  pose proof (digits_bound m k Hk Hm). split; [unfold fexp, emin; lia|].
  apply (shr_le (shr_record_of_loc m loc_Exact)). simpl. lia.
Qed.

Lemma iter_xO p d : Z.pos (Pos.iter xO p d) = Z.pos p * 2 ^ Z.pos d.
Proof.
  induction d as [|d IH] using Pos.peano_ind; [simpl; lia|].
  rewrite Pos.iter_succ, Pos2Z.inj_xO, IH, Pos2Z.inj_succ, Z.pow_succ_r by lia. lia.
Qed.

Lemma round_bound m l : m <= round_nearest_even m l <= m + 1.
Proof. unfold round_nearest_even. destruct l as [|[]]; try lia. case_match; lia. Qed.

Lemma binary_round_finite s p s' : Z.pos p < 2 ^ 64 -> binary_round 53 1024 s p 0 <> S754_infinity s'.
Proof.
  intros Hp. unfold binary_round. rewrite Z.add_0_r.
  pose proof (digits2_pos_bound p 64 ltac:(lia) Hp) as Hd.
  assert (Ha : forall (mz : positive) (ez : Z), shl_align p 0 (fexp 53 1024 (Z.pos (digits2_pos p))) = (mz, ez) ->
            Z.pos mz < 2 ^ 117 /\ ez <= 64).
  { intros mz ez. unfold shl_align, fexp, emin. rewrite Z.sub_0_r.
    destruct (Z.max _ _) as [|q|q] eqn:E; intros [= <- <-]; try lia.
    rewrite iter_xO. assert (Hq : Z.pos q <= 52) by lia.
    pose proof (Z.pow_le_mono_r 2 (Z.pos q) 52 ltac:(lia) Hq). split; [|lia].
    assert (Z.pos p * 2 ^ Z.pos q <= Z.pos p * 2 ^ 52) by (apply Z.mul_le_mono_nonneg_l; lia). lia. }
  destruct (shl_align _ _ _) as [mz ez]. destruct (Ha mz ez eq_refl) as [Hm He].
  unfold binary_round_aux. destruct (shr_fexp_bound (Z.pos mz) ez 117) as [H1 H2]; [lia|lia|lia|].
  destruct (shr_fexp 53 1024 (Z.pos mz) ez loc_Exact) as [r e']. cbn [fst snd] in *.
  pose proof (round_bound (shr_m r) (loc_of_shr_record r)) as Hb.
  set (m' := round_nearest_even _ _) in *.
  assert (Hf : (shr_fexp 53 1024 m' e' loc_Exact).2 <= 971).
  { unfold shr_fexp. rewrite shr_exponent. pose proof (digits_bound m' 118 ltac:(lia)). unfold fexp, emin. lia. }
  destruct (shr_fexp 53 1024 m' e' loc_Exact) as [r2 e2]. cbn [snd] in Hf.
  destruct (shr_m r2); [done| |done]. destruct (Z.leb_spec e2 (1024 - 53)); [done|lia].
Qed.

(** An integer of 64 bits written in decimal and read as a float is its conversion. *)
Lemma parse_float64_int (neg : bool) m z :
  0 <= m < 2 ^ 64 -> (if neg then - m else m) = z -> (neg = true -> m <> 0) ->
  parse_float64 neg m 0 = Some (float64_of_Z z).
Proof.
  intros Hm <- Hn. unfold parse_float64. destruct m as [|p|p]; [by destruct neg; [destruct Hn|]| |lia].
  assert (Hl : Z.log2 (Z.pos p) < 64) by (apply Z.log2_lt_pow2; lia).
  pose proof (Z.log2_nonneg (Z.pos p)).
  assert (Hq : 0 <= Z.log2 (Z.pos p) * 302 / 1000 <= 64)
    by (split; [apply Z.div_pos; lia|apply Z.div_le_upper_bound; lia]).
  rewrite Z.add_0_r. destruct (Z.ltb_spec 400 (Z.log2 (Z.pos p) * 302 / 1000)); [lia|].
  destruct (Z.ltb_spec (Z.log2 (Z.pos p) * 302 / 1000) (-400)); [lia|].
  cbn [Z.leb Z.compare]. change (10 ^ 0) with 1. rewrite Z.mul_1_r. unfold float64_of_Z.
  assert (Hb : forall b, binary_normalize 53 1024 (if neg then - Z.pos p else Z.pos p) 0 b = binary_round 53 1024 neg p 0)
    by by destruct neg.
  rewrite !Hb. destruct (binary_round 53 1024 neg p 0) eqn:E; try done. exfalso. revert E. apply binary_round_finite. lia.
Qed.

(** ** What is written is what is read *)

(** Sorting by key commutes with what keeps the keys. *)
Lemma sort_by_map {A B} (f : string * A -> B) (l : list (string * A)) :
  sort_by fst (map (fun kv => (kv.1, f kv)) l) = map (fun kv => (kv.1, f kv)) (sort_by fst l).
Proof.
  assert (Hi : forall x (l : list (string * A)),
    insert_by fst (x.1, f x) (map (fun kv => (kv.1, f kv)) l) = map (fun kv => (kv.1, f kv)) (insert_by fst x l)).
  { intros x k. induction k as [|y k IH]; [done|]. simpl. case_match; [done|]. simpl. by rewrite IH. }
  induction l as [|x l IH]; [done|]. cbn [map sort_by foldr].
  unfold sort_by in *. cbn [map foldr]. by rewrite IH, Hi.
Qed.

Lemma seq_opt_Some {A X} (f : X -> A) (g : X -> option string) (h : X -> string) l :
  Forall (fun x => g x = Some (h x)) l ->
  seq_opt (map (fun x => (f x, g x)) l) = Some (map (fun x => (f x, h x)) l).
Proof. induction 1 as [|x l Hx _ IH]; [done|]. cbn [map seq_opt]. by rewrite Hx, IH. Qed.

Lemma seq_res_Ok {X B} (f : X -> res B) (g : X -> B) l :
  Forall (fun x => f x = Ok (g x)) l -> seq_res (map f l) = Ok (map g l).
Proof. induction 1 as [|x l Hx _ IH]; [done|]. cbn [map seq_res]. by rewrite Hx, IH. Qed.

Lemma carried_VMap m :
  carried (VMap m) = true <->
  uniq_keys m /\ Forall (fun kv => utf8 kv.1 = true /\ carried kv.2 = true) m.
Proof.
  cbn [carried]. rewrite andb_true_iff, bool_decide_eq_true, forallb_Forall.
  apply and_iff_compat_l, Forall_iff. intros kv. apply andb_true_iff.
Qed.

Lemma carried_VSlice l : carried (VSlice l) = true <-> Forall (fun v => carried v = true) l.
Proof. cbn [carried]. by rewrite forallb_Forall. Qed.

(** A property of the values of a map, under its induction hypothesis. *)
Lemma Forall_carried (P : gval -> Prop) (m : gomap) :
  Forall (fun kv => carried kv.2 = true -> P kv.2) m ->
  Forall (fun kv => utf8 kv.1 = true /\ carried kv.2 = true) m -> Forall (fun kv => P kv.2) (sort_by fst m).
Proof. intros H1 H2. rewrite sort_by_perm. rewrite Forall_forall in *. naive_solver. Qed.

Lemma Marshal_to_json v : carried v = true -> Marshal v = Some (jprint (to_json v)).
Proof.
  assert (Hz : forall z, Itoa z = jprint (JNum (z <? 0) (Z.abs z) 0 true)) by by intros [].
  induction v as [|[]|z|z| | |s|l IH| |m IH| |] using gval_ind'; try done.
  1-2: intros _; cbn [Marshal]; by rewrite Hz.
  - intros Hc%carried_VSlice. cbn [Marshal to_json jprint].
    rewrite (seq_opt_Some _ _ (fun v => jprint (to_json v))) by (rewrite Forall_forall in *; naive_solver).
    cbn [option_map]. by rewrite !map_map.
  - intros [Hu Hc]%carried_VMap. cbn [Marshal to_json jprint].
    rewrite (sort_by_map (fun kv => Marshal kv.2)), (sort_by_map (fun kv => to_json kv.2)).
    rewrite (seq_opt_Some _ _ (fun kv => jprint (to_json kv.2))).
    2: by apply (Forall_carried (fun v => Marshal v = Some (jprint (to_json v)))).
    cbn [option_map]. by rewrite map_map.
Qed.

Lemma to_json_ints v : carried v = true -> ints_only (to_json v) = true.
Proof.
  induction v as [|[]|z|z| | |s|l IH| |m IH| |] using gval_ind'; try done.
  1-2: intros _; cbn [to_json ints_only]; lia.
  - intros Hc%carried_VSlice. cbn [to_json ints_only]. rewrite forallb_Forall, Forall_map.
    rewrite Forall_forall in *. naive_solver.
  - intros [_ Hc]%carried_VMap. cbn [to_json ints_only].
    rewrite (sort_by_map (fun kv => to_json kv.2)), forallb_Forall, Forall_map. cbn [snd].
    by apply (Forall_carried (fun v => ints_only (to_json v) = true)).
Qed.

Lemma to_any_wire v : carried v = true -> to_any (clean (to_json v)) = Ok (wire v).
Proof.
  assert (Hz : forall z, int64 z = true -> to_any (JNum (z <? 0) (Z.abs z) 0 true) = Ok (VFloat64 (float64_of_Z z))).
  { intros z. unfold int64, MinInt64, MaxInt64. rewrite andb_true_iff, !Z.leb_le. intros Hz. cbn [to_any].
    by rewrite (parse_float64_int _ _ z) by (destruct (Z.ltb_spec z 0); lia). }
  induction v as [|[]|z|z| | |s|l IH| |m IH| |] using gval_ind'; try done.
  1-2: by apply Hz.
  - cbn [carried to_json clean to_any wire]. unfold utf8. by intros ->%String.eqb_eq.
  - intros Hc%carried_VSlice. cbn [to_json clean to_any wire]. rewrite !map_map.
    rewrite (seq_res_Ok _ wire) by (rewrite Forall_forall in *; naive_solver). done.
  - intros [Hu Hc]%carried_VMap. cbn [to_json clean to_any wire].
    rewrite (sort_by_map (fun kv => to_json kv.2)), !map_map. cbn [fst snd].
    rewrite (seq_res_Ok _ (fun kv => (kv.1, wire kv.2))).
    + cbn [res_map]. rewrite (sort_by_map (fun kv => wire kv.2)), foldl_mset_fresh; [done|].
      cbn [mkeys map app]. unfold mkeys. rewrite map_map, (sort_by_perm fst m). exact Hu.
    + assert (Hk : Forall (fun kv => utf8 kv.1 = true) (sort_by fst m)).
      { rewrite sort_by_perm. eapply Forall_impl; [exact Hc|]. by intros ? []. }
      pose proof (Forall_carried (fun v => to_any (clean (to_json v)) = Ok (wire v)) m IH Hc) as Hv.
      rewrite Forall_forall in *. intros kv Hin. rewrite Hv by done.
      specialize (Hk kv Hin). unfold utf8 in Hk. apply String.eqb_eq in Hk. cbn [res_map]. by rewrite Hk.
Qed.

(** A value written and read is [wire] of it. *)
Lemma Unmarshal_Marshal v :
  carried v = true -> height (to_json v) <= maxNestingDepth ->
  exists data, Marshal v = Some data /\ Unmarshal data = Ok (wire v).
Proof.
  intros Hc Hh. exists (jprint (to_json v)). split; [by apply Marshal_to_json|].
  unfold Unmarshal. rewrite parse_print by auto using to_json_ints. by apply to_any_wire.
Qed.

(** ... for a map. *)
Lemma UnmarshalMap_Marshal m :
  carried (VMap m) = true -> height (to_json (VMap m)) <= maxNestingDepth ->
  exists data, Marshal (VMap m) = Some data /\ UnmarshalMap data = Ok (wire_map m).
Proof.
  intros Hc Hh. exists (jprint (to_json (VMap m))). split; [by apply Marshal_to_json|].
  unfold UnmarshalMap. rewrite parse_print by auto using to_json_ints. cbn [res_bind].
  pose proof (to_any_wire _ Hc) as Ha. cbn [to_json clean] in *. unfold to_map. by rewrite Ha.
Qed.

(** ** Nesting *)

Definition depth (v : gval) : Z := height (to_json v).

Lemma foldr_max_le {A} (f : A -> Z) l d :
  foldr (fun x acc => Z.max (f x) acc) 0 l <= d <-> 0 <= d /\ Forall (fun x => f x <= d) l.
Proof.
  induction l as [|x l IH]; cbn [foldr]; [by rewrite Forall_nil; intuition|].
  rewrite Forall_cons, Z.max_lub_iff, IH. tauto.
Qed.

Lemma depth_VMap m d : depth (VMap m) <= d <-> 1 <= d /\ Forall (fun kv => depth kv.2 <= d - 1) m.
Proof.
  unfold depth. cbn [to_json height]. rewrite (sort_by_map (fun kv => to_json kv.2)).
  transitivity (foldr (fun kv acc => Z.max (height kv.2) acc) 0
                  (map (fun kv => (kv.1, to_json kv.2)) (sort_by fst m)) <= d - 1); [lia|].
  rewrite foldr_max_le, Forall_map, sort_by_perm. cbn [snd]. apply and_iff_compat_r. lia.
Qed.

Lemma depth_VSlice l d : depth (VSlice l) <= d <-> 1 <= d /\ Forall (fun v => depth v <= d - 1) l.
Proof.
  unfold depth. cbn [to_json height].
  transitivity (foldr (fun x acc => Z.max (height x) acc) 0 (map to_json l) <= d - 1); [lia|].
  rewrite foldr_max_le, Forall_map. apply and_iff_compat_r. lia.
Qed.

(** An answer with one list of rows, as [unmarshal_maps] reads it. *)
Lemma unmarshal_rows field rows :
  utf8 field = true -> Forall (fun m => carried (VMap m) = true /\ depth (VMap m) <= maxNestingDepth - 2) rows ->
  exists text, Marshal (VMap [(field, VSlice (map VMap rows))]) = Some text /\
               unmarshal_maps field text = Ok (map wire_map rows).
Proof.
  intros Hf Hr. set (v := VMap [(field, VSlice (map VMap rows))]).
  assert (Hc : carried v = true).
  { apply carried_VMap. split; [apply NoDup_singleton|]. apply Forall_singleton. split; [done|].
    apply carried_VSlice, Forall_map. eapply Forall_impl; [exact Hr|]. by intros m []. }
  assert (Hd : depth v <= maxNestingDepth).
  { apply depth_VMap. unfold maxNestingDepth in *. split; [lia|]. apply Forall_singleton.
    apply depth_VSlice. split; [lia|]. apply Forall_map. eapply Forall_impl; [exact Hr|].
    intros m [_ H]. cbn in *. lia. }
  exists (jprint (to_json v)). split; [by apply Marshal_to_json|].
  unfold unmarshal_maps. rewrite parse_print by auto using to_json_ints. cbn [res_bind].
  change (clean (to_json v)) with (JObj [(valid_utf8 field, JArr (map clean (map to_json (map VMap rows))))]).
  unfold utf8 in Hf. apply String.eqb_eq in Hf. rewrite Hf. cbn [struct_field foldl fst snd res_bind].
  unfold field_match. rewrite bool_decide_eq_true_2 by done. cbn [decode_slice]. rewrite !map_map.
  apply seq_res_Ok. eapply Forall_impl; [exact Hr|]. intros m [Hm _].
  pose proof (to_any_wire _ Hm) as Ha. cbn [to_json clean] in *. unfold to_map. by rewrite Ha.
Qed.
