(* ===== verification/Echo.v ===== *)
(** * What comes back of a spec

    A spec goes to the server with snake_case keys, as JSON, and is observed as JSON with
    its keys converted back.  [echo] relates a value to what comes back of it: the same
    value, but for integers that are now float64 and maps in another order; the
    comparison of specs finds no difference between the two ([CompareSpec_echoes]). *)
From Stdlib Require Import ZArith Lia Bool Ascii.
From Stdlib Require String.
From S2P Require Import Prelude GoStr GoValue Filepath Keyconv Compare Json JsonParse JsonRound JsonWire.

Local Open Scope Z_scope.

(** ** The relation *)

#[warnings="-register-all"]
Inductive echo : gval -> gval -> Prop :=
  | echo_nil : echo VNil VNil
  | echo_bool b : echo (VBool b) (VBool b)
  | echo_str s : echo (VStr s) (VStr s)
  | echo_int z : echo (VInt z) (VFloat64 (float64_of_Z z))
  | echo_int64 z : echo (VInt64 z) (VFloat64 (float64_of_Z z))
  | echo_slice l k : Forall2 echo l k -> echo (VSlice l) (VSlice k)
  | echo_map m m' :
      length m = length m' ->
      (forall k x, (k, x) ∈ m -> exists y, mget k m' = Some y /\ echo x y) ->
      echo (VMap m) (VMap m').

(** The compared fields of a spec that an observation echoes. *)
Definition echoes (exclude : list string) (prefix : string) (desired actual : gomap) : Prop :=
  forall k x, (k, x) ∈ desired -> excluded exclude prefix k = false ->
              exists y, mget k actual = Some y /\ echo x y.

(** ** No difference is found *)

Lemma echo_toMap x y : echo x y -> toMap x = None <-> toMap y = None.
Proof. by destruct 1. Qed.

Lemma echo_asStr x y : echo x y -> asStr x = asStr y.
Proof. by destruct 1. Qed.

Lemma echo_toStringSet x y : echo x y -> toMap x = None -> toStringSet x = toStringSet y.
Proof.
  destruct 1 as [| | | | |l k H|]; try done. intros _. unfold toStringSet. cbn [toSlice].
  generalize (Some (∅ : gset string)). induction H as [|x y l k Hxy _ IH]; intros o; [done|].
  cbn [foldl]. by rewrite (echo_asStr _ _ Hxy).
Qed.

Lemma valuesEqual_echo x y : echo x y -> valuesEqual x y = true.
Proof.
  revert y. induction x as [|b|z|z| | |s|l IH| |m IH| |] using gval_ind'; intros y Hy;
    inversion Hy as [| | | | |? k Hk|? m' Hl Hm]; subst; clear Hy; rewrite valuesEqual_eq; unfold equal_step;
    cbn [toFloat64]; try (apply SFeqb_refl, float64_of_Z_not_nan); unfold equal_compound; cbn [toSlice toMap].
  - done.
  - cbn [DeepEqual]. by destruct b.
  - cbn [DeepEqual]. apply String.eqb_refl.
  - rewrite (Forall2_length _ _ _ Hk), Nat.eqb_refl. cbn [andb].
    induction Hk as [|x y l k Hxy _ IHk]; [done|]. apply Forall_cons in IH as [Hx IH]. cbn [zip zip_with forallb].
    cbn [fst snd]. rewrite Hx by done. by apply IHk.
  - rewrite Hl, Nat.eqb_refl. cbn [andb]. apply forallb_Forall, Forall_forall. intros [k x] Hin.
    destruct (Hm k x Hin) as (y & Hy & Hxy). cbn [fst snd]. rewrite Hy.
    rewrite Forall_forall in IH. by apply (IH (k, x)).
Qed.

Lemma differs_echo ex prefix d a p fd :
  differs ex prefix d a p fd -> echoes ex prefix d a -> set_fields_ok prefix d -> False.
Proof.
  induction 1 as [prefix d a key dVal Hin Hx Ha
    |prefix d a key dVal aVal dMap aMap p fd Hin Hx Ha Hdm Ham Hd IH
    |prefix d a key dVal aVal Hin Hx Ha Hor Hk Hl]; intros He Hset;
    destruct (He _ _ Hin Hx) as (y & Hy & Hecho); rewrite Ha in Hy; simplify_eq.
  - apply IH.
    + inversion Hecho; subst; simplify_eq/=. intros k v Hkv _. eauto.
    + intros q v Hq. apply Hset. by eapply field_there.
  - assert (Hm : toMap dVal = None) by (pose proof (echo_toMap _ _ Hecho); tauto).
    unfold leaf_equal in Hl. destruct (unorderedStringSetPath _) eqn:Hu.
    + assert (Hs : is_Some (toStringSet dVal)).
      { apply (Hset (join_path prefix key)); [by apply field_here|done|done]. }
      pose proof (stringSetEqual_refl dVal Hs) as Hr. unfold stringSetEqual in Hl, Hr.
      rewrite <- (echo_toStringSet _ _ Hecho Hm) in Hl. congruence.
    + by rewrite valuesEqual_echo in Hl.
Qed.

(** A spec agrees with every observation that echoes its compared fields. *)
Lemma CompareSpec_echoes d a ex :
  echoes ex EmptyString d a -> set_fields_ok EmptyString d -> CompareSpecExcluding d a ex = ∅.
Proof. intros He Hs. apply CompareSpecExcluding_empty. intros p fd Hd. by eapply differs_echo. Qed.

(** ** What comes back echoes *)

(** The values of a map, each under its key. *)
Lemma echo_map_entries m (f : string * gval -> gval) m' :
  uniq_keys m -> m' ≡ₚ map (fun kv => (kv.1, f kv)) m -> Forall (fun kv => echo kv.2 (f kv)) m ->
  echo (VMap m) (VMap m').
Proof.
  intros Hu Hp Hf.
  assert (Hu' : uniq_keys (map (fun kv => (kv.1, f kv)) m)).
  { unfold uniq_keys, mkeys. by rewrite map_map. }
  constructor; [by rewrite Hp, length_map|]. intros k x Hin. exists (f (k, x)).
  rewrite (mget_perm k m' (map (fun kv => (kv.1, f kv)) m));
    [|by unfold uniq_keys, mkeys; rewrite Hp|exact Hp].
  rewrite Forall_forall in Hf. split; [|by apply (Hf (k, x))].
  apply mget_in; [done|]. apply list_elem_of_fmap. by exists (k, x).
Qed.

Lemma echo_wire x : carried x = true -> echo x (wire x).
Proof.
  induction x as [|b|z|z| | |s|l IH| |m IH| |] using gval_ind'; try done; try (by constructor).
  - intros Hc%carried_VSlice. constructor. apply Forall2_fmap_r, Forall_Forall2_diag.
    rewrite Forall_forall in *. naive_solver.
  - intros [Hu Hc]%carried_VMap. rewrite wire_VMap. eapply echo_map_entries; [done|apply sort_by_perm|].
    rewrite Forall_forall in *. naive_solver.
Qed.

Section keys.
Context {U : Unicode} {UA : UnicodeAscii U}.

(** What becomes of the value [x] of field [k]. *)
Definition sent_value (k : string) (x : gval) : gval := (transformEntry camelToSnake (k, x)).2.
Definition arrives (k : string) (x : gval) : gval :=
  (transformEntry snakeToCamel (camelToSnake k, wire (sent_value k x))).2.

Lemma arrives_entry k x :
  camel_key k = true -> transformEntry snakeToCamel (camelToSnake k, wire (sent_value k x)) = (k, arrives k x).
Proof.
  intros Hk. unfold arrives, transformEntry. cbn [fst snd]. by rewrite snakeToCamel_camelToSnake.
Qed.

Definition roundtripped (x : gval) : gval :=
  transformValue snakeToCamel (wire (transformValue camelToSnake x)).

Lemma arrives_pass k x :
  camel_key k = true ->
  arrives k x = if passthroughKey k || passthroughKey (camelToSnake k) then wire x else roundtripped x.
Proof.
  intros Hk. unfold arrives, sent_value, transformEntry. cbn [fst snd].
  rewrite snakeToCamel_camelToSnake by done. rewrite (orb_comm (passthroughKey (camelToSnake k))).
  by destruct (passthroughKey k || passthroughKey (camelToSnake k)).
Qed.

(** The map that comes back, up to order. *)
Lemma roundtripped_VMap m :
  uniq_keys m -> Forall camel_entry m ->
  exists m', roundtripped (VMap m) = VMap m' /\ m' ≡ₚ map (fun kv => (kv.1, arrives kv.1 kv.2)) m.
Proof.
  intros Hu Hf. unfold roundtripped. rewrite transformValue_VMap, transformKeys_map by by apply camelToSnake_uniq.
  rewrite wire_VMap, transformValue_VMap. eexists. split; [done|].
  assert (Hp : map (transformEntry snakeToCamel) (wire_map (map (transformEntry camelToSnake) m))
               ≡ₚ map (fun kv => (kv.1, arrives kv.1 kv.2)) m).
  { unfold wire_map. rewrite sort_by_perm, !map_map.
    assert (He : map (fun kv => transformEntry snakeToCamel
                        ((transformEntry camelToSnake kv).1, wire (transformEntry camelToSnake kv).2)) m
                 = map (fun kv => (kv.1, arrives kv.1 kv.2)) m); [|by rewrite He].
    apply map_ext_in. intros [k x] Hin. apply list_elem_of_In in Hin. rewrite Forall_forall in Hf.
    destruct (Hf _ Hin) as [Hk _]. by apply arrives_entry. }
  rewrite transformKeys_map; [exact Hp|]. unfold mkeys. rewrite Hp, map_map. exact Hu.
Qed.

Lemma echo_roundtripped x : carried x = true -> camel_val x -> echo x (roundtripped x).
Proof.
  induction x as [|b|z|z| | |s|l IH| |m IH| |] using gval_ind'; try done; try (by constructor).
  - intros Hc%carried_VSlice Hv%camel_val_VSlice. unfold roundtripped. cbn [transformValue wire].
    rewrite !map_map. constructor. apply Forall2_fmap_r, Forall_Forall2_diag. rewrite Forall_forall in *. naive_solver.
  - intros [Hu Hc]%carried_VMap [_ Hf]%camel_val_VMap.
    destruct (roundtripped_VMap m Hu Hf) as (m' & -> & Hp). eapply echo_map_entries; [done|exact Hp|].
    rewrite Forall_forall in *. intros [k x] Hin. destruct (Hc _ Hin) as [_ Hx], (Hf _ Hin) as [Hk Hv].
    cbn [fst snd] in *. rewrite arrives_pass by done.
    destruct (passthroughKey k || passthroughKey (camelToSnake k)); [by apply echo_wire|].
    destruct Hv as [?|Hv]; [done|]. by apply (IH (k, x)).
Qed.

Lemma echo_arrives k x : carried x = true -> camel_entry (k, x) -> echo x (arrives k x).
Proof.
  intros Hc [Hk Hv]. rewrite arrives_pass by done. cbn [fst snd] in *.
  destruct (passthroughKey k || passthroughKey (camelToSnake k)); [by apply echo_wire|].
  destruct Hv as [?|Hv]; [done|]. by apply echo_roundtripped.
Qed.

(** ** What is sent can be written *)

Lemma utf8_ascii s : ascii_string s = true -> utf8 s = true.
Proof. intros H. unfold utf8. rewrite valid_utf8_ascii by done. apply String.eqb_refl. Qed.

Lemma camelToSnake_utf8 k : camel_key k = true -> utf8 (camelToSnake k) = true.
Proof.
  intros Hk. pose proof (camel_key_ascii k Hk) as Ha. apply utf8_ascii. rewrite camelToSnake_ascii by done.
  apply ascii_of_runes, camel_loop_ascii, ascii_bytes, Ha.
Qed.

Lemma carried_transform x : carried x = true -> camel_val x -> carried (transformValue camelToSnake x) = true.
Proof.
  induction x as [|b|z|z| | |s|l IH| |m IH| |] using gval_ind'; try done.
  - intros Hc%carried_VSlice Hv%camel_val_VSlice. cbn [transformValue]. apply carried_VSlice.
    apply Forall_map. rewrite Forall_forall in *. naive_solver.
  - intros [Hu Hc]%carried_VMap [_ Hf]%camel_val_VMap.
    rewrite transformValue_VMap, transformKeys_map by by apply camelToSnake_uniq.
    apply carried_VMap. split; [by apply camelToSnake_uniq|]. apply Forall_map.
    rewrite Forall_forall in *. intros [k x] Hin. destruct (Hc _ Hin) as [_ Hx], (Hf _ Hin) as [Hk Hv].
    cbn [fst snd] in *. unfold transformEntry. cbn [fst snd]. split; [by apply camelToSnake_utf8|].
    destruct (passthroughKey k || passthroughKey (camelToSnake k)); [done|].
    destruct Hv as [?|Hv]; [done|]. by apply (IH (k, x)).
Qed.

Lemma depth_transform x d : camel_val x -> depth x <= d -> depth (transformValue camelToSnake x) <= d.
Proof.
  revert d. induction x as [|b|z|z| | |s|l IH| |m IH| |] using gval_ind'; try done; intros d.
  - intros Hv%camel_val_VSlice. cbn [transformValue]. rewrite !depth_VSlice, Forall_map. intros [? Hd]. split; [done|].
    rewrite Forall_forall in *. naive_solver.
  - intros [Hu Hf]%camel_val_VMap. rewrite transformValue_VMap, transformKeys_map by by apply camelToSnake_uniq.
    rewrite !depth_VMap, Forall_map. intros [? Hd]. split; [done|]. rewrite Forall_forall in *. intros [k x] Hin.
    destruct (Hf _ Hin) as [_ Hv]. specialize (Hd _ Hin). unfold transformEntry. cbn [fst snd] in *.
    destruct (passthroughKey k || passthroughKey (camelToSnake k)); [done|].
    destruct Hv as [?|Hv]; [done|]. by apply (IH (k, x)).
Qed.
End keys.
