(* ===== verification/Update.v ===== *)
(** * The update check

    [internal/update/update.go]: the latest release, cached on disk for a day, and the
    comparison of versions.  The world holds the file tree, the clock and the network; how
    a time is written and read back are arguments. *)
From Stdlib Require Import ZArith Lia Bool Ascii.
From Stdlib Require String.
From S2P Require Import Prelude GoStr GoValue Filepath SkillPkg Json JsonParse.

Local Open Scope string_scope.
Local Open Scope go_scope.

(** ** Versions *)

(** [parse] of [versionGreaterThan]: major, minor and patch. *)
Definition parse_version (v : string) : Z * Z * Z :=
  match SplitN3 (TrimPrefix v "v") "." with
  | major :: minor :: rest =>
    (Atoi_value major, Atoi_value minor,
     match rest with
     | patch :: _ => Atoi_value (hd "" (SplitN2 patch "-"))
     | [] => 0%Z
     end)
  | _ => (0, 0, 0)%Z
  end.

Definition versionGreaterThan (latest current : string) : bool :=
  let '(lM, lm, lp) := parse_version latest in
  let '(cM, cm, cp) := parse_version current in
  if negb (lM =? cM)%Z then (cM <? lM)%Z
  else if negb (lm =? cm)%Z then (cm <? lm)%Z
  else (cp <? lp)%Z.

(** It is the lexicographic order of the three numbers. *)
Lemma versionGreaterThan_spec a b :
  versionGreaterThan a b = true <->
  let '(aM, am, ap) := parse_version a in
  let '(bM, bm, bp) := parse_version b in
  (bM < aM \/ (bM = aM /\ (bm < am \/ (bm = am /\ bp < ap))))%Z.
Proof.
  unfold versionGreaterThan. destruct (parse_version a) as [[aM am] ap], (parse_version b) as [[bM bm] bp].
  destruct (Z.eqb_spec aM bM), (Z.eqb_spec am bm); cbn [negb]; rewrite Z.ltb_lt; lia.
Qed.

(** A strict order: nothing is newer than itself, and if [c] is not newer than [a] then
    every [b] newer than [a] is newer than [c]. *)
Lemma versions_strict_order a b c :
  versionGreaterThan a a = false /\
  (versionGreaterThan a b = true -> versionGreaterThan b a = false) /\
  (versionGreaterThan a b = true -> versionGreaterThan b c = true -> versionGreaterThan a c = true) /\
  (versionGreaterThan b a = true -> versionGreaterThan c a = false -> versionGreaterThan b c = true).
Proof.
  rewrite <- !not_true_iff_false, !versionGreaterThan_spec.
  destruct (parse_version a) as [[? ?] ?], (parse_version b) as [[? ?] ?], (parse_version c) as [[? ?] ?]. lia.
Qed.

Example versions :
  map (fun x => versionGreaterThan x.1 x.2)
    [("v1.10.0", "v1.9.9"); ("v1.2.3", "1.2.3-rc.1"); ("v0.1.0", "dev"); ("2", "v1.0.0")]
  = [true; false; true; false].
Proof. vm_compute. reflexivity. Qed.

(** ** The check *)

Definition checkTTL : Z := 24 * 3600 * 10 ^ 9.

Record ReleaseInfo := mkRelease { Version : string; ReleaseURL : string }.

Record state := mkState { CheckedAt : Z; Release : ReleaseInfo }.

(** What the check asks of the system: the clock, the environment variables, whether the
    output is a terminal, the directories, the file tree, and a GET with its status and
    body. *)
Record System (W : Type) := mkSystem {
  s_now : W -> Z;
  s_getenv : W -> string -> string;
  s_terminal : W -> bool;
  s_config_dir : W -> res string;
  s_temp_dir : W -> string;
  s_fs : W -> Filesystem;
  s_set_fs : Filesystem -> W -> W;
  s_get : string -> W -> W * res (Z * string)
}.
Arguments s_now {W}. Arguments s_getenv {W}. Arguments s_terminal {W}. Arguments s_config_dir {W}.
Arguments s_temp_dir {W}. Arguments s_fs {W}. Arguments s_set_fs {W}. Arguments s_get {W}.

Section update.
Context {W : Type} (sys : System W) (format_time : Z -> string) (parse_time : string -> res Z).

Definition ShouldCheck (w : W) : bool :=
  String.eqb (s_getenv sys w "GCPLANE_NO_UPDATE_NOTIFIER") "" && String.eqb (s_getenv sys w "CI") ""
  && s_terminal sys w.

Definition stateFilePath (w : W) : string :=
  let dir := match s_config_dir sys w with Ok d => d | Err _ => s_temp_dir sys w end in
  JoinPath [dir; "gcplane"; "state.json"].

Definition decode_release (v : jval) : res ReleaseInfo :=
  let? version := struct_field "tag_name" "" decode_string v in
  let? url := struct_field "html_url" "" decode_string v in
  Ok (mkRelease version url).

Definition decode_state (v : jval) : res state :=
  let? at_ := struct_field "checked_at" 0%Z (fun x => let? s := decode_string x in parse_time s) v in
  let? rel := struct_field "release" (mkRelease "" "") decode_release v in
  Ok (mkState at_ rel).

Definition encode_release (r : ReleaseInfo) : string :=
  json_object [("tag_name", json_string (Version r)); ("html_url", json_string (ReleaseURL r))].

Definition encode_state (s : state) : string :=
  json_object [("checked_at", json_string (format_time (CheckedAt s))); ("release", encode_release (Release s))].

Definition readState (path : string) (w : W) : res state :=
  let? data := ReadFile (s_fs sys w) path in
  let? v := parse_json data in
  decode_state v.

Definition writeState (path : string) (s : state) (w : W) : W * res unit :=
  let '(fs, r) := bindM (MkdirAll (Dir path)) (fun _ => WriteFile path (encode_state s)) (s_fs sys w) in
  (s_set_fs sys fs w, r).

(** [json.NewDecoder(body).Decode]: the first value of the body. *)
Definition decode_first (data : string) : res jval :=
  let bs := bytes_of data in
  match parse_value (2 * length bs + 2)%nat 0 bs with
  | Some (v, _) => Ok v
  | None => Err json_syntax_error
  end.

Definition latest_url : string := "https://api.github.com/repos/dataplanelabs/gcplane/releases/latest".

Definition fetchLatest (w : W) : W * res ReleaseInfo :=
  match s_get sys latest_url w with
  | (w, Err e) => (w, Err e)
  | (w, Ok (code, body)) =>
    (w, if negb (code =? 200)%Z then Err (errorf ("HTTP " +:+ Itoa code))
        else let? v := decode_first body in decode_release v)
  end.

Definition newer (rel : ReleaseInfo) (current : string) : option ReleaseInfo :=
  if versionGreaterThan (Version rel) current then Some rel else None.

Definition cached (w : W) : option state :=
  match readState (stateFilePath w) w with
  | Ok s => if (s_now sys w - CheckedAt s <? checkTTL)%Z then Some s else None
  | Err _ => None
  end.

Definition Check_ (current : string) (w : W) : W * option ReleaseInfo :=
  match cached w with
  | Some s => (w, newer (Release s) current)
  | None =>
    let path := stateFilePath w in
    match fetchLatest w with
    | (w, Err _) => (w, None)
    | (w, Ok rel) =>
      ((writeState path (mkState (s_now sys w) rel) w).1, newer rel current)
    end
  end.

(** A state younger than a day answers without touching anything; otherwise GitHub is
    asked once, a failure is silent and leaves the cache as it was, and a release is
    reported only if it is newer than the current version. *)
Lemma check_exact current w :
  let '(w', r) := Check_ current w in
  (forall rel, r = Some rel -> versionGreaterThan (Version rel) current = true) /\
  match cached w with
  | Some s => w' = w /\ r = newer (Release s) current
  | None =>
    match s_get sys latest_url w with
    | (w1, Ok (200%Z, body)) =>
      match (let? v := decode_first body in decode_release v) with
      | Ok rel => r = newer rel current /\
          w' = (writeState (stateFilePath w) (mkState (s_now sys w1) rel) w1).1
      | Err _ => w' = w1 /\ r = None
      end
    | (w1, _) => w' = w1 /\ r = None
    end
  end.
Proof.
  unfold Check_, fetchLatest, newer. destruct (cached w) as [s|].
  { split; [|done]. by case_match; intros rel [= <-]. }
  destruct (s_get sys latest_url w) as [w1 [[code body]|e]]; [|done].
  destruct (Z.eqb_spec code 200) as [->|Hc]; cbn [negb].
  - destruct (res_bind _ _) as [rel|e]; [|done]. split; [|done]. by case_match; intros rel' [= <-].
  - split; [done|]. destruct code as [|p|p]; try done. by repeat (destruct p as [p|p|]; try done).
Qed.
End update.
