(* ===== verification/Ring.v ===== *)
(** * Ring buffers of the terminal interface

    [internal/tui/live_store.go] (the log and event rings fed by the WebSocket read
    loop) and [internal/tui/trace/ring_handler.go] (the ring behind the program's own
    logger).  Positions are Go [int]s, 64 bits wide with wrap-around; an index out of
    range and a modulo by zero are panics ([None]).  An instant is its number of
    nanoseconds since the Unix epoch; [time.Now()] is an argument. *)
From Stdlib Require Import ZArith Lia Bool Ascii.
From Stdlib Require String.
From S2P Require Import Prelude GoStr GoValue JsonParse.

Local Open Scope Z_scope.

(** ** Machine integers and slices *)

(** The [int] a result that may overflow is. *)
Definition wrap64 (z : Z) : Z := (z + 2 ^ 63) mod 2 ^ 64 - 2 ^ 63.

Lemma wrap64_small z : MinInt64 <= z <= MaxInt64 -> wrap64 z = z.
Proof. unfold wrap64, MinInt64, MaxInt64. intros. rewrite Z.mod_small; lia. Qed.

(** [a % b]: truncated, a panic for zero. *)
Definition rem64 (a b : Z) : option Z := if b =? 0 then None else Some (Z.rem a b).

(** [l[i] = e]. *)
Definition set_at {E} (l : list E) (i : Z) (e : E) : option (list E) :=
  if (0 <=? i) && (i <? Z.of_nat (length l)) then Some (<[Z.to_nat i := e]> l) else None.

(** [l[lo:hi]] with [hi] at most the length. *)
Definition slice {E} (l : list E) (lo hi : Z) : option (list E) :=
  if (0 <=? lo) && (lo <=? hi) && (hi <=? Z.of_nat (length l))
  then Some (take (Z.to_nat (hi - lo)) (drop (Z.to_nat lo) l)) else None.

(** [make([]E, n)]. *)
Definition make_slice {E} (zero : E) (n : Z) : option (list E) :=
  if n <? 0 then None else Some (replicate (Z.to_nat n) zero).

(** [copy(dst[at:], src)]. *)
Definition copy_at {E} (dst : list E) (at_ : Z) (src : list E) : option (list E) :=
  match slice dst at_ (Z.of_nat (length dst)) with
  | None => None
  | Some tl => let n := Nat.min (length tl) (length src) in
               Some (take (Z.to_nat at_) dst ++ take n src ++ drop n tl)
  end.

(** The two [copy]s both snapshots end with: the ring from [start] on, then the part
    before it. *)
Definition unroll {E} (zero : E) (l : list E) (cap start : Z) : option (list E) :=
  r ← make_slice zero cap;
  hi ← slice l start (Z.of_nat (length l));
  r ← copy_at r 0 hi;
  lo ← slice l 0 start;
  copy_at r (cap - start) lo.

(** ** live_store.go *)

Record WSEventFrame := mkFrame {
  fr_Type : string;
  fr_Event : string;
  fr_Payload : option string;
  fr_Seq : Z
}.

Record LogEntry := mkLogEntry {
  le_Time : Z;
  le_Level : string;
  le_Message : string;
  le_Source : string;
  le_Attrs : list (string * string)
}.

Record LiveEvent := mkLiveEvent {
  ev_Time : Z;
  ev_Type : string;
  ev_Subtype : string;
  ev_Summary : string;
  ev_Raw : option string
}.

Definition zeroLog : LogEntry := mkLogEntry 0 "" "" "" [].
Definition zeroEvent : LiveEvent := mkLiveEvent 0 "" "" "" None.

Record LiveStore := mkLiveStore {
  logs : list LogEntry;
  events : list LiveEvent;
  logCap : Z;
  evtCap : Z;
  logPos : Z;
  evtPos : Z;
  dirty : bool;
  tailing : bool
}.

(** [make] with a negative capacity panics. *)
Definition NewLiveStore (logCap evtCap : Z) : option LiveStore :=
  if (logCap <? 0) || (evtCap <? 0) then None
  else Some (mkLiveStore [] [] logCap evtCap 0 0 false false).

(** The body of [appendLog] and of [appendEvent]: the new ring, and the new position. *)
Definition ring_append {E} (ring : list E) (cap pos : Z) (e : E) : option (list E * Z) :=
  r ← (if pos <? cap then Some (ring ++ [e]) else i ← rem64 pos cap; set_at ring i e);
  Some (r, wrap64 (pos + 1)).

Definition appendLog (s : LiveStore) (e : LogEntry) : option LiveStore :=
  '(l, pos) ← ring_append (logs s) (logCap s) (logPos s) e;
  Some (mkLiveStore l (events s) (logCap s) (evtCap s) pos (evtPos s) true (tailing s)).

Definition appendEvent (s : LiveStore) (e : LiveEvent) : option LiveStore :=
  '(l, pos) ← ring_append (events s) (evtCap s) (evtPos s) e;
  Some (mkLiveStore (logs s) l (logCap s) (evtCap s) (logPos s) pos true (tailing s)).

(** [ring[:hi]], which Go lets reach over the zero values up to the capacity. *)
Definition slice_to_cap {E} (zero : E) (ring : list E) (cap hi : Z) : option (list E) :=
  slice (ring ++ replicate (Z.to_nat cap - length ring) zero) 0 hi.

(** The body of both snapshots. *)
Definition ring_snapshot {E} (zero : E) (ring : list E) (cap pos : Z) : option (list E) :=
  if pos =? 0 then Some []
  else if pos <=? cap then slice_to_cap zero ring cap pos
  else start ← rem64 pos cap; unroll zero ring cap start.

Definition logSnapshot (s : LiveStore) : option (list LogEntry) :=
  ring_snapshot zeroLog (logs s) (logCap s) (logPos s).

Definition evtSnapshot (s : LiveStore) : option (list LiveEvent) :=
  ring_snapshot zeroEvent (events s) (evtCap s) (evtPos s).

Definition Logs (s : LiveStore) : option (list LogEntry) := logSnapshot s.
Definition Events (s : LiveStore) : option (list LiveEvent) := evtSnapshot s.

Definition MarkClean (s : LiveStore) : LiveStore :=
  mkLiveStore (logs s) (events s) (logCap s) (evtCap s) (logPos s) (evtPos s) false (tailing s).

Definition IsDirty (s : LiveStore) : bool := dirty s.

Definition SetTailing (s : LiveStore) (v : bool) : LiveStore :=
  mkLiveStore (logs s) (events s) (logCap s) (evtCap s) (logPos s) (evtPos s) (dirty s) v.

Definition IsTailing (s : LiveStore) : bool := tailing s.
Definition LogCount (s : LiveStore) : Z := logPos s.
Definition EventCount (s : LiveStore) : Z := evtPos s.

(** *** Decoding of a frame *)

Definition formatTeamEvent (event subtype : string) : string :=
  "Team " +:+ ReplaceAll (TrimPrefix event "team.") "." " ".

(** The summary of an [agent] event. *)
Definition agent_summary (agent tool type : string) : string :=
  let eqs := String.eqb type in
  "Agent " +:+ agent +:+
  (if eqs "run.started" then " run started"
   else if eqs "run.completed" then " run completed"
   else if eqs "run.failed" then " run FAILED"
   else if eqs "run.cancelled" then " run cancelled"
   else if eqs "tool.call" then " -> tool." +:+ tool
   else if eqs "tool.result" then " <- tool." +:+ tool
   else if eqs "block.reply" then " block reply"
   else ": " +:+ type).

Definition chat_summary (type : string) : string :=
  if String.eqb type "message" then "Chat message"
  else if String.eqb type "chunk" then "Chat chunk"
  else if String.eqb type "thinking" then "Chat thinking"
  else "Chat: " +:+ type.

Definition parseLiveEvent (now : Z) (frame : WSEventFrame) : LiveEvent :=
  let peek := match fr_Payload frame with
              | Some data => match parse_json data with Ok v => v | Err _ => JNull end
              | None => JNull
              end in
  let field name := lenient_string_field name peek in
  let type := field "type"%string in
  let event := fr_Event frame in
  let eqs := String.eqb event in
  let summary :=
    if eqs "agent" then
      let agent := field "agent"%string in
      agent_summary (if String.eqb agent "" then field "name"%string else agent)
        (field "tool"%string) type
    else if eqs "chat" then chat_summary type
    else if eqs "health" then "System health update"
    else if eqs "cron" then
      if String.eqb (field "name"%string) "" then "Cron: " +:+ field "status"%string
      else "Cron " +:+ field "name"%string +:+ ": " +:+ field "status"%string
    else if eqs "presence" then "Presence update"
    else if eqs "session.updated" then "Session updated"
    else if eqs "trace.updated" then "Trace updated"
    else if eqs "heartbeat" then "Heartbeat"
    else if eqs "shutdown" then "Server shutdown"
    else if HasPrefix event "team." then formatTeamEvent event type
    else if String.eqb type "" then event else event +:+ ": " +:+ type in
  mkLiveEvent now event type summary (fr_Payload frame).

(** The struct a [log] payload decodes into; an error drops the frame. *)
Definition decode_log (payload : option string) : res LogEntry :=
  (let? v := parse_json (default EmptyString payload) in
   let? ts := struct_field "timestamp" 0 decode_int64 v in
   let? level := struct_field "level" EmptyString decode_string v in
   let? message := struct_field "message" EmptyString decode_string v in
   let? source := struct_field "source" EmptyString decode_string v in
   let? attrs := struct_field "attrs" [] decode_strmap v in
   Ok (mkLogEntry (ts * 1000000) level message source attrs))%go.

Definition HandleEvent (s : LiveStore) (now : Z) (frame : WSEventFrame) : option LiveStore :=
  if String.eqb (fr_Event frame) "log" then
    match decode_log (fr_Payload frame) with
    | Err _ => Some s
    | Ok entry => appendLog s entry
    end
  else
    let evt := parseLiveEvent now frame in
    if String.eqb (ev_Summary evt) "" then Some s else appendEvent s evt.

(** ** trace/ring_handler.go *)

(** A captured record; [Attrs] of a [slog.Record] in their order. *)
Record Entry := mkEntry {
  en_Time : Z;
  en_Level : Z;
  en_Message : string;
  en_Attrs : gomap
}.

Record slogRecord := mkRecord {
  rc_Time : Z;
  rc_Level : Z;
  rc_Message : string;
  rc_Attrs : gomap
}.

Definition zeroEntry : Entry := mkEntry 0 0 "" [].

Section ring_handler.
Context {W : Type}.          (** what the callback acts on *)

(** The state the clones of a handler share. *)
Record ringCore := mkCore {
  entries : list Entry;
  size : Z;
  pos : Z;
  onEntry : option (Entry -> W -> W)
}.

Record RingHandler := mkHandler { h_level : Z; h_attrs : gomap }.

Definition NewRingHandler (size level : Z) (cb : option (Entry -> W -> W)) :
    option (ringCore * RingHandler) :=
  es ← make_slice zeroEntry size; Some (mkCore es size 0 cb, mkHandler level []).

Definition SetOnEntry (c : ringCore) (fn : option (Entry -> W -> W)) : ringCore :=
  mkCore (entries c) (size c) (pos c) fn.

Definition Enabled (h : RingHandler) (level : Z) : bool := h_level h <=? level.

(** The entry [Handle] builds: the handler's attributes, then the record's. *)
Definition entry_of (h : RingHandler) (r : slogRecord) : Entry :=
  mkEntry (rc_Time r) (rc_Level r) (rc_Message r)
    (foldl (fun m a => mset a.1 a.2 m) [] (h_attrs h ++ rc_Attrs r)).

Definition Handle (h : RingHandler) (r : slogRecord) (c : ringCore) (w : W) :
    option (ringCore * W) :=
  let entry := entry_of h r in
  i ← rem64 (pos c) (size c);
  es ← set_at (entries c) i entry;
  Some (mkCore es (size c) (wrap64 (pos c + 1)) (onEntry c),
        match onEntry c with Some f => f entry w | None => w end).

Definition WithAttrs (h : RingHandler) (attrs : gomap) : RingHandler :=
  mkHandler (h_level h) (h_attrs h ++ attrs).

Definition WithGroup (h : RingHandler) (_ : string) : RingHandler := h.

Definition Snapshot (c : ringCore) : option (list Entry) :=
  ring_snapshot zeroEntry (entries c) (size c) (pos c).

Definition Count (c : ringCore) : Z := pos c.

(** Records handled one after the other, by clones of one handler. *)
Fixpoint handle_all (rs : list (RingHandler * slogRecord)) (c : ringCore) (w : W) :
    option (ringCore * W) :=
  match rs with
  | [] => Some (c, w)
  | (h, r) :: rs' => '(c', w') ← Handle h r c w; handle_all rs' c' w'
  end.
End ring_handler.
Arguments ringCore W : clear implicits.

(** ** A ring holds the last [cap] elements *)

(** The ring after [hist] was appended to it. *)
Definition ring_holds {E} (ring : list E) (cap : nat) (hist : list E) : Prop :=
  (length ring = Nat.min (length hist) cap \/ length ring = cap) /\
  forall i, (length hist - cap <= i < length hist)%nat -> ring !! (i mod cap)%nat = hist !! i.

Definition last_n {E} (n : nat) (l : list E) : list E := drop (length l - n) l.

Section ring_lemmas.
Context {E : Type}.
Implicit Types ring hist : list E.

Lemma set_at_nat ring i e :
  (i < length ring)%nat -> set_at ring (Z.of_nat i) e = Some (<[i := e]> ring).
Proof.
  intros. unfold set_at. rewrite (proj2 (andb_true_iff _ _)) by (split; lia). by rewrite Nat2Z.id.
Qed.

Lemma rem64_nat a b : (0 < b)%nat -> rem64 (Z.of_nat a) (Z.of_nat b) = Some (Z.of_nat (a mod b)).
Proof.
  intros. unfold rem64. destruct (Z.eqb_spec (Z.of_nat b) 0); [lia|].
  by rewrite Z.rem_mod_nonneg, Nat2Z.inj_mod by lia.
Qed.

Lemma slice_nat ring lo hi :
  (lo <= hi <= length ring)%nat ->
  slice ring (Z.of_nat lo) (Z.of_nat hi) = Some (take (hi - lo) (drop lo ring)).
Proof.
  intros. unfold slice.
  rewrite (proj2 (andb_true_iff _ _)) by (split; [apply andb_true_iff; split|]; lia).
  by rewrite <- Nat2Z.inj_sub, !Nat2Z.id by lia.
Qed.

(** Both indices are congruent but less than [cap] apart. *)
Lemma mod_distinct i n cap :
  (0 < cap)%nat -> (i < n < i + cap)%nat -> (n mod cap <> i mod cap)%nat.
Proof.
  intros Hc Hi Heq.
  pose proof (Nat.div_mod n cap ltac:(lia)) as Hn. pose proof (Nat.div_mod i cap ltac:(lia)) as Hj.
  assert (n - i = cap * (n / cap - i / cap))%nat.
  { rewrite Nat.mul_sub_distr_l. lia. }
  destruct (n / cap - i / cap)%nat; nia.
Qed.

Lemma set_at_holds ring cap hist e :
  (0 < cap)%nat -> ring_holds ring cap hist -> (cap <= length hist \/ length ring = cap)%nat ->
  let ring' := <[(length hist mod cap)%nat := e]> ring in
  ring_holds ring' cap (hist ++ [e]) /\ length ring' = cap.
Proof.
  intros Hc [Hlen Hi] Hfull ring'.
  assert (Hl : length ring = cap) by lia. unfold ring'. rewrite length_insert. split; [|done].
  split; [right; by rewrite length_insert|]. rewrite length_app. cbn [length]. intros i Hr.
  destruct (decide (i = length hist)) as [->|Hne].
  - rewrite list_lookup_insert_eq by (rewrite Hl; apply Nat.mod_upper_bound; lia).
    by rewrite lookup_app_r, Nat.sub_diag by lia.
  - rewrite list_lookup_insert_ne by (apply mod_distinct; lia).
    rewrite lookup_app_l by lia. apply Hi. lia.
Qed.

Lemma ring_append_holds ring cap hist e :
  (0 < cap)%nat -> (Z.of_nat (length hist) < MaxInt64) ->
  length ring = Nat.min (length hist) cap -> ring_holds ring cap hist ->
  exists ring', ring_append ring (Z.of_nat cap) (Z.of_nat (length hist)) e
                = Some (ring', Z.of_nat (length (hist ++ [e]))) /\
    length ring' = Nat.min (length (hist ++ [e])) cap /\ ring_holds ring' cap (hist ++ [e]).
Proof.
  intros Hc Hmax Hl Hh. unfold ring_append.
  rewrite wrap64_small by (unfold MinInt64 in *; lia).
  rewrite length_app. cbn [length].
  destruct (Z.ltb_spec (Z.of_nat (length hist)) (Z.of_nat cap)) as [Hlt|Hge].
  - eexists. split; [cbn; repeat f_equal; lia|]. rewrite length_app. cbn [length]. split; [lia|].
    assert (Hr : ring = hist).
    { apply list_eq_same_length with (length hist); [lia|lia|]. intros i x y Hi Hx Hy.
      destruct Hh as [_ Hh]. specialize (Hh i). rewrite Nat.mod_small in Hh by lia.
      rewrite Hh in Hx by lia. congruence. }
    subst ring. split; [left; rewrite !length_app; cbn; lia|]. intros i Hi.
    rewrite length_app in Hi. cbn in Hi. by rewrite Nat.mod_small by lia.
  - rewrite rem64_nat by done. cbn.
    rewrite set_at_nat by (rewrite Hl; pose proof (Nat.mod_upper_bound (length hist) cap); lia).
    cbn. destruct (set_at_holds ring cap hist e) as [H1 H2]; [done|done|lia|].
    eexists. split; [repeat f_equal; lia|]. split; [lia|done].
Qed.
End ring_lemmas.

(** Length arithmetic. *)
Ltac len :=
  repeat first [rewrite length_app | rewrite length_take | rewrite length_drop
               | rewrite length_replicate | rewrite length_insert]; cbn [length]; lia.

Section snapshot_lemmas.
Context {E : Type} (zero : E).
Implicit Types ring hist : list E.

Lemma copy_at_nat (dst src : list E) n :
  (n + length src <= length dst)%nat ->
  copy_at dst (Z.of_nat n) src = Some (take n dst ++ src ++ drop (n + length src) dst).
Proof.
  intros H. unfold copy_at. rewrite slice_nat by lia. rewrite Nat2Z.id.
  rewrite (take_ge (drop n dst)) by len. rewrite length_drop.
  rewrite Nat.min_r by lia. by rewrite (take_ge src), drop_drop by lia.
Qed.

Lemma unroll_nat ring n :
  (n <= length ring)%nat ->
  unroll zero ring (Z.of_nat (length ring)) (Z.of_nat n) = Some (drop n ring ++ take n ring).
Proof.
  intros H. unfold unroll, make_slice. destruct (Z.ltb_spec (Z.of_nat (length ring)) 0); [lia|].
  rewrite Nat2Z.id. cbn [mbind option_bind]. rewrite slice_nat by lia. cbn [mbind option_bind].
  rewrite (take_ge (drop n ring)) by len.
  change (copy_at ?d 0 ?s) with (copy_at d (Z.of_nat 0) s).
  rewrite copy_at_nat by len.
  cbn [mbind option_bind take app Nat.add].
  change (slice ring 0 (Z.of_nat n)) with (slice ring (Z.of_nat 0) (Z.of_nat n)).
  rewrite slice_nat by lia. cbn [mbind option_bind].
  rewrite drop_0, Nat.sub_0_r, <- Nat2Z.inj_sub by lia.
  rewrite copy_at_nat by len. rewrite take_0, app_nil_l, take_app_length' by len.
  rewrite (drop_ge (_ ++ _)), app_nil_r; [done|].
  len.
Qed.

Lemma snapshot_holds ring cap hist :
  (0 < cap)%nat -> ring_holds ring cap hist ->
  ring_snapshot zero ring (Z.of_nat cap) (Z.of_nat (length hist)) = Some (last_n cap hist).
Proof.
  intros Hc [Hl Hi]. unfold ring_snapshot, last_n.
  destruct (Z.eqb_spec (Z.of_nat (length hist)) 0) as [H0|H0].
  { destruct hist; [done|simpl in *; lia]. }
  destruct (Z.leb_spec (Z.of_nat (length hist)) (Z.of_nat cap)) as [Hle|Hgt].
  - unfold slice_to_cap. rewrite Nat2Z.id.
    rewrite (slice_nat _ 0) by len.
    f_equal. rewrite drop_0, Nat.sub_0_r. replace (length hist - cap)%nat with 0%nat by lia.
    rewrite drop_0. rewrite take_app_le by lia.
    apply list_eq. intros i. destruct (decide (i < length hist)%nat) as [Hlt|Hge].
    + rewrite lookup_take_lt by done. rewrite <- Hi by lia. by rewrite Nat.mod_small by lia.
    + rewrite !lookup_ge_None_2; [done|len|len].
  - assert (Hring : length ring = cap) by lia. rewrite rem64_nat by done. cbn [mbind option_bind].
    pose proof (Nat.mod_upper_bound (length hist) cap ltac:(lia)) as Hm.
    rewrite <- Hring at 1. rewrite unroll_nat by lia. f_equal.
    apply list_eq. intros i. rewrite lookup_drop.
    pose proof (Nat.div_mod (length hist) cap ltac:(lia)) as Hd.
    set (m := (length hist mod cap)%nat) in *. set (q := (length hist / cap)%nat) in *.
    clearbody m q. destruct q as [|q]; [lia|].
    destruct (decide (i < cap)%nat) as [Hlt|Hge].
    + rewrite <- Hi by lia. destruct (decide (i < cap - m)%nat).
      * rewrite lookup_app_l by len. rewrite lookup_drop. f_equal.
        apply (Nat.mod_unique _ _ q); lia.
      * rewrite lookup_app_r by len. rewrite length_drop.
        rewrite lookup_take_lt by lia. f_equal.
        apply (Nat.mod_unique _ _ (S q)); lia.
    + rewrite !lookup_ge_None_2; [done|len|len].
Qed.
End snapshot_lemmas.

(** ** What the live store promises *)

(** The calls made on it, from the read loop and from the interface. *)
Inductive live_op :=
  | OpEvent (now : Z) (frame : WSEventFrame)
  | OpMarkClean
  | OpTailing (v : bool).

Definition live_step (s : LiveStore) (op : live_op) : option LiveStore :=
  match op with
  | OpEvent now frame => HandleEvent s now frame
  | OpMarkClean => Some (MarkClean s)
  | OpTailing v => Some (SetTailing s v)
  end.

Fixpoint live_run (s : LiveStore) (ops : list live_op) : option LiveStore :=
  match ops with
  | [] => Some s
  | op :: ops' => s' ← live_step s op; live_run s' ops'
  end.

(** The abstract store: everything ever received. *)
Record Received := mkReceived {
  all_logs : list LogEntry;
  all_events : list LiveEvent;
  unseen : bool;
  tail_on : bool
}.

Definition receive (r : Received) (op : live_op) : Received :=
  match op with
  | OpEvent now frame =>
    if String.eqb (fr_Event frame) "log" then
      match decode_log (fr_Payload frame) with
      | Ok e => mkReceived (all_logs r ++ [e]) (all_events r) true (tail_on r)
      | Err _ => r
      end
    else
      let e := parseLiveEvent now frame in
      if String.eqb (ev_Summary e) "" then r
      else mkReceived (all_logs r) (all_events r ++ [e]) true (tail_on r)
  | OpMarkClean => mkReceived (all_logs r) (all_events r) false (tail_on r)
  | OpTailing v => mkReceived (all_logs r) (all_events r) (unseen r) v
  end.

(** The simulation relation, for one ring and for the store. *)
Record ring_rel {E} (ring : list E) (cap pos : Z) (c : nat) (hist : list E) : Prop := {
  rr_cap : cap = Z.of_nat c;
  rr_pos : pos = Z.of_nat (length hist);
  rr_len : length ring = Nat.min (length hist) c;
  rr_holds : ring_holds ring c hist
}.

Record represents (lc ec : nat) (s : LiveStore) (r : Received) : Prop := {
  rep_logs : ring_rel (logs s) (logCap s) (logPos s) lc (all_logs r);
  rep_events : ring_rel (events s) (evtCap s) (evtPos s) ec (all_events r);
  rep_dirty : dirty s = unseen r;
  rep_tail : tailing s = tail_on r
}.

Lemma ring_rel_append {E} (ring : list E) cap pos c hist e :
  (0 < c)%nat -> Z.of_nat (length hist) < MaxInt64 -> ring_rel ring cap pos c hist ->
  exists ring' pos', ring_append ring cap pos e = Some (ring', pos') /\
    ring_rel ring' cap pos' c (hist ++ [e]).
Proof.
  intros Hc Hm [-> -> Hl Hh]. destruct (ring_append_holds ring c hist e) as (r' & -> & Hl' & Hh');
    [done..|]. by eexists _, _.
Qed.

Lemma live_step_sim lc ec s r op :
  (0 < lc)%nat -> (0 < ec)%nat ->
  Z.of_nat (length (all_logs r)) < MaxInt64 -> Z.of_nat (length (all_events r)) < MaxInt64 ->
  represents lc ec s r ->
  exists s', live_step s op = Some s' /\ represents lc ec s' (receive r op).
Proof.
  intros Hlc Hec Hl He [Rl Re Rd Rt]. destruct op as [now frame| |v]; cbn [live_step receive].
  - unfold HandleEvent. destruct (String.eqb (fr_Event frame) "log").
    + destruct (decode_log (fr_Payload frame)) as [e|]; [|by exists s].
      destruct (ring_rel_append _ _ _ _ _ e Hlc Hl Rl) as (l' & p' & Hap & Rl').
      unfold appendLog. rewrite Hap. cbn. eexists. split; [done|]. by split.
    + destruct (String.eqb (ev_Summary (parseLiveEvent now frame)) ""); [by exists s|].
      destruct (ring_rel_append _ _ _ _ _ (parseLiveEvent now frame) Hec He Re)
        as (l' & p' & Hap & Re').
      unfold appendEvent. rewrite Hap. cbn. eexists. split; [done|]. by split.
  - eexists. split; [done|]. by split.
  - eexists. split; [done|]. by split.
Qed.

Lemma receive_grows r op :
  (length (all_logs (receive r op)) <= S (length (all_logs r)))%nat /\
  (length (all_events (receive r op)) <= S (length (all_events r)))%nat.
Proof.
  destruct op; cbn [receive]; repeat case_match; cbn [all_logs all_events];
    rewrite ?length_app; cbn [length]; lia.
Qed.

Lemma live_run_sim lc ec ops : (0 < lc)%nat -> (0 < ec)%nat ->
  forall s r, represents lc ec s r ->
  Z.of_nat (length ops + Nat.max (length (all_logs r)) (length (all_events r))) <= MaxInt64 ->
  exists s', live_run s ops = Some s' /\ represents lc ec s' (foldl receive r ops).
Proof.
  intros Hlc Hec. induction ops as [|op ops IH]; intros s r Hr Hlen; [by exists s|].
  cbn [length] in Hlen. destruct (live_step_sim lc ec s r op) as (s' & Hs & Hr'); [try done; lia..|].
  cbn [live_run]. rewrite Hs. cbn [mbind option_bind foldl]. apply IH; [done|].
  pose proof (receive_grows r op). lia.
Qed.

Lemma ring_rel_snapshot {E} (zero : E) ring cap pos c hist :
  (0 < c)%nat -> ring_rel ring cap pos c hist ->
  ring_snapshot zero ring cap pos = Some (last_n c hist).
Proof. intros Hc [-> -> _ Hh]. by apply snapshot_holds. Qed.

(** C37: the live store refines a store that keeps everything: after any calls (fewer
    than 2^63) on a store with positive capacities nothing panics, [Logs] and [Events]
    are the last [logCap] entries and the last [evtCap] events received, in order of
    arrival, the counts are those of everything received, and the dirty flag says
    whether anything arrived since the last [MarkClean]. *)
Theorem live_store_refines (lc ec : nat) (ops : list live_op) :
  (0 < lc)%nat -> (0 < ec)%nat -> Z.of_nat (length ops) <= MaxInt64 ->
  let r := foldl receive (mkReceived [] [] false false) ops in
  exists s, (s0 ← NewLiveStore (Z.of_nat lc) (Z.of_nat ec); live_run s0 ops) = Some s /\
    Logs s = Some (last_n lc (all_logs r)) /\
    Events s = Some (last_n ec (all_events r)) /\
    LogCount s = Z.of_nat (length (all_logs r)) /\
    EventCount s = Z.of_nat (length (all_events r)) /\
    IsDirty s = unseen r /\ IsTailing s = tail_on r.
Proof.
  intros Hlc Hec Hlen r. unfold NewLiveStore.
  destruct (Z.ltb_spec (Z.of_nat lc) 0); [lia|]. destruct (Z.ltb_spec (Z.of_nat ec) 0); [lia|].
  cbn [orb mbind option_bind].
  destruct (live_run_sim lc ec ops Hlc Hec
              (mkLiveStore [] [] (Z.of_nat lc) (Z.of_nat ec) 0 0 false false)
              (mkReceived [] [] false false)) as (s & Hs & [Rl Re Rd Rt]).
  - split; [| |done|done]; (split; [done|done|done|]); (split; [by left|]); simpl; lia.
  - simpl. lia.
  - exists s. split; [done|]. unfold Logs, logSnapshot, Events, evtSnapshot.
    rewrite (ring_rel_snapshot _ _ _ _ _ _ Hlc Rl), (ring_rel_snapshot _ _ _ _ _ _ Hec Re).
    repeat split; [apply Rl|apply Re|done|done].
Qed.

(** Three logs and two events through rings of two and one. *)
Definition ex_log (m : string) : live_op :=
  OpEvent 7 (mkFrame "event" "log" (Some (js ("{'timestamp':5,'message':'" +:+ m +:+ "'}"))) 0).

Definition ex_ops : list live_op :=
  [ ex_log "a"; ex_log "b"; OpMarkClean; ex_log "c";
    OpEvent 7 (mkFrame "event" "log" (Some "not json"%string) 0);
    OpEvent 8 (mkFrame "event" "agent" (Some (js "{'type':'tool.call','agent':'bot','tool':'ls'}")) 0);
    OpEvent 9 (mkFrame "event" "team.task.created" None 0) ].

Lemma live_store_refines_witness :
  exists s, (s0 ← NewLiveStore 2 1; live_run s0 ex_ops) = Some s /\
    option_map (map le_Message) (Logs s) = Some ["b"; "c"]%string /\
    option_map (map ev_Summary) (Events s) = Some ["Team task created"]%string /\
    LogCount s = 3 /\ EventCount s = 2 /\ IsDirty s = true.
Proof.
  destruct (live_store_refines 2 1 ex_ops) as (s & Hs & Hl & He & Hlc & Hec & Hd & _);
    [lia|lia|vm_compute; done|].
  exists s. rewrite Hl, He, Hlc, Hec, Hd. split; [exact Hs|]. vm_compute. done.
Defined.

(** ** What the log ring promises *)

(** The ring of a handler after [hist]. *)
Record core_holds {W} (n : nat) (f : Entry -> W -> W) (hist : list Entry) (c : ringCore W) : Prop := {
  ch_size : size c = Z.of_nat n;
  ch_pos : pos c = Z.of_nat (length hist);
  ch_len : length (entries c) = n;
  ch_holds : ring_holds (entries c) n hist;
  ch_cb : onEntry c = Some f
}.

Lemma Handle_holds {W} (n : nat) (f : Entry -> W -> W) hist c h r w :
  (0 < n)%nat -> Z.of_nat (length hist) < MaxInt64 -> core_holds n f hist c ->
  exists c', Handle h r c w = Some (c', f (entry_of h r) w) /\
             core_holds n f (hist ++ [entry_of h r]) c'.
Proof.
  intros Hn Hm [Hs Hp Hl Hh Hc]. unfold Handle.
  rewrite Hs, Hp, Hc, rem64_nat by done. cbn [mbind option_bind].
  rewrite set_at_nat by (rewrite Hl; apply Nat.mod_upper_bound; lia). cbn [mbind option_bind].
  rewrite wrap64_small by (unfold MinInt64 in *; lia).
  destruct (set_at_holds (entries c) n hist (entry_of h r)) as [H1 H2]; [done|done|by right|].
  eexists. split; [done|]. split; simpl; [done| |done|done|done]. rewrite length_app. simpl. lia.
Qed.

Lemma handle_all_holds {W} (n : nat) (f : Entry -> W -> W) rs : (0 < n)%nat ->
  forall c w hist, core_holds n f hist c -> Z.of_nat (length hist + length rs) <= MaxInt64 ->
  exists c', handle_all rs c w = Some (c', foldl (fun w' hr => f (entry_of hr.1 hr.2) w') w rs) /\
             core_holds n f (hist ++ map (fun hr => entry_of hr.1 hr.2) rs) c'.
Proof.
  intros Hn. induction rs as [|[h r] rs IH]; intros c w hist Hc Hm; simpl in *.
  - exists c. by rewrite app_nil_r.
  - destruct (Handle_holds n f hist c h r w) as (c1 & -> & Hc1); [done|lia|done|].
    cbn [mbind option_bind].
    destruct (IH c1 (f (entry_of h r) w) (hist ++ [entry_of h r])) as (c2 & -> & Hc2);
      [done|rewrite length_app; simpl; lia|].
    exists c2. by rewrite <- app_assoc in Hc2.
Qed.

(** C38: up to 2^63 - 1 records handled by clones of one handler never index out of the
    ring of a positive size; each reaches the callback once, in order; the snapshot is
    the last [size] entries and the count is that of all records. *)
Theorem ring_handler_bounds {W} (n : nat) (level : Z) (f : Entry -> W -> W)
    (rs : list (RingHandler * slogRecord)) (w : W) :
  (0 < n)%nat -> Z.of_nat (length rs) <= MaxInt64 ->
  exists c0 h c, NewRingHandler (Z.of_nat n) level (Some f) = Some (c0, h) /\
    handle_all rs c0 w = Some (c, foldl (fun w' hr => f (entry_of hr.1 hr.2) w') w rs) /\
    Snapshot c = Some (last_n n (map (fun hr => entry_of hr.1 hr.2) rs)) /\
    Count c = Z.of_nat (length rs).
Proof.
  intros Hn Hlen. unfold NewRingHandler, make_slice.
  destruct (Z.ltb_spec (Z.of_nat n) 0); [lia|]. cbn [mbind option_bind]. rewrite Nat2Z.id.
  destruct (handle_all_holds n f rs Hn
              (mkCore (replicate n zeroEntry) (Z.of_nat n) 0 (Some f)) w [])
    as (c & Hr & [Hs Hp _ Hh _]); [|done|].
  - split; simpl; rewrite ?length_replicate; try done. split; [right; by rewrite length_replicate|].
    simpl. lia.
  - eexists _, _, c. split; [done|]. split; [done|]. unfold Snapshot, Count. rewrite Hs, Hp.
    split; [by apply snapshot_holds|]. cbn [app]. by rewrite length_map.
Qed.

(** Five records through a ring of two, the callback counting them. *)
Definition ex_records : list (RingHandler * slogRecord) :=
  let h := WithAttrs (mkHandler 0 []) [("tenant"%string, VStr "a")] in
  map (fun m => (h, mkRecord 1 0 m [("k"%string, VInt 1)])) ["p"; "q"; "r"; "s"; "t"]%string.

Lemma ring_handler_bounds_witness :
  exists c0 h c, NewRingHandler 2 (-4) (Some (fun _ n => S n)) = Some (c0, h) /\
    handle_all ex_records c0 0%nat = Some (c, 5%nat) /\
    option_map (map en_Message) (Snapshot c) = Some ["s"; "t"]%string /\ Count c = 5.
Proof.
  destruct (ring_handler_bounds 2 (-4) (fun _ n => S n) ex_records 0%nat)
    as (c0 & h & c & H1 & H2 & H3 & H4); [lia|vm_compute; done|].
  exists c0, h, c. split; [exact H1|]. split; [exact H2|]. rewrite H3, H4. vm_compute. done.
Defined.
