(* ===== verification/TraceStore.v ===== *)
(** * Traces of the terminal interface

    [internal/tui/views/trace_types.go] (the tree of the spans of a trace) and
    [internal/tui/trace_store.go] (the store the interface reads while goroutines
    fetch).  A Go map is ranged over in an order that is an argument; [sort.Slice] is
    any function that returns a sorted permutation ([SliceSort]).  The fetches of the
    store are split where its lock is released, so that a run of the store is a
    sequence of steps of several goroutines. *)
From Stdlib Require Import ZArith Lia Bool Ascii Sorted.
From Stdlib Require String.
From stdpp Require Import relations.
From S2P Require Import Prelude GoStr GoValue.

Local Open Scope Z_scope.

(** ** trace_types.go *)

Record TraceMetadata := mkTraceMetadata {
  TotalCacheReadTokens : Z;
  TotalCacheCreationTokens : Z
}.

Record TraceData := mkTraceData {
  td_ID : string;
  td_ParentTraceID : string;
  td_AgentID : string;
  td_Name : string;
  td_Channel : string;
  td_SessionKey : string;
  td_RunID : string;
  td_Status : string;
  td_DurationMs : Z;
  td_TotalInputTokens : Z;
  td_TotalOutputTokens : Z;
  td_SpanCount : Z;
  td_LLMCallCount : Z;
  td_ToolCallCount : Z;
  td_InputPreview : string;
  td_OutputPreview : string;
  td_Error : string;
  td_StartTime : Z;
  td_EndTime : option Z;
  td_Metadata : option TraceMetadata;
  td_CreatedAt : Z
}.

Record SpanMetadata := mkSpanMetadata {
  CacheCreationTokens : Z;
  CacheReadTokens : Z;
  ThinkingTokens : Z
}.

Record SpanData := mkSpanData {
  sd_ID : string;
  sd_TraceID : string;
  sd_ParentSpanID : string;
  sd_AgentID : string;
  sd_SpanType : string;
  sd_Name : string;
  sd_Status : string;
  sd_DurationMs : Z;
  sd_Model : string;
  sd_Provider : string;
  sd_InputTokens : Z;
  sd_OutputTokens : Z;
  sd_ToolName : string;
  sd_InputPreview : string;
  sd_OutputPreview : string;
  sd_Error : string;
  sd_Metadata : option SpanMetadata;
  sd_StartTime : Z;
  sd_EndTime : option Z;
  sd_CreatedAt : Z
}.

Record TraceFilters := mkTraceFilters {
  tf_AgentID : string;
  tf_Channel : string;
  tf_Limit : Z;
  tf_Offset : Z
}.

Inductive SpanNode := mkSpanNode (Span : SpanData) (Children : list SpanNode).

Definition Span (n : SpanNode) : SpanData := match n with mkSpanNode s _ => s end.
Definition Children (n : SpanNode) : list SpanNode := match n with mkSpanNode _ c => c end.

(** [sort.Slice(l, func(i, j int) bool { return key(l[i]) < key(l[j]) })]. *)
Class SliceSort := {
  sort_slice {A : Type} (key : A -> Z) (l : list A) : list A;
  sort_slice_perm {A} (key : A -> Z) (l : list A) : sort_slice key l ≡ₚ l;
  sort_slice_sorted {A} (key : A -> Z) (l : list A) :
    StronglySorted (fun a b => key a <= key b) (sort_slice key l)
}.

Definition start_time (n : SpanNode) : Z := sd_StartTime (Span n).

Section span_tree.
Context {Sort : SliceSort}.

(** A node's children are sorted only when there are several; nothing below an only
    child is. *)
Fixpoint sort_below (n : SpanNode) : SpanNode :=
  match n with
  | mkSpanNode s cs =>
    mkSpanNode s (if (1 <? length cs)%nat then sort_slice start_time (map sort_below cs) else cs)
  end.

Definition sortSpanNodes (nodes : list SpanNode) : list SpanNode :=
  sort_slice start_time (map sort_below nodes).

(** The map [nodes]: for a repeated ID the last span. *)
Definition span_nodes (spans : list SpanData) : list (string * SpanData) :=
  foldl (fun m s => mset (sd_ID s) s m) [] spans.

Definition is_root (ids : list string) (s : SpanData) : bool :=
  String.eqb (sd_ParentSpanID s) "" || negb (bool_decide (sd_ParentSpanID s ∈ ids)).

(** The nodes appended to the children of [p], in the order of the range loop. *)
Definition children_of (nodes : list SpanData) (p : SpanData) : list SpanData :=
  List.filter (fun s => negb (String.eqb (sd_ParentSpanID s) "")
                        && String.eqb (sd_ParentSpanID s) (sd_ID p)) nodes.

(** The pointers followed [fuel] levels down from a node. *)
Fixpoint grow (fuel : nat) (nodes : list SpanData) (s : SpanData) : SpanNode :=
  mkSpanNode s match fuel with
               | O => []
               | S f => map (grow f nodes) (children_of nodes s)
               end.

(** [range_order] is the order in which the loop visits the map's values.  No path
    from a root is longer than there are nodes. *)
Definition BuildSpanTree (range_order : list SpanData -> list SpanData) (spans : list SpanData) :
    list SpanNode :=
  let m := span_nodes spans in
  let nodes := range_order (map snd m) in
  let roots := List.filter (is_root (mkeys m)) nodes in
  sortSpanNodes (map (grow (length nodes) nodes) roots).
End span_tree.

Definition spanStatusIcon (status : string) : string :=
  if existsb (String.eqb status) ["ok"; "success"; "completed"]%string
  then of_bytes (encode_rune 9679)
  else if existsb (String.eqb status) ["error"; "failed"]%string then of_bytes (encode_rune 10007)
  else if existsb (String.eqb status) ["running"; "pending"]%string then of_bytes (encode_rune 9680)
  else of_bytes (encode_rune 9675).

(** ** The spans of a forest *)

Fixpoint spans_of (n : SpanNode) : list SpanData :=
  match n with mkSpanNode s cs => s :: concat (map spans_of cs) end.

Definition forest_spans (ns : list SpanNode) : list SpanData := concat (map spans_of ns).

(** A span whose chain of parents ends: at one without a parent, or with a parent that
    is not among the spans. *)
Inductive rooted (spans : list SpanData) : SpanData -> Prop :=
  | rooted_root s : s ∈ spans -> is_root (map sd_ID spans) s = true -> rooted spans s
  | rooted_child s p : s ∈ spans -> rooted spans p -> sd_ParentSpanID s <> ""%string ->
                       sd_ParentSpanID s = sd_ID p -> rooted spans s.

Section span_node_induction.
Variable P : SpanNode -> Prop.
Hypothesis Hnode : forall s cs, Forall P cs -> P (mkSpanNode s cs).

Fixpoint SpanNode_ind' (n : SpanNode) : P n :=
  match n with
  | mkSpanNode s cs => Hnode s cs
      ((fix go (l : list SpanNode) : Forall P l :=
          match l with
          | [] => Forall_nil_2 _
          | x :: l' => Forall_cons_2 _ _ _ (SpanNode_ind' x) (go l')
          end) cs)
  end.
End span_node_induction.

(** Every child carries its parent's ID. *)
Inductive parented : SpanNode -> Prop :=
  | parented_node s cs :
      Forall (fun c => sd_ParentSpanID (Span c) = sd_ID s) cs -> Forall parented cs ->
      parented (mkSpanNode s cs).

Section levels.
Variable N : list SpanData.
Hypothesis HN : NoDup (map sd_ID N).

(** What [k] steps down from [l] reach. *)
Fixpoint lev (k : nat) (l : list SpanData) : list SpanData :=
  match k with
  | O => l
  | S k => concat (map (children_of N) (lev k l))
  end.

Lemma lev_below k l : lev (S k) l = lev k (concat (map (children_of N) l)).
Proof. induction k as [|k IH]; [done|]. cbn [lev] in *. by rewrite <- IH. Qed.

Lemma grow_levels n l :
  concat (map (fun s => spans_of (grow n N s)) l)
  ≡ₚ concat (map (fun k => lev k l) (seq 0 (S n))).
Proof.
  revert l. induction n as [|n IH]; intros l.
  - simpl. rewrite app_nil_r. induction l as [|s l IHl]; simpl; [done|]. by rewrite IHl.
  - transitivity (l ++ concat (map (fun s => spans_of (grow n N s)) (concat (map (children_of N) l)))).
    + clear IH. induction l as [|s l IHl]; [done|]. cbn [map concat grow spans_of app].
      rewrite IHl, map_app, concat_app, !map_map. constructor.
      rewrite !app_assoc. apply Permutation_app_tail, Permutation_app_comm.
    + rewrite IH. change (seq 0 (S (S n))) with (0 :: seq 1 (S n))%nat.
      cbn [map concat]. apply Permutation_app_head. rewrite <- seq_shift, map_map.
      erewrite map_ext; [reflexivity|]. intros k. symmetry. apply lev_below.
Qed.

Lemma elem_children s t :
  t ∈ children_of N s <-> t ∈ N /\ sd_ParentSpanID t <> ""%string /\ sd_ParentSpanID t = sd_ID s.
Proof.
  unfold children_of. rewrite list_elem_of_In, filter_In, <- list_elem_of_In.
  rewrite andb_true_iff, negb_true_iff, String.eqb_eq, String.eqb_neq. done.
Qed.

Lemma elem_lev_S k l t :
  t ∈ lev (S k) l <-> exists p, p ∈ lev k l /\ t ∈ children_of N p.
Proof. cbn [lev]. rewrite concat_map_bind, list_elem_of_bind. naive_solver. Qed.

Lemma sd_ID_inj s t : s ∈ N -> t ∈ N -> sd_ID s = sd_ID t -> s = t.
Proof using HN. intros. by eapply (NoDup_map_inj sd_ID N). Qed.

Definition roots : list SpanData := List.filter (is_root (map sd_ID N)) N.

Lemma elem_roots s : s ∈ roots <-> s ∈ N /\ is_root (map sd_ID N) s = true.
Proof. unfold roots. by rewrite list_elem_of_In, filter_In, <- list_elem_of_In. Qed.

Lemma lev_in k t : t ∈ lev k roots -> t ∈ N.
Proof.
  destruct k as [|k]; [by intros [? _]%elem_roots|].
  rewrite elem_lev_S. by intros (p & _ & (? & _)%elem_children).
Qed.

Lemma child_not_root p t : p ∈ N -> t ∈ children_of N p -> t ∉ roots.
Proof.
  intros Hp (Ht & Hne & Heq)%elem_children (_ & Hr)%elem_roots. unfold is_root in Hr.
  apply orb_true_iff in Hr as [Hr|Hr]; [by apply String.eqb_eq in Hr|].
  apply negb_true_iff, bool_decide_eq_false in Hr. apply Hr. rewrite Heq.
  apply list_elem_of_fmap. by exists p.
Qed.

(** A span is at one depth only. *)
Lemma lev_unique j k t : t ∈ lev j roots -> t ∈ lev k roots -> j = k.
Proof using HN.
  revert k t. induction j as [|j IH]; intros [|k] t Hj Hk; [done|..].
  - apply elem_lev_S in Hk as (p & Hp & Hk). by destruct (child_not_root p t (lev_in _ _ Hp) Hk).
  - apply elem_lev_S in Hj as (p & Hp & Hj). by destruct (child_not_root p t (lev_in _ _ Hp) Hj).
  - apply elem_lev_S in Hj as (p & Hp & Hj), Hk as (q & Hq & Hk). f_equal. apply (IH k p Hp).
    apply elem_children in Hj as (_ & _ & Hj), Hk as (_ & _ & Hk).
    rewrite (sd_ID_inj p q); [done|by eapply lev_in..|congruence].
Qed.

Lemma lev_NoDup k : NoDup (lev k roots).
Proof using HN.
  assert (Hn : NoDup N) by by eapply NoDup_fmap_1.
  induction k as [|k IH]; [by apply NoDup_ListNoDup, List.NoDup_filter, NoDup_ListNoDup|].
  cbn [lev]. rewrite concat_map_bind. apply NoDup_bind; [| |done].
  - intros p q t Hp Hq (_ & _ & H1)%elem_children (_ & _ & H2)%elem_children.
    apply sd_ID_inj; [by eapply lev_in..|congruence].
  - intros p _. by apply NoDup_ListNoDup, List.NoDup_filter, NoDup_ListNoDup.
Qed.

Definition upto (n : nat) : list SpanData := concat (map (fun k => lev k roots) (seq 0 n)).

Lemma elem_upto n t : t ∈ upto n <-> exists k, (k < n)%nat /\ t ∈ lev k roots.
Proof.
  unfold upto. rewrite concat_map_bind, list_elem_of_bind. setoid_rewrite elem_of_seq.
  split; intros (k & H1 & H2); exists k; split; (done || lia).
Qed.

Lemma upto_NoDup n : NoDup (upto n).
Proof using HN.
  unfold upto. rewrite concat_map_bind. apply NoDup_bind.
  - intros j k t _ _ Hj Hk. by eapply lev_unique.
  - intros k _. apply lev_NoDup.
  - apply NoDup_seq.
Qed.

(** No path is as long as there are spans. *)
Lemma lev_end : lev (length N) roots = [].
Proof using HN.
  destruct (lev (length N) roots) as [|t l] eqn:E; [done|exfalso].
  assert (Hup : forall k, (k <= length N)%nat -> exists u, u ∈ lev k roots).
  { intros k Hk. assert (H : exists u, u ∈ lev (k + (length N - k)) roots).
    { exists t. replace (k + (length N - k))%nat with (length N) by lia. rewrite E. left. }
    revert H. generalize (length N - k)%nat as d. induction d as [|d IH].
    - by rewrite Nat.add_0_r.
    - rewrite Nat.add_succ_r. intros (u & (p & Hp & _)%elem_lev_S). apply IH. by exists p. }
  assert (Hlen : forall n, (n <= S (length N))%nat -> (n <= length (upto n))%nat).
  { induction n as [|n IH]; intros Hn; [lia|]. unfold upto in *.
    rewrite seq_S, map_app, concat_app, length_app. cbn [map concat]. rewrite app_nil_r.
    change (0 + n)%nat with n in *. destruct (Hup n) as (u & Hu); [lia|].
    destruct (lev n roots); [by apply not_elem_of_nil in Hu|].
    cbn [length]. specialize (IH ltac:(lia)). lia. }
  specialize (Hlen (S (length N)) ltac:(lia)).
  assert (length (upto (S (length N))) <= length N)%nat; [|lia].
  apply submseteq_length, NoDup_submseteq; [apply upto_NoDup|].
  intros u (k & _ & Hu)%elem_upto. by eapply lev_in.
Qed.

Lemma rooted_lev t : rooted N t <-> exists k, t ∈ lev k roots.
Proof using HN.
  split.
  - induction 1 as [s Hs Hr|s p Hs Hp [k IH] Hne Heq].
    + exists 0%nat. by apply elem_roots.
    + exists (S k). apply elem_lev_S. exists p. split; [done|]. by apply elem_children.
  - intros [k Hk]. revert t Hk. induction k as [|k IH]; intros t Ht.
    + apply elem_roots in Ht as [??]. by apply rooted_root.
    + apply elem_lev_S in Ht as (p & Hp & (H1 & H2 & H3)%elem_children).
      apply (rooted_child N t p); auto.
Qed.

Lemma lev_nil n k : lev n roots = [] -> (n <= k)%nat -> lev k roots = [].
Proof. intros H. induction 1 as [|k Hk IH]; [done|]. cbn [lev]. by rewrite IH. Qed.

Lemma forest_rooted t :
  t ∈ concat (map (fun s => spans_of (grow (length N) N s)) roots) <-> rooted N t.
Proof using HN.
  rewrite grow_levels. fold (upto (S (length N))). rewrite elem_upto, rooted_lev.
  split; [intros (k & _ & H); by exists k|]. intros (k & H). exists k. split; [|done].
  destruct (decide (k < S (length N))%nat); [done|].
  rewrite (lev_nil (length N)) in H; [by apply not_elem_of_nil in H|apply lev_end|lia].
Qed.

Lemma forest_NoDup : NoDup (concat (map (fun s => spans_of (grow (length N) N s)) roots)).
Proof using HN. rewrite grow_levels. apply upto_NoDup. Qed.
End levels.

Lemma forest_spans_perm ns ns' : ns ≡ₚ ns' -> forest_spans ns ≡ₚ forest_spans ns'.
Proof. intros H. unfold forest_spans. rewrite !concat_map_bind. by rewrite H. Qed.

Section sorting.
Context {Sort : SliceSort}.

Lemma Span_sort_below n : Span (sort_below n) = Span n.
Proof. by destruct n. Qed.

Lemma sort_below_spans n : spans_of (sort_below n) ≡ₚ spans_of n.
Proof.
  induction n as [s cs IH] using SpanNode_ind'. cbn [sort_below spans_of]. constructor.
  destruct (1 <? length cs)%nat; [|done]. etransitivity; [apply forest_spans_perm, sort_slice_perm|].
  unfold forest_spans. rewrite map_map. induction IH as [|c cs Hc Hcs IHcs]; simpl; [done|].
  by rewrite Hc, IHcs.
Qed.

Lemma sort_nodes_spans ns : forest_spans (sortSpanNodes ns) ≡ₚ forest_spans ns.
Proof.
  unfold sortSpanNodes. etransitivity; [apply forest_spans_perm, sort_slice_perm|].
  unfold forest_spans. rewrite map_map. induction ns as [|n ns IH]; simpl; [done|].
  by rewrite sort_below_spans, IH.
Qed.

Lemma sort_below_parented n : parented n -> parented (sort_below n).
Proof.
  induction n as [s cs IH] using SpanNode_ind'. inversion 1 as [? ? Hp Hc]; subst.
  cbn [sort_below]. case_match; [|done].
  assert (Hall : Forall (fun c => sd_ParentSpanID (Span c) = sd_ID s) (map sort_below cs) /\
                 Forall parented (map sort_below cs)).
  { split; apply Forall_fmap; [|rewrite Forall_forall in *; naive_solver].
    eapply Forall_impl; [exact Hp|]. intros c. by cbn; rewrite Span_sort_below. }
  destruct Hall as [H1 H2]. by constructor; rewrite sort_slice_perm.
Qed.

Lemma grow_parented n N s : parented (grow n N s).
Proof.
  revert s. induction n as [|n IH]; intros s; cbn [grow]; constructor; try constructor.
  - apply Forall_fmap, Forall_forall. intros t (_ & _ & Ht)%elem_children.
    by destruct n.
  - apply Forall_fmap, Forall_forall. intros t _. apply IH.
Qed.

Lemma mset_fresh {A} k (v : A) m : k ∉ mkeys m -> mset k v m = m ++ [(k, v)].
Proof.
  induction m as [|[k' v'] m IH]; simpl; [done|]. rewrite not_elem_of_cons. intros [Hk Hm].
  destruct (String.eqb_spec k k'); [done|]. by rewrite IH.
Qed.

Lemma span_nodes_fresh m spans :
  NoDup (mkeys m ++ map sd_ID spans) ->
  foldl (fun m s => mset (sd_ID s) s m) m spans = m ++ map (fun s => (sd_ID s, s)) spans.
Proof.
  revert m. induction spans as [|s spans IH]; intros m Hnd; cbn [foldl map].
  { by rewrite app_nil_r. }
  assert (Hs : sd_ID s ∉ mkeys m).
  { apply NoDup_app in Hnd as (_ & Hnd & _). intros Hin. apply (Hnd _ Hin). left. }
  rewrite mset_fresh, IH by done || (unfold mkeys in *; rewrite map_app; cbn [map fst];
                                     by rewrite <- app_assoc).
  by rewrite <- app_assoc.
Qed.

Lemma span_nodes_unique spans :
  NoDup (map sd_ID spans) -> span_nodes spans = map (fun s => (sd_ID s, s)) spans.
Proof. intros H. unfold span_nodes. by rewrite span_nodes_fresh. Qed.

#[local] Instance rooted_proper : Proper (Permutation ==> eq ==> impl) rooted.
Proof.
  intros l l' Hl s ? <- H. induction H as [s Hs Hr|s p Hs Hp IH Hne Heq].
  - apply rooted_root; [by rewrite <- Hl|]. unfold is_root in *.
    erewrite bool_decide_ext; [exact Hr|]. by rewrite Hl.
  - apply (rooted_child l' s p); [by rewrite <- Hl|done..].
Qed.

(** C39: for spans with distinct IDs, in whatever order the map is ranged over, the
    forest holds every span whose chain of parents ends (at a span without a parent,
    or with a parent that was not fetched), exactly once, and no other; every child is
    below the span it names as its parent; the roots are in order of start time. *)
Theorem span_tree_complete (range_order : list SpanData -> list SpanData) (spans : list SpanData) :
  NoDup (map sd_ID spans) -> (forall l, range_order l ≡ₚ l) ->
  let forest := BuildSpanTree range_order spans in
  NoDup (forest_spans forest) /\
  (forall s, s ∈ forest_spans forest <-> rooted spans s) /\
  Forall parented forest /\
  StronglySorted (fun a b => start_time a <= start_time b) forest.
Proof.
  intros Hids Hrange forest. unfold forest, BuildSpanTree.
  rewrite span_nodes_unique by done. unfold mkeys. rewrite !map_map. cbn [fst snd].
  rewrite map_id. change (map (fun s => sd_ID s) spans) with (map sd_ID spans).
  set (N := range_order spans). assert (HpN : N ≡ₚ spans) by apply Hrange.
  assert (HN : NoDup (map sd_ID N)) by by rewrite HpN.
  replace (List.filter (is_root (map sd_ID spans)) N) with (roots N).
  2:{ apply List.filter_ext. intros s. unfold is_root. f_equal. f_equal.
      apply bool_decide_ext. by rewrite HpN. }
  pose proof (sort_nodes_spans (map (grow (length N) N) (roots N))) as Hp.
  unfold forest_spans at 2 in Hp. rewrite map_map in Hp.
  split; [rewrite Hp; by apply forest_NoDup|].
  split; [|split; [|apply sort_slice_sorted]].
  - intros s. rewrite Hp, forest_rooted by done. by split; apply rooted_proper.
  - unfold sortSpanNodes. rewrite sort_slice_perm, map_map.
    apply Forall_fmap, Forall_forall. intros s _. apply sort_below_parented, grow_parented.
Qed.
End sorting.

(** A stable insertion sort, the instance the examples compute with. *)
Fixpoint insert_at {A} (key : A -> Z) (x : A) (l : list A) : list A :=
  match l with
  | [] => [x]
  | y :: l' => if key x <=? key y then x :: l else y :: insert_at key x l'
  end.

Lemma insert_at_perm {A} (key : A -> Z) x l : insert_at key x l ≡ₚ x :: l.
Proof.
  induction l as [|y l IH]; simpl; [done|]. case_match; [done|]. rewrite IH. constructor.
Qed.

Definition insertion_sort : SliceSort.
Proof.
  refine {| sort_slice := fun A key l => foldr (insert_at key) [] l |}; intros A key l.
  - induction l as [|x l IH]; simpl; [done|]. by rewrite insert_at_perm, IH.
  - induction l as [|x l IH]; simpl; [constructor|]. induction IH as [|y k Hs IH Hall]; simpl.
    { repeat constructor. }
    destruct (Z.leb_spec (key x) (key y)).
    + constructor; [by constructor|]. constructor; [done|].
      eapply Forall_impl; [exact Hall|]. simpl. lia.
    + constructor; [done|]. rewrite insert_at_perm. constructor; [lia|done].
Defined.

Definition ex_span (id parent : string) (start : Z) : SpanData :=
  mkSpanData id "t" parent "" "agent" id "ok" 0 "" "" 0 0 "" "" "" "" None start None 0.

(** Two trees, an orphan, and a cycle of two spans, which no root reaches. *)
Definition ex_spans : list SpanData :=
  [ ex_span "b" "a" 3; ex_span "a" "" 1; ex_span "c" "a" 2; ex_span "d" "gone" 0;
    ex_span "x" "y" 5; ex_span "y" "x" 6 ].

Lemma span_tree_complete_witness :
  let forest := BuildSpanTree (Sort := insertion_sort) reverse ex_spans in
  NoDup (forest_spans forest) /\ map sd_ID (forest_spans forest) = ["d"; "a"; "c"; "b"]%string /\
  Forall parented forest /\ ~ rooted ex_spans (ex_span "x" "y" 5).
Proof.
  destruct (span_tree_complete (Sort := insertion_sort) reverse ex_spans) as (H1 & H2 & H3 & _).
  - apply (bool_decide_unpack _). vm_compute. exact I.
  - intros l. apply reverse_Permutation.
  - split; [exact H1|]. split; [vm_compute; reflexivity|]. split; [exact H3|].
    rewrite <- H2. intros Hin. apply (list_elem_of_fmap_2 sd_ID) in Hin. revert Hin.
    change ("x"%string ∉ map sd_ID (forest_spans (BuildSpanTree (Sort := insertion_sort) reverse ex_spans))).
    apply (bool_decide_unpack _). vm_compute. exact I.
Defined.

(** The order of the children of an only child depends on the order of the map. *)
Lemma only_child_unsorted :
  let spans := [ex_span "a" "" 1; ex_span "b" "a" 2; ex_span "c" "b" 3; ex_span "d" "b" 4] in
  BuildSpanTree (Sort := insertion_sort) id spans
  <> BuildSpanTree (Sort := insertion_sort) reverse spans.
Proof. vm_compute. discriminate. Qed.

(** ** trace_store.go *)

Record TraceStore := mkTraceStore {
  traces : list TraceData;
  total : Z;
  filters : TraceFilters;
  selectedID : string;
  spans : list SpanData;
  spanTree : list SpanNode;
  selectedData : option TraceData;
  listDirty : bool;
  detailDirty : bool;
  fetching : bool
}.

Definition NewTraceStore : TraceStore :=
  mkTraceStore [] 0 (mkTraceFilters "" "" 50 0) "" [] [] None false false false.

Definition NotifyTraceUpdated (s : TraceStore) : TraceStore :=
  mkTraceStore (traces s) (total s) (filters s) (selectedID s) (spans s) (spanTree s)
    (selectedData s) true (detailDirty s) (fetching s).

Definition SetFilters (f : TraceFilters) (s : TraceStore) : TraceStore :=
  let f := if tf_Limit f =? 0 then mkTraceFilters (tf_AgentID f) (tf_Channel f) 50 (tf_Offset f)
           else f in
  mkTraceStore (traces s) (total s) f (selectedID s) (spans s) (spanTree s)
    (selectedData s) true (detailDirty s) (fetching s).

Definition NotifyDetailDirty (s : TraceStore) : TraceStore :=
  mkTraceStore (traces s) (total s) (filters s) (selectedID s) (spans s) (spanTree s)
    (selectedData s) (listDirty s) true (fetching s).

Definition SelectTrace (id : string) (s : TraceStore) : TraceStore :=
  if String.eqb (selectedID s) id then s
  else mkTraceStore (traces s) (total s) (filters s) id [] [] None (listDirty s) true (fetching s).

Definition set_fetching (b : bool) (s : TraceStore) : TraceStore :=
  mkTraceStore (traces s) (total s) (filters s) (selectedID s) (spans s) (spanTree s)
    (selectedData s) (listDirty s) (detailDirty s) b.

(** [RefreshList] up to the fetch: the filters to fetch with, unless another goroutine
    is fetching. *)
Definition refresh_list_begin (s : TraceStore) : option (TraceFilters * TraceStore) :=
  if fetching s then None else Some (filters s, set_fetching true s).

(** ... and from its answer on. *)
Definition refresh_list_end (answer : res (list TraceData * Z)) (s : TraceStore) : TraceStore :=
  set_fetching false
    match answer with
    | Err _ => s
    | Ok (ts, n) => mkTraceStore ts n (filters s) (selectedID s) (spans s) (spanTree s)
                      (selectedData s) false (detailDirty s) (fetching s)
    end.

(** The two parts of [RefreshDetail]. *)
Definition refresh_detail_begin (s : TraceStore) : option string :=
  if String.eqb (selectedID s) "" then None else Some (selectedID s).

Section trace_store.
Context {Sort : SliceSort} (range_order : list SpanData -> list SpanData).

Definition refresh_detail_end (id : string) (answer : res (TraceData * list SpanData))
    (s : TraceStore) : TraceStore :=
  match answer with
  | Err _ => s
  | Ok (trace, sps) =>
    let tree := BuildSpanTree range_order sps in
    if String.eqb (selectedID s) id
    then mkTraceStore (traces s) (total s) (filters s) (selectedID s) sps tree (Some trace)
           (listDirty s) false (fetching s)
    else s
  end.

Definition Filters (s : TraceStore) : TraceFilters := filters s.
Definition NeedsListRefresh (s : TraceStore) : bool := listDirty s.
Definition NeedsDetailRefresh (s : TraceStore) : bool := detailDirty s.
Definition SelectedID (s : TraceStore) : string := selectedID s.
Definition Traces (s : TraceStore) : list TraceData := traces s.
Definition Total (s : TraceStore) : Z := total s.
Definition SelectedSpans (s : TraceStore) : list SpanData := spans s.
Definition SelectedSpanTree (s : TraceStore) : list SpanNode := spanTree s.
Definition SelectedTrace (s : TraceStore) : option TraceData := selectedData s.

(** The store with the goroutines that are waiting for the server. *)
Record tstate := mkTState {
  store : TraceStore;
  list_fetches : list TraceFilters;
  detail_fetches : list string
}.

(** What the server may answer. *)
Variable lists : TraceFilters -> res (list TraceData * Z) -> Prop.
Variable details : string -> res (TraceData * list SpanData) -> Prop.

Inductive tstep (w : tstate) : tstate -> Prop :=
  | ts_notify : tstep w (mkTState (NotifyTraceUpdated (store w)) (list_fetches w) (detail_fetches w))
  | ts_filters f : tstep w (mkTState (SetFilters f (store w)) (list_fetches w) (detail_fetches w))
  | ts_dirty : tstep w (mkTState (NotifyDetailDirty (store w)) (list_fetches w) (detail_fetches w))
  | ts_select id : tstep w (mkTState (SelectTrace id (store w)) (list_fetches w) (detail_fetches w))
  | ts_list_begin f s :
      refresh_list_begin (store w) = Some (f, s) ->
      tstep w (mkTState s (f :: list_fetches w) (detail_fetches w))
  | ts_list_end f l1 l2 answer :
      list_fetches w = l1 ++ f :: l2 -> lists f answer ->
      tstep w (mkTState (refresh_list_end answer (store w)) (l1 ++ l2) (detail_fetches w))
  | ts_detail_begin id :
      refresh_detail_begin (store w) = Some id ->
      tstep w (mkTState (store w) (list_fetches w) (id :: detail_fetches w))
  | ts_detail_end id l1 l2 answer :
      detail_fetches w = l1 ++ id :: l2 -> details id answer ->
      tstep w (mkTState (refresh_detail_end id answer (store w)) (list_fetches w) (l1 ++ l2)).

Definition tinit : tstate := mkTState NewTraceStore [] [].

(** What the detail view shows is nothing, or an answer for the selected trace. *)
Definition detail_ok (s : TraceStore) : Prop :=
  (selectedData s = None /\ spans s = [] /\ spanTree s = []) \/
  (exists trace, selectedData s = Some trace /\ details (selectedID s) (Ok (trace, spans s)) /\
     spanTree s = BuildSpanTree range_order (spans s)).

Record tinv (w : tstate) : Prop := {
  tinv_detail : detail_ok (store w);
  tinv_fetch : length (list_fetches w) = if fetching (store w) then 1%nat else 0%nat;
  tinv_dirty : detailDirty (store w) = false ->
               selectedID (store w) = ""%string \/ selectedData (store w) <> None;
  tinv_limit : tf_Limit (filters (store w)) <> 0
}.

Lemma tinv_init : tinv tinit.
Proof. split; simpl; [by left|done|by left|done]. Qed.

Lemma tinv_step w w' : tinv w -> tstep w w' -> tinv w'.
Proof.
  intros [Hd Hf Hdd Hl]. destruct 1 as [|f| |id|f s H|f l1 l2 answer H Ha|id H|id l1 l2 answer H Ha];
    try by split.
  - split; simpl; try done. destruct (Z.eqb_spec (tf_Limit f) 0); simpl; lia.
  - unfold SelectTrace. destruct (String.eqb_spec (selectedID (store w)) id); [by split|].
    split; simpl; try done. by left.
  - unfold refresh_list_begin in H. destruct (fetching (store w)); simplify_eq.
    split; simpl; try done. by rewrite Hf.
  - rewrite H, length_app in Hf. cbn [length] in Hf. destruct (fetching (store w)); [|lia].
    destruct answer as [[ts n]|e]; split; simpl; try done; rewrite length_app; lia.
  - unfold refresh_detail_end. destruct answer as [[trace sps]|e]; [|by split].
    destruct (String.eqb_spec (selectedID (store w)) id) as [->|]; [|by split].
    split; simpl; [right; by exists trace|done|by right|done].
Qed.
End trace_store.

(** C40: whatever the interleaving of fetches, selections, filters and notifications, the
    store shows nothing or an answer of the server for the trace that is selected,
    with the tree of its spans; one list is fetched at a time; and a selected trace
    that is not marked dirty has its detail. *)
Theorem trace_store_shows_selected {Sort : SliceSort} range_order lists details w :
  rtc (tstep range_order lists details) tinit w ->
  let s := store w in
  ((SelectedTrace s = None /\ SelectedSpans s = [] /\ SelectedSpanTree s = []) \/
   (exists trace, SelectedTrace s = Some trace /\
      details (SelectedID s) (Ok (trace, SelectedSpans s)) /\
      SelectedSpanTree s = BuildSpanTree range_order (SelectedSpans s))) /\
  (length (list_fetches w) <= 1)%nat /\
  (NeedsDetailRefresh s = false -> SelectedID s <> ""%string -> SelectedTrace s <> None).
Proof.
  intros Hr s.
  assert (Hinv : tinv range_order details w).
  { revert Hr. apply (rtc_ind_r (fun w => tinv range_order details w)); [apply tinv_init|].
    intros ??? Hst ?. by eapply tinv_step. }
  destruct Hinv as [Hd Hf Hdd _]. split; [exact Hd|]. split; [rewrite Hf; case_match; lia|].
  intros H Hne. by destruct (Hdd H).
Qed.

(** The runs of the examples: the server answers with one trace and its spans. *)
Definition ex_trace (id : string) : TraceData :=
  mkTraceData id "" "" "run" "" "" "" "ok" 0 0 0 0 0 0 "" "" "" 0 None None 0.

Definition ex_lists (f : TraceFilters) (a : res (list TraceData * Z)) : Prop :=
  a = Ok ([ex_trace (tf_AgentID f)], 1).

Definition ex_details (id : string) (a : res (TraceData * list SpanData)) : Prop :=
  a = Ok (ex_trace id, ex_spans).

(** Two fetches in flight: the answer for the trace selected before is dropped. *)
Definition ex_shown : TraceStore :=
  refresh_detail_end (Sort := insertion_sort) reverse "t2" (Ok (ex_trace "t2", ex_spans))
    (refresh_detail_end (Sort := insertion_sort) reverse "t1" (Ok (ex_trace "t1", ex_spans))
       (SelectTrace "t2" (SelectTrace "t1" NewTraceStore))).

Lemma trace_store_shows_selected_witness :
  SelectedTrace ex_shown = Some (ex_trace "t2") /\
  (NeedsDetailRefresh ex_shown = false -> SelectedID ex_shown <> ""%string ->
   SelectedTrace ex_shown <> None).
Proof.
  split; [vm_compute; reflexivity|].
  apply (trace_store_shows_selected (Sort := insertion_sort) reverse ex_lists ex_details
           (mkTState ex_shown [] [])).
  eapply rtc_l; [apply (ts_select _ _ _ _ "t1")|].
  eapply rtc_l; [by apply (ts_detail_begin _ _ _ _ "t1")|].
  eapply rtc_l; [apply (ts_select _ _ _ _ "t2")|].
  eapply rtc_l; [by apply (ts_detail_begin _ _ _ _ "t2")|].
  eapply rtc_l; [by apply (ts_detail_end _ _ _ _ "t1" ["t2"%string] [] (Ok (ex_trace "t1", ex_spans)))|].
  eapply rtc_l; [by apply (ts_detail_end _ _ _ _ "t2" [] [] (Ok (ex_trace "t2", ex_spans)))|].
  apply rtc_refl.
Defined.

(** Filters set while a list is being fetched: the answer for the old filters clears
    the flag that the new ones had raised. *)
Lemma filters_lost {Sort : SliceSort} range_order :
  exists w, rtc (tstep range_order ex_lists ex_details) tinit w /\
    NeedsListRefresh (store w) = false /\ tf_AgentID (Filters (store w)) = "new"%string /\
    Traces (store w) = [ex_trace ""].
Proof.
  eexists. split.
  - eapply rtc_l; [by apply ts_list_begin|].
    eapply rtc_l; [apply (ts_filters _ _ _ _ (mkTraceFilters "new" "" 50 0))|].
    eapply rtc_l; [by apply (ts_list_end _ _ _ _ (mkTraceFilters "" "" 50 0) [] []
                               (Ok ([ex_trace ""], 1)))|].
    apply rtc_refl.
  - done.
Qed.
