(* ===== verification/Views.v ===== *)
(** * The views of resources

    [internal/tui/views]: [styles.go], [resource_table.go], [drift_view.go] and
    [resource_detail.go].  A [tview] widget is what the code puts into it: a table is its
    rows of cells and the selected position, a text view is its title, its text and the
    row it is scrolled to.  What the library draws is not modelled; keys it handles itself
    move the selection and the scroll position ([table_moved]). *)
From Stdlib Require Import ZArith Lia Bool Ascii Sorted.
From Stdlib Require String.
From S2P Require Import Prelude GoStr GoValue Filepath Manifest Compare Json Engine Regexp Display.

Local Open Scope string_scope.

(** ** What the code uses of tview and tcell *)

Inductive Color := RGB (r g b : Z).

#[export] Instance Color_eq_dec : EqDecision Color.
Proof. solve_decision. Defined.

Record Cell := mkCell {
  c_Text : string;
  c_Color : option Color;       (** [SetTextColor] *)
  c_MaxWidth : Z;
  c_Expansion : Z;
  c_Selectable : bool
}.

(** [tview.NewTableCell]. *)
Definition NewTableCell (text : string) : Cell := mkCell text None 0 0 true.
Definition SetTextColor (c : Color) (x : Cell) : Cell :=
  mkCell (c_Text x) (Some c) (c_MaxWidth x) (c_Expansion x) (c_Selectable x).
Definition SetMaxWidth (n : Z) (x : Cell) : Cell :=
  mkCell (c_Text x) (c_Color x) n (c_Expansion x) (c_Selectable x).
Definition SetExpansion (n : Z) (x : Cell) : Cell :=
  mkCell (c_Text x) (c_Color x) (c_MaxWidth x) n (c_Selectable x).
Definition Unselectable (x : Cell) : Cell :=
  mkCell (c_Text x) (c_Color x) (c_MaxWidth x) (c_Expansion x) false.

(** [tb_Row] and [tb_Col]: what [GetSelection] returns. *)
Record Table := mkTable { tb_Cells : list (list Cell); tb_Row : Z; tb_Col : Z }.

Definition emptyTable : Table := mkTable [] 0 0.
Definition GetRowCount (t : Table) : Z := Z.of_nat (length (tb_Cells t)).
Definition Select (row col : Z) (t : Table) : Table := mkTable (tb_Cells t) row col.
Definition set_cells (cells : list (list Cell)) (t : Table) : Table := mkTable cells (tb_Row t) (tb_Col t).

(** A key that the table itself handles: only the selection may have changed. *)
Definition table_moved (t t' : Table) : Prop := tb_Cells t' = tb_Cells t.

Record TextView := mkTextView { tv_Title : string; tv_Text : string; tv_Row : Z; tv_Col : Z; tv_End : bool }.

Definition emptyTextView : TextView := mkTextView "" "" 0 0 false.
Definition SetTitle (s : string) (t : TextView) : TextView :=
  mkTextView s (tv_Text t) (tv_Row t) (tv_Col t) (tv_End t).
Definition SetText (s : string) (t : TextView) : TextView :=
  mkTextView (tv_Title t) s (tv_Row t) (tv_Col t) (tv_End t).
Definition ScrollToBeginning (t : TextView) : TextView := mkTextView (tv_Title t) (tv_Text t) 0 0 false.
Definition ScrollToEnd (t : TextView) : TextView := mkTextView (tv_Title t) (tv_Text t) (tv_Row t) 0 true.
Definition ScrollTo (row col : Z) (t : TextView) : TextView := mkTextView (tv_Title t) (tv_Text t) row col false.

(** The keys the code looks at; [KeyRune] carries the character. *)
Inductive KeyCode :=
  | KeyRune | KeyEscape | KeyEnter | KeyCtrlC | KeyCtrlQ | KeyCtrlD | KeyCtrlE | KeyCtrlR | KeyCtrlU
  | KeyUp | KeyDown | KeyLeft | KeyRight | KeyTab | KeyBacktab | KeyOther.

#[export] Instance KeyCode_eq_dec : EqDecision KeyCode.
Proof. solve_decision. Defined.

Record EventKey := mkEventKey { ek_Key : KeyCode; ek_Rune : Z }.

Definition rune_of (c : ascii) : Z := byteZ c.

(** ** scroll.go *)

Definition VimScrollInput (event : EventKey) (tv : TextView) : TextView * option EventKey :=
  let isk (c : ascii) := (ek_Rune event =? rune_of c)%Z in
  if isk "j"%char then (ScrollTo (tv_Row tv + 1) (tv_Col tv) tv, None)
  else if isk "k"%char then
    ((if (0 <? tv_Row tv)%Z then ScrollTo (tv_Row tv - 1) (tv_Col tv) tv else tv), None)
  else if isk "g"%char then (ScrollToBeginning tv, None)
  else if isk "G"%char then (ScrollToEnd tv, None)
  else (tv, Some event).

(** ** styles.go *)

Definition ColorBase := RGB 30 30 46.
Definition ColorMantle := RGB 24 24 37.
Definition ColorSurface0 := RGB 49 50 68.
Definition ColorSurface1 := RGB 69 71 90.
Definition ColorOverlay0 := RGB 108 112 134.
Definition ColorText := RGB 205 214 244.
Definition ColorSubtext0 := RGB 166 173 200.

Definition ColorRed := RGB 243 139 168.
Definition ColorGreen := RGB 166 227 161.
Definition ColorYellow := RGB 249 226 175.
Definition ColorBlue := RGB 137 180 250.
Definition ColorMauve := RGB 203 166 247.
Definition ColorPeach := RGB 250 179 135.
Definition ColorTeal := RGB 148 226 213.
Definition ColorLavender := RGB 180 190 254.
Definition ColorFlamingo := RGB 242 205 205.
Definition ColorSky := RGB 137 220 235.
Definition ColorSapphire := RGB 116 199 236.
Definition ColorPink := RGB 245 194 231.
Definition ColorRosewater := RGB 245 224 220.

Definition HexOverlay0 := "#6c7086".
Definition HexText := "#cdd6f4".
Definition HexSubtext0 := "#a6adc8".
Definition HexRed := "#f38ba8".
Definition HexGreen := "#a6e3a1".
Definition HexYellow := "#f9e2af".
Definition HexBlue := "#89b4fa".
Definition HexMauve := "#cba6f7".
Definition HexPeach := "#fab387".
Definition HexTeal := "#94e2d5".
Definition HexLavender := "#b4befe".
Definition HexSky := "#89dceb".
Definition HexPink := "#f5c2e7".

(** A character given by its code point. *)
Definition uchar (r : Z) : string := of_bytes (encode_rune r).

Definition StatusIndicator : list (string * string) :=
  [("InSync", uchar 9679); ("Drifted", uchar 9670); ("Missing", uchar 10007); ("Error", uchar 10007);
   ("Extra", "?")].

Definition StatusColor : list (string * Color) :=
  [("InSync", ColorGreen); ("Drifted", ColorYellow); ("Missing", ColorPeach); ("Error", ColorRed);
   ("Extra", ColorLavender)].

Definition StatusHex : list (string * string) :=
  [("InSync", HexGreen); ("Drifted", HexYellow); ("Missing", HexPeach); ("Error", HexRed);
   ("Extra", HexLavender)].

Definition KindColor : list (ResourceKind * Color) :=
  [(KindTenant, ColorPink); (KindProvider, ColorBlue); (KindAgent, ColorMauve); (KindChannel, ColorTeal);
   (KindMCPServer, ColorSky); (KindSkill, ColorGreen); (KindCronJob, ColorYellow);
   (KindAgentTeam, ColorPeach); (KindBuiltinToolConfig, ColorFlamingo); (KindSkillConfig, ColorLavender);
   (KindMCPCredentials, ColorSapphire); (KindSystemConfig, ColorRosewater); (KindSecureCLI, ColorPink);
   (KindSecureCLIGrant, ColorFlamingo); (KindAgentLink, ColorSky)].

(** The zero color, of an absent entry, is replaced like an absent symbol. *)
Definition StatusCell (status : string) : string * Color :=
  let sym := default "" (mget status StatusIndicator) in
  let sym := if String.eqb sym "" then "?" else sym in
  (sym +:+ " " +:+ status, default ColorText (mget status StatusColor)).

Definition KindCellColor (kind : ResourceKind) : Color := default ColorText (mget kind KindColor).

Definition Tag (hex text : string) : string := "[" +:+ hex +:+ "]" +:+ text +:+ "[-]".
Definition BoldTag (hex text : string) : string := "[" +:+ hex +:+ "::b]" +:+ text +:+ "[-::-]".
Definition HeaderSep : string := Tag HexOverlay0 " | ".

(** ** resource_table.go: statuses *)

Definition actionToStatus (c : Change) : string :=
  if negb (String.eqb (ch_Error c) "") then "Error"
  else match ch_Action c with
       | ActionNoop => "InSync"
       | ActionUpdate => "Drifted"
       | ActionCreate => "Missing"
       | ActionDelete => "Extra"
       | ActionUnset => "Unknown"
       end.

Definition shown_statuses : list string := ["InSync"; "Drifted"; "Missing"; "Error"; "Extra"].

(** [counts[s]]. *)
Definition status_count (s : string) (changes : list Change) : nat :=
  length (List.filter (fun c => String.eqb (actionToStatus c) s) changes).

Definition StatusSummary (changes : list Change) : string :=
  let parts := s ← shown_statuses;
               let n := status_count s changes in
               if (0 <? n)%nat then [Itoan n +:+ " " +:+ s] else [] in
  match parts with [] => "no resources" | _ => Join parts "  " end.

Definition StatusSummaryColored (changes : list Change) : string :=
  let parts := s ← shown_statuses;
               let n := status_count s changes in
               if (0 <? n)%nat
               then [Tag (default "" (mget s StatusHex))
                         (default "" (mget s StatusIndicator) +:+ " " +:+ Itoan n +:+ " " +:+ s)]
               else [] in
  match parts with [] => Tag HexOverlay0 "no resources" | _ => Join parts "  " end.

(** ** resource_table.go *)

(** [sort.Slice] with a comparison: some permutation in which no element is less than
    one before it. *)
Class LessSort := {
  sort_less {A : Type} (less : A -> A -> bool) (l : list A) : list A;
  sort_less_perm {A} (less : A -> A -> bool) (l : list A) : sort_less less l ≡ₚ l;
  sort_less_sorted {A} (less : A -> A -> bool) (l : list A) :
    (forall a b, less a b = true -> less b a = false) ->
    (forall a b c, less b a = false -> less c b = false -> less c a = false) ->
    StronglySorted (fun a b => less b a = false) (sort_less less l)
}.

Record tableRow := mkRow {
  tr_kind : ResourceKind;
  tr_name : string;
  tr_status : string;
  tr_driftInfo : string;
  tr_change : Change
}.

Record ResourceTable := mkResourceTable { rt_Table : Table; rt_rows : list tableRow }.

(** Every cell starts empty and nothing is selected. *)
Definition NewResourceTable : ResourceTable := mkResourceTable emptyTable [].

Definition toTableRow (c : Change) : tableRow :=
  mkRow (ch_Kind c) (ch_Name c) (actionToStatus c)
    (if (0 <? size (ch_Diff c))%nat then Join (sortedKeys (ch_Diff c)) ", " else "-") c.

(** A kind that is not in the order has the zero of the map. *)
Definition kindOrder (k : ResourceKind) : nat :=
  if bool_decide (k ∈ ApplyOrder) then kind_rank k else 0.

(** [<] of strings. *)
Definition string_less (a b : string) : bool :=
  match String.compare a b with Lt => true | _ => false end.

Definition change_less (a b : Change) : bool :=
  let oi := kindOrder (ch_Kind a) in
  let oj := kindOrder (ch_Kind b) in
  if (oi =? oj)%nat then string_less (ch_Name a) (ch_Name b) else (oi <? oj)%nat.

Definition resource_header : list Cell :=
  let cell h := Unselectable (SetTextColor ColorSubtext0 (NewTableCell h)) in
  [cell "KIND"; cell "NAME"; cell "STATUS"; SetExpansion 1 (cell "DRIFT")].

Definition resource_cells (row : tableRow) : list Cell :=
  let '(statusText, statusColor) := StatusCell (tr_status row) in
  [SetMaxWidth 14 (SetTextColor (KindCellColor (tr_kind row)) (NewTableCell (tr_kind row)));
   SetMaxWidth 30 (SetTextColor ColorText (NewTableCell (tr_name row)));
   SetMaxWidth 12 (SetTextColor statusColor (NewTableCell statusText));
   SetExpansion 1 (SetTextColor ColorOverlay0 (NewTableCell (tr_driftInfo row)))].

(** The row that keeps the table handling keys when there is nothing to show. *)
Definition placeholder_cells : list Cell :=
  [NewTableCell ""; NewTableCell (Tag HexOverlay0 "(no matching resources)"); NewTableCell "";
   SetExpansion 1 (NewTableCell "")].

Section resource_table.
Context {Sort : LessSort}.

Definition rt_Refresh (changes : list Change) (rt : ResourceTable) : ResourceTable :=
  let rows := map toTableRow (sort_less change_less changes) in
  let body := match rows with [] => [placeholder_cells] | _ => map resource_cells rows end in
  mkResourceTable (Select 1 0 (set_cells (resource_header :: body) (rt_Table rt))) rows.

End resource_table.

(** The element at an index computed from the selected row. *)
Definition row_at {A} (l : list A) (t : Table) : option A :=
  let idx := (tb_Row t - 1)%Z in
  if ((idx <? 0) || (Z.of_nat (length l) <=? idx))%Z then None else l !! Z.to_nat idx.

Definition GetSelectedChange (rt : ResourceTable) : option Change :=
  option_map tr_change (row_at (rt_rows rt) (rt_Table rt)).

(** The callback to call, if any: [OnSelect] or [OnDrift], which the application sets. *)
Inductive TableCall := CallOnSelect (c : Change) | CallOnDrift (c : Change).

Definition rt_handleInput (event : EventKey) (rt : ResourceTable) :
    ResourceTable * option TableCall * option EventKey :=
  let isk (c : ascii) := (ek_Rune event =? rune_of c)%Z in
  let select row := mkResourceTable (Select row 0 (rt_Table rt)) (rt_rows rt) in
  let enter :=
    match ek_Key event, GetSelectedChange rt with
    | KeyEnter, Some c => (rt, Some (CallOnSelect c), None)
    | _, _ => (rt, None, Some event)
    end in
  if isk "d"%char then
    match GetSelectedChange rt with Some c => (rt, Some (CallOnDrift c), None) | None => enter end
  else if isk "g"%char then
    match rt_rows rt with [] => enter | _ => (select 1%Z, None, None) end
  else if isk "G"%char then
    match rt_rows rt with [] => enter | rows => (select (Z.of_nat (length rows)), None, None) end
  else enter.

(** ** drift_view.go *)

Section drift.
Context (other_v : gval -> string).

(** Unlike the plan's display, long values are escaped and trimmed too. *)
Definition formatDiffVal (v : gval) : string :=
  match v with
  | VNil => "(none)"
  | _ => let s := format_v other_v v in
         let s := if (80 <? String.length s)%nat then str_take 77 s +:+ "..." else s in
         TrimSpace (ReplaceAll s "[" "[[]")
  end.

Definition drift_field (k : string) (d : FieldDiff) : string :=
  "  " +:+ BoldTag HexText (k +:+ ":") +:+ nl +:+
  "    " +:+ Tag HexRed ("- " +:+ formatDiffVal (Old d)) +:+ nl +:+
  "    " +:+ Tag HexGreen ("+ " +:+ formatDiffVal (New d)) +:+ nl.

Definition renderDiff (diffs : diffmap) : string :=
  if (size diffs =? 0)%nat then Tag HexGreen "No differences found."
  else
    let field k := drift_field k (default (mkFieldDiff VNil VNil) (diffs !! k)) in
    let rule := "  " +:+ Tag HexOverlay0 (String.concat "" (replicate 8 (uchar 9472))) +:+ nl in
    BoldTag HexMauve (Itoan (size diffs) +:+ " field(s) drifted:") +:+ nl +:+ nl
    +:+ String.concat rule (map field (sortedKeys diffs)).

(** The text of a change, whatever the view shows at the time. *)
Definition drift_text (c : Change) : string :=
  if negb (String.eqb (ch_Error c) "") then Tag HexRed ("Error: " +:+ ch_Error c)
  else match ch_Action c with
       | ActionNoop => Tag HexGreen "No drift detected. Resource is in sync."
       | ActionCreate => Tag HexYellow "Resource missing in GoClaw. Will be created on apply."
       | ActionDelete =>
         Tag HexLavender ("Resource exists in GoClaw but not in manifest (orphan)." +:+ nl
                          +:+ "Will be deleted on apply with --prune.")
       | ActionUpdate => renderDiff (ch_Diff c)
       | ActionUnset => Tag HexOverlay0 "Unknown state."
       end.

Definition drift_Show (c : Change) (tv : TextView) : TextView :=
  SetText (drift_text c)
    (ScrollToBeginning (SetTitle (" Drift: " +:+ ch_Kind c +:+ "/" +:+ ch_Name c +:+ " ") tv)).
End drift.

(** ** resource_detail.go *)

(** [\s] and [\w._-] of a regular expression: ASCII. *)
Definition re_space (c : ascii) : bool :=
  existsb (Z.eqb (byteZ c)) [9; 10; 12; 13; 32]%Z.
Definition re_key (c : ascii) : bool :=
  ascii_lower (byteZ c) || ascii_upper (byteZ c) || ascii_digit (byteZ c)
  || existsb (Ascii.eqb c) ["_"; "."; "-"]%char.

(** The longest prefix of a class, and the rest. *)
Fixpoint span_class (f : ascii -> bool) (s : list ascii) : list ascii * list ascii :=
  match s with
  | c :: s' => if f c then let '(a, b) := span_class f s' in (c :: a, b) else ([], s)
  | [] => ([], [])
  end.

(** The submatches of [yamlKeyRegex] in a line: the three classes are disjoint, so that
    the greedy match is the only one. *)
Definition yaml_key (line : string) : option (string * string * string) :=
  let '(indent, s) := span_class re_space (bytes_of line) in
  let '(key, s) := span_class re_key s in
  match key, s with
  | _ :: _, c :: rest =>
    if Ascii.eqb c ":" then Some (of_bytes indent, of_bytes key, of_bytes rest) else None
  | _, _ => None
  end.

Fixpoint numeric_runes (first : bool) (rs : list Z) (hasDigit : bool) : bool :=
  match rs with
  | [] => hasDigit
  | c :: rs' =>
    if (c =? rune_of "-")%Z && first then numeric_runes false rs' hasDigit
    else if (c =? rune_of ".")%Z then numeric_runes false rs' hasDigit
    else if ascii_digit c then numeric_runes false rs' true
    else false
  end.

Definition isNumeric (s : string) : bool :=
  if String.eqb s "" then false else numeric_runes true (runes s) false.

Definition colorizeValue (val : string) : string :=
  let trimmed := TrimSpace val in
  if String.eqb trimmed "" then val
  else if String.eqb trimmed "true" || String.eqb trimmed "false" then " " +:+ Tag HexPeach trimmed
  else if String.eqb trimmed "null" || String.eqb trimmed "~" then " " +:+ Tag HexOverlay0 trimmed
  else if isNumeric trimmed then " " +:+ Tag HexPeach trimmed
  else " " +:+ Tag HexGreen trimmed.

Definition escape_brackets (s : string) : string := ReplaceAll s "[" "[[]".

Definition highlight_line (line : string) : string :=
  let escaped := escape_brackets line in
  match yaml_key line with
  | Some (indent, key, rest) =>
    indent +:+ "[" +:+ HexLavender +:+ "]" +:+ key +:+ ":" +:+ "[-]"
    +:+ colorizeValue (escape_brackets rest)
  | None =>
    if HasPrefix (TrimSpace escaped) "#" then Tag HexOverlay0 escaped
    else if HasPrefix (TrimSpace escaped) "- " then Tag HexText escaped
    else escaped
  end.

Definition highlightYAML (yamlStr : string) : string :=
  Join (map highlight_line (Split yamlStr nl)) nl.

(** [Show] up to the goroutine, and what the goroutine puts into the view once it has
    observed. *)
Definition detail_loading (kind : ResourceKind) (name : string) (tv : TextView) : TextView :=
  ScrollToBeginning
    (SetText (Tag HexYellow "Loading...") (SetTitle (" " +:+ kind +:+ "/" +:+ name +:+ " ") tv)).

Definition detail_text (marshal : gomap -> res string) (kind : ResourceKind) (name : string)
    (observed : res (option gomap)) : string :=
  match observed with
  | Err e => Tag HexRed ("Error observing " +:+ kind +:+ "/" +:+ name +:+ ":" +:+ nl +:+ Error e)
  | Ok None =>
    Tag HexYellow (kind +:+ "/" +:+ name +:+ " not yet created in GoClaw.") +:+ nl +:+ nl
    +:+ "Run " +:+ Tag HexGreen "gcplane apply" +:+ " to create it."
  | Ok (Some spec) =>
    match marshal spec with
    | Err e => Tag HexRed ("Failed to marshal YAML: " +:+ Error e)
    | Ok yaml => highlightYAML yaml
    end
  end.

Example highlight_ex : highlightYAML ("name: 7" +:+ nl +:+ "- a")
  = "[#b4befe]name:[-] [#fab387]7[-]" +:+ nl +:+ "[#cdd6f4]- a[-]".
Proof. reflexivity. Qed.

(** ** What a table shows *)

Lemma StronglySorted_weaken {A} (R R' : A -> A -> Prop) l :
  (forall a b, R a b -> R' a b) -> StronglySorted R l -> StronglySorted R' l.
Proof.
  intros H. induction 1 as [|a l Hs IH Ha]; constructor; [done|].
  eapply Forall_impl; [exact Ha|]. apply H.
Qed.

Section table_facts.
Context {Sort : LessSort}.

Lemma string_less_leb a b : string_less b a = false <-> String.leb a b = true.
Proof.
  unfold string_less, String.leb. rewrite (String.compare_antisym b a).
  by destruct (String.compare a b).
Qed.

Lemma change_less_false a b :
  change_less b a = false <->
  (kindOrder (ch_Kind a) < kindOrder (ch_Kind b))%nat \/
  (kindOrder (ch_Kind a) = kindOrder (ch_Kind b) /\ String.leb (ch_Name a) (ch_Name b) = true).
Proof.
  unfold change_less.
  destruct (Nat.eqb_spec (kindOrder (ch_Kind b)) (kindOrder (ch_Kind a))) as [E|E].
  - rewrite string_less_leb. naive_solver lia.
  - rewrite Nat.ltb_ge. naive_solver lia.
Qed.

Lemma change_less_asym a b : change_less a b = true -> change_less b a = false.
Proof.
  intros H. apply not_true_is_false. intros H'. revert H H'. unfold change_less.
  destruct (Nat.eqb_spec (kindOrder (ch_Kind a)) (kindOrder (ch_Kind b))) as [E|E].
  - rewrite E, Nat.eqb_refl. unfold string_less. rewrite (String.compare_antisym (ch_Name b)).
    by destruct (String.compare (ch_Name a) (ch_Name b)).
  - destruct (Nat.eqb_spec (kindOrder (ch_Kind b)) (kindOrder (ch_Kind a))); [lia|].
    rewrite !Nat.ltb_lt. lia.
Qed.

Lemma change_less_trans a b c :
  change_less b a = false -> change_less c b = false -> change_less c a = false.
Proof.
  rewrite !change_less_false. intros [?|[??]] [?|[??]]; [left; lia..|].
  right. split; [lia|]. by eapply str_le_trans.
Qed.

Lemma refresh_rows changes rt :
  map tr_change (rt_rows (rt_Refresh changes rt)) = sort_less change_less changes.
Proof. cbn. rewrite map_map. cbn. apply map_id. Qed.

(** The cells of a data row are those of its change. *)
Lemma refresh_cells changes rt i c :
  sort_less change_less changes !! i = Some c ->
  tb_Cells (rt_Table (rt_Refresh changes rt)) !! S i = Some (resource_cells (toTableRow c)).
Proof.
  intros H. unfold rt_Refresh. cbn [rt_Table Select set_cells tb_Cells].
  rewrite lookup_cons. destruct (map toTableRow _) as [|r rows] eqn:E.
  - by destruct (sort_less change_less changes).
  - rewrite <- E, map_map, map_lookup, H. done.
Qed.

Lemma row_at_spec {A} (l : list A) t a :
  row_at l t = Some a <-> exists i, tb_Row t = (Z.of_nat i + 1)%Z /\ l !! i = Some a.
Proof.
  unfold row_at. split.
  - destruct (_ || _) eqn:E; [done|]. intros Ha. exists (Z.to_nat (tb_Row t - 1)). split; [|done].
    apply orb_false_iff in E as [?%Z.ltb_ge ?]. lia.
  - intros (i & -> & Hi). replace (Z.of_nat i + 1 - 1)%Z with (Z.of_nat i) by lia.
    apply lookup_lt_Some in Hi as Hlt. rewrite Nat2Z.id.
    destruct (Z.ltb_spec (Z.of_nat i) 0); [lia|]. destruct (Z.leb_spec (Z.of_nat (length l)) (Z.of_nat i)); [lia|].
    done.
Qed.

Lemma selected_spec rt c :
  GetSelectedChange rt = Some c <->
  exists i, tb_Row (rt_Table rt) = (Z.of_nat i + 1)%Z /\ map tr_change (rt_rows rt) !! i = Some c.
Proof.
  unfold GetSelectedChange. split.
  - destruct (row_at _ _) as [r|] eqn:E; [|done]. intros [= <-].
    apply row_at_spec in E as (i & Hi & Hr). exists i. by rewrite map_lookup, Hr.
  - intros (i & Hi & Hc). rewrite map_lookup in Hc.
    destruct (rt_rows rt !! i) as [r|] eqn:E; [|done].
    destruct (row_at (rt_rows rt) (rt_Table rt)) as [r'|] eqn:E'.
    + apply row_at_spec in E' as (j & Hj & Hr). by replace i with j in * by lia; simplify_eq/=.
    + exfalso. assert (row_at (rt_rows rt) (rt_Table rt) = Some r); [|congruence].
      apply row_at_spec. eauto.
Qed.
End table_facts.

(** C35: the table of resources shows every change of the plan it is refreshed with, once
    each, in the order in which the kinds are applied and then by name; and wherever the
    user moves the selection, the change that an action on the selected row acts on is
    the one whose kind, name and status the row displays, and the row below the header
    is the first. *)
Theorem table_acts_on_shown {Sort : LessSort} changes rt t :
  let rt' := rt_Refresh changes rt in
  table_moved (rt_Table rt') t ->
  map tr_change (rt_rows rt') ≡ₚ changes /\
  StronglySorted (fun a b => (kindOrder (ch_Kind a) < kindOrder (ch_Kind b))%nat \/
                    (kindOrder (ch_Kind a) = kindOrder (ch_Kind b) /\
                     String.leb (ch_Name a) (ch_Name b) = true))
                 (map tr_change (rt_rows rt')) /\
  (forall i c, map tr_change (rt_rows rt') !! i = Some c ->
     tb_Row t = (Z.of_nat i + 1)%Z -> GetSelectedChange (mkResourceTable t (rt_rows rt')) = Some c) /\
  (forall c, GetSelectedChange (mkResourceTable t (rt_rows rt')) = Some c ->
     c ∈ changes /\ tb_Cells t !! Z.to_nat (tb_Row t) = Some (resource_cells (toTableRow c))).
Proof.
  intros rt' Ht. unfold rt'. rewrite refresh_rows.
  assert (Hsel : forall c, GetSelectedChange (mkResourceTable t (rt_rows rt')) = Some c <->
                   exists i, tb_Row t = (Z.of_nat i + 1)%Z /\ sort_less change_less changes !! i = Some c).
  { intros c. rewrite selected_spec. cbn [rt_rows rt_Table]. unfold rt'. by rewrite refresh_rows. }
  split; [apply sort_less_perm|]. split.
  { eapply StronglySorted_weaken; [apply change_less_false|].
    apply sort_less_sorted; [apply change_less_asym|apply change_less_trans]. }
  split; [intros i c H1 H2; apply Hsel; eauto|].
  intros c (i & -> & Hi)%Hsel. split.
  - rewrite <- (sort_less_perm change_less changes). by eapply list_elem_of_lookup_2.
  - rewrite Ht. replace (Z.to_nat (Z.of_nat i + 1)) with (S i) by lia. by apply refresh_cells.
Qed.

(** The insertion sort, the instance the examples compute with. *)
Fixpoint insert_less {A} (less : A -> A -> bool) (x : A) (l : list A) : list A :=
  match l with
  | [] => [x]
  | y :: l' => if less y x then y :: insert_less less x l' else x :: l
  end.

Lemma insert_less_perm {A} (less : A -> A -> bool) x l : insert_less less x l ≡ₚ x :: l.
Proof.
  induction l as [|y l IH]; simpl; [done|]. case_match; [|done]. rewrite IH. constructor.
Qed.

Definition insertion_less : LessSort.
Proof.
  refine {| sort_less := fun A less l => foldr (insert_less less) [] l |}; intros A less l.
  - induction l as [|x l IH]; simpl; [done|]. by rewrite insert_less_perm, IH.
  - intros Hasym Htrans. induction l as [|x l IH]; simpl; [constructor|].
    induction IH as [|y k Hs IH Hall]; simpl; [repeat constructor|].
    destruct (less y x) eqn:E.
    + constructor; [done|]. rewrite insert_less_perm. constructor; [by apply Hasym|done].
    + constructor; [by constructor|]. constructor; [done|].
      eapply Forall_impl; [exact Hall|]. simpl. intros z Hz. by eapply Htrans.
Defined.

Definition ex_changes : list Change :=
  [ mkChange KindAgent "b" ActionUpdate ∅ "" false ""; mkChange KindAgent "a" ActionNoop ∅ "" false "";
    mkChange KindProvider "z" ActionCreate ∅ "" false "" ].

Definition ex_table : ResourceTable := rt_Refresh (Sort := insertion_less) ex_changes NewResourceTable.

Lemma table_acts_on_shown_witness :
  map ch_Name (map tr_change (rt_rows ex_table)) = ["z"; "a"; "b"] /\
  GetSelectedChange (mkResourceTable (Select 3 0 (rt_Table ex_table)) (rt_rows ex_table))
    = Some (mkChange KindAgent "b" ActionUpdate ∅ "" false "").
Proof.
  split; [vm_compute; reflexivity|].
  destruct (table_acts_on_shown (Sort := insertion_less) ex_changes NewResourceTable
              (Select 3 0 (rt_Table ex_table)) eq_refl) as (_ & _ & H & _).
  apply (H 2%nat); vm_compute; reflexivity.
Defined.
