(* ===== verification/LogsPanel.v ===== *)
(** * The logs panel

    [internal/tui/views/logs_panel.go]: the filters, the rows of the table and the entry
    that a selected row stands for.  How a time of day is written (the local time zone)
    is an argument. *)
From Stdlib Require Import ZArith Lia Bool Ascii.
From Stdlib Require String.
From S2P Require Import Prelude GoStr GoValue Filepath Ring Views.

Local Open Scope string_scope.

Definition logLevelHex : list (string * string) :=
  [("debug", HexOverlay0); ("info", HexGreen); ("warn", HexYellow); ("error", HexRed)].

Definition logLevelLabel : list (string * string) :=
  [("debug", "DBG"); ("info", "INF"); ("warn", "WRN"); ("error", "ERR")].

Definition logLevelRank : list (string * Z) :=
  [("debug", 0); ("info", 1); ("warn", 2); ("error", 3)]%Z.

(** [logLevelRank[level]]: zero for an unknown level. *)
Definition rank (level : string) : Z := default 0%Z (mget level logLevelRank).

Record LogsPanel := mkLogsPanel {
  lp_Table : Table;
  lp_statusBar : string;
  lp_paused : bool;
  lp_levelMin : string;
  lp_msgFilter : string;
  lp_entries : list LogEntry
}.

Definition NewLogsPanel : LogsPanel := mkLogsPanel emptyTable "" false "info" "" [].

Definition lp_with_table (t : Table) (p : LogsPanel) : LogsPanel :=
  mkLogsPanel t (lp_statusBar p) (lp_paused p) (lp_levelMin p) (lp_msgFilter p) (lp_entries p).

Definition SetLevelMin (level : string) (p : LogsPanel) : LogsPanel :=
  mkLogsPanel (lp_Table p) (lp_statusBar p) (lp_paused p) level (lp_msgFilter p) (lp_entries p).

Definition TogglePause (p : LogsPanel) : LogsPanel :=
  mkLogsPanel (lp_Table p) (lp_statusBar p) (negb (lp_paused p)) (lp_levelMin p) (lp_msgFilter p) (lp_entries p).

Definition GoToTop (p : LogsPanel) : LogsPanel := lp_with_table (Select 1 0 (lp_Table p)) p.

Definition GoToBottom (p : LogsPanel) : LogsPanel :=
  let rc := GetRowCount (lp_Table p) in
  if (1 <? rc)%Z then lp_with_table (Select (rc - 1) 0 (lp_Table p)) p else p.

Definition log_header : list Cell :=
  let cell h := Unselectable (SetTextColor ColorSubtext0 (NewTableCell (" " +:+ h))) in
  [SetMaxWidth 14 (cell "Time"); SetMaxWidth 6 (cell "Level"); SetMaxWidth 16 (cell "Source");
   SetExpansion 1 (cell "Message")].

(** A row with one message over the whole width. *)
Definition notice (text : string) : list Cell :=
  [Unselectable (SetExpansion 1 (NewTableCell (Tag HexOverlay0 ("  " +:+ text))))].

Definition formatLogAttrs (attrs : list (string * string)) : string :=
  match attrs with
  | [] => ""
  | _ => Join (map (fun k => k +:+ "=" +:+ default "" (mget k attrs)) (sortStrings (mkeys attrs))) " "
  end.

Definition colorFromHex (hex : string) : Color * bool :=
  if String.eqb hex HexOverlay0 then (ColorOverlay0, true)
  else if String.eqb hex HexGreen then (ColorGreen, true)
  else if String.eqb hex HexYellow then (ColorYellow, true)
  else if String.eqb hex HexRed then (ColorRed, true)
  else if String.eqb hex HexBlue then (ColorBlue, true)
  else if String.eqb hex HexText then (ColorText, true)
  else (ColorText, false).

(** The first [n] bytes of a text longer than [n + 3] and three points. *)
Definition cut_text (limit n : nat) (s : string) : string :=
  if (limit <? String.length s)%nat then str_take n s +:+ "..." else s.

(** [" " + attrs], if there are any. *)
Definition with_attrs (msg : string) (e : LogEntry) : string :=
  let attrs := formatLogAttrs (le_Attrs e) in
  if String.eqb attrs "" then msg else msg +:+ " " +:+ attrs.

Section logs_panel.
Context {U : Unicode} (clock_ms : Z -> string).

Definition lp_SetFilter (f : string) (p : LogsPanel) : LogsPanel :=
  mkLogsPanel (lp_Table p) (lp_statusBar p) (lp_paused p) (lp_levelMin p) (ToLower f) (lp_entries p).

(** Whether [Refresh] keeps an entry. *)
Definition log_visible (p : LogsPanel) (e : LogEntry) : bool :=
  negb (rank (le_Level e) <? rank (lp_levelMin p))%Z
  && (String.eqb (lp_msgFilter p) ""
      || Contains (ToLower (le_Message e +:+ " " +:+ le_Source e)) (lp_msgFilter p)).

Definition log_cells (e : LogEntry) : list Cell :=
  let hex := default HexText (mget (le_Level e) logLevelHex) in
  let label := default (le_Level e) (mget (le_Level e) logLevelLabel) in
  [SetMaxWidth 14 (SetTextColor ColorOverlay0 (NewTableCell (" " +:+ clock_ms (le_Time e))));
   SetMaxWidth 6 (SetTextColor (colorFromHex hex).1 (NewTableCell label));
   SetMaxWidth 16 (SetTextColor ColorSky (NewTableCell (cut_text 14 11 (le_Source e))));
   SetExpansion 1 (SetTextColor ColorText (NewTableCell (with_attrs (le_Message e) e)))].

Definition log_status (p : LogsPanel) (shown total : nat) : string :=
  " " +:+ (if lp_paused p then Tag HexYellow "[PAUSED] " else "") +:+ Tag HexOverlay0 "---" +:+ " "
  +:+ Itoa (Z.of_nat shown) +:+ "/" +:+ Itoa (Z.of_nat total) +:+ " entries | Level: "
  +:+ default "" (mget (lp_levelMin p) logLevelLabel) +:+ "+".

Definition lp_Refresh (entries : list LogEntry) (p : LogsPanel) : LogsPanel :=
  let kept := List.filter (log_visible p) entries in
  let body := match kept with [] => [notice "No log entries"] | _ => map log_cells kept end in
  let t := set_cells (log_header :: body) (lp_Table p) in
  let t := if negb (lp_paused p) && (0 <? length kept)%nat
           then Select (Z.of_nat (length kept)) 0 t else t in
  mkLogsPanel t (log_status p (length kept) (length entries)) (lp_paused p) (lp_levelMin p)
    (lp_msgFilter p) kept.

Definition lp_RefreshUnavailable (reason : string) (p : LogsPanel) : LogsPanel :=
  lp_with_table (set_cells [log_header; notice reason] (lp_Table p)) p.

Definition SelectedEntry (p : LogsPanel) : string :=
  match row_at (lp_entries p) (lp_Table p) with
  | None => ""
  | Some e => with_attrs (clock_ms (le_Time e) +:+ " " +:+ le_Level e +:+ " " +:+ le_Source e +:+ " "
                          +:+ le_Message e) e
  end.

(** [height] of the table on the screen; halved towards zero. *)
Definition lp_handleInput (height : Z) (event : EventKey) (p : LogsPanel) : LogsPanel * option EventKey :=
  let t := lp_Table p in
  match ek_Key event with
  | KeyCtrlD =>
    (lp_with_table (Select (Z.min (tb_Row t + Z.quot height 2) (GetRowCount t - 1)) (tb_Col t) t) p, None)
  | KeyCtrlU =>
    (lp_with_table (Select (Z.max (tb_Row t - Z.quot height 2) 1) (tb_Col t) t) p, None)
  | _ => (p, Some event)
  end.
End logs_panel.
