(* ===== verification/TracesPanel.v ===== *)
(** * The traces panel

    [internal/tui/views]: [trace_list.go], [span_list.go], [span_detail.go] and
    [traces_panel.go], with the color of a span type of [trace_types.go].  How a time of
    day is written is an argument. *)
From Stdlib Require Import ZArith Lia Bool Ascii.
From Stdlib Require String.
From Stdlib Require Import Floats.SpecFloat.
From S2P Require Import Prelude GoStr GoValue Filepath Manifest Json JsonParse Display TraceStore Views LogsPanel.

Local Open Scope string_scope.

(** ** Numbers and durations *)

Definition dash : string := uchar 8212.

(** [%.1f] of a positive float: the exact value, correctly rounded, ties to even. *)
Definition format1 (f : spec_float) : string :=
  match f with
  | S754_finite _ m e =>
    let '(num, den) := scale2 (Zpos m) e in
    let q := (num * 10 / den)%Z in
    let r := (2 * (num * 10 mod den))%Z in
    let n := if (r >? den)%Z || ((r =? den)%Z && Z.odd q) then (q + 1)%Z else q in
    Itoa (n / 10) +:+ "." +:+ Itoa (n mod 10)%Z
  | _ => "0.0"
  end.

(** [float64(ms) / 1000.0] for a positive [ms]. *)
Definition seconds_of (ms : Z) : spec_float := SFdiv 53 1024 (float64_of_Z ms) (float64_of_Z 1000).

(** [int(f)] of a positive float: truncated. *)
Definition trunc (f : spec_float) : Z :=
  match f with
  | S754_finite _ m e => let '(num, den) := scale2 (Zpos m) e in (num / den)%Z
  | _ => 0%Z
  end.

Definition formatTraceDuration (ms : Z) : string :=
  if (ms <=? 0)%Z then dash
  else if (ms <? 1000)%Z then Itoa ms +:+ "ms"
  else
    let secs := seconds_of ms in
    if SFltb secs (float64_of_Z 60) then format1 secs +:+ "s"
    else Itoa (Z.quot (trunc secs) 60) +:+ "m" +:+ Itoa (Z.rem (trunc secs) 60) +:+ "s".

Definition compactNumber (n : Z) : string :=
  if (n <? 1000)%Z then Itoa n else Itoa (Z.quot n 1000) +:+ "k".

Definition formatTokens (input output : Z) (meta : option TraceMetadata) : string :=
  let s := compactNumber input +:+ "/" +:+ compactNumber output in
  match meta with
  | Some m => if (0 <? TotalCacheReadTokens m)%Z
              then s +:+ " +" +:+ compactNumber (TotalCacheReadTokens m) +:+ "c" else s
  | None => s
  end.

(** A comma before each digit that has a multiple of three digits from itself on, the
    first excepted. *)
Fixpoint commas (first : bool) (s : list ascii) : list ascii :=
  match s with
  | [] => []
  | c :: s' =>
    (if negb first && (length s mod 3 =? 0)%nat then [","%char] else []) ++ c :: commas false s'
  end.

Definition formatNumber (n : Z) : string :=
  if (n <? 1000)%Z then Itoa n else of_bytes (commas true (bytes_of (Itoa n))).

Example duration_ex :
  map formatTraceDuration [0; 999; 1000; 1249; 1250; 1350; 59949; 59999; 60000; 3661000]%Z
  = [dash; "999ms"; "1.0s"; "1.2s"; "1.2s"; "1.4s"; "59.9s"; "60.0s"; "1m0s"; "61m1s"].
Proof. vm_compute. reflexivity. Qed.

Example number_ex : map formatNumber [7; 1000; 999999; 1234567]%Z = ["7"; "1,000"; "999,999"; "1,234,567"].
Proof. vm_compute. reflexivity. Qed.

(** ** trace_types.go: colors *)

Definition spanTypeColor (spanType : string) : Color :=
  if String.eqb spanType "agent" then ColorMauve
  else if String.eqb spanType "llm_call" then ColorBlue
  else if String.eqb spanType "tool_call" then ColorTeal
  else ColorOverlay0.

Definition spanTypeHex (spanType : string) : string :=
  if String.eqb spanType "agent" then HexMauve
  else if String.eqb spanType "llm_call" then HexBlue
  else if String.eqb spanType "tool_call" then HexTeal
  else HexOverlay0.

(** ** trace_list.go *)

Record TraceList := mkTraceList { tl_Table : Table; tl_traces : list TraceData; tl_filter : string }.

Definition NewTraceList : TraceList := mkTraceList emptyTable [] "".

Definition traceStatusCell (status : string) : string * Color :=
  if existsb (String.eqb status) ["ok"; "success"; "completed"] then (uchar 9679, ColorGreen)
  else if existsb (String.eqb status) ["error"; "failed"] then (uchar 10007, ColorRed)
  else if existsb (String.eqb status) ["running"; "pending"] then (uchar 9680, ColorYellow)
  else (uchar 9675, ColorOverlay0).

(** A fixed width, or an expansion. *)
Inductive Width := Fixed (n : Z) | Expand (n : Z).

Definition header_cell (h : string * Width) : list Cell :=
  let cell := Unselectable (SetTextColor ColorSubtext0 (NewTableCell (" " +:+ h.1))) in
  [match h.2 with Fixed n => SetMaxWidth n cell | Expand n => SetExpansion n cell end].

Definition trace_header : list Cell :=
  [("Name", Expand 1); ("Status", Fixed 12); ("Duration", Fixed 10); ("Tokens", Fixed 14);
   ("Spans", Fixed 7); ("Time", Fixed 10)] ≫= header_cell.

Definition SelectedTraceID (tl : TraceList) : string :=
  match row_at (tl_traces tl) (tl_Table tl) with Some tr => td_ID tr | None => "" end.

Definition tl_SelectedTrace (tl : TraceList) : option TraceData := row_at (tl_traces tl) (tl_Table tl).

Definition status_cell (status : string) : Cell :=
  let '(sym, color) := traceStatusCell status in
  SetMaxWidth 12 (SetTextColor color (NewTableCell (sym +:+ " " +:+ status))).

(** The first row whose trace is the selected one is overridden by a later one. *)
Definition selected_row (traces : list TraceData) (selectedID : string) : Z :=
  foldl (fun acc itr => if String.eqb (td_ID itr.2) selectedID then Z.of_nat itr.1 + 1 else acc)%Z
    1%Z (imap pair traces).

Section trace_list.
Context {U : Unicode} (clock : Z -> string).

Definition tl_SetFilter (f : string) (tl : TraceList) : TraceList :=
  mkTraceList (tl_Table tl) (tl_traces tl) (ToLower f).

Definition tl_matchesFilter (tl : TraceList) (tr : TraceData) : bool :=
  Contains (ToLower (td_Name tr +:+ " " +:+ td_AgentID tr +:+ " " +:+ td_Channel tr +:+ " " +:+ td_Status tr))
    (tl_filter tl).

Definition trace_cells (tr : TraceData) : list Cell :=
  let name := if String.eqb (td_Name tr) "" then td_AgentID tr else td_Name tr in
  [SetExpansion 1 (SetTextColor ColorText (NewTableCell (" " +:+ cut_text 30 27 name)));
   status_cell (td_Status tr);
   SetMaxWidth 10 (SetTextColor ColorSubtext0 (NewTableCell (formatTraceDuration (td_DurationMs tr))));
   SetMaxWidth 14 (SetTextColor ColorText (NewTableCell
     (formatTokens (td_TotalInputTokens tr) (td_TotalOutputTokens tr) (td_Metadata tr))));
   SetMaxWidth 7 (SetTextColor ColorSubtext0 (NewTableCell (Itoa (td_SpanCount tr))));
   SetMaxWidth 10 (SetTextColor ColorOverlay0 (NewTableCell (clock (td_StartTime tr))))].

Definition tl_visible (tl : TraceList) (tr : TraceData) : bool :=
  String.eqb (tl_filter tl) "" || tl_matchesFilter tl tr.

Definition tl_Refresh (traces : list TraceData) (selectedID : string) (tl : TraceList) : TraceList :=
  let kept := List.filter (tl_visible tl) traces in
  match kept with
  | [] => mkTraceList (set_cells [trace_header; notice "No traces"] (tl_Table tl)) [] (tl_filter tl)
  | _ => mkTraceList (Select (selected_row kept selectedID) 0
                        (set_cells (trace_header :: map trace_cells kept) (tl_Table tl)))
           kept (tl_filter tl)
  end.
End trace_list.

(** ** span_list.go *)

Record SpanList := mkSpanList { sl_Table : Table; sl_spans : list SpanData; sl_filter : string }.

Definition NewSpanList : SpanList := mkSpanList emptyTable [] "".

Definition SelectedSpan (sl : SpanList) : option SpanData := row_at (sl_spans sl) (sl_Table sl).

(** The model of a call of a model and the tool of a call of a tool, if they are known. *)
Definition span_name (s : SpanData) : string :=
  if String.eqb (sd_SpanType s) "llm_call" && negb (String.eqb (sd_Model s) "") then sd_Model s
  else if String.eqb (sd_SpanType s) "tool_call" && negb (String.eqb (sd_ToolName s) "") then sd_ToolName s
  else sd_Name s.

Definition SelectedText (sl : SpanList) : string :=
  match SelectedSpan sl with
  | None => ""
  | Some s => sd_SpanType s +:+ " " +:+ span_name s +:+ " (" +:+ formatTraceDuration (sd_DurationMs s) +:+ ") "
              +:+ sd_ID s
  end.

Definition sl_Count (sl : SpanList) : nat := length (sl_spans sl).

Definition span_header : list Cell :=
  [("Type", Fixed 12); ("Name", Expand 1); ("Status", Fixed 12); ("Duration", Fixed 10);
   ("Tokens", Fixed 14)] ≫= header_cell.

Definition span_cells (s : SpanData) : list Cell :=
  [SetMaxWidth 12 (SetTextColor (spanTypeColor (sd_SpanType s)) (NewTableCell (" " +:+ sd_SpanType s)));
   SetExpansion 1 (SetTextColor ColorText (NewTableCell (" " +:+ cut_text 40 37 (span_name s))));
   status_cell (sd_Status s);
   SetMaxWidth 10 (SetTextColor ColorSubtext0 (NewTableCell (formatTraceDuration (sd_DurationMs s))));
   SetMaxWidth 14 (SetTextColor ColorText (NewTableCell
     (compactNumber (sd_InputTokens s) +:+ "/" +:+ compactNumber (sd_OutputTokens s))))].

Section span_list.
Context {U : Unicode}.

Definition sl_SetFilter (f : string) (sl : SpanList) : SpanList :=
  mkSpanList (sl_Table sl) (sl_spans sl) (ToLower f).

Definition sl_matchesFilter (sl : SpanList) (s : SpanData) : bool :=
  Contains (ToLower (sd_SpanType s +:+ " " +:+ sd_Name s +:+ " " +:+ sd_ToolName s +:+ " " +:+ sd_Model s +:+ " "
                     +:+ sd_Status s)) (sl_filter sl).

Definition sl_Refresh (spans : list SpanData) (sl : SpanList) : SpanList :=
  let kept := List.filter (fun s => String.eqb (sl_filter sl) "" || sl_matchesFilter sl s) spans in
  match kept with
  | [] => mkSpanList (set_cells [span_header; notice "No spans"] (sl_Table sl)) [] (sl_filter sl)
  | _ => mkSpanList (Select 1 0 (set_cells (span_header :: map span_cells kept) (sl_Table sl)))
           kept (sl_filter sl)
  end.
End span_list.

(** ** span_detail.go *)

(** [json.MarshalIndent]: the members of an object in key order, each on a line of its
    own, after [prefix] and one [indent] for each level. *)
Section marshal_indent.
Context (prefix indent : string).

Definition newline_at (depth : nat) : string := nl +:+ prefix +:+ String.concat "" (replicate depth indent).

Definition indent_items (open close : string) (depth : nat) (items : list string) : string :=
  match items with
  | [] => open +:+ close
  | _ => open +:+ newline_at (S depth) +:+ Join items ("," +:+ newline_at (S depth)) +:+ newline_at depth
         +:+ close
  end.

Fixpoint MarshalIndent (depth : nat) (v : gval) : option string :=
  match v with
  | VSlice l =>
    option_map (fun xs => indent_items "[" "]" depth (map snd xs))
      (seq_opt (map (fun x => (tt, MarshalIndent (S depth) x)) l))
  | VMap m =>
    option_map (fun xs => indent_items "{" "}" depth (map (fun kv => json_string kv.1 +:+ ": " +:+ kv.2) xs))
      (seq_opt (sort_by fst (map (fun kv => (kv.1, MarshalIndent (S depth) kv.2)) m)))
  | _ => Marshal v
  end.
End marshal_indent.

Definition indentBlock (text hex : string) : string :=
  String.concat "" (map (fun line => "   " +:+ Tag hex line +:+ nl) (Split text nl)).

Definition formatPreview (text : string) : string :=
  let text := TrimSpace text in
  let pretty :=
    if HasPrefix text "{" || HasPrefix text "[" then
      match Unmarshal text with Ok parsed => MarshalIndent "   " "  " 0 parsed | Err _ => None end
    else None in
  indentBlock (default text pretty) HexSubtext0.

Example preview_ex :
  formatPreview (js " {'b':[1,{}],'a':[]} ")
  = indentBlock ("{" +:+ nl +:+ js "     'a': []," +:+ nl +:+ js "     'b': [" +:+ nl +:+ "       1," +:+ nl
                 +:+ "       {}" +:+ nl +:+ "     ]" +:+ nl +:+ "   }") HexSubtext0.
Proof. vm_compute. reflexivity. Qed.

Record SpanDetail := mkSpanDetail { sdt_TextView : TextView; sdt_lastSpan : option SpanData }.

Definition NewSpanDetail : SpanDetail := mkSpanDetail emptyTextView None.

(** [if b { s }]. *)
Definition when (b : bool) (s : string) : string := if b then s else "".
Definition nonempty (s : string) : bool := negb (String.eqb s "").

Definition span_tokens (s : SpanData) : string :=
  when ((0 <? sd_InputTokens s) || (0 <? sd_OutputTokens s))%Z
    (" " +:+ Tag HexOverlay0 "Tokens:" +:+ " " +:+ formatNumber (sd_InputTokens s) +:+ " in / "
     +:+ formatNumber (sd_OutputTokens s) +:+ " out"
     +:+ match sd_Metadata s with
         | None => ""
         | Some m =>
           when (0 <? CacheReadTokens m)%Z
             ("  " +:+ Tag HexGreen "cache-r:" +:+ " " +:+ formatNumber (CacheReadTokens m))
           +:+ when (0 <? CacheCreationTokens m)%Z
             ("  " +:+ Tag HexYellow "cache-w:" +:+ " " +:+ formatNumber (CacheCreationTokens m))
           +:+ when (0 <? ThinkingTokens m)%Z
             ("  " +:+ Tag HexPeach "think:" +:+ " " +:+ formatNumber (ThinkingTokens m))
         end
     +:+ nl).

(** The text that [Show] builds. *)
Definition span_text (s : SpanData) : string :=
  nl +:+ " " +:+ BoldTag HexMauve "Span:" +:+ " " +:+ Tag (spanTypeHex (sd_SpanType s)) (sd_SpanType s)
  +:+ when (nonempty (sd_Name s)) (" " +:+ dash +:+ " " +:+ Tag HexText (sd_Name s)) +:+ nl
  +:+ " " +:+ Tag HexOverlay0 "Status:" +:+ " " +:+ spanStatusIcon (sd_Status s) +:+ " " +:+ sd_Status s +:+ "  "
  +:+ Tag HexOverlay0 "Duration:" +:+ " " +:+ formatTraceDuration (sd_DurationMs s)
  +:+ when (nonempty (sd_Provider s)) ("  " +:+ Tag HexOverlay0 "Provider:" +:+ " " +:+ sd_Provider s) +:+ nl
  +:+ when (nonempty (sd_Model s)) (" " +:+ Tag HexOverlay0 "Model:" +:+ " " +:+ Tag HexBlue (sd_Model s) +:+ nl)
  +:+ when (nonempty (sd_ToolName s)) (" " +:+ Tag HexOverlay0 "Tool:" +:+ " " +:+ Tag HexTeal (sd_ToolName s) +:+ nl)
  +:+ span_tokens s
  +:+ " " +:+ Tag HexOverlay0 "ID:" +:+ " " +:+ Tag HexOverlay0 (sd_ID s) +:+ nl +:+ nl
  +:+ when (nonempty (sd_InputPreview s))
        (" " +:+ BoldTag HexOverlay0 "Input:" +:+ nl +:+ formatPreview (sd_InputPreview s) +:+ nl)
  +:+ when (nonempty (sd_OutputPreview s))
        (" " +:+ BoldTag HexOverlay0 "Output:" +:+ nl +:+ formatPreview (sd_OutputPreview s) +:+ nl)
  +:+ when (nonempty (sd_Error s))
        (" " +:+ BoldTag HexRed "Error:" +:+ nl +:+ "   " +:+ Tag HexRed (sd_Error s) +:+ nl).

Definition sdt_Show (s : SpanData) (d : SpanDetail) : SpanDetail :=
  mkSpanDetail (ScrollToBeginning (SetText (span_text s) (sdt_TextView d))) (Some s).

Definition formatSpanCopyText (s : SpanData) : string :=
  sd_SpanType s +:+ ": " +:+ span_name s +:+ " (" +:+ formatTraceDuration (sd_DurationMs s) +:+ ") " +:+ sd_ID s.

(** ** traces_panel.go *)

(** The page that the panel's own [tview.Pages] shows. *)
Inductive Page := PageTraces | PageSpans | PageDetail.

#[export] Instance Page_eq_dec : EqDecision Page.
Proof. solve_decision. Defined.

Record TracesPanel := mkTracesPanel {
  tp_page : Page;
  tp_list : TraceList;
  tp_spanList : SpanList;
  tp_detail : SpanDetail;
  tp_statusBar : string;
  Level : Z;
  tp_traceName : string;
  tp_spanName : string;
  tp_paused : bool;
  tp_agentFilter : string;
  tp_channelFilter : string;
  tp_traceCount : nat;
  tp_traceTotal : Z;
  tp_filter : string
}.

(** The text of the status bar. *)
Definition breadcrumb (p : TracesPanel) : string :=
  let pauseTag := when (tp_paused p) (Tag HexYellow "[PAUSED] ") in
  let crumb := Tag HexMauve "Traces"
    +:+ when (nonempty (tp_traceName p)) (Tag HexOverlay0 " > " +:+ Tag HexBlue (tp_traceName p))
    +:+ when (nonempty (tp_spanName p)) (Tag HexOverlay0 " > " +:+ Tag HexTeal (tp_spanName p)) in
  let info :=
    if (Level p =? 0)%Z then
      " " +:+ Itoan (tp_traceCount p) +:+ "/" +:+ Itoa (tp_traceTotal p) +:+ " | Agent: "
      +:+ (if nonempty (tp_agentFilter p) then tp_agentFilter p else "all")
    else if (Level p =? 1)%Z then " " +:+ Itoan (sl_Count (tp_spanList p)) +:+ " spans"
    else when (Level p =? 2)%Z " detail" in
  " " +:+ pauseTag +:+ crumb +:+ info +:+ Tag HexOverlay0 " [l=in h=out Esc=root]".

Definition updateStatusBar (p : TracesPanel) : TracesPanel :=
  mkTracesPanel (tp_page p) (tp_list p) (tp_spanList p) (tp_detail p) (breadcrumb p) (Level p)
    (tp_traceName p) (tp_spanName p) (tp_paused p) (tp_agentFilter p) (tp_channelFilter p)
    (tp_traceCount p) (tp_traceTotal p) (tp_filter p).

Definition NewTracesPanel : TracesPanel :=
  updateStatusBar (mkTracesPanel PageTraces NewTraceList NewSpanList NewSpanDetail "" 0 "" "" false "" ""
                     0 0 "").

(** Where the panel is: page, level and breadcrumb. *)
Definition tp_go (page : Page) (level : Z) (traceName spanName : string) (p : TracesPanel) : TracesPanel :=
  mkTracesPanel page (tp_list p) (tp_spanList p) (tp_detail p) (tp_statusBar p) level traceName spanName
    (tp_paused p) (tp_agentFilter p) (tp_channelFilter p) (tp_traceCount p) (tp_traceTotal p) (tp_filter p).

Definition tp_with_list (l : TraceList) (p : TracesPanel) : TracesPanel :=
  mkTracesPanel (tp_page p) l (tp_spanList p) (tp_detail p) (tp_statusBar p) (Level p)
    (tp_traceName p) (tp_spanName p) (tp_paused p) (tp_agentFilter p) (tp_channelFilter p)
    (tp_traceCount p) (tp_traceTotal p) (tp_filter p).

Definition tp_with_spans (l : SpanList) (p : TracesPanel) : TracesPanel :=
  mkTracesPanel (tp_page p) (tp_list p) l (tp_detail p) (tp_statusBar p) (Level p)
    (tp_traceName p) (tp_spanName p) (tp_paused p) (tp_agentFilter p) (tp_channelFilter p)
    (tp_traceCount p) (tp_traceTotal p) (tp_filter p).

Definition tp_with_detail (d : SpanDetail) (p : TracesPanel) : TracesPanel :=
  mkTracesPanel (tp_page p) (tp_list p) (tp_spanList p) d (tp_statusBar p) (Level p)
    (tp_traceName p) (tp_spanName p) (tp_paused p) (tp_agentFilter p) (tp_channelFilter p)
    (tp_traceCount p) (tp_traceTotal p) (tp_filter p).

Definition tp_counts (count : nat) (total : Z) (p : TracesPanel) : TracesPanel :=
  mkTracesPanel (tp_page p) (tp_list p) (tp_spanList p) (tp_detail p) (tp_statusBar p) (Level p)
    (tp_traceName p) (tp_spanName p) (tp_paused p) (tp_agentFilter p) (tp_channelFilter p)
    count total (tp_filter p).

(** The pause and the three filters that the panel records. *)
Definition tp_settings (paused : bool) (agent channel filter : string) (p : TracesPanel) : TracesPanel :=
  mkTracesPanel (tp_page p) (tp_list p) (tp_spanList p) (tp_detail p) (tp_statusBar p) (Level p)
    (tp_traceName p) (tp_spanName p) paused agent channel (tp_traceCount p) (tp_traceTotal p) filter.

Definition tp_SetAgentFilter (agent : string) (p : TracesPanel) : TracesPanel :=
  updateStatusBar (tp_settings (tp_paused p) agent (tp_channelFilter p) (tp_filter p) p).
Definition tp_SetChannelFilter (channel : string) (p : TracesPanel) : TracesPanel :=
  updateStatusBar (tp_settings (tp_paused p) (tp_agentFilter p) channel (tp_filter p) p).
Definition tp_TogglePause (p : TracesPanel) : TracesPanel :=
  updateStatusBar (tp_settings (negb (tp_paused p)) (tp_agentFilter p) (tp_channelFilter p) (tp_filter p) p).

(** The widget the keys of the current level go to. *)
Definition FocusPrimitive (p : TracesPanel) : Page :=
  if (Level p =? 1)%Z then PageSpans else if (Level p =? 2)%Z then PageDetail else PageTraces.

(** The panel and the widget it moves the focus to. *)
Definition DrillIn (p : TracesPanel) : TracesPanel * option Page :=
  if (Level p =? 1)%Z then
    match SelectedSpan (tp_spanList p) with
    | None => (p, None)
    | Some span =>
      (updateStatusBar (tp_go PageDetail 2 (tp_traceName p) (span_name span)
                          (tp_with_detail (sdt_Show span (tp_detail p)) p)), Some PageDetail)
    end
  else (p, None).

Definition DrillOut (p : TracesPanel) : TracesPanel * option Page :=
  if (Level p =? 2)%Z then (updateStatusBar (tp_go PageSpans 1 (tp_traceName p) "" p), Some PageSpans)
  else if (Level p =? 1)%Z then (updateStatusBar (tp_go PageTraces 0 "" (tp_spanName p) p), Some PageTraces)
  else (updateStatusBar p, None).

Definition DrillRoot (p : TracesPanel) : TracesPanel * option Page :=
  (updateStatusBar (tp_go PageTraces 0 "" "" p), Some PageTraces).

Definition tp_RefreshUnavailable (reason : string) (p : TracesPanel) : TracesPanel :=
  tp_with_list (mkTraceList (set_cells [notice reason] (tl_Table (tp_list p))) (tl_traces (tp_list p))
                  (tl_filter (tp_list p))) p.

Definition tl_select (row : Z) (l : TraceList) : TraceList :=
  mkTraceList (Select row 0 (tl_Table l)) (tl_traces l) (tl_filter l).
Definition sl_select (row : Z) (l : SpanList) : SpanList :=
  mkSpanList (Select row 0 (sl_Table l)) (sl_spans l) (sl_filter l).
Definition sdt_scroll (f : TextView -> TextView) (d : SpanDetail) : SpanDetail :=
  mkSpanDetail (f (sdt_TextView d)) (sdt_lastSpan d).

Definition tp_GoToTop (p : TracesPanel) : TracesPanel :=
  if (Level p =? 0)%Z then tp_with_list (tl_select 1 (tp_list p)) p
  else if (Level p =? 1)%Z then tp_with_spans (sl_select 1 (tp_spanList p)) p
  else if (Level p =? 2)%Z then tp_with_detail (sdt_scroll ScrollToBeginning (tp_detail p)) p
  else p.

Definition tp_GoToBottom (p : TracesPanel) : TracesPanel :=
  if (Level p =? 0)%Z then
    let rc := GetRowCount (tl_Table (tp_list p)) in
    if (1 <? rc)%Z then tp_with_list (tl_select (rc - 1) (tp_list p)) p else p
  else if (Level p =? 1)%Z then
    let rc := GetRowCount (sl_Table (tp_spanList p)) in
    if (1 <? rc)%Z then tp_with_spans (sl_select (rc - 1) (tp_spanList p)) p else p
  else if (Level p =? 2)%Z then tp_with_detail (sdt_scroll ScrollToEnd (tp_detail p)) p
  else p.

Definition CopySelected (p : TracesPanel) : string :=
  if (Level p =? 0)%Z then SelectedTraceID (tp_list p)
  else if (Level p =? 1)%Z then SelectedText (tp_spanList p)
  else if (Level p =? 2)%Z then
    match sdt_lastSpan (tp_detail p) with Some s => formatSpanCopyText s | None => "" end
  else "".

Section traces_panel.
Context {U : Unicode} (clock : Z -> string).

Definition ShowSpans (trace : TraceData) (spans : list SpanData) (p : TracesPanel) :
    TracesPanel * option Page :=
  let name := if String.eqb (td_Name trace) "" then td_AgentID trace else td_Name trace in
  (updateStatusBar (tp_go PageSpans 1 name (tp_spanName p)
                      (tp_with_spans (sl_Refresh spans (tp_spanList p)) p)), Some PageSpans).

Definition tp_Refresh (traces : list TraceData) (total : Z) (selectedID : string) (p : TracesPanel) :
    TracesPanel :=
  updateStatusBar (tp_with_list (tl_Refresh clock traces selectedID (tp_list p))
                     (tp_counts (length traces) total p)).

Definition tp_SetFilter (f : string) (p : TracesPanel) : TracesPanel :=
  let p := tp_settings (tp_paused p) (tp_agentFilter p) (tp_channelFilter p) f p in
  if (Level p =? 0)%Z then tp_with_list (tl_SetFilter f (tp_list p)) p
  else if (Level p =? 1)%Z then tp_with_spans (sl_SetFilter f (tp_spanList p)) p
  else p.
End traces_panel.

(** Whatever the panel does, the page it shows and the widget the keys of its level go to
    are those of its level. *)
Definition tp_consistent (p : TracesPanel) : Prop :=
  tp_page p = FocusPrimitive p /\ (0 <= Level p <= 2)%Z.
