(* ===== verification/Controller.v ===== *)
(** * The reconcile loop

    [internal/controller]: the status tracker ([status.go]), the metrics
    ([metrics.go]), the verification of provider keys ([verify.go]) and one cycle of the
    controller ([controller.go]), over the engine and a manifest source.  The world [W]
    holds what the source, the provider, the notifier and the clock act on.

    The goroutines that trigger cycles and wait for them are in [ControllerLoop]. *)
From Stdlib Require Import ZArith Lia Bool Ascii.
From Stdlib Require String.
From S2P Require Import Prelude GoStr GoValue Manifest Secrets Compare Engine Ring Loader Source.

Local Open Scope string_scope.
Local Open Scope go_scope.

(** ** status.go *)

Inductive ConditionType := ConditionSynced | ConditionError | ConditionDrifted.

#[export] Instance ConditionType_eq_dec : EqDecision ConditionType.
Proof. solve_decision. Defined.

Record Condition := mkCondition {
  cond_Type : ConditionType;
  cond_Status : string;
  cond_Message : string;
  LastTransitionTime : Z
}.

Record ResourceStatus := mkResourceStatus {
  rs_Kind : ResourceKind;
  rs_Name : string;
  rs_Status : string;
  rs_Message : string
}.

Record SyncStatus := mkSyncStatus {
  st_LastSyncTime : Z;
  st_LastSyncHash : string;
  st_Conditions : list Condition;
  st_Resources : list ResourceStatus
}.

(** A [StatusTracker] is its status; [Get] copies it. *)
Definition NewStatusTracker : SyncStatus := mkSyncStatus 0 "" [] [].

Definition with_conditions (s : SyncStatus) (cs : list Condition) : SyncStatus :=
  mkSyncStatus (st_LastSyncTime s) (st_LastSyncHash s) cs (st_Resources s).

Definition with_time (c : Condition) (t : Z) : Condition :=
  mkCondition (cond_Type c) (cond_Status c) (cond_Message c) t.

(** The loop of [SetCondition], which replaces the first condition of the type. *)
Fixpoint upsert (cond : Condition) (now : Z) (cs : list Condition) : list Condition :=
  match cs with
  | [] => [with_time cond now]
  | c :: cs' =>
    if bool_decide (cond_Type c = cond_Type cond)
    then with_time cond (if String.eqb (cond_Status c) (cond_Status cond)
                         then LastTransitionTime c else now) :: cs'
    else c :: upsert cond now cs'
  end.

(** [now] is read only when the transition time changes; reading it has no effect. *)
Definition SetCondition (cond : Condition) (now : Z) (s : SyncStatus) : SyncStatus :=
  with_conditions s (upsert cond now (st_Conditions s)).

Definition condition (cs : list Condition) (t : ConditionType) : option Condition :=
  List.find (fun c => bool_decide (cond_Type c = t)) cs.

Definition IsSynced (s : SyncStatus) : bool :=
  match condition (st_Conditions s) ConditionSynced with
  | Some c => String.eqb (cond_Status c) "True"
  | None => false
  end.

(** A condition as the controller sets it, without a time. *)
Definition cond (t : ConditionType) (status message : string) : Condition :=
  mkCondition t status message 0.

(** ** metrics.go *)

Record Metrics := mkMetrics {
  SyncSuccess : Z;
  SyncErrors : Z;
  SyncDuration : Z;
  m_LastSyncTime : Z;
  DriftDetected : Z;
  DriftResources : Z;
  ProviderVerifyErrors : Z;
  WriteOnlyHashMismatches : Z
}.

Definition zeroMetrics : Metrics := mkMetrics 0 0 0 0 0 0 0 0.

Definition count_error (m : Metrics) : Metrics :=
  mkMetrics (SyncSuccess m) (wrap64 (SyncErrors m + 1)) (SyncDuration m) (m_LastSyncTime m)
    (DriftDetected m) (DriftResources m) (ProviderVerifyErrors m) (WriteOnlyHashMismatches m).

Definition count_verify (n : Z) (m : Metrics) : Metrics :=
  mkMetrics (SyncSuccess m) (SyncErrors m) (SyncDuration m) (m_LastSyncTime m)
    (DriftDetected m) (DriftResources m) (wrap64 (ProviderVerifyErrors m + n))
    (WriteOnlyHashMismatches m).

(** The update at the end of a cycle. *)
Definition count_cycle (hasErrors hasDrift : bool) (duration now drift mismatches : Z)
    (m : Metrics) : Metrics :=
  mkMetrics (if hasErrors then SyncSuccess m else wrap64 (SyncSuccess m + 1))
    (if hasErrors then wrap64 (SyncErrors m + 1) else SyncErrors m)
    duration now
    (if hasDrift then wrap64 (DriftDetected m + 1) else DriftDetected m)
    drift (ProviderVerifyErrors m) (wrap64 (WriteOnlyHashMismatches m + mismatches)).

(** ** controller.go: data *)

Record SyncResult := mkSyncResult {
  sr_Applied : nat;
  sr_Failed : nat;
  sr_Creates : nat;
  sr_Updates : nat;
  sr_Noops : nat;
  sr_Errors : list string
}.

Record ProviderVerifyFailure := mkFailure { pvf_Name : string; pvf_Error : string }.

(** [NotifyProviderVerifyFailure] when the notifier has it. *)
Record Notifier (W : Type) := mkNotifier {
  NotifyDrift : list Change -> M W unit;
  NotifyProviderVerifyFailure : option (list ProviderVerifyFailure -> M W unit)
}.
Arguments NotifyDrift {W}.
Arguments NotifyProviderVerifyFailure {W}.

(** The dependencies of a controller, with the clock; [VerifyProvider] when the provider
    has it. *)
Record Config (W : Type) := mkConfig {
  cfg_Source : ManifestSource W;
  cfg_Provider : ProviderInterface W;
  cfg_Verifier : option (string -> M W unit);
  cfg_Notifier : option (Notifier W);
  cfg_Interval : Z;
  cfg_Prune : bool;
  cfg_DebounceWindow : Z;
  cfg_Now : W -> Z;
  cfg_Env : W -> Env
}.
Arguments cfg_Source {W}. Arguments cfg_Provider {W}. Arguments cfg_Verifier {W}.
Arguments cfg_Notifier {W}. Arguments cfg_Interval {W}. Arguments cfg_Prune {W}.
Arguments cfg_DebounceWindow {W}. Arguments cfg_Now {W}. Arguments cfg_Env {W}.

(** The part of a [Controller] that a cycle changes. *)
Record Controller := mkController {
  tracker : SyncStatus;
  metrics : Metrics;
  lastHash : string
}.

Definition defaultDebounceWindow : Z := 2 * 10 ^ 9.

(** [New]: the fresh state, and the debounce window used. *)
Definition New {W} (cfg : Config W) (tr : SyncStatus) : Controller * Z :=
  (mkController tr zeroMetrics "",
   if (cfg_DebounceWindow cfg <=? 0)%Z then defaultDebounceWindow else cfg_DebounceWindow cfg).

Definition drifted (c : Change) : bool :=
  bool_decide (ch_Action c = ActionCreate) || bool_decide (ch_Action c = ActionUpdate).

Definition resource_status (ch : Change) : ResourceStatus :=
  let '(status, message) :=
    if negb (String.eqb (ch_Error ch) "") then ("Error", ch_Error ch)
    else match ch_Action ch with
         | ActionNoop => ("InSync", "")
         | ActionCreate => ("Created", "")
         | ActionUpdate => ("Updated", "")
         | _ => ("", "")
         end in
  mkResourceStatus (ch_Kind ch) (ch_Name ch) status message.

Definition buildResourceStatuses (plan : Plan) (_ : ApplyResult) : list ResourceStatus :=
  map resource_status (Changes plan).

Definition hash_mismatches (plan : Plan) : nat :=
  length (List.filter (fun ch => bool_decide (is_Some (ch_Diff ch !! "writeOnlyHash"))) (Changes plan)).

Definition has_errors (plan : Plan) (result : ApplyResult) : bool :=
  (0 <? Failed result)%nat || (0 <? length (PlanErrors plan))%nat.

Definition has_drift (plan : Plan) : bool := (0 <? Creates plan)%nat || (0 <? Updates plan)%nat.

Definition sync_result (plan : Plan) (result : ApplyResult) : SyncResult :=
  mkSyncResult (Applied result) (Failed result) (Creates plan) (Updates plan) (Noops plan)
    (Errors result ++ PlanErrors plan)%list.

(** ** One cycle *)

Section cycle.
Context {U : Unicode} {W : Type} (sch : Schedule) (cfg : Config W).

(** *** verify.go *)

(** The loop of [verifyProviders]: the failures, or [None] when it returns at once. *)
Fixpoint verify_loop (verify : string -> M W unit) (providers : list Resource)
    (failures : list ProviderVerifyFailure) (w : W) : W * option (list ProviderVerifyFailure) :=
  match providers with
  | [] => (w, Some failures)
  | p :: ps =>
    match verify (Name p) w with
    | (w, Ok _) => verify_loop verify ps failures w
    | (w, Err err) =>
      if errorsIs err ErrNotFound then (w, None)
      else if errorsIs err ErrUnauthorized
      then verify_loop verify ps (failures ++ [mkFailure (Name p) (Error err)])%list w
      else verify_loop verify ps failures w
    end
  end.

Definition providers_of (m : Manifest) : list Resource :=
  List.filter (fun r => String.eqb (Kind r) KindProvider) (Resources m).

Definition verifyProviders (m : Manifest) (mt : Metrics) (w : W) : W * Metrics :=
  match cfg_Verifier cfg with
  | None => (w, mt)
  | Some verify =>
    match verify_loop verify (providers_of m) [] w with
    | (w, Some (f :: failures)) =>
      let mt := count_verify (Z.of_nat (length (f :: failures))) mt in
      match cfg_Notifier cfg with
      | Some n => match NotifyProviderVerifyFailure n with
                  | Some notify => ((notify (f :: failures) w).1, mt)
                  | None => (w, mt)
                  end
      | None => (w, mt)
      end
    | (w, _) => (w, mt)
    end
  end.

(** *** controller.go *)

Definition notifyDrift (changes : list Change) (w : W) : W :=
  match cfg_Notifier cfg with
  | None => w
  | Some n => match List.filter drifted changes with
              | [] => w
              | cs => (NotifyDrift n cs w).1
              end
  end.

Definition set_condition (c : Condition) (w : W) (s : SyncStatus) : SyncStatus :=
  SetCondition c (cfg_Now cfg w) s.

(** The conditions that follow from the errors of a cycle. *)
Definition set_outcome (hasErrors : bool) (w : W) (s : SyncStatus) : SyncStatus :=
  if hasErrors then
    set_condition (cond ConditionError "True" "sync completed with errors") w
      (set_condition (cond ConditionSynced "False" "") w s)
  else
    set_condition (cond ConditionError "False" "") w
      (set_condition (cond ConditionSynced "True" "") w s).

Definition cycle_opts : ReconcileOpts := mkOpts false (cfg_Prune cfg) false 5.

(** The part of [reconcileOnce] after a successful fetch, started at [start]. *)
Definition sync (start : Z) (m : Manifest) (hash : string) (c : Controller) (w : W) :
    W * (Controller * SyncResult) :=
  let '(w, (plan, result)) := Reconcile (cfg_Env cfg) (cfg_Provider cfg) sch m cycle_opts w in
  let duration := (cfg_Now cfg w - start)%Z in
  let s := mkSyncStatus (cfg_Now cfg w) hash [] (buildResourceStatuses plan result) in
  let s := set_outcome (has_errors plan result) w s in
  let '(w, s) :=
    if has_drift plan
    then let s := set_condition (cond ConditionDrifted "True" "resources were created or updated") w s in
         (notifyDrift (Changes plan) w, s)
    else (w, set_condition (cond ConditionDrifted "False" "") w s) in
  let '(w, mt) := verifyProviders m (metrics c) w in
  let mt := count_cycle (has_errors plan result) (has_drift plan) duration (cfg_Now cfg w)
              (Z.of_nat (Creates plan + Updates plan)) (Z.of_nat (hash_mismatches plan)) mt in
  (w, (mkController s mt hash, sync_result plan result)).

(** The part of [reconcileOnce] after a failed fetch. *)
Definition fetch_failed (err : error) (c : Controller) (w : W) : Controller * SyncResult :=
  (mkController
     (set_condition (cond ConditionSynced "False" "") w
        (set_condition (cond ConditionError "True" (Error err)) w (tracker c)))
     (count_error (metrics c)) (lastHash c),
   mkSyncResult 0 0 0 0 0 [Error err]).

(** [reconcileOnce] up to [notifyWaiters]; [None] when the fetch panics. *)
Definition reconcileOnce (c : Controller) (w : W) : W * option (Controller * SyncResult) :=
  let start := cfg_Now cfg w in
  match Fetch (cfg_Source cfg) w with
  | (w, Panicked) => (w, None)
  | (w, Returned (Err err)) => (w, Some (fetch_failed err c w))
  | (w, Returned (Ok (m, hash))) => let '(w, r) := sync start m hash c w in (w, Some r)
  end.
End cycle.

(** ** Conditions *)

(** A condition without its time. *)
Definition shape (c : Condition) : ConditionType * string * string :=
  (cond_Type c, cond_Status c, cond_Message c).

Lemma condition_upsert c now cs t :
  option_map shape (condition (upsert c now cs) t) =
  if bool_decide (cond_Type c = t) then Some (shape c) else option_map shape (condition cs t).
Proof.
  unfold condition. induction cs as [|d cs IH]; simpl; [by case_bool_decide|].
  destruct (decide (cond_Type d = cond_Type c)) as [Hd|Hd].
  - rewrite (bool_decide_eq_true_2 _ Hd). simpl. rewrite Hd. by case_bool_decide.
  - rewrite (bool_decide_eq_false_2 _ Hd). simpl. destruct (decide (cond_Type d = t)) as [Hdt|Hdt].
    + rewrite (bool_decide_eq_true_2 _ Hdt), bool_decide_eq_false_2 by congruence. done.
    + by rewrite (bool_decide_eq_false_2 _ Hdt).
Qed.

Lemma upsert_elem c now cs t :
  t ∈ map cond_Type (upsert c now cs) -> t = cond_Type c \/ t ∈ map cond_Type cs.
Proof.
  induction cs as [|d cs IH]; simpl; [by rewrite elem_of_cons|].
  case_bool_decide; simpl; rewrite !elem_of_cons; [tauto|]. intros [->|?%IH]; tauto.
Qed.

(** [SetCondition] keeps one condition of each type. *)
Lemma upsert_types c now cs :
  NoDup (map cond_Type cs) -> NoDup (map cond_Type (upsert c now cs)).
Proof.
  induction cs as [|d cs IH]; simpl; [intros _; apply NoDup_singleton|].
  rewrite NoDup_cons. intros [Hd Hn]. case_bool_decide as He; simpl; rewrite NoDup_cons.
  - by rewrite <- He.
  - split; [|by apply IH]. intros [?|?]%upsert_elem; [congruence|done].
Qed.

(** *** A cycle *)

Section cycles.
Context {U : Unicode} {W : Type} (sch : Schedule) (cfg : Config W).

Definition truth (b : bool) : string := if b then "True" else "False".

(** The conditions after a cycle that reconciled. *)
Definition outcome_conditions (plan : Plan) (result : ApplyResult) :
    list (ConditionType * string * string) :=
  let e := has_errors plan result in
  [ (ConditionSynced, truth (negb e), "");
    (ConditionError, truth e, if e then "sync completed with errors" else "");
    (ConditionDrifted, truth (has_drift plan),
      if has_drift plan then "resources were created or updated" else "") ].

(** Verification changes one counter, by the number of keys the provider refused. *)
Lemma verifyProviders_metrics m mt w :
  (verifyProviders cfg m mt w).2 =
  match cfg_Verifier cfg with
  | Some verify => match (verify_loop verify (providers_of m) [] w).2 with
                   | Some (f :: fs) => count_verify (Z.of_nat (length (f :: fs))) mt
                   | _ => mt
                   end
  | None => mt
  end.
Proof.
  unfold verifyProviders. destruct (cfg_Verifier cfg) as [verify|]; [|done].
  destruct (verify_loop _ _ _ w) as [w1 [[|f fs]|]]; [done| |done]. simpl.
  by destruct (cfg_Notifier cfg) as [[? [?|]]|].
Qed.

(** C20: a cycle whose fetch fails touches neither the provider nor the resources, hash and
    drift of the status: it marks the status as failed with the error and counts one
    error.  A cycle whose fetch succeeds reconciles that manifest; the status then has
    the hash, one entry for each change of the plan and exactly the three conditions that
    follow from the errors and the drift of the plan, so it is synced if and only if
    nothing failed; one success or one error is counted, and the result handed to the
    waiters has the numbers of the plan and all messages. *)
Theorem reconcile_cycle_exact c w :
  let '(w0, f) := Fetch (cfg_Source cfg) w in
  match reconcileOnce sch cfg c w with
  | (_, None) => f = Panicked
  | (w', Some (c', r)) =>
    (exists err, f = Returned (Err err) /\ w' = w0 /\ r = mkSyncResult 0 0 0 0 0 [Error err] /\
       st_Resources (tracker c') = st_Resources (tracker c) /\
       st_LastSyncHash (tracker c') = st_LastSyncHash (tracker c) /\ lastHash c' = lastHash c /\
       (forall t, option_map shape (condition (st_Conditions (tracker c')) t) =
          match t with
          | ConditionSynced => Some (ConditionSynced, "False", "")
          | ConditionError => Some (ConditionError, "True", Error err)
          | ConditionDrifted => option_map shape (condition (st_Conditions (tracker c)) t)
          end) /\
       metrics c' = count_error (metrics c))
    \/
    (exists m hash w1 plan result, f = Returned (Ok (m, hash)) /\
       Reconcile (cfg_Env cfg) (cfg_Provider cfg) sch m (cycle_opts cfg) w0 = (w1, (plan, result)) /\
       r = sync_result plan result /\ lastHash c' = hash /\ st_LastSyncHash (tracker c') = hash /\
       st_Resources (tracker c') = map resource_status (Changes plan) /\
       map shape (st_Conditions (tracker c')) = outcome_conditions plan result /\
       IsSynced (tracker c') = negb (has_errors plan result) /\
       SyncSuccess (metrics c') = (if has_errors plan result then SyncSuccess (metrics c)
                                   else wrap64 (SyncSuccess (metrics c) + 1)) /\
       SyncErrors (metrics c') = (if has_errors plan result then wrap64 (SyncErrors (metrics c) + 1)
                                  else SyncErrors (metrics c)) /\
       DriftResources (metrics c') = Z.of_nat (Creates plan + Updates plan))
  end.
Proof.
  unfold reconcileOnce. destruct (Fetch _ w) as [w0 [[[m hash]|err]|]]; [| |done].
  2:{ left. exists err. unfold fetch_failed, set_condition, SetCondition.
      cbn [tracker metrics lastHash st_Conditions with_conditions st_Resources st_LastSyncHash].
      repeat (split; [done|]). split; [|done]. intros t. rewrite !condition_upsert. by destruct t. }
  unfold sync. destruct (Reconcile _ _ sch m _ w0) as [w1 [plan result]] eqn:HR.
  assert (Hmt : forall w, SyncSuccess (verifyProviders cfg m (metrics c) w).2 = SyncSuccess (metrics c) /\
                          SyncErrors (verifyProviders cfg m (metrics c) w).2 = SyncErrors (metrics c)).
  { intros w2. rewrite verifyProviders_metrics. by repeat case_match. }
  destruct (has_drift plan) eqn:Hd;
    (match goal with |- context [verifyProviders cfg m (metrics c) ?w2] =>
       destruct (Hmt w2) as [H1 H2]; destruct (verifyProviders cfg m (metrics c) w2) as [w3 mt] end;
     simpl in H1, H2; right; exists m, hash, w1, plan, result;
     unfold outcome_conditions; rewrite Hd; unfold set_outcome; destruct (has_errors plan result); cbn;
     rewrite ?H1, ?H2; repeat (split; [done|]); done).
Qed.
End cycles.
