(* ===== verification/Notifier.v ===== *)
(** * The webhook notifier

    [internal/notifier]: the payloads of the five formats ([formats.go]) and the request
    that posts them ([notifier.go]), as the [Notifier] of the controller.  The HTTP client
    is the environment: it rejects a URL, or sends the body and yields a status. *)
From Stdlib Require Import ZArith Lia Bool Ascii.
From Stdlib Require String.
From S2P Require Import Prelude GoStr GoValue Manifest Compare Engine Json JsonParse Loader Source Controller.

Local Open Scope string_scope.

(** ** formats.go *)

Definition action_text (a : Action) : string :=
  match a with
  | ActionUnset => "" | ActionCreate => "create" | ActionUpdate => "update"
  | ActionNoop => "noop" | ActionDelete => "delete"
  end.

Definition driftTitle (changes : list Change) : string :=
  "GCPlane drift detected (" +:+ Itoa (Z.of_nat (length changes)) +:+ " resource(s))".

(** One line for each change, between [open] and [close] of the format's bold. *)
Definition summary_lines (bold : string) (changes : list Change) : string :=
  String.concat "" (map (fun ch => "• " +:+ bold +:+ ch_Kind ch +:+ "/" +:+ ch_Name ch +:+ bold
                                   +:+ " — `" +:+ action_text (ch_Action ch) +:+ "`" +:+ newline) changes).

Definition driftSummary (changes : list Change) : string := summary_lines "**" changes.
Definition slackSummary (changes : list Change) : string := summary_lines "*" changes.

Definition verifyFailureTitle (failures : list ProviderVerifyFailure) : string :=
  "GCPlane provider key verification FAILED (" +:+ Itoa (Z.of_nat (length failures)) +:+ " provider(s))".

Definition failure_lines (bold : string) (failures : list ProviderVerifyFailure) : string :=
  String.concat "" (map (fun f => "• " +:+ bold +:+ pvf_Name f +:+ bold +:+ " — " +:+ pvf_Error f +:+ newline)
                      failures).

Definition verifyFailureSummary (failures : list ProviderVerifyFailure) : string := failure_lines "**" failures.

Definition text_block (type text : string) : gval := VMap [("type", VStr type); ("text", VStr text)].

(** The shapes the two kinds of alert share, by format. *)
Definition slack_payload (title summary : string) : gval :=
  VMap [("blocks", VSlice
    [VMap [("type", VStr "header"); ("text", text_block "plain_text" title)];
     VMap [("type", VStr "section"); ("text", text_block "mrkdwn" summary)]])].

Definition discord_payload (title summary : string) (color : Z) : gval :=
  VMap [("embeds", VSlice
    [VMap [("title", VStr title); ("description", VStr summary); ("color", VInt color)]])].

Definition googlechat_payload (id title summary : string) : gval :=
  VMap [("cardsV2", VSlice
    [VMap [("cardId", VStr id);
           ("card", VMap
             [("header", VMap [("title", VStr title)]);
              ("sections", VSlice
                [VMap [("widgets", VSlice
                  [VMap [("textParagraph", VMap [("text", VStr summary)])]])]])])]])].

Definition teams_payload (title summary color : string) : gval :=
  VMap [("@type", VStr "MessageCard"); ("@context", VStr "http://schema.org/extensions");
        ("summary", VStr title); ("themeColor", VStr color); ("title", VStr title);
        ("sections", VSlice [VMap [("text", VStr summary)]])].

Definition telegram_payload (title summary : string) : gval :=
  VMap [("text", VStr ("*" +:+ title +:+ "*" +:+ newline +:+ newline +:+ summary));
        ("parse_mode", VStr "Markdown")].

Definition buildSlackPayload (changes : list Change) : gval :=
  slack_payload (driftTitle changes) (slackSummary changes).
Definition buildDiscordPayload (changes : list Change) : gval :=
  discord_payload (driftTitle changes) (driftSummary changes) 16750848.
Definition buildGoogleChatPayload (changes : list Change) : gval :=
  googlechat_payload "drift-alert" (driftTitle changes) (driftSummary changes).
Definition buildTeamsPayload (changes : list Change) : gval :=
  teams_payload (driftTitle changes) (driftSummary changes) "FF8C00".
Definition buildTelegramPayload (changes : list Change) : gval :=
  telegram_payload (driftTitle changes) (driftSummary changes).

Definition buildSlackVerifyPayload (fs : list ProviderVerifyFailure) : gval :=
  slack_payload (verifyFailureTitle fs) (failure_lines "*" fs).
Definition buildDiscordVerifyPayload (fs : list ProviderVerifyFailure) : gval :=
  discord_payload (verifyFailureTitle fs) (verifyFailureSummary fs) 15158332.
Definition buildGoogleChatVerifyPayload (fs : list ProviderVerifyFailure) : gval :=
  googlechat_payload "verify-alert" (verifyFailureTitle fs) (verifyFailureSummary fs).
Definition buildTeamsVerifyPayload (fs : list ProviderVerifyFailure) : gval :=
  teams_payload (verifyFailureTitle fs) (verifyFailureSummary fs) "FF0000".
Definition buildTelegramVerifyPayload (fs : list ProviderVerifyFailure) : gval :=
  telegram_payload (verifyFailureTitle fs) (verifyFailureSummary fs).

Definition buildVerifyFailurePayload (format : string) (fs : list ProviderVerifyFailure) : gval :=
  if String.eqb format "discord" then buildDiscordVerifyPayload fs
  else if String.eqb format "googlechat" then buildGoogleChatVerifyPayload fs
  else if String.eqb format "teams" then buildTeamsVerifyPayload fs
  else if String.eqb format "telegram" then buildTelegramVerifyPayload fs
  else buildSlackVerifyPayload fs.

(** ** notifier.go *)

Definition buildPayload (format : string) (changes : list Change) : gval :=
  if String.eqb format "discord" then buildDiscordPayload changes
  else if String.eqb format "googlechat" then buildGoogleChatPayload changes
  else if String.eqb format "teams" then buildTeamsPayload changes
  else if String.eqb format "telegram" then buildTelegramPayload changes
  else buildSlackPayload changes.

Record WebhookNotifier := mkWebhook { WebhookURL : string; Format : string }.

Definition New (webhookURL format : string) : WebhookNotifier :=
  mkWebhook webhookURL (if String.eqb format "" then "slack" else format).

(** The HTTP client: [NewRequest] can reject the URL, [Do] posts a JSON body. *)
Record HttpClient (W : Type) := mkHttp {
  h_new : string -> option error;
  h_do : string -> string -> M W Z
}.
Arguments h_new {W}. Arguments h_do {W}.

Section notifier.
Context {W : Type} (http : HttpClient W).

(** From the payload to the end; [what] is the word of the marshal error. *)
Definition post (what : string) (n : WebhookNotifier) (payload : gval) : M W unit := fun w =>
  match Marshal payload with
  | None => (w, Err (errorf ("notifier: marshal " +:+ what +:+ ": json: unsupported value")))
  | Some body =>
    match h_new http (WebhookURL n) with
    | Some e => (w, Err (wrapf "notifier: build request: " e ""))
    | None =>
      match h_do http (WebhookURL n) body w with
      | (w, Err e) => (w, Err (wrapf "notifier: send request: " e ""))
      | (w, Ok code) =>
        if ((code <? 200) || (300 <=? code))%Z
        then (w, Err (errorf ("notifier: unexpected status " +:+ Itoa code)))
        else (w, Ok tt)
      end
    end
  end.

Definition NotifyDrift (n : WebhookNotifier) (changes : list Change) : M W unit :=
  if String.eqb (WebhookURL n) "" then retM tt
  else match changes with
       | [] => retM tt
       | _ => post "payload" n (buildPayload (Format n) changes)
       end.

Definition NotifyProviderVerifyFailure (n : WebhookNotifier) (fs : list ProviderVerifyFailure) : M W unit :=
  if String.eqb (WebhookURL n) "" then retM tt
  else match fs with
       | [] => retM tt
       | _ => post "verify payload" n (buildVerifyFailurePayload (Format n) fs)
       end.

(** The notifier of a controller: it has both methods. *)
Definition webhook (n : WebhookNotifier) : Notifier W :=
  mkNotifier W (NotifyDrift n) (Some (NotifyProviderVerifyFailure n)).

(** ** What is sent *)

Lemma payload_marshals format changes : is_Some (Marshal (buildPayload format changes)).
Proof. unfold buildPayload. repeat case_match; eexists; reflexivity. Qed.

Lemma verify_payload_marshals format fs : is_Some (Marshal (buildVerifyFailurePayload format fs)).
Proof. unfold buildVerifyFailurePayload. repeat case_match; eexists; reflexivity. Qed.

(** A drift is posted once, to the configured URL, in the configured format; the outcome
    is a success exactly when the answer is of the 200s.  Nothing is sent without a URL
    or without changes. *)
Lemma notify_drift_exact n changes w :
  (WebhookURL n = "" \/ changes = [] -> NotifyDrift n changes w = (w, Ok tt)) /\
  (WebhookURL n <> "" -> changes <> [] -> h_new http (WebhookURL n) = None ->
   exists body, Marshal (buildPayload (Format n) changes) = Some body /\
     (NotifyDrift n changes w).1 = (h_do http (WebhookURL n) body w).1 /\
     ((NotifyDrift n changes w).2 = Ok tt <->
      exists code, (h_do http (WebhookURL n) body w).2 = Ok code /\ (200 <= code < 300)%Z)).
Proof.
  unfold NotifyDrift. split.
  - intros [->| ->]; [done|]. by case_match.
  - intros Hu Hc Hn. rewrite (proj2 (String.eqb_neq _ _) Hu). destruct changes as [|ch cs]; [done|].
    destruct (payload_marshals (Format n) (ch :: cs)) as [body Hb]. exists body. split; [done|].
    unfold post. rewrite Hb, Hn. destruct (h_do http (WebhookURL n) body w) as [w' [code|e]]; cbn [fst snd].
    + destruct (Z.ltb_spec code 200) as [?|?], (Z.leb_spec 300 code) as [?|?]; cbn [orb fst snd].
      1-3: split; [done|]; split; [done|]; intros (c & [= <-] & ?); lia.
      split; [done|]. split; [|done]. intros _. by exists code.
    + split; [done|]. split; [done|]. by intros (c & ? & _).
Qed.
End notifier.
