(* ===== verification/ControllerProps.v ===== *)
(** * What the reconcile loop guarantees

    Two cycles in a row over a store that keeps its promises: once a cycle of the same
    manifest reports no failure, the next one finds nothing to do and says so.  And three
    places where the status says less, or other, than what happened. *)
From Stdlib Require Import ZArith Lia Bool Ascii.
From Stdlib Require String.
From S2P Require Import Prelude GoStr GoValue Filepath Manifest Secrets Compare Validate.
From S2P Require Import Engine EngineProps EngineFrame EngineConverge EngineClaims ValidateProps Ring Loader Source.
From S2P Require Import Controller.

Local Open Scope string_scope.

(** ** What leaves the store alone *)

Section same.
Context {W : Type} (env_of : W -> Env).
Context (view : W -> ResourceKind -> string -> option gomap).
Context (listed : W -> ResourceKind -> list ResourceInfo).

Record same_store (w w' : W) : Prop := {
  ss_env : env_of w' = env_of w;
  ss_view k n : view w' k n = view w k n;
  ss_listed k : listed w' k = listed w k
}.

Lemma same_store_preorder : PreOrder same_store.
Proof.
  split; [by split|]. intros w1 w2 w3 [? H2 H3] [? H2' H3'].
  split; [congruence|intros; by rewrite H2', H2|intros; by rewrite H3', H3].
Qed.
End same.
#[export] Existing Instance same_store_preorder.

(** What a cycle does besides the engine keeps [R]. *)
Record leaves {W} (cfg : Config W) (R : W -> W -> Prop) : Prop := {
  lv_fetch w : R w (Fetch (cfg_Source cfg) w).1;
  lv_verify verify k w : cfg_Verifier cfg = Some verify -> R w (verify k w).1;
  lv_drift n cs w : cfg_Notifier cfg = Some n -> R w (NotifyDrift n cs w).1;
  lv_alert n notify fs w : cfg_Notifier cfg = Some n ->
    NotifyProviderVerifyFailure n = Some notify -> R w (notify fs w).1
}.

Section leaving.
Context {W : Type} (cfg : Config W) (R : W -> W -> Prop) {PO : PreOrder R} (HR : leaves cfg R).

Lemma verify_loop_leaves verify ps fs w :
  (forall k w, R w (verify k w).1) -> R w (verify_loop verify ps fs w).1.
Proof.
  intros Hv. revert fs w. induction ps as [|p ps IH]; intros fs w; simpl; [done|].
  pose proof (Hv (Name p) w) as H. destruct (verify (Name p) w) as [w1 [u|e]]; simpl in H.
  - etrans; [exact H|apply IH].
  - destruct (errorsIs e ErrNotFound); [done|].
    destruct (errorsIs e ErrUnauthorized); (etrans; [exact H|apply IH]).
Qed.

Lemma verifyProviders_leaves m mt w : R w (verifyProviders cfg m mt w).1.
Proof.
  unfold verifyProviders. destruct (cfg_Verifier cfg) as [verify|] eqn:Hv; [|done].
  pose proof (verify_loop_leaves verify (providers_of m) [] w
                (fun k w => lv_verify _ _ HR verify k w Hv)) as H.
  destruct (verify_loop _ _ _ w) as [w1 [[|f fs]|]]; [done| |done].
  destruct (cfg_Notifier cfg) as [n|] eqn:Hn; [|done].
  destruct (NotifyProviderVerifyFailure n) as [notify|] eqn:Hf; [|done].
  etrans; [exact H|]. by eapply (lv_alert cfg R HR).
Qed.

Lemma notifyDrift_leaves cs w : R w (notifyDrift cfg cs w).
Proof.
  unfold notifyDrift. destruct (cfg_Notifier cfg) as [n|] eqn:Hn; [|done].
  destruct (List.filter drifted cs); [done|]. by apply (lv_drift cfg R HR).
Qed.

Lemma sync_leaves {U : Unicode} sch start m hash c w :
  R w (Reconcile (cfg_Env cfg) (cfg_Provider cfg) sch m (cycle_opts cfg) w).1 ->
  R w (sync sch cfg start m hash c w).1.
Proof.
  unfold sync. destruct (Reconcile _ _ _ _ _ w) as [w1 [plan result]]. intros H. cbn in H.
  destruct (has_drift plan);
    match goal with |- context [verifyProviders cfg m ?mt ?w2] =>
      pose proof (verifyProviders_leaves m mt w2) as Hv; destruct (verifyProviders cfg m mt w2) end;
    cbn in *; [|by etrans]. etrans; [exact H|]. etrans; [apply notifyDrift_leaves|exact Hv].
Qed.
End leaving.

(** A cycle of a controller whose provider keeps [R], and that does nothing else to it. *)
Record isolated {W} (cfg : Config W) (R : W -> W -> Prop) : Prop := {
  is_leaves : leaves cfg R;
  is_observe k n w : R w (Observe (cfg_Provider cfg) k n w).1;
  is_list k w : R w (ListAll (cfg_Provider cfg) k w).1;
  is_create k n s w : R w (Create (cfg_Provider cfg) k n s w).1;
  is_update k n s w : R w (Update (cfg_Provider cfg) k n s w).1;
  is_delete k n w : R w (Delete (cfg_Provider cfg) k n w).1
}.

Lemma cycle_isolated {U : Unicode} {W} sch (cfg : Config W) (R : W -> W -> Prop) {PO : PreOrder R} c w :
  isolated cfg R -> R w (reconcileOnce sch cfg c w).1.
Proof.
  intros [Hl Ho Hli Hc Hu Hd]. unfold reconcileOnce. pose proof (lv_fetch _ _ Hl w) as H.
  destruct (Fetch _ w) as [w0 [[[m hash]|err]|]]; [|done|done].
  pose proof (sync_leaves cfg R Hl sch (cfg_Now cfg w) m hash c w0
                (frame_run _ _ R Ho Hli Hc Hu Hd sch m (cycle_opts cfg) w0)) as Hs.
  destruct (sync _ _ _ _ _ _ _). by etrans.
Qed.

Section quiet.
Context {W : Type} (cfg : Config W).
Context (view : W -> ResourceKind -> string -> option gomap).
Context (listed : W -> ResourceKind -> list ResourceInfo).
Local Notation same := (same_store (cfg_Env cfg) view listed).

(** Fetching, notifying and verifying keys leave the store alone. *)
Class Quiet : Prop := quiet : leaves cfg same.
Context {Q : Quiet}.

Context {U : Unicode}.

(** A cycle changes the store only through the engine. *)
Lemma sync_same sch start m hash c w w' c' r :
  sync sch cfg start m hash c w = (w', (c', r)) ->
  exists w1 plan result,
    Reconcile (cfg_Env cfg) (cfg_Provider cfg) sch m (cycle_opts cfg) w = (w1, (plan, result)) /\
    same w1 w' /\ r = sync_result plan result /\
    map shape (st_Conditions (tracker c')) = outcome_conditions plan result.
Proof.
  unfold sync. destruct (Reconcile _ _ _ _ _ w) as [w1 [plan result]].
  intros H. exists w1, plan, result. split; [done|]. unfold outcome_conditions.
  destruct (has_drift plan);
    (match type of H with context [verifyProviders cfg m (metrics c) ?w2] =>
       pose proof (verifyProviders_leaves cfg same quiet m (metrics c) w2) as Hv;
       destruct (verifyProviders cfg m (metrics c) w2) as [w3 mt] end; injection H as <- <- <-;
     split; [|split; [done|unfold set_outcome; by destruct (has_errors plan result)]]).
  - etrans; [by apply (notifyDrift_leaves cfg same)|exact Hv].
  - exact Hv.
Qed.

(** The status has the hash of the manifest. *)
Lemma sync_hash sch start m hash c w w' c' r :
  sync sch cfg start m hash c w = (w', (c', r)) -> st_LastSyncHash (tracker c') = hash.
Proof.
  unfold sync. destruct (Reconcile _ _ _ _ _ w) as [w1 [plan result]].
  destruct (has_drift plan);
    (match goal with |- context [verifyProviders cfg m ?mt ?w2] => destruct (verifyProviders cfg m mt w2) as [w3 mt3] end;
     intros [= _ <- _]; unfold set_outcome; by destruct (has_errors plan result)).
Qed.

(** ** Convergence *)

Lemma settled_same (r : Resource) w w' :
  same w w' -> settled (env_of := cfg_Env cfg) (view := view) w r ->
  settled (env_of := cfg_Env cfg) (view := view) w' r.
Proof. intros [He Hv _]. unfold settled. by rewrite He, Hv. Qed.

Lemma no_orphans_same m w w' k :
  same w w' -> no_orphans (listed := listed) m w k -> no_orphans (listed := listed) m w' k.
Proof. intros [_ _ Hl]. unfold no_orphans. by rewrite Hl. Qed.

Lemma NoDup_map_factor {A B C} (f : A -> B) (g : B -> C) l :
  NoDup (map (fun x => g (f x)) l) -> NoDup (map f l).
Proof.
  rewrite <- (map_map f g). intros H. by eapply NoDup_fmap_1.
Qed.

Lemma filter_none {A} (f : A -> bool) l : Forall (fun x => f x = false) l -> List.filter f l = [].
Proof. induction 1 as [|x l Hx _ IH]; simpl; [done|]. by rewrite Hx. Qed.

Lemma all_noops_counts plan :
  plan_counts plan -> Forall (fun c => ch_Action c = ActionNoop /\ ch_Error c = "") (Changes plan) ->
  Creates plan = 0%nat /\ Updates plan = 0%nat /\ PlanErrors plan = [].
Proof.
  intros [H1 H2 _ _ H5] Hn. rewrite H1, H2. unfold count_action.
  rewrite !filter_none; [split; [done|split; [done|]]|..].
  - apply nil_length_inv. rewrite H5, filter_none; [done|].
    eapply Forall_impl; [exact Hn|]. intros c [_ He]. by rewrite He.
  - eapply Forall_impl; [exact Hn|]. intros c [Ha _]. by rewrite Ha.
  - eapply Forall_impl; [exact Hn|]. intros c [Ha _]. by rewrite Ha.
Qed.

Context {L : LawfulStore (cfg_Env cfg) (cfg_Provider cfg) view listed}.

(** The cycle that follows, in a store where nothing is left to do. *)
Lemma settled_sync sch start m hash c w :
  FairSchedule sch ->
  (forall r, r ∈ Resources m -> Kind r ∈ ApplyOrder ->
     settled (env_of := cfg_Env cfg) (view := view) w r) ->
  (cfg_Prune cfg = true -> forall k, k ∈ DeleteOrder -> no_orphans (listed := listed) m w k) ->
  exists c' w' n, sync sch cfg start m hash c w = (w', (c', mkSyncResult 0 0 0 0 n [])) /\
    same w w' /\
    map shape (st_Conditions (tracker c')) =
      [(ConditionSynced, "True", ""); (ConditionError, "False", ""); (ConditionDrifted, "False", "")].
Proof.
  intros Hf Hs Ho.
  destruct (settled_Reconcile m sch (cycle_opts cfg) w Hf eq_refl Hs Ho) as (plan & HR & Hn).
  destruct (Reconcile_inv _ _ _ _ _ _ _ _ _ Hf HR) as (_ & _ & _ & _ & _ & Hc & _).
  destruct (all_noops_counts plan Hc Hn) as (H1 & H2 & H3).
  destruct (sync sch cfg start m hash c w) as [w' [c' r]] eqn:Hsync.
  destruct (sync_same _ _ _ _ _ _ _ _ _ Hsync) as (w1 & plan' & result' & HR' & Hsame & -> & Hshape).
  rewrite HR in HR'. injection HR' as <- <- <-.
  exists c', w', (Noops plan). unfold outcome_conditions, has_errors, has_drift in Hshape.
  unfold sync_result. rewrite H1, H2, H3 in Hshape |- *. done.
Qed.
End quiet.

(** What a cycle without failures leaves: its manifest is settled in the store. *)
Lemma cycle_settles {U : Unicode} {W} (cfg : Config W) view listed semver zip fs_of
    {L : LawfulStore (cfg_Env cfg) (cfg_Provider cfg) view listed} {Q : Quiet cfg view listed}
    {V : ValidSource semver zip fs_of (cfg_Source cfg)}
    sch c c' w w' r m hash :
  FairSchedule sch -> (Fetch (cfg_Source cfg) w).2 = Returned (Ok (m, hash)) ->
  Forall (exact_resource (cfg_Env cfg w)) (Resources m) ->
  reconcileOnce sch cfg c w = (w', Some (c', r)) -> sr_Failed r = 0%nat ->
  (forall x, x ∈ Resources m -> Kind x ∈ ApplyOrder ->
     settled (env_of := cfg_Env cfg) (view := view) w' x) /\
  (cfg_Prune cfg = true -> forall k, k ∈ DeleteOrder -> no_orphans (listed := listed) m w' k) /\
  st_LastSyncHash (tracker c') = hash.
Proof.
  intros Hf Hfetch Hex Hrec Hz. unfold reconcileOnce in *. pose proof (lv_fetch _ _ (quiet cfg view listed) w) as Hsw.
  destruct (Fetch (cfg_Source cfg) w) as [w0 f] eqn:HF. simpl in Hfetch, Hsw. subst f.
  destruct (sync sch cfg _ m hash c w0) as [w1 [c1 r1]] eqn:Hsync. simplify_eq.
  destruct (sync_same _ _ _ _ _ _ _ _ _ _ _ _ Hsync) as (wr & plan & result & HR & Hsame & -> & _).
  assert (Hids : NoDup (map resource_id (Resources m))).
  { pose proof (fetch_valid _ _ _ _ HF) as Hv. apply Validate_nil in Hv.
    apply (NoDup_map_factor resource_id (fun id => id.1 +:+ "/" +:+ id.2)). apply (vm_unique _ _ _ _ Hv). }
  rewrite <- (ss_env _ _ _ _ _ Hsw) in Hex.
  destruct (Reconcile_settles m (cfg_Env cfg w0) Hids Hex sch (cycle_opts cfg) w0 wr plan result
              Hf eq_refl eq_refl HR Hz) as [Hs Ho].
  split; [|split].
  - intros x Hx Hk. eapply settled_same; [exact Hsame|]. by apply Hs.
  - intros Hp k Hk. eapply no_orphans_same; [exact Hsame|]. by apply Ho.
  - by eapply sync_hash.
Qed.

(** C6: over a store that keeps its promises, with a source that only returns valid
    manifests, and whatever else a cycle does leaving the store alone: after a cycle that
    reports no failure, the next cycle of the same manifest plans only no-ops, changes
    nothing in the store, reports no message, and leaves the status synced, without error
    and without drift. *)
Theorem controller_converges {U : Unicode} {W} (cfg : Config W) view listed semver zip fs_of
    {L : LawfulStore (cfg_Env cfg) (cfg_Provider cfg) view listed} {Q : Quiet cfg view listed}
    {V : ValidSource semver zip fs_of (cfg_Source cfg)}
    sch sch' c c' c2 w w' r m hash hash' :
  FairSchedule sch -> FairSchedule sch' ->
  (Fetch (cfg_Source cfg) w).2 = Returned (Ok (m, hash)) ->
  Forall (exact_resource (cfg_Env cfg w)) (Resources m) ->
  reconcileOnce sch cfg c w = (w', Some (c', r)) -> sr_Failed r = 0%nat ->
  (Fetch (cfg_Source cfg) w').2 = Returned (Ok (m, hash')) ->
  exists c'' w'' n, reconcileOnce sch' cfg c2 w' = (w'', Some (c'', mkSyncResult 0 0 0 0 n [])) /\
    same_store (cfg_Env cfg) view listed w' w'' /\
    map shape (st_Conditions (tracker c'')) =
      [(ConditionSynced, "True", ""); (ConditionError, "False", ""); (ConditionDrifted, "False", "")].
Proof.
  intros Hf Hf' Hfetch Hex Hrec Hz Hfetch'.
  destruct (cycle_settles cfg view listed semver zip fs_of sch c c' w w' r m hash) as (Hs & Ho & _); try done.
  unfold reconcileOnce. pose proof (lv_fetch _ _ (quiet cfg view listed) w') as Hsw'.
  destruct (Fetch (cfg_Source cfg) w') as [w0' f]. simpl in Hfetch', Hsw'. subst f.
  destruct (settled_sync cfg view listed sch' (cfg_Now cfg w') m hash' c2 w0' Hf')
    as (c'' & w'' & n & H2 & Hsame2 & Hshape).
  - intros x Hx Hk. eapply settled_same; [exact Hsw'|]. by apply Hs.
  - intros Hp k Hk. eapply no_orphans_same; [exact Hsw'|]. by apply Ho.
  - exists c'', w'', n. rewrite H2. split; [done|]. split; [|done]. etrans; [exact Hsw'|exact Hsame2].
Qed.

(** *** An example: the store in memory *)

#[local] Existing Instance ascii_unicode.

Definition ex_semver : Semver := mkSemver (fun _ => true) (fun _ _ => 0%Z).
Definition ex_zip : list (string * string) -> string := fun _ => "".
Definition ex_fs (w : mem) : Filesystem := env_fs (mem_env w).

(** A source of one manifest, validated at each fetch. *)
Definition ex_source (m : Manifest) : ManifestSource mem :=
  mkSource mem (fun w => (w, Returned (validated ex_semver ex_zip (ex_fs w) m "5eed"))).

Definition ex_config : Config mem :=
  mkConfig mem (ex_source ex_manifest) mem_provider None None 60 true 0 (fun _ => 7%Z) mem_env.

#[local] Instance ex_source_valid m : ValidSource ex_semver ex_zip ex_fs (ex_source m).
Proof. intros w w' m' h [= <- Hv]. by apply validated_valid in Hv as (-> & _ & ?). Qed.

#[local] Instance ex_quiet : Quiet ex_config mem_view mem_listed.
Proof. split; [by intros w; split|done|done|done]. Qed.

Definition ex_cycle : mem * option (Controller * SyncResult) :=
  reconcileOnce sequential ex_config (New ex_config NewStatusTracker).1 ex_store.

Definition ex_controller : Controller :=
  match ex_cycle.2 with Some (c, _) => c | None => (New ex_config NewStatusTracker).1 end.

Lemma ex_cycle_eq :
  reconcileOnce sequential ex_config (New ex_config NewStatusTracker).1 ex_store = (ex_cycle.1, Some (ex_controller, mkSyncResult 4 0 2 1 0 [])).
Proof. vm_compute. reflexivity. Qed.

Lemma controller_converges_witness :
  exists c'' w'' n,
    reconcileOnce sequential ex_config ex_controller ex_cycle.1
      = (w'', Some (c'', mkSyncResult 0 0 0 0 n [])) /\
    same_store mem_env mem_view mem_listed ex_cycle.1 w'' /\
    map shape (st_Conditions (tracker c'')) =
      [(ConditionSynced, "True", ""); (ConditionError, "False", ""); (ConditionDrifted, "False", "")].
Proof.
  apply (controller_converges ex_config mem_view mem_listed ex_semver ex_zip ex_fs sequential sequential
           (New ex_config NewStatusTracker).1 ex_controller ex_controller ex_store ex_cycle.1
           (mkSyncResult 4 0 2 1 0 []) ex_manifest "5eed" "5eed").
  - apply _.
  - apply _.
  - vm_compute. reflexivity.
  - apply ex_exact.
  - apply ex_cycle_eq.
  - reflexivity.
  - vm_compute. reflexivity.
Defined.

(** ** Where the status says less than what happened *)

Definition broken_provider : ProviderInterface mem :=
  mkProvider mem (fun _ _ w => (w, Ok None)) (fun _ _ _ w => (w, Err (errorf "HTTP 500")))
    (fun _ _ _ w => (w, Ok tt)) (fun _ _ w => (w, Ok tt)) (fun _ w => (w, Ok [])).

(** The status of a resource follows the plan alone: one whose creation failed is
    reported as created. *)
Lemma failed_create_shown_created :
  let cfg := mkConfig mem (ex_source ex_manifest) broken_provider None None 60 false 0 (fun _ => 7%Z) mem_env in
  match (reconcileOnce sequential cfg (New cfg NewStatusTracker).1 ex_store).2 with
  | Some (c, r) => sr_Applied r = 0%nat /\ sr_Failed r = 3%nat /\
      map rs_Status (st_Resources (tracker c)) = ["Created"; "Created"; "Created"]
  | None => False
  end.
Proof. vm_compute. done. Qed.

(** Each cycle starts from a status without conditions, so the transition time of all
    three is that of the last cycle, whether or not they changed. *)
Lemma transition_times_reset {U : Unicode} {W} sch (cfg : Config W) c w w' c' r m h :
  reconcileOnce sch cfg c w = (w', Some (c', r)) -> (Fetch (cfg_Source cfg) w).2 = Returned (Ok (m, h)) ->
  exists w1, Forall (fun d => LastTransitionTime d = cfg_Now cfg w1) (st_Conditions (tracker c')).
Proof.
  unfold reconcileOnce, sync. destruct (Fetch _ w) as [w0 f]. intros H Hf. simpl in Hf. subst f.
  destruct (Reconcile _ _ _ _ _ w0) as [w1 [plan result]]. exists w1.
  destruct (has_drift plan), (has_errors plan result);
    (match type of H with context [verifyProviders cfg ?m ?mt ?w2] =>
       destruct (verifyProviders cfg m mt w2) as [w3 mt3] end; injection H as <- <- <-; cbn;
     repeat constructor).
Qed.

(** The failures found before a provider that does not exist are dropped. *)
Lemma verify_stops_at_missing {W} (verify : string -> M W unit) a b ps w w1 w2 e1 e2 :
  verify (Name a) w = (w1, Err e1) -> verify (Name b) w1 = (w2, Err e2) ->
  errorsIs e1 ErrNotFound = false -> errorsIs e1 ErrUnauthorized = true -> errorsIs e2 ErrNotFound = true ->
  verify_loop verify (a :: b :: ps) [] w = (w2, None).
Proof. intros Ha Hb H1 H2 H3. simpl. by rewrite Ha, H1, H2, Hb, H3. Qed.
