(* ===== verification/ControllerLoop.v ===== *)
(** * Triggering and waiting

    The goroutines of [internal/controller/controller.go]: the loop of [Run], the callers
    of [Trigger] with their debounce timer, and the callers of [TriggerAndWait].  A step
    is what one of them does under the mutex, on a channel, or between two such points;
    [Run]'s cycle is [reconcileOnce] of [Controller].  A timer may fire at any time after
    it was armed, a context may end at any time, and the world, which other processes and
    other controllers share, may change between steps.

    A caller is numbered, and so are the cycles, by the notifications of their results. *)
From Stdlib Require Import ZArith Lia Bool.
From Stdlib Require String.
From stdpp Require Import relations.
From S2P Require Import Prelude GoStr Manifest Engine EngineConverge EngineClaims Source.
From S2P Require Import Controller ControllerProps.

(** ** The goroutines *)

(** A [TriggerAndWait]: with its channel made, registered, past the send on
    [triggerCh], and on the way out when its context has ended. *)
Inductive wait_phase :=
  | TRegister
  | TPush
  | TWait
  | TGivingUp (e : error)
  | TReturned (r : res SyncResult).

(** [w_chan] is the channel, which holds one result, here the number of its cycle;
    [w_after], which the program does not keep, is the number of results announced when
    the call was made. *)
Record waiter := mkWaiter {
  w_phase : wait_phase;
  w_chan : option nat;
  w_after : nat
}.

Definition at_phase (c : waiter) (p : wait_phase) : waiter := mkWaiter p (w_chan c) (w_after c).
Definition with_chan (c : waiter) (ch : option nat) : waiter := mkWaiter (w_phase c) ch (w_after c).

(** Where [Run] is: before its first cycle, in [select], in a cycle, about to take the
    waiters, sending to them, or over. *)
Inductive run_phase :=
  | RStart
  | RSelect
  | RCycle
  | RNotify (r : SyncResult)
  | RSending (n : nat) (ws : list nat)
  | RStopped
  | RPanicked.

Definition sending (p : run_phase) : list nat := match p with RSending _ ws => ws | _ => [] end.

(** A cycle is due or on its way to its waiters. *)
Definition in_cycle (p : run_phase) : bool :=
  match p with RStart | RCycle | RNotify _ => true | _ => false end.

Section loop.
Context {U : Unicode} {W : Type} (sch : Schedule) (cfg : Config W).

(** [token] is [triggerCh], [armed] whether the debounce timer runs, [fired] how many
    timer functions have started and not yet sent; [results] are the results announced,
    [begun] the cycles started. *)
Record loop := mkLoop {
  l_ctl : Controller;
  l_run : run_phase;
  token : bool;
  armed : bool;
  fired : nat;
  waiters : list nat;
  calls : list waiter;
  results : list SyncResult;
  begun : nat
}.

Definition started (c : Controller) : loop := mkLoop c RStart false false 0 [] [] [] 0.

Definition set_run (p : run_phase) (l : loop) : loop :=
  mkLoop (l_ctl l) p (token l) (armed l) (fired l) (waiters l) (calls l) (results l) (begun l).
Definition set_token (b : bool) (l : loop) : loop :=
  mkLoop (l_ctl l) (l_run l) b (armed l) (fired l) (waiters l) (calls l) (results l) (begun l).
Definition set_timer (b : bool) (n : nat) (l : loop) : loop :=
  mkLoop (l_ctl l) (l_run l) (token l) b n (waiters l) (calls l) (results l) (begun l).
Definition set_waiters (ws : list nat) (l : loop) : loop :=
  mkLoop (l_ctl l) (l_run l) (token l) (armed l) (fired l) ws (calls l) (results l) (begun l).
Definition set_calls (cs : list waiter) (l : loop) : loop :=
  mkLoop (l_ctl l) (l_run l) (token l) (armed l) (fired l) (waiters l) cs (results l) (begun l).
Definition set_call (i : nat) (c : waiter) (l : loop) : loop := set_calls (<[i := c]> (calls l)) l.

(** [Trigger]: the timer that runs is stopped, another is armed. *)
Definition Trigger (l : loop) : loop := set_timer true (fired l) l.

(** [TriggerAndWait] is called: the call gets the next number. *)
Definition call_wait (l : loop) : loop :=
  set_calls (calls l ++ [mkWaiter TRegister None (length (results l))]) l.

(** What [ctx.Err()] is once the context has ended. *)
Definition ctx_error (e : error) : Prop :=
  e = mkError "context deadline exceeded"%string [DeadlineExceeded] \/ e = mkError "context canceled"%string [Canceled].

(** [reconcileOnce()] is called. *)
Definition begin_cycle (l : loop) : loop :=
  mkLoop (l_ctl l) RCycle (token l) (armed l) (fired l) (waiters l) (calls l) (results l)
    (S (begun l)).

(** One action of one goroutine, in the world as it finds it. *)
Inductive act (w : W) (l : loop) : W -> loop -> Prop :=
  (* Run *)
  | l_first : l_run l = RStart -> act w l w (begin_cycle l)
  | l_tick : l_run l = RSelect -> act w l w (begin_cycle l)
  | l_trigger : l_run l = RSelect -> token l = true -> act w l w (begin_cycle (set_token false l))
  | l_stop : l_run l = RSelect -> act w l w (set_run RStopped l)
  (* reconcileOnce *)
  | l_cycle w' c r :
      l_run l = RCycle -> reconcileOnce sch cfg (l_ctl l) w = (w', Some (c, r)) ->
      act w l w' (mkLoop c (RNotify r) (token l) (armed l) (fired l) (waiters l) (calls l) (results l) (begun l))
  | l_panic w' :
      l_run l = RCycle -> reconcileOnce sch cfg (l_ctl l) w = (w', None) ->
      act w l w' (set_run RPanicked l)
  (* notifyWaiters *)
  | l_take r :
      l_run l = RNotify r ->
      act w l w (mkLoop (l_ctl l) (RSending (length (results l)) (waiters l)) (token l) (armed l)
                   (fired l) [] (calls l) (results l ++ [r]) (begun l))
  | l_send n i ws c :
      l_run l = RSending n (i :: ws) -> calls l !! i = Some c -> w_chan c = None ->
      act w l w (set_run (RSending n ws) (set_call i (with_chan c (Some n)) l))
  (* the ticker, made after the first cycle, panics on an interval that is not positive *)
  | l_next n :
      l_run l = RSending n [] ->
      act w l w (set_run (if (cfg_Interval cfg <=? 0)%Z then RPanicked else RSelect) l)
  (* the debounce timer *)
  | d_fire : armed l = true -> act w l w (set_timer false (S (fired l)) l)
  | d_push n : fired l = S n -> act w l w (set_token true (set_timer (armed l) n l))
  (* TriggerAndWait *)
  | t_register i c :
      calls l !! i = Some c -> w_phase c = TRegister ->
      act w l w (set_waiters (waiters l ++ [i]) (set_call i (at_phase c TPush) l))
  | t_push i c :
      calls l !! i = Some c -> w_phase c = TPush ->
      act w l w (set_token true (set_call i (at_phase c TWait) l))
  | t_answer i c n r :
      calls l !! i = Some c -> w_phase c = TWait -> w_chan c = Some n -> results l !! n = Some r ->
      act w l w (set_call i (with_chan (at_phase c (TReturned (Ok r))) None) l)
  | t_ctx_done i c e :
      calls l !! i = Some c -> w_phase c = TWait -> ctx_error e ->
      act w l w (set_call i (at_phase c (TGivingUp e)) l)
  | t_remove i c e :
      calls l !! i = Some c -> w_phase c = TGivingUp e ->
      act w l w (set_waiters (List.filter (fun j => negb (Nat.eqb j i)) (waiters l))
                   (set_call i (at_phase c (TReturned (Err e))) l)).

(** The goroutines act, someone calls, or the world changes under them. *)
Inductive step : W * loop -> W * loop -> Prop :=
  | s_act w l w' l' : act w l w' l' -> step (w, l) (w', l')
  | s_trigger w l : step (w, l) (w, Trigger l)
  | s_wait w l : step (w, l) (w, call_wait l)
  | s_env w w' l : step (w, l) (w', l).

Definition reachable (w : W) (c : Controller) (l : loop) : Prop :=
  exists w', rtc step (w, started c) (w', l).

(** What every action and call keeps, every reachable state has. *)
Lemma reachable_ind (I : loop -> Prop) w c l :
  I (started c) -> (forall w l w' l', act w l w' l' -> I l -> I l') ->
  (forall l, I l -> I (Trigger l)) -> (forall l, I l -> I (call_wait l)) -> reachable w c l -> I l.
Proof.
  intros H0 Ha Ht Hc [w' H]. revert H. change (I l) with (I (w', l).2).
  generalize (w', l). apply (rtc_ind_r (fun s => I s.2)); [done|].
  intros s s' _ [w1 l1 w2 l2 Hs|?? |??|] IH; cbn in *; eauto.
Qed.

(** A component of a larger process: whatever the others did to the world before. *)
Lemma reachable_step w c w1 l w2 l' : step (w1, l) (w2, l') -> reachable w c l -> reachable w c l'.
Proof. intros Hs [w' H]. exists w2. eapply rtc_r; [eapply rtc_r; [exact H|apply (s_env _ w1)]|exact Hs]. Qed.

(** ** The invariant *)

(** Registered and not answered: the pending list, then the ones being sent to. *)
Definition listening (l : loop) : list nat := waiters l ++ sending (l_run l).

(** A cycle is queued, running, or announcing its result; or the process died. *)
Definition due (l : loop) : Prop :=
  token l = true \/ in_cycle (l_run l) = true \/ l_run l = RPanicked.

(** Registered, and neither answered nor given up. *)
Definition awaiting (c : waiter) : Prop :=
  (w_phase c = TPush \/ w_phase c = TWait) /\ w_chan c = None.

Record inv (l : loop) : Prop := {
  lo_nodup : NoDup (listening l);
  lo_call i : i ∈ listening l -> exists c, calls l !! i = Some c /\ w_chan c = None /\ w_phase c <> TRegister;
  lo_kept i c : calls l !! i = Some c -> awaiting c -> i ∈ listening l;
  lo_due i c : calls l !! i = Some c -> w_phase c = TWait -> i ∈ waiters l -> due l;
  lo_sent n ws : l_run l = RSending n ws -> (n < length (results l))%nat;
  lo_after i c : calls l !! i = Some c -> (w_after c <= length (results l))%nat;
  lo_sending i c n ws : calls l !! i = Some c -> l_run l = RSending n ws -> i ∈ ws -> (w_after c <= n)%nat;
  lo_chan i c n : calls l !! i = Some c -> w_chan c = Some n ->
    w_phase c <> TRegister /\ (w_after c <= n < length (results l))%nat;
  lo_returned i c r : calls l !! i = Some c -> w_phase c = TReturned (Ok r) ->
    exists n, results l !! n = Some r /\ (w_after c <= n)%nat
}.

Lemma inv_started c : inv (started c).
Proof. split; try done; [constructor|by intros i ?%not_elem_of_nil]. Qed.

(** Steps that leave the calls alone. *)
Lemma inv_same l l' extra :
  listening l' = listening l -> calls l' = calls l -> results l' = (results l ++ extra)%list ->
  waiters l' = [] \/ (waiters l' = waiters l /\ (due l -> due l')) ->
  (forall n ws, l_run l' = RSending n ws -> l_run l = RSending n ws \/ n = length (results l) /\ extra <> []) ->
  inv l -> inv l'.
Proof.
  intros Hl Hc Hr Hw Hs [H1 H2 H3 H4 H5 H6 H7 H8 H9]. split; rewrite ?Hl, ?Hc, ?Hr, ?length_app.
  - done.
  - done.
  - done.
  - intros i c Hi Hp. destruct Hw as [->|[-> Hd]]; [by intros ?%not_elem_of_nil|]. eauto.
  - intros n ws [Hn|[-> Hx]]%Hs; [apply H5 in Hn; lia|]. destruct extra; [done|]. simpl. lia.
  - intros i c Hi. apply H6 in Hi. lia.
  - intros i c n ws Hi [Hn|[-> Hx]]%Hs Hin; [by eapply H7|]. by eapply H6.
  - intros i c n Hi Hn. destruct (H8 i c n Hi Hn) as [? ?]. split; [done|lia].
  - intros i c r Hi Hp. destruct (H9 i c r Hi Hp) as (n & Hn & ?). exists n.
    split; [by apply lookup_app_l_Some|done].
Qed.

(** Steps of call [i]. *)
Lemma inv_call l l' i c c' :
  calls l !! i = Some c -> calls l' = <[i := c']> (calls l) -> l_run l' = l_run l ->
  results l' = results l -> w_after c' = w_after c -> (token l = true -> token l' = true) ->
  NoDup (waiters l' ++ sending (l_run l)) ->
  (forall j, j <> i -> j ∈ waiters l' <-> j ∈ waiters l) ->
  (i ∈ waiters l' -> i ∈ waiters l \/ w_phase c = TRegister) ->
  (i ∈ listening l' -> w_chan c' = None /\ w_phase c' <> TRegister) ->
  (awaiting c' -> i ∈ listening l') ->
  (w_phase c' = TWait -> i ∈ waiters l' -> due l') ->
  (forall n, w_chan c' = Some n -> w_chan c = Some n /\ w_phase c' <> TRegister) ->
  (forall r, w_phase c' = TReturned (Ok r) -> exists n, results l !! n = Some r /\ (w_after c <= n)%nat) ->
  inv l -> inv l'.
Proof.
  intros Hi Hc Hrun Hr Ha Ht Hnd Hw Hwi Hcall Hkept Hdue Hch Hret [H1 H2 H3 H4 H5 H6 H7 H8 H9].
  assert (Hj : forall j cj, calls l' !! j = Some cj ->
            (j = i /\ cj = c') \/ (j <> i /\ calls l !! j = Some cj)).
  { intros j cj. rewrite Hc. intros [(-> & <- & _)|[? ?]]%list_lookup_insert_Some; auto. }
  assert (Hlis : forall j, j <> i -> j ∈ listening l' <-> j ∈ listening l).
  { intros j Hne. unfold listening. rewrite Hrun, !elem_of_app, Hw by done. done. }
  split.
  - unfold listening. by rewrite Hrun.
  - intros j Hin. destruct (decide (j = i)) as [->|Hne].
    + exists c'. rewrite Hc, list_lookup_insert_eq by (by eapply lookup_lt_Some). by split; [|apply Hcall].
    + apply Hlis in Hin; [|done]. rewrite Hc, list_lookup_insert_ne by done. by apply H2.
  - intros j cj [[-> ->]|[Hne Hcj]]%Hj Haw; [by apply Hkept|]. apply Hlis; [done|]. by eapply H3.
  - intros j cj [[-> ->]|[Hne Hcj]]%Hj Hp Hin; [by apply Hdue|].
    apply Hw in Hin; [|done]. destruct (H4 j cj Hcj Hp Hin) as [?|?]; [left; auto|right].
    by rewrite Hrun.
  - intros n ws. rewrite Hrun, Hr. apply H5.
  - intros j cj [[-> ->]|[Hne Hcj]]%Hj; rewrite Hr, ?Ha; by eapply H6.
  - intros j cj n ws [[-> ->]|[Hne Hcj]]%Hj; rewrite Hrun, ?Ha; by eapply H7.
  - intros j cj n [[-> ->]|[Hne Hcj]]%Hj Hn; rewrite Hr, ?Ha; [|by eapply H8].
    apply Hch in Hn as [Hn ?]. split; [done|]. by eapply H8.
  - intros j cj r [[-> ->]|[Hne Hcj]]%Hj Hp; rewrite Hr, ?Ha; eauto.
Qed.
Lemma inv_new l :
  inv l -> inv (call_wait l).
Proof.
  intros [H1 H2 H3 H4 H5 H6 H7 H8 H9]. unfold call_wait. set (c0 := mkWaiter _ _ _).
  assert (Hj : forall j cj, (calls l ++ [c0])%list !! j = Some cj ->
            calls l !! j = Some cj \/ cj = c0 /\ calls l !! j = None).
  { intros j cj [?|[Hge [_ ->]%list_lookup_singleton_Some]]%lookup_app_Some; [by left|right].
    split; [done|]. by apply lookup_ge_None_2. }
  split; cbn [set_calls calls l_run results waiters]; try done.
  - intros i Hi. destruct (H2 i Hi) as (c & Hc & ?). exists c. split; [by apply lookup_app_l_Some|done].
  - intros i c [Hi|[-> _]]%Hj Ha; [by eapply H3|]. by destruct Ha as [[?|?] _].
  - intros i c [Hi|[-> _]]%Hj Hp Hin; [by eapply H4|done].
  - intros i c [Hi|[-> _]]%Hj; [by eapply H6|done].
  - intros i c n ws [Hi|[-> Hno]]%Hj Hr Hin; [by eapply H7|].
    destruct (H2 i) as (c & Hc & _); [|congruence]. unfold listening. rewrite Hr. set_solver.
  - intros i c n [Hi|[-> _]]%Hj; [by eapply H8|done].
  - intros i c r [Hi|[-> _]]%Hj; [by eapply H9|done].
Qed.

(** The filtered list of [TriggerAndWait]. *)
Lemma elem_without i j (ws : list nat) :
  j ∈ List.filter (fun k => negb (Nat.eqb k i)) ws <-> j ∈ ws /\ j <> i.
Proof. by rewrite !list_elem_of_In, filter_In, negb_true_iff, Nat.eqb_neq. Qed.

Lemma filter_sublist (f : nat -> bool) l : List.filter f l `sublist_of` l.
Proof. induction l as [|x l IH]; simpl; [done|]. destruct (f x); by constructor. Qed.

(** The notification of one waiter. *)
Lemma inv_send l n i ws c :
  l_run l = RSending n (i :: ws) -> calls l !! i = Some c -> w_chan c = None ->
  inv l -> inv (set_run (RSending n ws) (set_call i (with_chan c (Some n)) l)).
Proof.
  intros Hrun Hi Hch [H1 H2 H3 H4 H5 H6 H7 H8 H9]. set (l' := set_run _ _).
  assert (Hj : forall j cj, calls l' !! j = Some cj ->
            (j = i /\ cj = with_chan c (Some n)) \/ (j <> i /\ calls l !! j = Some cj)).
  { intros j cj [(-> & <- & _)|[? ?]]%list_lookup_insert_Some; auto. }
  unfold listening in *. rewrite Hrun in *. cbn [sending] in *.
  assert (Hnd : i ∉ waiters l ++ ws /\ NoDup (waiters l ++ ws)).
  { apply NoDup_cons. by rewrite Permutation_middle. }
  destruct Hnd as [Hni Hnd]. split; cbn [l' set_run set_call set_calls l_run waiters results sending listening].
  - done.
  - intros j Hin. destruct (H2 j) as (cj & Hcj & ?); [set_solver|].
    exists cj. cbn. rewrite list_lookup_insert_ne; [done|]. by intros <-.
  - intros j cj [[-> ->]|[Hne Hcj]]%Hj Ha; [by destruct Ha|]. specialize (H3 j cj Hcj Ha). set_solver.
  - intros j cj [[-> ->]|[Hne Hcj]]%Hj Hp Hin; [set_solver|]. specialize (H4 j cj Hcj Hp Hin).
    unfold due in *. rewrite Hrun in H4. by destruct H4 as [?|[?|?]]; [left|..].
  - intros m ws' [= <- <-]. by eapply H5.
  - intros j cj [[-> ->]|[Hne Hcj]]%Hj; [apply (H6 i c Hi)|by eapply H6].
  - intros j cj m ws' [[-> ->]|[Hne Hcj]]%Hj [= <- <-] Hin; [set_solver|]. eapply H7; [done..|set_solver].
  - intros j cj m [[-> ->]|[Hne Hcj]]%Hj; [|by eapply H8]. intros [= <-].
    split; [|split; [eapply (H7 i c); [done..|set_solver]|by eapply H5]].
    destruct (H2 i) as (c' & ? & _ & ?); [set_solver|]. cbn. congruence.
  - intros j cj r [[-> ->]|[Hne Hcj]]%Hj Hp; [by apply (H9 i c)|by eapply H9].
Qed.

Lemma inv_trigger l : inv l -> inv (Trigger l).
Proof.
  intros Hinv. eapply (inv_same l _ []); try done; [by rewrite app_nil_r| |by left]. right. done.
Qed.

Lemma listening_fresh l i c : inv l -> calls l !! i = Some c -> w_phase c = TRegister -> i ∉ listening l.
Proof. intros Hinv Hi Hp Hin. destruct (lo_call l Hinv i Hin) as (c' & ? & _ & ?). congruence. Qed.

Lemma loop_inv_act w l w' l' : act w l w' l' -> inv l -> inv l'.
Proof.
  intros Hst Hinv. pose proof Hinv as [H1 H2 H3 H4 H5 H6 H7 H8 H9].
  assert (Hsame : forall l2, listening l2 = listening l -> calls l2 = calls l -> results l2 = results l ->
            waiters l2 = waiters l -> (due l -> due l2) ->
            (forall n ws, l_run l2 = RSending n ws -> l_run l = RSending n ws) -> inv l2).
  { intros l2 Hl Hc Hr Hw Hd Hs. eapply (inv_same l l2 []); try done; [by rewrite app_nil_r| |by left; auto].
    right. done. }
  destruct Hst as [Hr|Hr|Hr Ht|Hr|w' c r Hr Hc|w' Hr Hc|r Hr|n i ws c Hr Hi Hch|n Hr|Ha|n Hf|i c Hi Hp|
                    i c Hi Hp|i c n r Hi Hp Hch Hn|i c e Hi Hp He|i c e Hi Hp].
  1-6,9-11: clear H1 H2 H3 H4 H5 H6 H7 H8 H9; apply Hsame; unfold listening, due; cbn;
    rewrite ?Hr; try (case_match; naive_solver); naive_solver.
  - eapply (inv_same l _ [r]); [|done|done|by left|by intros ? ? [= <- <-]; right|done].
    unfold listening. rewrite Hr. cbn. by rewrite app_nil_r.
  - by eapply inv_send.
  - pose proof (listening_fresh l i c Hinv Hi Hp) as Hf.
    apply (inv_call l _ i c (at_phase c TPush)); try done.
    + cbn. rewrite <- app_assoc. cbn. rewrite <- Permutation_middle. by apply NoDup_cons.
    + intros j Hne. cbn. set_solver.
    + right. done.
    + intros _. split; [|done]. cbn. destruct (w_chan c) as [n|] eqn:Hch; [|done].
      by destruct (H8 i c n Hi Hch).
    + intros _. unfold listening. cbn. set_solver.
  - apply (inv_call l _ i c (at_phase c TWait)); try done.
    + by left.
    + intros Hin. destruct (H2 i Hin) as (c' & ? & ? & _). split; [|done]. cbn. congruence.
    + intros [_ Hch]. by apply (H3 i c); [|split; [left|]].
    + intros _ _. by left.
  - assert (Hno : i ∉ listening l).
    { intros (c' & ? & ? & _)%H2. congruence. }
    apply (inv_call l _ i c (with_chan (at_phase c (TReturned (Ok r))) None)); try done.
    + by left.
    + by intros [[?|?] _].
    + intros r' [= <-]. exists n. split; [done|]. by apply (H8 i c n).
  - apply (inv_call l _ i c (at_phase c (TGivingUp e))); try done.
    + by left.
    + intros Hin. destruct (H2 i Hin) as (c' & ? & ? & _). split; [|done]. cbn. congruence.
    + by intros [[?|?] _].
  - apply (inv_call l _ i c (at_phase c (TReturned (Err e)))); try done.
    + cbn. eapply sublist_NoDup; [exact H1|]. apply sublist_app; [apply filter_sublist|done].
    + intros j Hne. cbn. rewrite elem_without. tauto.
    + cbn. rewrite elem_without. tauto.
    + unfold listening. cbn. rewrite elem_of_app, elem_without. intros [[? ?]|Hin]; [done|].
      destruct (H2 i) as (c' & ? & ? & _); [unfold listening; set_solver|]. split; [cbn; congruence|done].
    + by intros [[?|?] _].
Qed.
(** ** What the past leaves behind *)

(** A trigger that no cycle has answered yet: queued, waited for by the timer, or about
    to be queued by the timer's function. *)
Definition trigger_pending (l : loop) : Prop := token l = true \/ armed l = true \/ (0 < fired l)%nat.

(** Cycles, results and calls only accumulate, and a call keeps what it returned. *)
Record later (l l' : loop) : Prop := {
  lt_begun : (begun l <= begun l')%nat;
  lt_results : results l `prefix_of` results l';
  lt_call i c : calls l !! i = Some c -> exists c', calls l' !! i = Some c' /\ w_after c' = w_after c /\
    (forall r, w_phase c = TReturned r -> w_phase c' = TReturned r)
}.

#[local] Instance later_refl : Reflexive later.
Proof. intros l. split; [done|done|]. intros i c Hc. by exists c. Qed.

Lemma later_set_call l i c c' :
  calls l !! i = Some c -> w_after c' = w_after c ->
  (forall r, w_phase c = TReturned r -> w_phase c' = TReturned r) ->
  forall j x, calls l !! j = Some x -> exists x', <[i := c']> (calls l) !! j = Some x' /\ w_after x' = w_after x /\
    (forall r, w_phase x = TReturned r -> w_phase x' = TReturned r).
Proof.
  intros Hi Ha Hp j x Hj. destruct (decide (i = j)) as [<-|Hne].
  - exists c'. rewrite list_lookup_insert_eq by (by eapply lookup_lt_Some). simplify_eq.
    by split.
  - exists x. by rewrite list_lookup_insert_ne.
Qed.

Lemma act_later w l w' l' : act w l w' l' -> later l l'.
Proof.
  intros Ha. destruct Ha; try done; (split; cbn; [lia| |]); try done; try (intros j x Hx; by exists x);
    try (by apply prefix_app_r);
    try (eapply later_set_call; [done|done|by intros ? ?; cbn; congruence]).
Qed.

(** A pending trigger stays so until a cycle begins. *)
Lemma act_pending w l w' l' :
  act w l w' l' -> trigger_pending l -> trigger_pending l' \/ (begun l < begun l')%nat.
Proof.
  unfold trigger_pending. intros Ha. destruct Ha; cbn; try tauto; try (right; lia); intros [?|[?|?]]; auto with lia.
Qed.

(** Nothing but a call triggers. *)
Definition called (l : loop) : Prop := trigger_pending l \/ calls l <> [].

Lemma act_called w l w' l' : act w l w' l' -> called l' -> called l.
Proof.
  unfold called, trigger_pending. intros Ha.
  assert (Hc : forall i c, calls l !! i = Some c -> calls l <> []) by (by intros i c H Hn; rewrite Hn in H).
  destruct Ha; cbn; try (right; by eapply Hc); try tauto; intros [[?|[?|?]]|?]; auto with lia.
Qed.

(** A call gives up only when its context has ended. *)
Definition gives_up_ended (l : loop) : Prop :=
  forall i c e, calls l !! i = Some c -> w_phase c = TGivingUp e \/ w_phase c = TReturned (Err e) -> ctx_error e.

Lemma act_gives_up w l w' l' : act w l w' l' -> gives_up_ended l -> gives_up_ended l'.
Proof.
  unfold gives_up_ended. intros Ha H. destruct Ha; cbn; try exact H;
    intros j x e' [(<- & <- & _)|[_ Hj]]%list_lookup_insert_Some; cbn; try (by eapply H); eauto;
    intros [?|?]; simplify_eq; eauto.
Qed.
End loop.

Lemma loop_inv_reachable {U : Unicode} {W} sch (cfg : Config W) w c l : reachable sch cfg w c l -> inv l.
Proof.
  apply reachable_ind; [apply inv_started|intros *; apply loop_inv_act|intros *; apply inv_trigger|apply inv_new].
Qed.

Lemma gives_up_reachable {U : Unicode} {W} sch (cfg : Config W) w c l : reachable sch cfg w c l -> gives_up_ended l.
Proof.
  apply reachable_ind; [by intros ?|intros *; apply act_gives_up|done|].
  intros l' H i x e [Hx|[_ [_ <-]%list_lookup_singleton_Some]]%lookup_app_Some; [by eapply H|]. by intros [?|?].
Qed.

(** C18: in every reachable state of the controller's goroutines: a [TriggerAndWait] that
    waits with nothing in its channel is about to be sent a result, or is registered while
    a cycle is due (a trigger is queued or a cycle runs; or the process died), so no
    waiter is forgotten; the loop never blocks on a waiter, whose one-place channel is
    empty when its turn comes; and what a call received, and what it returned, is the
    result of one announced cycle, announced after the call was made. *)
Theorem trigger_and_wait_answered {U : Unicode} {W} sch (cfg : Config W) w c l :
  reachable sch cfg w c l ->
  (forall i x, calls l !! i = Some x -> w_phase x = TWait -> w_chan x = None ->
     (i ∈ waiters l /\ due l) \/ (exists n ws, l_run l = RSending n ws /\ i ∈ ws)) /\
  (forall n i ws, l_run l = RSending n (i :: ws) ->
     exists x, calls l !! i = Some x /\ w_chan x = None) /\
  (forall i x n, calls l !! i = Some x -> w_chan x = Some n ->
     (w_after x <= n)%nat /\ is_Some (results l !! n)) /\
  (forall i x r, calls l !! i = Some x -> w_phase x = TReturned (Ok r) ->
     exists n, results l !! n = Some r /\ (w_after x <= n)%nat).
Proof.
  intros [_ H2 H3 H4 _ _ _ H8 H9]%loop_inv_reachable. split; [|split; [|split; [|exact H9]]].
  - intros i x Hi Hp Hch. pose proof (H3 i x Hi (conj (or_intror Hp) Hch)) as Hin.
    apply elem_of_app in Hin as [Hin|Hin]; [left; eauto|right].
    destruct (l_run l) as [| | | |n ws| |]; cbn in Hin; try (by apply not_elem_of_nil in Hin). eauto.
  - intros n i ws Hrun. destruct (H2 i) as (x & ? & ? & _); [|by exists x].
    unfold listening. rewrite Hrun. set_solver.
  - intros i x n Hi Hch. destruct (H8 i x n Hi Hch) as [_ [? ?]]. split; [done|].
    by apply lookup_lt_is_Some_2.
Qed.

(** ** Runs *)

#[local] Existing Instance ascii_unicode.

Definition ex_controller0 : Controller := (New ex_config NewStatusTracker).1.

(** In the first cycle, a call has registered. *)
Definition ex_in_cycle : loop :=
  mkLoop ex_controller0 RCycle false false 0 [0%nat] [mkWaiter TPush None 0] [] 1.

Local Notation ex_step := (step sequential ex_config).

(** One action, then the rest of the run. *)
Ltac acts H := eapply rtc_l; [apply s_act; H|].

Lemma ex_begun : rtc ex_step (ex_store, started ex_controller0) (ex_store, begin_cycle (started ex_controller0)).
Proof. acts ltac:(by apply l_first). done. Qed.

Lemma ex_registers : rtc ex_step (ex_store, begin_cycle (started ex_controller0)) (ex_store, ex_in_cycle).
Proof. eapply rtc_l; [apply s_wait|]. acts ltac:(eapply (t_register _ _ _ _ 0); reflexivity). done. Qed.

(** The call has returned the result of that cycle; the trigger it queued is left. *)
Definition ex_result : SyncResult := mkSyncResult 4 0 2 1 0 [].

Definition ex_returned : loop :=
  mkLoop ex_controller (RSending 0 []) true false 0 [] [mkWaiter (TReturned (Ok ex_result)) None 0]
    [ex_result] 1.

Lemma ex_returns : rtc ex_step (ex_store, ex_in_cycle) (ex_cycle.1, ex_returned).
Proof.
  acts ltac:(eapply l_cycle; [reflexivity|apply ex_cycle_eq]).
  acts ltac:(eapply l_take; reflexivity).
  acts ltac:(eapply (l_send _ _ _ _ 0 0); reflexivity).
  acts ltac:(eapply (t_push _ _ _ _ 0); reflexivity).
  acts ltac:(eapply (t_answer _ _ _ _ 0); reflexivity). done.
Qed.

Lemma trigger_and_wait_answered_witness :
  reachable sequential ex_config ex_store ex_controller0 ex_returned /\
  (exists n, results ex_returned !! n = Some ex_result /\ (0 <= n)%nat).
Proof.
  assert (Hr : reachable sequential ex_config ex_store ex_controller0 ex_returned).
  { eexists. etrans; [apply ex_begun|]. etrans; [apply ex_registers|apply ex_returns]. }
  split; [exact Hr|].
  destruct (trigger_and_wait_answered sequential ex_config ex_store ex_controller0 ex_returned Hr)
    as (_ & _ & _ & H). by apply (H 0%nat (mkWaiter (TReturned (Ok ex_result)) None 0)).
Defined.

(** A call made while a cycle runs is answered by that cycle, which read the manifest and
    the provider before the call. *)
Lemma answered_by_earlier_cycle :
  exists w0 l0 w l, rtc ex_step (ex_store, started ex_controller0) (w0, l0) /\
    calls l0 = [] /\ l_run l0 = RCycle /\ rtc ex_step (w0, l0) (w, l) /\
    begun l = begun l0 /\ exists x, calls l = [x] /\ w_phase x = TReturned (Ok ex_result).
Proof.
  do 4 eexists. split; [apply ex_begun|]. split; [done|]. split; [done|].
  split; [etrans; [apply ex_registers|apply ex_returns]|]. split; [done|]. eexists. done.
Qed.

(** An interval that is not positive, which [ParseDuration] reads like any other: the
    ticker panics after the first cycle, and there is never a second one. *)
Lemma interval_not_positive_panics {U : Unicode} {W} sch (cfg : Config W) w c l :
  (cfg_Interval cfg <= 0)%Z -> reachable sch cfg w c l -> (begun l <= 1)%nat /\ l_run l <> RSelect.
Proof.
  intros Hi Hr. assert (H : (begun l <= 1)%nat /\ l_run l <> RSelect /\ (l_run l = RStart -> begun l = 0%nat)).
  { revert Hr. apply (reachable_ind _ _ (fun l => (begun l <= 1)%nat /\ l_run l <> RSelect /\ (l_run l = RStart -> begun l = 0%nat)));
      [cbn; split; [lia|by split]|..].
    2,3: done.
    apply Z.leb_le in Hi. intros ? l1 ? l2 Ha (H1 & H2 & H3).
    destruct Ha as [Hs|Hs| | | | | | | | | | | | | | ]; cbn; rewrite ?Hi; try tauto; try (by repeat split).
    rewrite H3 by done. by repeat split. }
  tauto.
Qed.
