(* ===== verification/Http.v ===== *)
(** * The HTTP client of the GoClaw provider

    [internal/provider/goclaw/http_client.go], and the world the provider acts on.
    The GoClaw server, the network and the WebSocket connection are a parameter
    ([Remote]): what they answer to a message, and the state they are left in.
    [PWorld] adds the provider's own mutable state, the tenant UUID resolved once,
    and the history of the messages sent, which the program does not keep but the
    theorems speak of.  Log records and timings are not modelled. *)
From Stdlib Require Import ZArith Lia Bool Ascii.
From Stdlib Require String.
From S2P Require Import Prelude GoStr GoValue Manifest Json.

Local Open Scope string_scope.

(** ** Messages *)

(** The parts of a multipart form. *)
Inductive FormPart :=
  | FormFile (field filename data : string)
  | FormField (field value : string).

Inductive HttpBody :=
  | NoBody
  | BytesBody (data : string)
  | FormBody (parts : list FormPart).

Record HttpRequest := mkHttpRequest {
  rq_method : string;
  rq_url : string;
  rq_headers : strmap;
  rq_body : HttpBody
}.

(** What [http.NewRequestWithContext], [Client.Do] and [io.ReadAll] come to. *)
Inductive HttpOutcome :=
  | BadRequest (e : error)
  | TransportError (e : error)
  | ReadError (e : error)
  | Response (code : Z) (body : string).

(** Everything the provider sends. *)
Inductive Message :=
  | MHttp (r : HttpRequest)
  | MConnect
  | MRpc (method : string) (params : option gomap).

Record Remote (S : Type) := mkRemote {
  http_send : HttpRequest -> S -> S * HttpOutcome;
  ws_alive : S -> bool;
  ws_connect : S -> S * option error;
  ws_call : string -> option gomap -> S -> S * res string
}.
Arguments mkRemote {S}.
Arguments http_send {S} r.
Arguments ws_alive {S} r.
Arguments ws_connect {S} r.
Arguments ws_call {S} r.

(** [tenant] is what [tenantOnce] has computed: the UUID or the error. *)
Record PWorld (S : Type) := mkPWorld {
  server : S;
  tenant : option (res string);
  sent : list Message
}.
Arguments mkPWorld {S}.
Arguments server {S} p.
Arguments tenant {S} p.
Arguments sent {S} p.

(** ** classifyStatus *)

Definition sentinelError (s : sentinel) : error :=
  mkError match s with
          | ErrNotFound => "resource not found"
          | ErrUnauthorized => "unauthorized"
          | ErrInvalidRequest => "invalid request"
          | ErrServerError => "server error"
          | ErrSkillSourceMissing =>
              "KindSkill spec must include sourceDir (path to a directory containing SKILL.md)"
          | DeadlineExceeded => "context deadline exceeded"
          | Canceled => "context canceled"
          | NotExist => "file does not exist"
          end [s].

Definition classifyStatus (code : Z) (body : string) : option error :=
  if ((200 <=? code) && (code <? 300))%Z then None
  else if ((code =? 401) || (code =? 403))%Z
       then Some (wrapf "" (sentinelError ErrUnauthorized) (": " +:+ body))
  else if (code =? 404)%Z then Some (wrapf "" (sentinelError ErrNotFound) (": " +:+ body))
  else if ((code =? 400) || (code =? 422))%Z
       then Some (wrapf "" (sentinelError ErrInvalidRequest) (": " +:+ body))
  else if (500 <=? code)%Z then Some (wrapf "" (sentinelError ErrServerError) (": " +:+ body))
  else Some (errorf ("unexpected status " +:+ Itoa code +:+ ": " +:+ body)).

(** ** HTTPClient *)

Record HTTPClient := mkHTTPClient {
  baseURL : string;
  token : string;
  headers : strmap
}.

Definition NewHTTPClient (baseURL token tenantID userID : string) : HTTPClient :=
  let userID := if String.eqb userID "" then "gcplane" else userID in
  let headers := [("X-GoClaw-User-Id", userID)] in
  mkHTTPClient baseURL token
    (if String.eqb tenantID "" then headers
     else mset "X-GoClaw-Tenant-Id" tenantID headers).

(** [io.LimitReader]: the first [n] bytes. *)
Fixpoint take_bytes (n : Z) (s : string) : string :=
  match s with
  | EmptyString => EmptyString
  | String c s' => if (n <=? 0)%Z then EmptyString else String c (take_bytes (n - 1) s')
  end.

Definition maxResponseSize : Z := Z.shiftl 10 20.

(** [req.Header.Set] for each of [hs]. *)
Definition set_headers (hs req : strmap) : strmap :=
  foldl (fun m kv => mset kv.1 kv.2 m) req hs.

Section client.
Context {S : Type} (remote : Remote S).
Abbreviation Mp := (M (PWorld S)).

Definition log_sent (m : Message) (s : S) (w : PWorld S) : PWorld S :=
  mkPWorld s (tenant w) (sent w ++ [m]).

(** [do]: the transport error is wrapped with the method and path. *)
Definition send_request (method path : string) (rq : HttpRequest) : Mp string := fun w =>
  let '(s, out) := http_send remote rq (server w) in
  (log_sent (MHttp rq) s w,
   match out with
   | BadRequest e => Err (wrapf "create request: " e "")
   | TransportError e => Err (wrapf ("http " +:+ method +:+ " " +:+ path +:+ ": ") e "")
   | ReadError e => Err (wrapf "read response body: " e "")
   | Response code body =>
     let respBody := take_bytes maxResponseSize body in
     match classifyStatus code respBody with Some e => Err e | None => Ok respBody end
   end).

(** The headers [do] sends. *)
Definition do_headers (c : HTTPClient) : strmap :=
  set_headers (headers c)
    [ ("Authorization", "Bearer " +:+ token c); ("Content-Type", "application/json");
      ("Accept", "application/json") ].

Definition do (c : HTTPClient) (method path : string) (body : HttpBody) : Mp string :=
  send_request method path (mkHttpRequest method (baseURL c +:+ path) (do_headers c) body).

Definition doRaw (c : HTTPClient) (method path : string) (body : HttpBody) (contentType : string) :
    Mp string :=
  let hs := set_headers (headers c)
              ([("Authorization", "Bearer " +:+ token c)]
               ++ (if String.eqb contentType "" then [] else [("Content-Type", contentType)])
               ++ [("Accept", "application/json")]) in
  send_request method path (mkHttpRequest method (baseURL c +:+ path) hs body).

Definition doJSON (c : HTTPClient) (method path : string) (body : gval) : Mp string :=
  match Marshal body with
  | None => failM (errorf "marshal request body: json: unsupported value")
  | Some data => do c method path (BytesBody data)
  end.

Definition Get (c : HTTPClient) (path : string) : Mp string := do c "GET" path NoBody.
Definition Post (c : HTTPClient) (path : string) (body : gval) : Mp string :=
  doJSON c "POST" path body.
Definition Put (c : HTTPClient) (path : string) (body : gval) : Mp string :=
  doJSON c "PUT" path body.
Definition Patch (c : HTTPClient) (path : string) (body : gval) : Mp string :=
  doJSON c "PATCH" path body.

Definition DeleteReq (c : HTTPClient) (path : string) : Mp unit :=
  bindM (do c "DELETE" path NoBody) (fun _ => skipM).

Definition GetRaw (c : HTTPClient) (path : string) : Mp string := doRaw c "GET" path NoBody "".
Definition PostMultipart (c : HTTPClient) (path : string) (body : HttpBody)
    (contentType : string) : Mp string := doRaw c "POST" path body contentType.
End client.
