(* ===== verification/WsClient.v ===== *)
(** * The WebSocket client

    [internal/provider/goclaw/ws_client.go] as a step relation.  Its shared state is
    the connection, the request counter and the map of pending calls ([client]); the
    goroutines are the callers of [Call] and [Close], and one read loop for each
    connection.  A step is what one of them does while it holds a lock, sends on or
    receives from a channel, or uses the socket; the socket is the environment, so a
    read yields any message or an error and a write succeeds or fails.  The other
    components see the client through the [Remote] record of [Http].

    Connections and calls are numbered; a socket is not otherwise modelled. *)
From Stdlib Require Import ZArith Lia Bool Ascii.
From Stdlib Require String.
From stdpp Require Import relations gmap.
From S2P Require Import Prelude GoStr GoValue JsonParse Json Ring.

Local Open Scope string_scope.
Local Open Scope go_scope.

(** ** Frames *)

Record requestFrame := mkRequest {
  qf_Type : string;
  qf_ID : string;
  qf_Method : string;
  qf_Params : option gomap
}.

Record rpcError := mkRpcError { re_Code : string; re_Message : string }.

Record responseFrame := mkResponse {
  rf_Type : string;
  rf_ID : string;
  rf_OK : bool;
  rf_Payload : option string;
  rf_Error : option rpcError
}.

(** The members of a JSON object with their values and the text of these, which is what
    a [json.RawMessage] keeps. *)
Fixpoint raw_members (fuel : nat) (s : list ascii) : option (list (string * (jval * string))) :=
  match fuel with
  | O => None
  | S n =>
    match parse_string (tail (skip_ws s)) with
    | None => None
    | Some (k, rest) =>
      let vs := skip_ws (tail (skip_ws rest)) in
      match parse_value (2 * length vs + 2) 1 vs with
      | None => None
      | Some (v, rest) =>
        let raw := of_bytes (take (length vs - length rest) vs) in
        if first_is 44 (skip_ws rest)
        then match raw_members n (tail (skip_ws rest)) with
             | Some ms => Some ((k, (v, raw)) :: ms)
             | None => None
             end
        else Some [(k, (v, raw))]
      end
    end
  end.

Definition raw_object (data : string) : list (string * (jval * string)) :=
  let body := tail (skip_ws (bytes_of data)) in
  if first_is 125 (skip_ws body) then [] else default [] (raw_members (length body) body).

(** A [json.RawMessage] field. *)
Definition raw_field (name data : string) : option string :=
  foldl (fun acc m => if field_match name m.1 then Some m.2.2 else acc) None (raw_object data).

Definition decode_rpc_error (v : jval) : res (option rpcError) :=
  match v with
  | JNull => Ok None
  | _ => let? code := struct_field "code" "" decode_string v in
         let? message := struct_field "message" "" decode_string v in
         Ok (Some (mkRpcError code message))
  end.

Definition decode_response (data : string) : res responseFrame :=
  let? v := parse_json data in
  let? type := struct_field "type" "" decode_string v in
  let? id := struct_field "id" "" decode_string v in
  let? ok := struct_field "ok" false decode_bool v in
  let? err := struct_field "error" None decode_rpc_error v in
  Ok (mkResponse type id ok (raw_field "payload" data) err).

Definition decode_event (data : string) : res WSEventFrame :=
  let? v := parse_json data in
  let? type := struct_field "type" "" decode_string v in
  let? event := struct_field "event" "" decode_string v in
  let? seq := struct_field "seq" 0%Z decode_int64 v in
  Ok (mkFrame type event (raw_field "payload" data) seq).

(** What the read loop does with a message. *)
Inductive incoming := InResponse (r : responseFrame) | InEvent (e : WSEventFrame) | InIgnored.

Definition dispatch (msg : string) : incoming :=
  match (let? v := parse_json msg in struct_field "type" "" decode_string v) with
  | Err _ => InIgnored
  | Ok t =>
    if String.eqb t "res"
    then match decode_response msg with Ok r => InResponse r | Err _ => InIgnored end
    else if String.eqb t "event"
    then match decode_event msg with Ok e => InEvent e | Err _ => InIgnored end
    else InIgnored
  end.

(** ** The client's own state *)

Record WSClient := mkWSClient {
  w_endpoint : string;
  w_token : string;
  w_tenantID : string;
  w_userID : string
}.

Definition NewWSClient (endpoint token tenantID userID : string) : WSClient :=
  mkWSClient endpoint token tenantID (if String.eqb userID "" then "gcplane" else userID).

(** A parsed URL: its scheme, and its text under another scheme and path.  [url.Parse]
    is an argument. *)
Record URL := mkURL { Scheme : string; URLString : string -> string -> string }.

Definition ws_url (Parse : string -> option URL) (endpoint : string) : string :=
  match Parse endpoint with
  | Some u =>
    if String.eqb (Scheme u) "" then "ws://" +:+ endpoint +:+ "/ws"
    else URLString u (if String.eqb (Scheme u) "https" || String.eqb (Scheme u) "wss"
                      then "wss" else "ws") "/ws"
  | None => "ws://" +:+ endpoint +:+ "/ws"
  end.

Definition connect_frame (c : WSClient) : requestFrame :=
  let params := [("token", VStr (w_token c)); ("user_id", VStr (w_userID c))] in
  mkRequest "req" "1" "connect"
    (Some (if String.eqb (w_tenantID c) "" then params
           else mset "tenant_id" (VStr (w_tenantID c)) params)).

(** What the socket did during the handshake. *)
Inductive handshake :=
  | DialFailed (e : error)
  | WriteFailed (e : error)
  | ReadFailed (e : error)
  | Answered (r : responseFrame).

(** The mutable part.  [loop_done] is the channel [c.done]: the number of the connection
    whose read loop closes it. *)
Record client := mkClient {
  conn : option nat;
  nextID : Z;
  pending : gmap string nat;
  loop_done : option nat;
  onEvent : option nat
}.

Definition new_client : client := mkClient None 0 ∅ None None.

(** Handlers of events are numbered. *)
Definition SetEventHandler (h : nat) (c : client) : client :=
  mkClient (conn c) (nextID c) (pending c) (loop_done c) (Some h).

(** [if c.onEvent != nil { c.onEvent(evt) }]: the call that is made. *)
Definition call_handler (c : client) (e : WSEventFrame) : list (nat * WSEventFrame) :=
  match onEvent c with Some h => [(h, e)] | None => [] end.

Definition IsConnected (c : client) : bool := bool_decide (is_Some (conn c)).

(** [Connect] holds [connMu] throughout: [k] is the new connection.  The result says
    whether a read loop is started. *)
Definition Connect (wsURL : string) (k : nat) (h : handshake) (c : client) :
    client * bool * option error :=
  match conn c with
  | Some _ => (c, false, None)
  | None =>
    let dialled := mkClient (Some k) (nextID c) (pending c) (loop_done c) (onEvent c) in
    match h with
    | DialFailed e => (c, false, Some (wrapf ("ws dial " +:+ wsURL +:+ ": ") e ""))
    | WriteFailed e => (dialled, false, Some (wrapf "ws connect handshake write: " e ""))
    | ReadFailed e => (dialled, false, Some (wrapf "ws connect handshake read: " e ""))
    | Answered r =>
      if rf_OK r then (mkClient (Some k) 1 (pending c) (Some k) (onEvent c), true, None)
      else (dialled, false,
            Some (errorf ("ws connect rejected: " +:+
                          match rf_Error r with Some e => re_Message e | None => "unknown error" end)))
    end
  end.

(** The locked part of [deliverResponse]: the call that waits for the frame. *)
Definition deliverResponse (resp : responseFrame) (c : client) : client * option nat :=
  match pending c !! rf_ID resp with
  | Some ch => (mkClient (conn c) (nextID c) (delete (rf_ID resp) (pending c)) (loop_done c) (onEvent c), Some ch)
  | None => (c, None)
  end.

Definition clearConnIfSame (k : nat) (c : client) : client :=
  if bool_decide (conn c = Some k) then mkClient None (nextID c) (pending c) (loop_done c) (onEvent c) else c.

(** The locked part of [cancelAllPending]: the waiters, and the frame each is sent. *)
Definition take_pending (c : client) : client * list (string * nat) :=
  (mkClient (conn c) (nextID c) ∅ (loop_done c) (onEvent c), map_to_list (pending c)).

Definition cancel_response (err : error) (id : string) : responseFrame :=
  mkResponse "res" id false None (Some (mkRpcError "" (Error err))).

Definition add_id (c : client) : client * string :=
  let n := wrap64 (nextID c + 1) in
  (mkClient (conn c) n (pending c) (loop_done c) (onEvent c), Itoa n).

Definition register (id : string) (ch : nat) (c : client) : client :=
  mkClient (conn c) (nextID c) (<[id := ch]> (pending c)) (loop_done c) (onEvent c).

Definition unregister (id : string) (c : client) : client :=
  mkClient (conn c) (nextID c) (delete id (pending c)) (loop_done c) (onEvent c).

(** What [Call] makes of the frame it receives. *)
Definition call_result (method : string) (resp : responseFrame) : res (option string) :=
  if rf_OK resp then Ok (rf_Payload resp)
  else Err (errorf ("ws rpc " +:+ method +:+ ": " +:+
                    match rf_Error resp with Some e => re_Message e | None => "rpc error" end)).

(** ** The goroutines *)

(** Where a [Call] is: after reading [c.conn], after taking an ID, after registering,
    waiting for the answer, and on the two ways out that unregister first. *)
Inductive call_phase :=
  | PConn (k : nat)
  | PId (k : nat)
  | PRegistered (k : nat)
  | PWaiting
  | PFailing (k : nat) (e : error)
  | PClearing (k : nat) (e : error)
  | PGivingUp (e : error)
  | PReturned (r : res (option string)).

(** [c_id] is the ID once taken; [c_epoch], which the program does not keep, is the
    number of successful handshakes at that moment; [c_chan] is the call's channel,
    which holds one frame. *)
Record call := mkCall {
  c_method : string;
  c_params : option gomap;
  c_phase : call_phase;
  c_id : option string;
  c_epoch : nat;
  c_chan : option responseFrame
}.

Definition at_phase (c : call) (p : call_phase) : call :=
  mkCall (c_method c) (c_params c) p (c_id c) (c_epoch c) (c_chan c).
Definition with_id (c : call) (id : string) (epoch : nat) : call :=
  mkCall (c_method c) (c_params c) (c_phase c) (Some id) epoch (c_chan c).
Definition with_chan (c : call) (ch : option responseFrame) : call :=
  mkCall (c_method c) (c_params c) (c_phase c) (c_id c) (c_epoch c) ch.

Definition id_of (c : call) : string := default "" (c_id c).

Definition request_of (c : call) : requestFrame :=
  mkRequest "req" (id_of c) (c_method c) (c_params c).

(** Where a read loop is. *)
Inductive loop_phase :=
  | LReading
  | LSending (resp : responseFrame) (ch : nat)
  | LFailed (e : error)
  | LCancelling (e : error) (waiters : list (string * nat))
  | LExited.

(** The world: the client, the goroutines, what was written to and read from each
    connection, and the calls of event handlers. *)
Record world := mkWorld {
  cl : client;
  calls : list call;
  loops : gmap nat loop_phase;
  closers : list (option nat);
  next_conn : nat;
  connects : nat;
  written : list (nat * requestFrame);
  received : list (nat * responseFrame);
  handled : list (nat * WSEventFrame)
}.

Definition init : world := mkWorld new_client [] ∅ [] 0 0 [] [] [].

Definition set_cl (c : client) (w : world) : world :=
  mkWorld c (calls w) (loops w) (closers w) (next_conn w) (connects w) (written w) (received w) (handled w).
Definition set_call (i : nat) (c : call) (w : world) : world :=
  mkWorld (cl w) (<[i := c]> (calls w)) (loops w) (closers w) (next_conn w) (connects w)
    (written w) (received w) (handled w).
Definition set_loop (k : nat) (l : loop_phase) (w : world) : world :=
  mkWorld (cl w) (calls w) (<[k := l]> (loops w)) (closers w) (next_conn w) (connects w)
    (written w) (received w) (handled w).
Definition log_written (k : nat) (f : requestFrame) (w : world) : world :=
  mkWorld (cl w) (calls w) (loops w) (closers w) (next_conn w) (connects w)
    (written w ++ [(k, f)]) (received w) (handled w).
Definition log_received (k : nat) (r : responseFrame) (w : world) : world :=
  mkWorld (cl w) (calls w) (loops w) (closers w) (next_conn w) (connects w)
    (written w) (received w ++ [(k, r)]) (handled w).

Inductive step (w : world) : world -> Prop :=
  (* Connect *)
  | s_connect url h c started err :
      Connect url (next_conn w) h (cl w) = (c, started, err) ->
      step w (mkWorld c (calls w)
                (if started : bool then <[next_conn w := LReading]> (loops w) else loops w)
                (closers w) (S (next_conn w))
                (if started : bool then S (connects w) else connects w)
                (written w) (received w) (handled w))
  (* Call *)
  | s_call method params :
      step w (mkWorld (cl w)
                (calls w ++ [mkCall method params
                               match conn (cl w) with
                               | Some k => PConn k
                               | None => PReturned (Err (errorf "ws not connected"))
                               end None 0 None])
                (loops w) (closers w) (next_conn w) (connects w) (written w) (received w) (handled w))
  | s_add_id i c k cl' id :
      calls w !! i = Some c -> c_phase c = PConn k -> add_id (cl w) = (cl', id) ->
      step w (set_cl cl' (set_call i (at_phase (with_id c id (connects w)) (PId k)) w))
  | s_register i c k :
      calls w !! i = Some c -> c_phase c = PId k ->
      step w (set_cl (register (id_of c) i (cl w)) (set_call i (at_phase c (PRegistered k)) w))
  | s_write i c k :
      calls w !! i = Some c -> c_phase c = PRegistered k ->
      step w (log_written k (request_of c) (set_call i (at_phase c PWaiting) w))
  | s_write_error i c k e :
      calls w !! i = Some c -> c_phase c = PRegistered k ->
      step w (set_call i (at_phase c (PFailing k (wrapf ("ws write " +:+ c_method c +:+ ": ") e ""))) w)
  | s_failing i c k e :
      calls w !! i = Some c -> c_phase c = PFailing k e ->
      step w (set_cl (unregister (id_of c) (cl w)) (set_call i (at_phase c (PClearing k e)) w))
  | s_clearing i c k e :
      calls w !! i = Some c -> c_phase c = PClearing k e ->
      step w (set_cl (clearConnIfSame k (cl w)) (set_call i (at_phase c (PReturned (Err e))) w))
  | s_answer i c resp :
      calls w !! i = Some c -> c_phase c = PWaiting -> c_chan c = Some resp ->
      step w (set_call i (with_chan (at_phase c (PReturned (call_result (c_method c) resp))) None) w)
  | s_ctx_done i c e :
      calls w !! i = Some c -> c_phase c = PWaiting ->
      step w (set_call i (at_phase c (PGivingUp e)) w)
  | s_give_up i c e :
      calls w !! i = Some c -> c_phase c = PGivingUp e ->
      step w (set_cl (unregister (id_of c) (cl w)) (set_call i (at_phase c (PReturned (Err e))) w))
  (* readLoop *)
  | s_read k msg :
      loops w !! k = Some LReading ->
      step w match dispatch msg with
             | InResponse resp =>
               let '(c, target) := deliverResponse resp (cl w) in
               log_received k resp
                 (set_cl c (match target with Some ch => set_loop k (LSending resp ch) w | None => w end))
             | InEvent e => mkWorld (cl w) (calls w) (loops w) (closers w) (next_conn w) (connects w)
                              (written w) (received w) (handled w ++ call_handler (cl w) e)
             | InIgnored => w
             end
  | s_send k resp ch c :
      loops w !! k = Some (LSending resp ch) -> calls w !! ch = Some c -> c_chan c = None ->
      step w (set_call ch (with_chan c (Some resp)) (set_loop k LReading w))
  | s_read_error k e :
      loops w !! k = Some LReading ->
      step w (set_loop k (LFailed (wrapf "ws read: " e "")) w)
  | s_cancel k e c waiters :
      loops w !! k = Some (LFailed e) -> take_pending (cl w) = (c, waiters) ->
      step w (set_cl c (set_loop k (LCancelling e waiters) w))
  | s_send_error k e l1 l2 id ch c :
      loops w !! k = Some (LCancelling e (l1 ++ (id, ch) :: l2)) ->
      calls w !! ch = Some c -> c_chan c = None ->
      step w (set_call ch (with_chan c (Some (cancel_response e id)))
                (set_loop k (LCancelling e (l1 ++ l2)) w))
  | s_exit k e :
      loops w !! k = Some (LCancelling e []) ->
      step w (set_cl (clearConnIfSame k (cl w)) (set_loop k LExited w))
  (* Close: shut the socket, then wait for the read loop and forget the connection *)
  | s_close k :
      conn (cl w) = Some k ->
      step w (mkWorld (cl w) (calls w) (loops w) (loop_done (cl w) :: closers w) (next_conn w) (connects w)
                (written w) (received w) (handled w))
  | s_closed d l1 l2 :
      closers w = (l1 ++ d :: l2)%list ->
      (forall k, d = Some k -> loops w !! k = Some LExited) ->
      step w (mkWorld (mkClient None (nextID (cl w)) (pending (cl w)) (loop_done (cl w)) (onEvent (cl w))) (calls w) (loops w)
                (l1 ++ l2) (next_conn w) (connects w) (written w) (received w) (handled w))
  (* SetEventHandler *)
  | s_set_handler h :
      step w (set_cl (SetEventHandler h (cl w)) w).

Definition reachable (w : world) : Prop := rtc step init w.

(** ** What the client guarantees *)

(** The calls a read loop is about to send to. *)
Definition targets (l : loop_phase) : list nat :=
  match l with
  | LSending _ ch => [ch]
  | LCancelling _ ws => map snd ws
  | _ => []
  end.

(** Who holds the channel of call [i]: the pending map, under an ID, or a read loop. *)
Definition owns (w : world) (s : string + nat) (i : nat) : Prop :=
  match s with
  | inl id => pending (cl w) !! id = Some i
  | inr k => exists l, loops w !! k = Some l /\ i ∈ targets l
  end.

(** Past the registration. *)
Definition started (c : call) : Prop :=
  match c_phase c with PConn _ | PId _ => False | _ => True end.

Record owned_once (w : world) : Prop := {
  ow_call s i : owns w s i -> exists c, calls w !! i = Some c /\ c_chan c = None /\ started c;
  ow_id id i c : owns w (inl id) i -> calls w !! i = Some c -> c_id c = Some id;
  ow_unique s s' i : owns w s i -> owns w s' i -> s = s';
  ow_nodup k l : loops w !! k = Some l -> NoDup (targets l)
}.

(** Steps that register nothing and send to nobody that keeps its channel. *)
Lemma owned_weaken w w' :
  (forall s i, owns w' s i -> owns w s i) ->
  (forall k l, loops w' !! k = Some l -> NoDup (targets l)) ->
  (forall s i c, owns w' s i -> calls w !! i = Some c ->
     exists c', calls w' !! i = Some c' /\ c_chan c' = c_chan c /\ c_id c' = c_id c /\
                (started c -> started c')) ->
  owned_once w -> owned_once w'.
Proof.
  intros Hown Hnd Hcalls [H1 H2 H3 H4]. split; [| |by eauto|done].
  - intros s i Ho. destruct (H1 s i (Hown _ _ Ho)) as (c & Hc & Hch & Hs).
    destruct (Hcalls s i c Ho Hc) as (c' & Hc' & He & _ & Hst). exists c'. rewrite He. auto.
  - intros id i c' Ho Hc'. destruct (H1 _ i (Hown _ _ Ho)) as (c & Hc & _).
    destruct (Hcalls _ i c Ho Hc) as (c2 & Hc2 & _ & Hid & _). simplify_eq. rewrite Hid. eauto.
Qed.

Lemma calls_insert (cs : list call) i c j c' :
  cs !! i = Some c -> <[i := c']> cs !! j = if decide (i = j) then Some c' else cs !! j.
Proof.
  intros Hi. rewrite list_lookup_insert. apply lookup_lt_Some in Hi.
  destruct (decide (i = j)) as [->|]; [|by rewrite decide_False by naive_solver].
  by rewrite decide_True.
Qed.

(** A step of one call that leaves its channel and, once started, stays started. *)
Lemma owned_set_call w w' i c c' :
  calls w !! i = Some c -> calls w' = <[i := c']> (calls w) ->
  c_chan c' = c_chan c -> c_id c' = c_id c -> (started c -> started c') ->
  (forall s j, owns w' s j -> owns w s j) ->
  (forall k l, loops w' !! k = Some l -> NoDup (targets l)) ->
  owned_once w -> owned_once w'.
Proof.
  intros Hi Hcs Hch Hid Hst Hown Hnd. apply owned_weaken; [done..|].
  intros s j cj _ Hj. rewrite Hcs, (calls_insert _ _ _ _ _ Hi).
  destruct (decide (i = j)) as [->|]; [|by exists cj]. simplify_eq. by exists c'.
Qed.

Lemma owns_unregister w w' id :
  pending (cl w') = delete id (pending (cl w)) -> loops w' = loops w ->
  forall s j, owns w' s j -> owns w s j.
Proof.
  intros Hp Hl [id'|k] j; simpl; rewrite ?Hp, ?Hl; [|done].
  by intros [_ ?]%lookup_delete_Some.
Qed.

Lemma owns_same w w' :
  pending (cl w') = pending (cl w) -> loops w' = loops w -> forall s j, owns w' s j -> owns w s j.
Proof. intros Hp Hl [id'|k] j; simpl; by rewrite ?Hp, ?Hl. Qed.

Lemma owns_set_loop w w' k l :
  pending (cl w') = pending (cl w) -> loops w' = <[k := l]> (loops w) ->
  (forall i, i ∈ targets l -> owns w (inr k) i) -> forall s j, owns w' s j -> owns w s j.
Proof.
  intros Hp Hl Ht [id|k'] j; simpl; [by rewrite Hp|]. rewrite Hl.
  intros (l' & Hl' & Hj). apply lookup_insert_Some in Hl' as [[<- <-]|[_ ?]]; [by apply Ht|by exists l'].
Qed.

Lemma nodup_set_loop w w' k l :
  loops w' = <[k := l]> (loops w) -> NoDup (targets l) -> owned_once w ->
  forall k' l', loops w' !! k' = Some l' -> NoDup (targets l').
Proof.
  intros Hl Hn Ho k' l'. rewrite Hl. intros [[_ <-]|[_ ?]]%lookup_insert_Some; [done|by eapply ow_nodup].
Qed.

Lemma Connect_pending url k h c c' b e : Connect url k h c = (c', b, e) -> pending c' = pending c.
Proof. unfold Connect. repeat case_match; by intros [= <- _ _]. Qed.

Lemma owned_connect w url h c b err :
  Connect url (next_conn w) h (cl w) = (c, b, err) -> owned_once w ->
  owned_once (mkWorld c (calls w) (if b : bool then <[next_conn w := LReading]> (loops w) else loops w)
                (closers w) (S (next_conn w)) (if b : bool then S (connects w) else connects w)
                (written w) (received w) (handled w)).
Proof.
  intros Hc%Connect_pending Ho. apply (owned_weaken w); [| |by intros s i c0 _ H; exists c0|done].
  - destruct b; [|by apply owns_same]. apply (owns_set_loop _ _ (next_conn w) LReading); [done..|].
    by intros i ?%not_elem_of_nil.
  - destruct b; [|apply Ho]. eapply nodup_set_loop; [done|constructor|done].
Qed.

Lemma owned_new_call w c :
  owned_once w ->
  owned_once (mkWorld (cl w) (calls w ++ [c]) (loops w) (closers w) (next_conn w) (connects w)
                (written w) (received w) (handled w)).
Proof.
  intros Ho. apply (owned_weaken w); [done|apply Ho| |done].
  intros s i ci _ Hi. exists ci. split; [by apply lookup_app_l_Some|done].
Qed.

(** A call that has not registered owns nothing. *)
Lemma owned_not_started w s i c :
  owned_once w -> calls w !! i = Some c -> ~ started c -> ~ owns w s i.
Proof. intros Ho Hi Hn Hs. destruct (ow_call w Ho s i Hs) as (c' & ? & _ & ?). by simplify_eq. Qed.

Lemma owned_add_id w i c k n id :
  calls w !! i = Some c -> c_phase c = PConn k -> owned_once w ->
  owned_once (set_cl (mkClient (conn (cl w)) n (pending (cl w)) (loop_done (cl w)) (onEvent (cl w)))
                (set_call i (at_phase (with_id c id (connects w)) (PId k)) w)).
Proof.
  intros Hi Hp Ho. apply (owned_weaken w); [by apply owns_same|apply Ho| |done].
  intros s j cj Hs Hj. cbn [calls set_cl set_call]. rewrite (calls_insert _ _ _ _ _ Hi).
  destruct (decide (i = j)) as [->|]; [|by exists cj]. exfalso.
  apply (owned_not_started w s j c Ho Hi); [|by destruct s]. unfold started. rewrite Hp. by intros [].
Qed.

Lemma owned_register w i c k :
  calls w !! i = Some c -> c_phase c = PId k -> c_chan c = None -> is_Some (c_id c) -> owned_once w ->
  owned_once (set_cl (register (id_of c) i (cl w)) (set_call i (at_phase c (PRegistered k)) w)).
Proof.
  intros Hi Hp Hch [id Hid] Ho. assert (Hno : forall s, ~ owns w s i).
  { intros s. apply (owned_not_started w s i c Ho Hi). unfold started. rewrite Hp. by intros []. }
  set (w' := set_cl _ _). assert (Hid' : id_of c = id) by (unfold id_of; by rewrite Hid).
  assert (Hown : forall s j, owns w' s j -> (s = inl id /\ j = i) \/ (j <> i /\ owns w s j)).
  { intros [id'|k'] j; simpl; rewrite ?Hid'.
    - intros [[<- <-]|[Hne ?]]%lookup_insert_Some; [by left|]. right. split; [|done].
      intros ->. by apply (Hno (inl id')).
    - intros Hk. right. split; [|done]. intros ->. by apply (Hno (inr k')). }
  assert (Hcalls : forall j, calls w' !! j = if decide (i = j) then Some (at_phase c (PRegistered k))
                                             else calls w !! j).
  { intros j. unfold w'. cbn [calls set_cl set_call]. by rewrite (calls_insert _ _ _ _ _ Hi). }
  destruct Ho as [H1 H2 H3 H4]. split.
  - intros s j [[-> ->]|[Hne Hs]]%Hown; rewrite Hcalls.
    + rewrite decide_True by done. eexists. split; [done|]. by split.
    + rewrite decide_False by done. by apply (H1 s).
  - intros id' j c' [[[= ->] ->]|[Hne Hs]]%Hown; rewrite Hcalls.
    + rewrite decide_True by done. by intros [= <-].
    + rewrite decide_False by done. by apply H2.
  - intros s s' j [[-> ->]|[Hne Hs]]%Hown [[-> ?]|[Hne' Hs']]%Hown; try done. by eapply H3.
  - apply H4.
Qed.

(** A read loop takes over what the pending map held. *)
Lemma owned_take w k l (p' : gmap string nat) n cn d ev :
  loops w !! k = Some l -> targets l = [] ->
  forall l', (forall i, i ∈ targets l' -> exists id, pending (cl w) !! id = Some i /\ p' !! id = None) ->
  (forall id i, p' !! id = Some i -> pending (cl w) !! id = Some i) -> NoDup (targets l') ->
  owned_once w -> owned_once (set_cl (mkClient cn n p' d ev) (set_loop k l' w)).
Proof.
  intros Hk Hl l' Hl' Hp Hnd Ho. set (w' := set_cl _ _).
  assert (Hown : forall s j, owns w' s j ->
            (s <> inr k /\ owns w s j /\ (forall id, s = inl id -> p' !! id = Some j)) \/
            (s = inr k /\ exists id, owns w (inl id) j /\ p' !! id = None)).
  { intros [id|k'] j; simpl.
    - intros H. left. split; [done|]. split; [by apply Hp|]. by intros ? [= <-].
    - intros (l2 & [[<- <-]|[Hne ?]]%lookup_insert_Some & Hj); [right; auto|].
      left. split; [congruence|]. split; [by exists l2|done]. }
  pose proof (nodup_set_loop w w' k l' eq_refl Hnd Ho) as Hnd'.
  destruct Ho as [H1 H2 H3 H4]. split; [| | |exact Hnd'].
  - intros s j [(_ & Hs & _)|(_ & id & Hs & _)]%Hown; by eapply H1.
  - intros id j c [(_ & Hs & _)|(? & _)]%Hown; [by apply H2|done].
  - intros s s' j [(Hn & Hs & Hx)|(-> & id & Hs & Hx)]%Hown
      [(Hn' & Hs' & Hx')|(-> & id' & Hs' & Hx')]%Hown; [by eapply H3| | |done].
    + specialize (H3 _ _ _ Hs Hs') as ->. specialize (Hx _ eq_refl). congruence.
    + specialize (H3 _ _ _ Hs Hs') as <-. specialize (Hx' _ eq_refl). congruence.
Qed.

(** A read loop sends to one of its targets. *)
Lemma owned_send w k l l' ch c resp :
  loops w !! k = Some l -> calls w !! ch = Some c -> ch ∈ targets l ->
  (forall i, i ∈ targets l' -> i ∈ targets l /\ i <> ch) -> NoDup (targets l') ->
  owned_once w -> owned_once (set_call ch (with_chan c (Some resp)) (set_loop k l' w)).
Proof.
  intros Hk Hc Hch Hl' Hnd Ho.
  assert (Hown : forall s j, owns (set_call ch (with_chan c (Some resp)) (set_loop k l' w)) s j ->
            owns w s j /\ j <> ch).
  { assert (Hch' : owns w (inr k) ch) by by exists l.
    intros s j Hs. destruct s as [id|k']; simpl in Hs.
    - split; [done|]. intros ->. by pose proof (ow_unique w Ho (inl id) _ _ Hs Hch').
    - destruct Hs as (l2 & [[<- <-]|[Hne Hl2]]%lookup_insert_Some & Hj).
      + apply Hl' in Hj as [Hj Hne]. split; [by exists l|done].
      + split; [by exists l2|]. intros ->.
        assert (Ho' : owns w (inr k') ch) by by exists l2.
        pose proof (ow_unique w Ho _ _ _ Ho' Hch'). congruence. }
  apply (owned_weaken w); [by intros s j []%Hown|by eapply nodup_set_loop| |done].
  intros s j cj [_ Hne]%Hown Hj. exists cj. cbn [calls set_call set_loop].
  by rewrite list_lookup_insert_ne.
Qed.

Lemma owned_cancel w k e :
  loops w !! k = Some (LFailed e) -> owned_once w ->
  owned_once (set_cl (take_pending (cl w)).1
                (set_loop k (LCancelling e (take_pending (cl w)).2) w)).
Proof.
  intros Hk Ho. eapply owned_take; [done|done|..|done]; simpl.
  - intros i Hi. apply list_elem_of_fmap in Hi as ([id j] & -> & Hij%elem_of_map_to_list).
    by exists id.
  - intros id i. by rewrite lookup_empty.
  - apply NoDup_fmap_2_strong; [|apply NoDup_map_to_list].
    intros [id i] [id' i'] H1%elem_of_map_to_list H2%elem_of_map_to_list Heq. simpl in Heq. subst i'.
    by specialize (ow_unique w Ho (inl id) (inl id') i H1 H2) as [= ->].
Qed.

Lemma owned_read w k msg :
  loops w !! k = Some LReading -> owned_once w ->
  owned_once match dispatch msg with
             | InResponse resp =>
               let '(c, target) := deliverResponse resp (cl w) in
               log_received k resp
                 (set_cl c (match target with Some ch => set_loop k (LSending resp ch) w | None => w end))
             | InEvent e => mkWorld (cl w) (calls w) (loops w) (closers w) (next_conn w) (connects w)
                              (written w) (received w) (handled w ++ call_handler (cl w) e)
             | InIgnored => w
             end.
Proof.
  intros Hk Ho. destruct (dispatch msg) as [resp|e|]; [| |done].
  2:{ apply (owned_weaken w); [done|apply Ho| |done]. intros s i c _ H. by exists c. }
  unfold deliverResponse. destruct (pending (cl w) !! rf_ID resp) as [ch|] eqn:Ep.
  - assert (H : owned_once (set_cl (mkClient (conn (cl w)) (nextID (cl w)) (delete (rf_ID resp) (pending (cl w))) (loop_done (cl w)) (onEvent (cl w)))
                              (set_loop k (LSending resp ch) w))).
    { eapply owned_take; [done|done|..|done]; simpl.
      - intros i ->%list_elem_of_singleton. exists (rf_ID resp). by rewrite lookup_delete_eq.
      - by intros id i [_ ?]%lookup_delete_Some.
      - apply NoDup_singleton. }
    eapply owned_weaken; [| | |exact H]; [done|apply H|].
    intros s i c _ Hc. by exists c.
  - apply (owned_weaken w); [by apply owns_same|apply Ho| |done]. intros s i c _ H. by exists c.
Qed.

(** ** Answers go to the calls that asked *)

Definition answered (recv : list (nat * responseFrame)) (c : call) (resp : responseFrame) : Prop :=
  (exists k, (k, resp) ∈ recv) /\ c_id c = Some (rf_ID resp).

Record call_ok (recv : list (nat * responseFrame)) (c : call) : Prop := {
  co_id : match c_phase c with
          | PConn _ => c_id c = None
          | PReturned _ => True
          | _ => is_Some (c_id c)
          end;
  co_chan resp : c_chan c = Some resp -> started c /\ (rf_OK resp = false \/ answered recv c resp);
  co_ret p : c_phase c = PReturned (Ok p) ->
             exists resp, answered recv c resp /\ rf_OK resp = true /\ p = rf_Payload resp
}.

Record routed (w : world) : Prop := {
  ro_calls i c : calls w !! i = Some c -> call_ok (received w) c;
  ro_send k resp ch c : loops w !! k = Some (LSending resp ch) -> calls w !! ch = Some c ->
                        answered (received w) c resp
}.

Lemma routed_set_call w w' i c c' :
  calls w !! i = Some c -> calls w' = <[i := c']> (calls w) -> received w' = received w ->
  c_id c' = c_id c -> call_ok (received w) c' ->
  (forall k resp ch, loops w' !! k = Some (LSending resp ch) -> loops w !! k = Some (LSending resp ch)) ->
  routed w -> routed w'.
Proof.
  intros Hi Hcs Hr Hid Hok Hl [H1 H2]. split.
  - intros j cj. rewrite Hcs, Hr, (calls_insert _ _ _ _ _ Hi). case_decide; [by intros [= <-]|apply H1].
  - intros k resp ch cj Hk%Hl. rewrite Hcs, Hr, (calls_insert _ _ _ _ _ Hi). case_decide as Hd.
    + intros [= <-]. subst ch. unfold answered. rewrite Hid. by eapply H2.
    + by apply (H2 k).
Qed.

Lemma routed_same w w' :
  calls w' = calls w -> received w' = received w ->
  (forall k resp ch, loops w' !! k = Some (LSending resp ch) -> loops w !! k = Some (LSending resp ch)) ->
  routed w -> routed w'.
Proof.
  intros Hc Hr Hl [H1 H2]. split.
  - intros i c. rewrite Hc, Hr. apply H1.
  - intros k resp ch c Hk%Hl. rewrite Hc, Hr. by apply (H2 k).
Qed.

Lemma answered_mono recv recv' c resp :
  (forall x, x ∈ recv -> x ∈ recv') -> answered recv c resp -> answered recv' c resp.
Proof. intros H [[k Hk] ?]. split; [exists k; auto|done]. Qed.

Lemma call_ok_mono recv recv' c :
  (forall x, x ∈ recv -> x ∈ recv') -> call_ok recv c -> call_ok recv' c.
Proof.
  intros H [H1 H2 H3]. split; [done|..].
  - intros resp Hr. destruct (H2 resp Hr) as [? [?|?]]; split; auto. right. by eapply answered_mono.
  - intros p Hp. destruct (H3 p Hp) as (resp & ? & ?). exists resp. split; [by eapply answered_mono|done].
Qed.

Ltac set_loop_old :=
  intros ? ? ? Hold; cbn [loops set_cl set_call set_loop] in Hold;
  first [done | apply lookup_insert_Some in Hold as [[_ Hold]|[_ Hold]]; [discriminate Hold|done]].

Lemma routed_read w k msg w' :
  loops w !! k = Some LReading -> owned_once w -> routed w ->
  w' = match dispatch msg with
       | InResponse resp =>
         let '(c, target) := deliverResponse resp (cl w) in
         log_received k resp
           (set_cl c (match target with Some ch => set_loop k (LSending resp ch) w | None => w end))
       | InEvent e => mkWorld (cl w) (calls w) (loops w) (closers w) (next_conn w) (connects w)
                        (written w) (received w) (handled w ++ call_handler (cl w) e)
       | InIgnored => w
       end -> routed w'.
Proof.
  intros Hk Ho Hr ->. destruct (dispatch msg) as [resp|e|]; [| |done].
  2:{ by apply (routed_same w). }
  assert (Hin : forall x, x ∈ received w -> x ∈ (received w ++ [(k, resp)])%list).
  { intros x. rewrite elem_of_app. auto. }
  unfold deliverResponse. destruct Hr as [H1 H2].
  destruct (pending (cl w) !! rf_ID resp) as [ch|] eqn:Ep; split; simpl.
  - intros i c Hc. eapply call_ok_mono; [exact Hin|by eapply H1].
  - intros k' resp' ch' c [[<- [= <- <-]]|[_ Hl]]%lookup_insert_Some Hc.
    + split; [exists k; apply elem_of_app; right; left|]. by apply (ow_id w Ho _ ch).
    + eapply answered_mono; [exact Hin|]. by eapply H2.
  - intros i c Hc. eapply call_ok_mono; [exact Hin|by eapply H1].
  - intros k' resp' ch' c Hl Hc. eapply answered_mono; [exact Hin|]. by eapply H2.
Qed.

(** ** IDs *)

Definition past_conn (c : call) : bool := match c_phase c with PConn _ => false | _ => true end.

Definition taken (cs : list call) : nat := length (List.filter past_conn cs).

Lemma taken_insert cs i c c' :
  cs !! i = Some c -> past_conn c' = true ->
  taken (<[i := c']> cs) = if past_conn c then taken cs else S (taken cs).
Proof.
  intros Hi Hp.
  assert (Hold : taken cs = taken (take i cs ++ c :: drop (S i) cs)) by by rewrite take_drop_middle.
  rewrite Hold, insert_take_drop by (by eapply lookup_lt_Some). unfold taken.
  rewrite !List.filter_app, !length_app. cbn [List.filter]. rewrite Hp.
  destruct (past_conn c); cbn [length]; lia.
Qed.

Lemma taken_le cs : (taken cs <= length cs)%nat.
Proof. apply List.filter_length_le. Qed.

(** Few enough calls for the counter not to wrap round. *)
Definition few_calls (w : world) : Prop := (Z.of_nat (length (calls w)) + 2 <= MaxInt64)%Z.

Record issued (w : world) : Prop := {
  is_dom k l : loops w !! k = Some l -> (k < next_conn w)%nat;
  is_range : (0 <= nextID (cl w) <= 1 + Z.of_nat (taken (calls w)))%Z;
  is_epoch i c id : calls w !! i = Some c -> c_id c = Some id ->
    (c_epoch c <= connects w)%nat /\
    (c_epoch c = connects w -> exists n, id = Itoa n /\ (n <= nextID (cl w))%Z);
  is_unique i j ci cj id : calls w !! i = Some ci -> calls w !! j = Some cj ->
    c_id ci = Some id -> c_id cj = Some id -> c_epoch ci = c_epoch cj -> i = j
}.

Lemma issued_set_call w w' i c c' :
  calls w !! i = Some c -> calls w' = <[i := c']> (calls w) -> past_conn c' = true ->
  c_id c' = c_id c -> c_epoch c' = c_epoch c ->
  nextID (cl w') = nextID (cl w) -> connects w' = connects w ->
  (forall k l, loops w' !! k = Some l -> (k < next_conn w')%nat) -> issued w -> issued w'.
Proof.
  intros Hi Hcs Hpc Hid He Hn Hco Hl [H1 H2 H3 H4].
  assert (Hback : forall j cj, calls w' !! j = Some cj -> exists cj0, calls w !! j = Some cj0 /\
            c_id cj = c_id cj0 /\ c_epoch cj = c_epoch cj0).
  { intros j cj. rewrite Hcs, (calls_insert _ _ _ _ _ Hi). case_decide; [|by exists cj].
    intros [= <-]. subst j. by exists c. }
  split; [done|..].
  - rewrite Hn, Hcs, (taken_insert _ _ _ _ Hi Hpc). destruct (past_conn c); lia.
  - intros j cj id (cj0 & Hj & -> & ->)%Hback. rewrite Hn, Hco. by apply (H3 j).
  - intros j k cj ck id (cj0 & Hj & -> & ->)%Hback (ck0 & Hk & -> & ->)%Hback. by apply (H4 _ _ _ _ id).
Qed.

Lemma issued_same w w' :
  calls w' = calls w -> nextID (cl w') = nextID (cl w) -> connects w' = connects w ->
  (forall k l, loops w' !! k = Some l -> (k < next_conn w')%nat) -> issued w -> issued w'.
Proof.
  intros Hc Hn Hco Hl [H1 H2 H3 H4]. split; [done|..]; rewrite ?Hc, ?Hn, ?Hco; auto.
Qed.

Lemma issued_connect w url h c b err :
  Connect url (next_conn w) h (cl w) = (c, b, err) -> issued w ->
  issued (mkWorld c (calls w) (if b : bool then <[next_conn w := LReading]> (loops w) else loops w)
            (closers w) (S (next_conn w)) (if b : bool then S (connects w) else connects w)
            (written w) (received w) (handled w)).
Proof.
  intros Hc [H1 H2 H3 H4].
  assert (Hn : if b then nextID c = 1%Z else nextID c = nextID (cl w)).
  { unfold Connect in Hc. repeat case_match; by simplify_eq. }
  destruct b; (split; simpl; [| | |done]).
  - intros k l [[<- _]|[_ Hl]]%lookup_insert_Some; [lia|]. specialize (H1 _ _ Hl). lia.
  - rewrite Hn. lia.
  - intros i ci id Hi Hid. destruct (H3 i ci id Hi Hid) as [He _]. split; [lia|]. intros. lia.
  - intros k l Hl. specialize (H1 _ _ Hl). lia.
  - by rewrite Hn.
  - rewrite Hn. done.
Qed.

Lemma Itoa_inj a b : Itoa a = Itoa b -> a = b.
Proof. apply (inj pretty). Qed.

Lemma issued_add_id w i c k cl' id :
  calls w !! i = Some c -> c_phase c = PConn k -> add_id (cl w) = (cl', id) -> few_calls w ->
  issued w -> issued (set_cl cl' (set_call i (at_phase (with_id c id (connects w)) (PId k)) w)).
Proof.
  intros Hi Hp [= <- <-] Hfew [H1 H2 H3 H4].
  pose proof (taken_le (calls w)) as Hle. unfold few_calls in Hfew.
  rewrite wrap64_small by (unfold MinInt64; lia).
  assert (Hcs : forall j cj, calls (set_call i (at_phase (with_id c (Itoa (nextID (cl w) + 1)) (connects w))
                   (PId k)) w) !! j = Some cj ->
            (j = i /\ c_id cj = Some (Itoa (nextID (cl w) + 1)) /\ c_epoch cj = connects w) \/
            (j <> i /\ calls w !! j = Some cj)).
  { intros j cj. cbn [calls set_call]. rewrite (calls_insert _ _ _ _ _ Hi).
    case_decide; [intros [= <-]; by left|by right]. }
  assert (Hnew : forall j cj, calls w !! j = Some cj -> c_epoch cj = connects w ->
            c_id cj <> Some (Itoa (nextID (cl w) + 1))).
  { intros j cj Hj He Hid. destruct (H3 j cj _ Hj Hid) as [_ Hn].
    destruct (Hn He) as (n & Hn1%Itoa_inj & Hn2). lia. }
  split.
  - apply H1.
  - cbn [cl set_cl nextID calls set_call]. rewrite (taken_insert _ _ _ _ Hi) by done.
    unfold past_conn. rewrite Hp. lia.
  - intros j cj id' [(-> & -> & ->)|[Hne Hj]]%Hcs Hid; cbn [connects set_cl set_call cl nextID].
    + split; [done|]. intros _. injection Hid as <-. eexists. split; [done|lia].
    + destruct (H3 j cj id' Hj Hid) as [He Hn]. split; [done|]. intros Heq.
      destruct (Hn Heq) as (n & -> & Hle'). exists n. split; [done|lia].
  - intros a b ca cb id' [(-> & Hia & Hea)|[Hna Ha]]%Hcs [(-> & Hib & Heb)|[Hnb Hb]]%Hcs Hida Hidb Hep;
      [done| | |by eapply H4].
    + exfalso. eapply (Hnew b cb Hb); congruence.
    + exfalso. eapply (Hnew a ca Ha); congruence.
Qed.

(** ** Every step keeps the invariants *)

Lemma step_calls w w' : step w w' -> (length (calls w) <= length (calls w'))%nat.
Proof.
  destruct 1; simpl; rewrite ?length_insert, ?length_app; simpl; try lia.
  destruct (dispatch msg) as [r| |]; simpl; try lia. unfold deliverResponse.
  destruct (pending (cl w) !! rf_ID r); simpl; lia.
Qed.

Lemma step_owned w w' : routed w -> owned_once w -> step w w' -> owned_once w'.
Proof.
  intros Hr Ho. destruct 1 as [url h c b err Hc|m ps|i c k cl' id Hi Hp Hid|i c k Hi Hp|i c k Hi Hp
    |i c k e Hi Hp|i c k e Hi Hp|i c k e Hi Hp|i c resp Hi Hp Hch|i c e Hi Hp|i c e Hi Hp
    |k msg Hk|k resp ch c Hk Hi Hch|k e Hk|k e c ws Hk Ht|k e l1 l2 id ch c Hk Hi Hch|k e Hk|k Hk|k l1 l2 Hk Hl|h].
  - by eapply owned_connect.
  - by apply owned_new_call.
  - injection Hid as <- <-. by eapply owned_add_id.
  - pose proof (ro_calls w Hr i c Hi) as [Hid Hchan _]. rewrite Hp in Hid.
    eapply owned_register; [done|done| |done|done].
    destruct (c_chan c) as [r|]; [|done]. destruct (Hchan r eq_refl) as [Hs _].
    unfold started in Hs. by rewrite Hp in Hs.
  - eapply (owned_set_call w); [done|done|done|done|done|by apply owns_same|apply Ho|done].
  - eapply (owned_set_call w); [done|done|done|done|done|by apply owns_same|apply Ho|done].
  - eapply (owned_set_call w); [done|done|done|done|done|by eapply owns_unregister|apply Ho|done].
  - eapply (owned_set_call w); [done|done|done|done|done| |apply Ho|done].
    apply owns_same; [|done]. cbn. unfold clearConnIfSame. by case_bool_decide.
  - (* a call with an answer owns nothing *)
    apply (owned_weaken w); [by apply owns_same|apply Ho| |done].
    intros s j cj Hs Hj. cbn [calls set_call]. rewrite (calls_insert _ _ _ _ _ Hi).
    case_decide as Hd; [|by exists cj]. subst j. exfalso.
    assert (Hs' : owns w s i) by by destruct s.
    destruct (ow_call w Ho s i Hs') as (c' & ? & ? & _). congruence.
  - eapply (owned_set_call w); [done|done|done|done|done|by apply owns_same|apply Ho|done].
  - eapply (owned_set_call w); [done|done|done|done|done|by eapply owns_unregister|apply Ho|done].
  - by apply owned_read.
  - eapply owned_send; [done|done|by left|by intros ? ?%not_elem_of_nil|constructor|done].
  - apply (owned_weaken w); [|eapply nodup_set_loop; [done|constructor|done]|by intros s i c _ H; exists c|done].
    eapply owns_set_loop; [done|done|]. by intros i ?%not_elem_of_nil.
  - replace c with (take_pending (cl w)).1 by by rewrite Ht.
    replace ws with (take_pending (cl w)).2 by by rewrite Ht. by apply owned_cancel.
  - pose proof (ow_nodup w Ho _ _ Hk) as Hnd. cbn [targets] in Hnd.
    rewrite map_app in Hnd. cbn [map] in Hnd.
    apply NoDup_app in Hnd as (Hn1 & Hn2 & Hn3). apply NoDup_cons in Hn3 as [Hn3 Hn4].
    eapply owned_send; [done|done| | | |done]; cbn [targets]; rewrite ?map_app; cbn [map].
    + apply elem_of_app. right. left.
    + intros j. rewrite !elem_of_app, elem_of_cons. intros [Hj|Hj]; split; auto.
      * intros ->. apply (Hn2 _ Hj). left.
      * by intros ->.
    + apply NoDup_app. split; [done|]. split; [|done]. intros j Hj Hj'. apply (Hn2 j Hj). by right.
  - apply (owned_weaken w); [|eapply nodup_set_loop; [done|constructor|done]|by intros s i c _ H; exists c|done].
    eapply (owns_set_loop _ _ k LExited); [|done|by intros i ?%not_elem_of_nil].
    cbn. unfold clearConnIfSame. by case_bool_decide.
  - apply (owned_weaken w); [by apply owns_same|apply Ho|by intros s i c _ H; exists c|done].
  - apply (owned_weaken w); [by apply owns_same|apply Ho|by intros s i c _ H; exists c|done].
  - apply (owned_weaken w); [by apply owns_same|apply Ho|by intros s i c _ H; exists c|done].
Qed.

(** The facts of a call after a change of phase. *)
Lemma call_ok_phase recv c p :
  call_ok recv c ->
  match p with PConn _ => False | PReturned _ => True | _ => is_Some (c_id c) end ->
  (started c -> started (at_phase c p)) -> (forall q, p <> PReturned (Ok q)) ->
  call_ok recv (at_phase c p).
Proof.
  intros [H1 H2 H3] Hid Hst Hp. split; cbn.
  - by destruct p.
  - intros resp Hr. destruct (H2 resp Hr) as [? ?]. split; auto.
  - intros q Hq. by destruct (Hp q).
Qed.

Lemma step_routed w w' : owned_once w -> routed w -> step w w' -> routed w'.
Proof.
  intros Ho Hr. pose proof (ro_calls w Hr) as Hok.
  destruct 1 as [url h c b err Hc|m ps|i c k cl' id Hi Hp Hid|i c k Hi Hp|i c k Hi Hp
    |i c k e Hi Hp|i c k e Hi Hp|i c k e Hi Hp|i c resp Hi Hp Hch|i c e Hi Hp|i c e Hi Hp
    |k msg Hk|k resp ch c Hk Hi Hch|k e Hk|k e c ws Hk Ht|k e l1 l2 id ch c Hk Hi Hch|k e Hk|k Hk|k l1 l2 Hk Hl|h];
    try (pose proof (Hok _ _ Hi) as Hci; pose proof (co_id _ _ Hci) as Hsome; try rewrite Hp in Hsome).
  - apply (routed_same w); [done|done| |done]. destruct b; [set_loop_old|done].
  - destruct Hr as [H1 H2]. split; simpl.
    + intros i c. rewrite lookup_app_Some. intros [Hi|[_ Hi]]; [by eapply H1|].
      apply list_lookup_singleton_Some in Hi as [_ <-].
      split; simpl; [by destruct (conn (cl w))|done|]. intros p. by destruct (conn (cl w)).
    + intros k resp ch c Hk. rewrite lookup_app_Some. intros [Hi|[Hge Hi]]; [by eapply H2|].
      exfalso. destruct (ow_call w Ho (inr k) ch) as (c' & Hc' & _).
      { exists (LSending resp ch). split; [done|left]. }
      apply lookup_lt_Some in Hc'. lia.
  - injection Hid as <- <-. destruct Hr as [H1 H2]. split; cbn.
    + intros j cj. rewrite (calls_insert _ _ _ _ _ Hi). case_decide; [|apply H1]. intros [= <-].
      split; cbn; [done| |done]. intros resp Hr. destruct (co_chan _ _ Hci resp Hr) as [Hs _].
      unfold started in Hs. by rewrite Hp in Hs.
    + intros k' resp ch cj Hk. rewrite (calls_insert _ _ _ _ _ Hi). case_decide; [|by eapply H2].
      subst ch. exfalso. apply (owned_not_started w (inr k') i c Ho Hi).
      * unfold started. rewrite Hp. by intros [].
      * exists (LSending resp i). split; [done|left].
  - eapply (routed_set_call w); [done|done|done|done| |done|done]. by apply call_ok_phase.
  - eapply (routed_set_call w); [done|done|done|done| |done|done]. by apply call_ok_phase.
  - eapply (routed_set_call w); [done|done|done|done| |done|done]. by apply call_ok_phase.
  - eapply (routed_set_call w); [done|done|done|done| |done|done]. by apply call_ok_phase.
  - eapply (routed_set_call w); [done|done|done|done| |done|done]. by apply call_ok_phase.
  - eapply (routed_set_call w); [done|done|done|done| |done|done]. split; cbn; [done|done|].
    intros p Hret. injection Hret as Hret. unfold call_result in Hret.
    destruct (rf_OK resp) eqn:Eok; [|done]. injection Hret as <-.
    destruct (co_chan _ _ Hci resp Hch) as [_ [Hf|Ha]]; [congruence|]. by exists resp.
  - eapply (routed_set_call w); [done|done|done|done| |done|done]. by apply call_ok_phase.
  - eapply (routed_set_call w); [done|done|done|done| |done|done]. by apply call_ok_phase.
  - by eapply routed_read.
  - eapply (routed_set_call w); [done|done|done|done| |set_loop_old|done].
    destruct (ow_call w Ho (inr k) ch) as (c' & Hc' & _ & Hst).
    { exists (LSending resp ch). split; [done|left]. }
    assert (c' = c) as -> by congruence.
    split; cbn; [apply Hci| |apply Hci]. intros r [= <-]. split; [done|]. right. exact (ro_send w Hr _ _ _ _ Hk Hi).
  - apply (routed_same w); [done|done|set_loop_old|done].
  - apply (routed_same w); [done|done|set_loop_old|done].
  - eapply (routed_set_call w); [done|done|done|done| |set_loop_old|done].
    destruct (ow_call w Ho (inr k) ch) as (c' & Hc' & _ & Hst).
    { eexists. split; [done|]. cbn. rewrite map_app, elem_of_app. right. left. }
    assert (c' = c) as -> by congruence.
    split; cbn; [apply Hci| |apply Hci]. intros r [= <-]. split; [done|by left].
  - apply (routed_same w); [done|done|set_loop_old|done].
  - by apply (routed_same w).
  - by apply (routed_same w).
  - by apply (routed_same w).
Qed.

Lemma dom_set_loop w k l l' :
  loops w !! k = Some l -> issued w ->
  forall k' l2, <[k := l']> (loops w) !! k' = Some l2 -> (k' < next_conn w)%nat.
Proof.
  intros Hk Hs k' l2 [[<- _]|[_ ?]]%lookup_insert_Some; by eapply is_dom.
Qed.

Lemma nextID_clearConn k c : nextID (clearConnIfSame k c) = nextID c.
Proof. unfold clearConnIfSame. by case_bool_decide. Qed.

Lemma started_past w s i c : owned_once w -> owns w s i -> calls w !! i = Some c -> past_conn c = true.
Proof.
  intros Ho Hs Hi. destruct (ow_call w Ho s i Hs) as (c' & Hc' & _ & Hst).
  assert (c' = c) as -> by congruence. unfold started in Hst. unfold past_conn.
  by destruct (c_phase c).
Qed.

Lemma step_issued w w' : few_calls w' -> owned_once w -> issued w -> step w w' -> issued w'.
Proof.
  intros Hfew Ho Hs Hst. assert (Hfew0 : few_calls w).
  { pose proof (step_calls w w' Hst). unfold few_calls in *. lia. }
  clear Hfew. destruct Hst as [url h c b err Hc|m ps|i c k cl' id Hi Hp Hid|i c k Hi Hp|i c k Hi Hp
    |i c k e Hi Hp|i c k e Hi Hp|i c k e Hi Hp|i c resp Hi Hp Hch|i c e Hi Hp|i c e Hi Hp
    |k msg Hk|k resp ch c Hk Hi Hch|k e Hk|k e c ws Hk Ht|k e l1 l2 id ch c Hk Hi Hch|k e Hk|k Hk|k l1 l2 Hk Hl|h].
  - by eapply issued_connect.
  - destruct Hs as [H1 H2 H3 H4].
    assert (Hcs : forall i c id, calls (mkWorld (cl w) (calls w ++ [mkCall m ps
              match conn (cl w) with Some k => PConn k
              | None => PReturned (Err (errorf "ws not connected")) end None 0 None])
              (loops w) (closers w) (next_conn w) (connects w) (written w) (received w) (handled w)) !! i
              = Some c -> c_id c = Some id -> calls w !! i = Some c).
    { intros i c id Hi Hid. cbn in Hi. apply lookup_app_Some in Hi as [?|[_ Hi]]; [done|].
      by apply list_lookup_singleton_Some in Hi as [_ <-]. }
    split; simpl.
    + apply H1.
    + unfold taken. rewrite List.filter_app, length_app. fold (taken (calls w)). lia.
    + intros i c id Hi Hid. eapply H3; [by eapply Hcs|done].
    + intros i j ci cj id Hi Hj Hci Hcj. by apply (H4 i j ci cj id); [eapply Hcs|eapply Hcs|..].
  - by eapply issued_add_id.
  - eapply (issued_set_call w); try done. apply Hs.
  - eapply (issued_set_call w); try done. apply Hs.
  - eapply (issued_set_call w); try done. apply Hs.
  - eapply (issued_set_call w); try done. apply Hs.
  - eapply (issued_set_call w); try done; [apply nextID_clearConn|apply Hs].
  - eapply (issued_set_call w); try done. apply Hs.
  - eapply (issued_set_call w); try done. apply Hs.
  - eapply (issued_set_call w); try done. apply Hs.
  - destruct (dispatch msg) as [r|e|]; [|by apply (issued_same w); [..|apply Hs|]|done].
    unfold deliverResponse. destruct (pending (cl w) !! rf_ID r); apply (issued_same w); try done.
    + by eapply dom_set_loop.
    + apply Hs.
  - eapply (issued_set_call w); try done; [|by eapply dom_set_loop].
    apply (started_past w (inr k) ch c Ho); [|done]. exists (LSending resp ch). split; [done|left].
  - apply (issued_same w); try done. by eapply dom_set_loop.
  - injection Ht as <- <-. apply (issued_same w); try done. by eapply dom_set_loop.
  - eapply (issued_set_call w); try done; [|by eapply dom_set_loop].
    apply (started_past w (inr k) ch c Ho); [|done].
    eexists. split; [done|]. cbn. rewrite map_app, elem_of_app. right. left.
  - apply (issued_same w); try done; [apply nextID_clearConn|by eapply dom_set_loop].
  - by apply (issued_same w); [..|apply Hs|].
  - by apply (issued_same w); [..|apply Hs|].
  - by apply (issued_same w); [..|apply Hs|].
Qed.

(** ** No answer is lost on a connection that lives *)

Definition sound_loop (l : loop_phase) : Prop :=
  match l with LReading | LSending _ _ => True | _ => False end.

(** No read loop has failed. *)
Definition healthy (w : world) : Prop := forall k l, loops w !! k = Some l -> sound_loop l.

(** All IDs were taken under one connection. *)
Definition one_epoch (w : world) : Prop :=
  forall i j ci cj, calls w !! i = Some ci -> calls w !! j = Some cj ->
    is_Some (c_id ci) -> is_Some (c_id cj) -> c_epoch ci = c_epoch cj.

Definition expects (c : call) : bool :=
  match c_phase c with PRegistered _ | PWaiting => true | _ => false end.

(** A call that expects an answer has it, or its channel is held. *)
Definition expecting (w : world) : Prop :=
  forall i c, calls w !! i = Some c -> expects c = true ->
    is_Some (c_chan c) \/ exists s, owns w s i.

Lemma step_healthy w w' : issued w -> step w w' -> healthy w' -> healthy w.
Proof.
  intros Hs Hst Hh k l Hk.
  assert (Hset : forall k2 l1 l2, loops w !! k2 = Some l1 ->
            loops w' = <[k2 := l2]> (loops w) -> (sound_loop l2 -> sound_loop l1) -> sound_loop l).
  { intros k2 l1 l2 Hk2 Hl Himp. destruct (decide (k = k2)) as [->|Hne].
    - assert (l = l1) as -> by congruence. apply Himp, (Hh k2). rewrite Hl. apply lookup_insert_eq.
    - apply (Hh k). rewrite Hl. by rewrite lookup_insert_ne. }
  destruct Hst as [url h c b err Hc| | | | | | | | | | |k2 msg Hk2|k2 resp ch c Hk2 Hi Hch|k2 e Hk2
    |k2 e c ws Hk2 Ht|k2 e l1 l2 id ch c Hk2 Hi Hch|k2 e Hk2| | | ]; try by apply (Hh k).
  - destruct b; [|by apply (Hh k)]. apply (Hh k). cbn. rewrite lookup_insert_ne; [done|].
    pose proof (is_dom w Hs _ _ Hk). lia.
  - revert Hh Hset. destruct (dispatch msg) as [r| |]; try (intros Hh _; by apply (Hh k)).
    unfold deliverResponse. destruct (pending (cl w) !! rf_ID r); intros Hh Hset; [|by apply (Hh k)].
    by eapply (Hset _ _ _ Hk2); [reflexivity|].
  - by eapply (Hset _ _ _ Hk2); [reflexivity|].
  - by eapply (Hset _ _ _ Hk2); [reflexivity|].
  - by eapply (Hset _ _ _ Hk2); [reflexivity|].
  - by eapply (Hset _ _ _ Hk2); [reflexivity|].
  - by eapply (Hset _ _ _ Hk2); [reflexivity|].
Qed.

(** IDs and epochs are never changed. *)
Lemma step_keeps_id w w' i c :
  routed w -> step w w' -> calls w !! i = Some c -> is_Some (c_id c) ->
  exists c', calls w' !! i = Some c' /\ c_id c' = c_id c /\ c_epoch c' = c_epoch c.
Proof.
  intros Hr Hst Hc Hid.
  assert (Hset : forall j cj cj', calls w !! j = Some cj -> calls w' = <[j := cj']> (calls w) ->
            c_id cj' = c_id cj -> c_epoch cj' = c_epoch cj ->
            exists c', calls w' !! i = Some c' /\ c_id c' = c_id c /\ c_epoch c' = c_epoch c).
  { intros j cj cj' Hj Hcs H1 H2. rewrite Hcs, (calls_insert _ _ _ _ _ Hj).
    case_decide as Hd; [|by exists c]. subst j. exists cj'. assert (cj = c) as -> by congruence. done. }
  destruct Hst as [|m ps|j cj k cl' id Hj Hp Ha|j cj k Hj Hp|j cj k Hj Hp|j cj k e Hj Hp|j cj k e Hj Hp
    |j cj k e Hj Hp|j cj r Hj Hp Hch|j cj e Hj Hp|j cj e Hj Hp|k msg Hk|k r ch cj Hk Hj Hch| |
    |k e l1 l2 id ch cj Hk Hj Hch| | | | ];
    try (by exists c); try (by eapply (Hset _ _ _ Hj); [reflexivity|..]).
  - exists c. split; [by apply lookup_app_l_Some|done].
  - exists c. cbn. rewrite (calls_insert _ _ _ _ _ Hj). case_decide as Hd; [|done]. subst j. exfalso.
    pose proof (co_id _ _ (ro_calls w Hr i cj Hj)) as Hno. rewrite Hp in Hno.
    assert (cj = c) as -> by congruence. rewrite Hno in Hid. by destruct Hid.
  - exists c. destruct (dispatch msg) as [r| |]; [|done|done]. unfold deliverResponse.
    by destruct (pending (cl w) !! rf_ID r).
Qed.

(** A channel that the step keeps held stays held. *)
Lemma expecting_set_call w w' i c c' :
  calls w !! i = Some c -> calls w' = <[i := c']> (calls w) ->
  (expects c' = true -> is_Some (c_chan c') \/ (expects c = true /\ c_chan c' = c_chan c)) ->
  (forall s j cj, calls w' !! j = Some cj -> expects cj = true -> owns w s j ->
     exists s', owns w' s' j) ->
  expecting w -> expecting w'.
Proof.
  intros Hi Hcs Hc Hown He j cj Hj Hx. pose proof Hj as Hj'. rewrite Hcs, (calls_insert _ _ _ _ _ Hi) in Hj'.
  case_decide as Hd.
  - subst j. injection Hj' as ->. destruct (Hc Hx) as [?|[Hx' Heq]]; [by left|].
    destruct (He i c Hi Hx') as [?|[s Hs]]; [left; by rewrite Heq|right; by eapply Hown].
  - destruct (He j cj Hj' Hx) as [?|[s Hs]]; [by left|right; by eapply Hown].
Qed.

Lemma expecting_same w w' :
  calls w' = calls w -> (forall s j, owns w s j -> exists s', owns w' s' j) ->
  expecting w -> expecting w'.
Proof.
  intros Hc Hown He i c. rewrite Hc. intros Hi Hx.
  destruct (He i c Hi Hx) as [?|[s Hs]]; [by left|right; by eapply Hown].
Qed.

Lemma owns_keep w w' :
  pending (cl w') = pending (cl w) -> loops w' = loops w ->
  forall s j, owns w s j -> exists s', owns w' s' j.
Proof. intros Hp Hl s j Hs. exists s. destruct s; simpl in *; by rewrite ?Hp, ?Hl. Qed.

(** With one epoch, removing or replacing an entry under the call's own ID leaves the
    entries of the others. *)
Lemma expects_id recv c : call_ok recv c -> expects c = true -> is_Some (c_id c).
Proof. intros [Hid _ _]. unfold expects. by destruct (c_phase c). Qed.

Lemma owns_other w w' i c p :
  issued w -> one_epoch w -> owned_once w -> calls w !! i = Some c -> is_Some (c_id c) ->
  loops w' = loops w ->
  (forall id, id <> id_of c -> pending (cl w) !! id = p id -> pending (cl w') !! id = p id) ->
  p = (fun id => pending (cl w) !! id) ->
  forall s j, j <> i -> owns w s j -> exists s', owns w' s' j.
Proof.
  intros His Hone Ho Hi Hid Hl Hp -> [id|k] j Hne Hs.
  - exists (inl id). simpl in *. rewrite Hp; [done| |done]. intros ->.
    destruct (ow_call w Ho (inl (id_of c)) j Hs) as (cj & Hj & _).
    pose proof (ow_id w Ho _ _ _ Hs Hj) as Hidj.
    apply Hne. apply (is_unique w His j i cj c (id_of c)); [done|done|done| |].
    + unfold id_of. by destruct Hid as [? ->].
    + apply (Hone j i); [done|done|by rewrite Hidj|done].
  - exists (inr k). simpl in *. by rewrite Hl.
Qed.

Lemma step_expecting w w' :
  few_calls w -> routed w -> owned_once w -> issued w -> healthy w' -> one_epoch w -> expecting w ->
  step w w' -> expecting w'.
Proof.
  intros Hfew Hr Ho Hs Hh Hone He Hst. pose proof (ro_calls w Hr) as Hok.
  destruct Hst as [url h c b err Hc|m ps|i c k cl' id Hi Hp Hid|i c k Hi Hp|i c k Hi Hp
    |i c k e Hi Hp|i c k e Hi Hp|i c k e Hi Hp|i c resp Hi Hp Hch|i c e Hi Hp|i c e Hi Hp
    |k msg Hk|k resp ch c Hk Hi Hch|k e Hk|k e c ws Hk Ht|k e l1 l2 id ch c Hk Hi Hch|k e Hk|k Hk|k l1 l2 Hk Hl|h];
    try (pose proof (co_id _ _ (Hok _ _ Hi)) as Hsome; try rewrite Hp in Hsome).
  - apply (expecting_same w); [done| |done]. intros s j Hs'. exists s.
    destruct s as [id|k]; simpl in *; [by rewrite (Connect_pending _ _ _ _ _ _ _ Hc)|].
    destruct b; [|done]. destruct Hs' as (l & Hl & Hj). exists l. split; [|done].
    rewrite lookup_insert_ne; [done|]. pose proof (is_dom w Hs _ _ Hl). lia.
  - intros i c Hi Hx. cbn in Hi. apply lookup_app_Some in Hi as [Hi|[_ Hi]].
    + destruct (He i c Hi Hx) as [?|[s Hs']]; [by left|right; by exists s].
    + apply list_lookup_singleton_Some in Hi as [_ <-]. unfold expects in Hx. simpl in Hx.
      by destruct (conn (cl w)).
  - injection Hid as <- <-. eapply (expecting_set_call w); [done|reflexivity|done| |done].
    intros s j cj _ _. by apply owns_keep.
  - intros j cj Hj Hx. destruct (decide (j = i)) as [->|Hne].
    + right. exists (inl (id_of c)). simpl. by rewrite lookup_insert_eq.
    + cbn in Hj. rewrite (calls_insert _ _ _ _ _ Hi), decide_False in Hj by done.
      destruct (He j cj Hj Hx) as [?|[s Hs']]; [by left|right].
      eapply (owns_other w _ i c); [done..| | |done|exact Hs']; [|done].
      intros id Hne' Hl. cbn. by rewrite lookup_insert_ne.
  - eapply (expecting_set_call w); [done|reflexivity| | |done].
    + intros _. right. unfold expects. by rewrite Hp.
    + intros s j cj _ _. by apply owns_keep.
  - eapply (expecting_set_call w); [done|reflexivity|done| |done].
    intros s j cj _ _. by apply owns_keep.
  - eapply (expecting_set_call w); [done|reflexivity|done| |done].
    intros s j cj Hj Hx Hown. eapply (owns_other w _ i c); [done..| | | |exact Hown]; [|done|].
    + intros id Hne' Hl. cbn. by rewrite lookup_delete_ne.
    + intros ->. cbn in Hj. rewrite (calls_insert _ _ _ _ _ Hi), decide_True in Hj by done. by simplify_eq.
  - eapply (expecting_set_call w); [done|reflexivity|done| |done].
    intros s j cj _ _. apply owns_keep; [|done]. cbn. unfold clearConnIfSame. by case_bool_decide.
  - eapply (expecting_set_call w); [done|reflexivity|done| |done].
    intros s j cj _ _. by apply owns_keep.
  - eapply (expecting_set_call w); [done|reflexivity|done| |done].
    intros s j cj _ _. by apply owns_keep.
  - eapply (expecting_set_call w); [done|reflexivity|done| |done].
    intros s j cj Hj Hx Hown. eapply (owns_other w _ i c); [done..| | | |exact Hown]; [|done|].
    + intros id Hne' Hl. cbn. by rewrite lookup_delete_ne.
    + intros ->. cbn in Hj. rewrite (calls_insert _ _ _ _ _ Hi), decide_True in Hj by done. by simplify_eq.
  - clear Hh. destruct (dispatch msg) as [r|e|]; [|by apply (expecting_same w); [|apply owns_keep|]|done].
    unfold deliverResponse. destruct (pending (cl w) !! rf_ID r) as [ch|] eqn:Ep.
    2:{ by apply (expecting_same w); [|apply owns_keep|]. }
    apply (expecting_same w); [done| |done]. intros [id|k2] j Hs'; simpl in Hs'.
    + destruct (decide (id = rf_ID r)) as [->|Hne].
      * exists (inr k). assert (j = ch) as -> by congruence. exists (LSending r ch).
        split; [cbn; by rewrite lookup_insert_eq|left].
      * exists (inl id). cbn. by rewrite lookup_delete_ne.
    + exists (inr k2). destruct Hs' as (l & Hl & Hj). exists l. split; [|done]. cbn.
      rewrite lookup_insert_ne; [done|]. intros <-. assert (l = LReading) as -> by congruence.
      by apply not_elem_of_nil in Hj.
  - intros j cj Hj Hx. cbn in Hj. rewrite (calls_insert _ _ _ _ _ Hi) in Hj. case_decide as Hd.
    { injection Hj as <-. left. done. }
    destruct (He j cj Hj Hx) as [?|[s Hs']]; [by left|right]. exists s.
    destruct s as [id|k2]; [done|]. destruct Hs' as (l & Hl & Hjl). exists l. split; [|done]. cbn.
    rewrite lookup_insert_ne; [done|]. intros <-. assert (l = LSending resp ch) as -> by congruence.
    apply list_elem_of_singleton in Hjl. congruence.
  - specialize (Hh k). cbn in Hh. rewrite lookup_insert_eq in Hh. by destruct (Hh _ eq_refl).
  - specialize (Hh k). cbn in Hh. rewrite lookup_insert_eq in Hh. by destruct (Hh _ eq_refl).
  - specialize (Hh k). cbn in Hh. rewrite lookup_insert_eq in Hh. by destruct (Hh _ eq_refl).
  - specialize (Hh k). cbn in Hh. rewrite lookup_insert_eq in Hh. by destruct (Hh _ eq_refl).
  - by apply (expecting_same w); [|apply owns_keep|].
  - by apply (expecting_same w); [|apply owns_keep|].
  - by apply (expecting_same w); [|apply owns_keep|].
Qed.

Record inv (w : world) : Prop := {
  inv_owned : owned_once w;
  inv_routed : routed w;
  inv_issued : few_calls w -> issued w;
  inv_expecting : few_calls w -> healthy w -> one_epoch w -> expecting w
}.

Lemma owns_init s i : ~ owns init s i.
Proof. destruct s; simpl; [by rewrite lookup_empty|]. intros (l & Hl & _). by rewrite lookup_empty in Hl. Qed.

Lemma inv_init : inv init.
Proof.
  assert (Hno : forall i c, ~ calls init !! i = Some c) by by intros [].
  assert (Hl : forall k l, ~ loops init !! k = Some l).
  { intros k l. simpl. by rewrite lookup_empty. }
  split.
  - split.
    + by intros s i ?%owns_init.
    + by intros id i c ?%owns_init.
    + by intros s s' i ?%owns_init.
    + by intros k l ?%Hl.
  - split; [by intros i c ?%Hno|by intros k r ch c ?%Hl].
  - intros _. split; [by intros k l ?%Hl|simpl; lia|by intros i c id ?%Hno|by intros i j ci cj id ?%Hno].
  - by intros _ _ _ i c ?%Hno.
Qed.

Lemma inv_step w w' : inv w -> step w w' -> inv w'.
Proof.
  intros [Ho Hr Hs He] Hst. pose proof (step_calls w w' Hst) as Hlen.
  assert (Hfew : few_calls w' -> few_calls w) by (unfold few_calls; lia).
  split; [by eapply step_owned|by eapply step_routed|intros Hf; by eapply step_issued; auto|].
  intros Hf Hh Hone. assert (Hone' : one_epoch w).
  { intros i j ci cj Hi Hj Hci Hcj.
    destruct (step_keeps_id w w' i ci Hr Hst Hi Hci) as (ci' & Hi' & Hid1 & <-).
    destruct (step_keeps_id w w' j cj Hr Hst Hj Hcj) as (cj' & Hj' & Hid2 & <-).
    apply (Hone i j); [done|done|by rewrite Hid1|by rewrite Hid2]. }
  assert (Hh0 : healthy w) by (eapply step_healthy; eauto).
  apply (step_expecting w w'); auto.
Qed.

Lemma inv_reachable w : reachable w -> inv w.
Proof.
  unfold reachable. intros Hr. revert Hr. apply (rtc_ind_r inv); [apply inv_init|].
  intros ???. intros. by eapply inv_step.
Qed.

(** C33: in every reachable state of the client and its goroutines: a call that returned a
    payload took it from a response frame, marked OK, that some read loop read and that
    carries the call's own ID; calls that took their IDs under the same connection have
    different ones, so no two of them share an answer; and a read loop that is about to
    send to a call finds its one-place channel empty, so it never blocks. *)
Theorem ws_calls_routed w :
  reachable w ->
  (forall i c p, calls w !! i = Some c -> c_phase c = PReturned (Ok p) ->
     exists k resp, (k, resp) ∈ received w /\ c_id c = Some (rf_ID resp) /\
                    rf_OK resp = true /\ p = rf_Payload resp) /\
  (few_calls w -> forall i j ci cj, calls w !! i = Some ci -> calls w !! j = Some cj ->
     is_Some (c_id ci) -> c_id ci = c_id cj -> c_epoch ci = c_epoch cj -> i = j) /\
  (forall k l ch, loops w !! k = Some l -> ch ∈ targets l ->
     exists c, calls w !! ch = Some c /\ c_chan c = None).
Proof.
  intros [Ho Hr Hs _]%inv_reachable. split; [|split].
  - intros i c p Hi Hp. destruct (co_ret _ _ (ro_calls w Hr i c Hi) p Hp) as (resp & [[k Hk] Hid] & ? & ?).
    by exists k, resp.
  - intros Hf i j ci cj Hi Hj [id Hid] Heq Hep.
    by apply (is_unique w (Hs Hf) i j ci cj id); [..|congruence|].
  - intros k l ch Hl Hch. destruct (ow_call w Ho (inr k) ch) as (c & ? & ? & _); [by exists l|].
    by exists c.
Qed.

(** C34: while no read loop has failed, and all IDs were taken under one connection, a
    call that has registered and not returned has its answer in its channel, or is in
    the pending map under its ID, or is the one a read loop is about to send to: no
    answer is lost, however the goroutines interleave. *)
Theorem ws_answers_not_lost w i c :
  reachable w -> few_calls w -> healthy w -> one_epoch w ->
  calls w !! i = Some c -> expects c = true ->
  is_Some (c_chan c) \/ pending (cl w) !! id_of c = Some i \/
  (exists k resp, loops w !! k = Some (LSending resp i)).
Proof.
  intros [Ho _ _ He]%inv_reachable Hf Hh Hone Hi Hx.
  destruct (He Hf Hh Hone i c Hi Hx) as [?|[[id|k] Hs]]; [by left| |]; right.
  - left. pose proof (ow_id w Ho _ _ _ Hs Hi) as Hid. unfold id_of. by rewrite Hid.
  - right. destruct Hs as (l & Hl & Hin). specialize (Hh k l Hl). exists k.
    destruct l as [|resp ch| | |]; try done; [by apply not_elem_of_nil in Hin|].
    apply list_elem_of_singleton in Hin as ->. by exists resp.
Qed.

(** ** Runs *)

Lemma reach_step w w' : reachable w -> step w w' -> reachable w'.
Proof. apply rtc_r. Qed.

Definition ok_handshake : handshake := Answered (mkResponse "res" "1" true None None).

Definition ex_answer : string := js "{'type':'res','id':'2','ok':true,'payload':[1, 2]}".

(** Connected, with one call registered and its request written. *)
Definition ex_waiting : world :=
  mkWorld (mkClient (Some 0%nat) 2 {["2" := 0%nat]} (Some 0%nat) None)
    [mkCall "cron.list" None PWaiting (Some "2") 1 None] {[0%nat := LReading]} [] 1 1
    [(0%nat, mkRequest "req" "2" "cron.list" None)] [] [].

Lemma ex_waiting_reachable : reachable ex_waiting.
Proof.
  unfold reachable.
  eapply rtc_l. { eapply (s_connect _ "ws://h/ws" ok_handshake). reflexivity. }
  eapply rtc_l. { apply (s_call _ "cron.list" None). }
  eapply rtc_l. { eapply (s_add_id _ 0); reflexivity. }
  eapply rtc_l. { eapply (s_register _ 0); reflexivity. }
  eapply rtc_l. { eapply (s_write _ 0); reflexivity. }
  apply rtc_refl.
Qed.

Definition ex_response : responseFrame := mkResponse "res" "2" true (Some "[1, 2]") None.

(** The answer has arrived and the call has returned its payload. *)
Definition ex_answered : world :=
  mkWorld (mkClient (Some 0%nat) 2 ∅ (Some 0%nat) None)
    [mkCall "cron.list" None (PReturned (Ok (Some "[1, 2]"))) (Some "2") 1 None]
    {[0%nat := LReading]} [] 1 1
    [(0%nat, mkRequest "req" "2" "cron.list" None)] [(0%nat, ex_response)] [].

Lemma ex_answered_reachable : reachable ex_answered.
Proof.
  unfold reachable; etrans; [apply ex_waiting_reachable|].
  eapply rtc_l. { by apply (s_read _ 0 ex_answer). }
  change (dispatch ex_answer) with (InResponse ex_response).
  eapply rtc_l. { eapply (s_send _ 0); reflexivity. }
  eapply rtc_l. { eapply (s_answer _ 0); reflexivity. }
  apply rtc_refl.
Qed.

Lemma ws_calls_routed_witness :
  reachable ex_answered /\
  (forall i c p, calls ex_answered !! i = Some c -> c_phase c = PReturned (Ok p) ->
     exists k resp, (k, resp) ∈ received ex_answered /\ c_id c = Some (rf_ID resp) /\
                    rf_OK resp = true /\ p = rf_Payload resp).
Proof.
  split; [apply ex_answered_reachable|].
  apply (ws_calls_routed ex_answered), ex_answered_reachable.
Defined.

Lemma ws_answers_not_lost_witness :
  reachable ex_waiting /\
  (exists c, calls ex_waiting !! 0%nat = Some c /\
     (is_Some (c_chan c) \/ pending (cl ex_waiting) !! id_of c = Some 0%nat \/
      exists k resp, loops ex_waiting !! k = Some (LSending resp 0%nat))).
Proof.
  split; [apply ex_waiting_reachable|]. eexists. split; [reflexivity|].
  apply (ws_answers_not_lost ex_waiting); [| | | |reflexivity|reflexivity].
  - apply ex_waiting_reachable.
  - done.
  - intros k l. cbn. by intros [_ <-]%lookup_singleton_Some.
  - intros i j ci cj [_ <-]%list_lookup_singleton_Some [_ <-]%list_lookup_singleton_Some _ _. done.
Defined.

(** ** Where the guarantees end *)

(** [Connect] keeps the connection of a handshake that failed: the client says that it is
    connected, no read loop runs, and the next [Connect] succeeds at once. *)
Lemma failed_handshake_connected url k e c :
  conn c = None ->
  exists c', Connect url k (ReadFailed e) c = (c', false, Some (wrapf "ws connect handshake read: " e "")) /\
    IsConnected c' = true /\
    forall url' k' h, Connect url' k' h c' = (c', false, None).
Proof. intros Hc. unfold Connect. rewrite Hc. eexists. done. Qed.

(** A call that takes its ID after the read loop has emptied the pending map waits for an
    answer nobody will send: the loop has exited and the map still holds the call. *)
Lemma late_call_unanswered :
  exists w c, reachable w /\ loops w = {[0%nat := LExited]} /\ conn (cl w) = None /\
    calls w !! 0%nat = Some c /\ c_phase c = PWaiting /\ c_chan c = None /\
    pending (cl w) !! id_of c = Some 0%nat.
Proof.
  eexists _, _. split.
  - unfold reachable.
    eapply rtc_l. { eapply (s_connect _ "ws://h/ws" ok_handshake). reflexivity. }
    eapply rtc_l. { apply (s_call _ "cron.list" None). }
    eapply rtc_l. { eapply (s_read_error _ 0 (errorf "EOF")). reflexivity. }
    eapply rtc_l. { eapply (s_cancel _ 0); reflexivity. }
    eapply rtc_l. { eapply (s_add_id _ 0); reflexivity. }
    eapply rtc_l. { eapply (s_register _ 0); reflexivity. }
    eapply rtc_l. { eapply (s_write _ 0); reflexivity. }
    eapply rtc_l. { eapply (s_exit _ 0); reflexivity. }
    apply rtc_refl.
  - done.
Qed.

(** A reconnection starts the IDs again at 2, so a call of the old connection that gives
    up late takes the entry of a call of the new one out of the pending map: its read
    loop runs, and drops the answer. *)
Definition ex_reconnected : world :=
  mkWorld (mkClient (Some 1%nat) 1 ∅ (Some 1%nat) None)
    [mkCall "cron.list" None (PGivingUp (errorf "context canceled")) (Some "2") 1
       (Some (cancel_response (errorf "ws read: EOF") "2"))]
    {[1%nat := LReading; 0%nat := LExited]} [] 2 2
    [(0%nat, mkRequest "req" "2" "cron.list" None)] [] [].

Lemma ex_reconnected_reachable : reachable ex_reconnected.
Proof.
  unfold reachable; etrans; [apply ex_waiting_reachable|].
  eapply rtc_l. { eapply (s_ctx_done _ 0 _ (errorf "context canceled")); reflexivity. }
  eapply rtc_l. { eapply (s_read_error _ 0 (errorf "EOF")). reflexivity. }
  eapply rtc_l. { eapply (s_cancel _ 0); reflexivity. }
  eapply rtc_l. { eapply (s_send_error _ 0 _ [] []); reflexivity. }
  eapply rtc_l. { eapply (s_exit _ 0); reflexivity. }
  eapply rtc_l. { eapply (s_connect _ "ws://h/ws" ok_handshake). reflexivity. }
  apply rtc_refl.
Qed.

Definition ex_stale : world :=
  mkWorld (mkClient (Some 1%nat) 2 ∅ (Some 1%nat) None)
    [mkCall "cron.list" None (PReturned (Err (errorf "context canceled"))) (Some "2") 1
       (Some (cancel_response (errorf "ws read: EOF") "2"));
     mkCall "skills.list" None PWaiting (Some "2") 2 None]
    {[1%nat := LReading; 0%nat := LExited]} [] 2 2
    [(0%nat, mkRequest "req" "2" "cron.list" None);
     (1%nat, mkRequest "req" "2" "skills.list" None)] [] [].

Lemma stale_call_unregisters :
  reachable ex_stale /\
  forall resp, rf_ID resp = "2" -> deliverResponse resp (cl ex_stale) = (cl ex_stale, None).
Proof.
  split; [|by intros resp Hid; unfold deliverResponse; rewrite Hid].
  unfold reachable; etrans; [apply ex_reconnected_reachable|].
  eapply rtc_l. { apply (s_call _ "skills.list" None). }
  eapply rtc_l. { eapply (s_add_id _ 1); reflexivity. }
  eapply rtc_l. { eapply (s_register _ 1); reflexivity. }
  eapply rtc_l. { eapply (s_write _ 1); reflexivity. }
  eapply rtc_l. { eapply (s_give_up _ 0); reflexivity. }
  apply rtc_refl.
Qed.
