(* ===== verification/WsSession.v ===== *)
(** * The provider's WebSocket session

    The part of [internal/provider/goclaw/provider.go] above the client of [WsClient]:
    [ensureWS], which any goroutine calls before a WebSocket operation, with its mutex
    [wsMu] and the second look under it; [SetEventHandler] and [Close], which pass to the
    client.  A session is the client's world, the holder of [wsMu] and the goroutines in
    [ensureWS]; its steps are the client's, but for [Connect], and theirs. *)
From Stdlib Require Import ZArith Lia Bool Ascii.
From Stdlib Require String.
From stdpp Require Import relations gmap.
From S2P Require Import Prelude GoStr GoValue JsonParse Json Ring WsClient.

Local Open Scope string_scope.

(** ** Definitions *)

(** Where an [ensureWS] is: it found no connection and waits for the lock; it holds the
    lock and has not looked again; it has, and is about to connect; it has returned. *)
Inductive ensure_phase :=
  | EWaiting
  | ELocked
  | EConnecting
  | EReturned (err : option error).

Record session := mkSession {
  ws : world;
  wsMu : option nat;
  ensuring : list ensure_phase
}.

Definition open_session : session := mkSession init None [].

Definition at_ensure (i : nat) (ph : ensure_phase) (s : session) : list ensure_phase :=
  <[i := ph]> (ensuring s).

(** [if p.ws.IsConnected() { return nil }], outside the lock and under it. *)
Definition first_look (w : world) : ensure_phase :=
  if IsConnected (cl w) then EReturned None else EWaiting.
Definition second_look (w : world) : ensure_phase :=
  if IsConnected (cl w) then EReturned None else EConnecting.

Definition returned (ph : ensure_phase) : bool := match ph with EReturned _ => true | _ => false end.

(** The world after [Connect] with connection [next_conn w]. *)
Definition connected (url : string) (h : handshake) (w : world) : world * option error :=
  let '(c, started, err) := Connect url (next_conn w) h (cl w) in
  (mkWorld c (calls w)
     (if started : bool then <[next_conn w := LReading]> (loops w) else loops w)
     (closers w) (S (next_conn w)) (if started : bool then S (connects w) else connects w)
     (written w) (received w) (handled w), err).

(** [Provider.Close]: nothing without a connection, or the client's [Close]. *)
Definition Close (w : world) : world :=
  match conn (cl w) with
  | None => w
  | Some _ => mkWorld (cl w) (calls w) (loops w) (loop_done (cl w) :: closers w) (next_conn w) (connects w)
                (written w) (received w) (handled w)
  end.

Inductive ws_step (s : session) : session -> Prop :=
  (* the client's goroutines: calls, read loops, and those that close *)
  | ws_client w' :
      step (ws s) w' -> next_conn w' = next_conn (ws s) ->
      ws_step s (mkSession w' (wsMu s) (ensuring s))
  | ws_close : ws_step s (mkSession (Close (ws s)) (wsMu s) (ensuring s))
  (* ensureWS *)
  | ws_ensure : ws_step s (mkSession (ws s) (wsMu s) (ensuring s ++ [first_look (ws s)]))
  | ws_lock i :
      ensuring s !! i = Some EWaiting -> wsMu s = None ->
      ws_step s (mkSession (ws s) (Some i) (at_ensure i ELocked s))
  | ws_look i :
      ensuring s !! i = Some ELocked ->
      ws_step s (mkSession (ws s) (if returned (second_look (ws s)) then None else wsMu s)
                   (at_ensure i (second_look (ws s)) s))
  | ws_connect i url h w' err :
      ensuring s !! i = Some EConnecting -> connected url h (ws s) = (w', err) ->
      ws_step s (mkSession w' None (at_ensure i (EReturned err) s)).

Definition ws_reachable (s : session) : Prop := rtc ws_step open_session s.

(** ** A session is a run of the client *)

Lemma close_step w : Close w = w \/ step w (Close w).
Proof. unfold Close. destruct (conn (cl w)) as [k|] eqn:E; [right; by eapply s_close|by left]. Qed.

Lemma connected_step url h w w' err : connected url h w = (w', err) -> step w w'.
Proof.
  unfold connected. destruct (Connect _ _ _ _) as [[c b] e] eqn:E. intros [= <- _]. by eapply s_connect.
Qed.

Lemma session_runs_client s : ws_reachable s -> reachable (ws s).
Proof.
  unfold ws_reachable. remember open_session as s0 eqn:E.
  assert (H0 : reachable (ws s0)) by (subst; apply rtc_refl). clear E.
  induction 1 as [|s1 s2 s3 Hstep _ IH]; [done|]. apply IH. clear IH.
  destruct Hstep as [w' Hw _| | |i Hi Hm|i Hi|i url h w' err Hi Hc]; cbn [ws]; try done.
  - by eapply reach_step.
  - destruct (close_step (ws s1)) as [->|Hc]; [done|by eapply reach_step].
  - apply connected_step in Hc. by eapply reach_step.
Qed.

(** ** Only a goroutine that holds the lock connects, and only when there is nothing *)

Definition holds_lock (ph : ensure_phase) : bool :=
  match ph with ELocked | EConnecting => true | _ => false end.

Record exclusive (s : session) : Prop := {
  ex_holder i ph : ensuring s !! i = Some ph -> holds_lock ph = true -> wsMu s = Some i;
  ex_down i : ensuring s !! i = Some EConnecting -> conn (cl (ws s)) = None
}.

(** No other step of the client opens a connection. *)
Lemma step_stays_down w w' :
  step w w' -> next_conn w' = next_conn w -> conn (cl w) = None -> conn (cl w') = None.
Proof.
  intros Hs Hn Hc. destruct Hs as [url h c b err _| |i c k cl' id _ _ Ha| | | | | | | | |k msg _| | |k e c ws _ Ht| |k e _| | |];
    cbn in *; try done; try lia.
  - by injection Ha as <- _.
  - unfold clearConnIfSame. by case_bool_decide.
  - destruct (dispatch msg); [|done|done]. unfold deliverResponse. by destruct (pending (cl w) !! _).
  - by injection Ht as <- _.
  - unfold clearConnIfSame. by case_bool_decide.
Qed.

Lemma ensure_update (l : list ensure_phase) i ph j ph' :
  <[i := ph]> l !! j = Some ph' -> (j = i /\ ph' = ph) \/ (j <> i /\ l !! j = Some ph').
Proof.
  destruct (decide (j = i)) as [->|Hne]; [|rewrite list_lookup_insert_ne by done; auto].
  rewrite list_lookup_insert. case_decide as Hd; [intros [= <-]; by left|].
  intros H. destruct Hd. split; [done|]. by eapply lookup_lt_Some.
Qed.

Lemma exclusive_step s s' : exclusive s -> ws_step s s' -> exclusive s'.
Proof.
  intros [Hh Hd] Hs. destruct Hs as [w' Hw Hn| | |i Hi Hm|i Hi|i url h w' err Hi Hc]; split; cbn [ensuring wsMu ws]; try done.
  - intros i Hi. eapply step_stays_down; eauto.
  - intros i Hi. unfold Close. rewrite (Hd i Hi). by apply Hd with i.
  - intros i ph [Hi|[_ Hi]]%lookup_app_Some Hl; [by eapply Hh|].
    apply list_lookup_singleton_Some in Hi as [_ <-]. unfold first_look in Hl. by destruct (IsConnected _).
  - intros i [Hi|[_ Hi]]%lookup_app_Some; [by eapply Hd|].
    apply list_lookup_singleton_Some in Hi as [_ Hi]. unfold first_look in Hi. by destruct (IsConnected _).
  - intros j ph [[-> ->]|[Hne Hj]]%ensure_update Hl; [done|]. specialize (Hh j ph Hj Hl). congruence.
  - intros j [[_ ?]|[_ Hj]]%ensure_update; [done|by eapply Hd].
  - intros j ph [[-> ->]|[Hne Hj]]%ensure_update Hl.
    + destruct (second_look (ws s)) eqn:E; try done; by apply (Hh i ELocked).
    + pose proof (Hh j ph Hj Hl). pose proof (Hh i ELocked Hi eq_refl). congruence.
  - intros j [[_ He]|[_ Hj]]%ensure_update; [|by eapply Hd].
    unfold second_look, IsConnected in He. case_bool_decide as Hc; [done|].
    by apply eq_None_not_Some.
  - intros j ph [[-> ->]|[Hne Hj]]%ensure_update Hl; [done|].
    pose proof (Hh j ph Hj Hl). pose proof (Hh i EConnecting Hi eq_refl). congruence.
  - intros j [[_ ?]|[Hne Hj]]%ensure_update; [done|].
    pose proof (Hh j _ Hj eq_refl). pose proof (Hh i EConnecting Hi eq_refl). congruence.
Qed.

Lemma exclusive_reachable s : ws_reachable s -> exclusive s.
Proof.
  unfold ws_reachable. remember open_session as s0 eqn:E.
  assert (H0 : exclusive s0) by (subst; split; [by intros []|by intros []]). clear E.
  induction 1 as [|s1 s2 s3 Hs _ IH]; [done|]. by apply IH, (exclusive_step s1).
Qed.

(** A goroutine that connects holds the mutex alone and finds no connection, so that
    every connection it makes is dialled: the idempotence of [Connect] is not needed. *)
Lemma ensure_dials_when_down s i url h w' err :
  ws_reachable s -> ensuring s !! i = Some EConnecting -> connected url h (ws s) = (w', err) ->
  wsMu s = Some i /\ conn (cl (ws s)) = None /\
  (forall e, h = DialFailed e -> err = Some (wrapf ("ws dial " +:+ url +:+ ": ") e "")) /\
  (forall r, h = Answered r -> rf_OK r = true ->
     err = None /\ conn (cl w') = Some (next_conn (ws s)) /\ loops w' !! next_conn (ws s) = Some LReading).
Proof.
  intros Hr Hi Hc. destruct (exclusive_reachable s Hr) as [Hh Hd]. specialize (Hd i Hi).
  split; [by apply (Hh i EConnecting)|]. split; [done|].
  unfold connected, Connect in Hc. rewrite Hd in Hc. split.
  - intros e ->. by injection Hc as _ <-.
  - intros r -> Hok. rewrite Hok in Hc. injection Hc as <- <-. cbn. by rewrite lookup_insert_eq.
Qed.

(** ** Events *)

(** Only an event that a read loop reads is handled, by the handler set at that moment. *)
Lemma event_handled w w' :
  step w w' ->
  handled w' = handled w \/
  exists h e, onEvent (cl w) = Some h /\ handled w' = (handled w ++ [(h, e)])%list.
Proof.
  destruct 1; cbn; auto. destruct (dispatch msg) as [r|e|]; auto.
  - unfold deliverResponse. destruct (pending (cl w) !! _); auto.
  - cbn. unfold call_handler. destruct (onEvent (cl w)) as [h|]; [by right; exists h, e|left; by rewrite app_nil_r].
Qed.

(** ** Where the session loses a connection *)

(** [Close] forgets whatever connection there is when its read loop has ended, also one
    that another goroutine opened meanwhile: its read loop runs on, and nobody uses or
    closes it. *)
Lemma close_forgets_new_connection :
  exists w, reachable w /\ conn (cl w) = None /\ closers w = [] /\ loops w !! 1%nat = Some LReading.
Proof.
  eexists. split.
  - unfold reachable.
    eapply rtc_l. { eapply (s_connect _ "ws://h/ws" ok_handshake). reflexivity. }
    eapply rtc_l. { eapply (s_close _ 0). reflexivity. }
    eapply rtc_l. { eapply (s_read_error _ 0 (errorf "EOF")). reflexivity. }
    eapply rtc_l. { eapply (s_cancel _ 0); reflexivity. }
    eapply rtc_l. { eapply (s_exit _ 0); reflexivity. }
    eapply rtc_l. { eapply (s_connect _ "ws://h/ws" ok_handshake). reflexivity. }
    eapply rtc_l. { eapply (s_closed _ (Some 0%nat) [] []); [reflexivity|]. by intros k [= <-]. }
    apply rtc_refl.
  - done.
Qed.

(** The write of a call has failed, and the client has connected again. *)
Definition ex_dropped : world :=
  mkWorld (mkClient (Some 1%nat) 1 ∅ (Some 1%nat) None)
    [mkCall "cron.list" None (PReturned (Err (errorf "ws write cron.list: broken pipe"))) (Some "2") 1 None]
    {[1%nat := LReading; 0%nat := LReading]} [] 2 2 [] [] [].

Lemma ex_dropped_reachable : reachable ex_dropped.
Proof.
  unfold reachable.
  eapply rtc_l. { eapply (s_connect _ "ws://h/ws" ok_handshake). reflexivity. }
  eapply rtc_l. { apply (s_call _ "cron.list" None). }
  eapply rtc_l. { eapply (s_add_id _ 0); reflexivity. }
  eapply rtc_l. { eapply (s_register _ 0); reflexivity. }
  eapply rtc_l. { eapply (s_write_error _ 0 _ _ (errorf "broken pipe")); reflexivity. }
  eapply rtc_l. { eapply (s_failing _ 0); reflexivity. }
  eapply rtc_l. { eapply (s_clearing _ 0); reflexivity. }
  eapply rtc_l. { eapply (s_connect _ "ws://h/ws" ok_handshake). reflexivity. }
  apply rtc_refl.
Qed.

(** A call of the new connection is pending. *)
Definition ex_second : world :=
  mkWorld (mkClient (Some 1%nat) 2 {["2" := 1%nat]} (Some 1%nat) None)
    [mkCall "cron.list" None (PReturned (Err (errorf "ws write cron.list: broken pipe"))) (Some "2") 1 None;
     mkCall "skills.list" None PWaiting (Some "2") 2 None]
    {[1%nat := LReading; 0%nat := LReading]} [] 2 2
    [(1%nat, mkRequest "req" "2" "skills.list" None)] [] [].

Lemma ex_second_reachable : reachable ex_second.
Proof.
  unfold reachable; etrans; [apply ex_dropped_reachable|].
  eapply rtc_l. { apply (s_call _ "skills.list" None). }
  eapply rtc_l. { eapply (s_add_id _ 1); reflexivity. }
  eapply rtc_l. { eapply (s_register _ 1); reflexivity. }
  eapply rtc_l. { eapply (s_write _ 1); reflexivity. }
  apply rtc_refl.
Qed.

(** A failed write drops the connection without closing it, so its read loop is still
    there when the next connection is in use; when it ends it fails every pending call,
    those of the new connection too. *)
Lemma old_loop_fails_new_call :
  exists w c, reachable w /\ conn (cl w) = Some 1%nat /\ loops w !! 1%nat = Some LReading /\
    calls w !! 1%nat = Some c /\ (1%nat, request_of c) ∈ written w /\
    c_phase c = PReturned (Err (errorf "ws rpc skills.list: ws read: EOF")).
Proof.
  eexists _, _. split.
  - unfold reachable; etrans; [apply ex_second_reachable|].
    eapply rtc_l. { eapply (s_read_error _ 0 (errorf "EOF")). reflexivity. }
    eapply rtc_l. { eapply (s_cancel _ 0); reflexivity. }
    eapply rtc_l. { eapply (s_send_error _ 0 _ [] [] "2" 1); reflexivity. }
    eapply rtc_l. { eapply (s_answer _ 1); reflexivity. }
    apply rtc_refl.
  - split; [done|]. split; [done|]. split; [done|]. split; [left|done].
Qed.
