(* ===== verification/GoclawBase.v ===== *)
(** * The GoClaw provider: shared parts

    The provider's configuration ([provider.go]: [Provider], [New]), the tenant
    UUID ([resolveTenantUUID], [matchesTenant]), the WebSocket guard ([ensureWS]),
    the lists of rows the server answers with, and [helpers.go]. *)
From Stdlib Require Import ZArith Lia Bool Ascii.
From Stdlib Require String.
From S2P Require Import Prelude GoStr GoValue Manifest Keyconv Filepath Validate Json JsonParse Http.

Local Open Scope string_scope.
Local Open Scope go_scope.

(** ** Provider *)

Record Provider := mkProviderCfg {
  endpoint : string;
  p_token : string;
  tenantID : string;
  userID : string;
  p_http : HTTPClient
}.

(** The options of [New].  Log records are not modelled: a logger changes nothing. *)
Inductive Option := WithTenantID (id : string) | WithUserID (id : string) | WithLogger.

Definition New (endpoint token : string) (opts : list Option) : Provider :=
  let '(t, u) := foldl (fun '(t, u) o =>
                          match o with WithTenantID id => (id, u) | WithUserID id => (t, id) | WithLogger => (t, u) end)
                       ("", "") opts in
  mkProviderCfg endpoint token t u (NewHTTPClient endpoint token t u).

(** The third-party and local functions the provider calls: the disk, the archive
    writers and readers, and the semver package. *)
Record Deps := mkDeps {
  d_fs : Filesystem;
  d_zip : list (string * string) -> string;
  d_targz : list (string * string) -> res string;
  d_untar : string -> res (list (string * (bool * string)));
  d_semver : Semver;
  d_range : list string -> list string
}.

(** ** helpers.go *)

Definition internalFields : list string :=
  [ "created_at"; "updated_at"; "created_by"; "owner_id";
    "tenant_id"; "tenant_name"; "tenant_slug";
    "restrict_to_workspace"; "workspace";
    "tools_config"; "sandbox_config"; "subagents_config";
    "memory_config"; "compaction_config"; "context_pruning"; "other_config";
    "reasoning_config"; "workspace_sharing"; "chatgpt_oauth_routing";
    "shell_deny_groups"; "kg_dedup_config";
    "frontmatter";
    "agent_count"; "has_credentials"; "credentials";
    "file_path"; "file_size"; "file_hash"; "path"; "baseDir"; "source";
    "missing_deps"; "deps"; "is_system"; "author";
    "tenant_enabled" ].

(** [for _, f := range fields { delete(m, f) }]. *)
Definition delete_fields (fields : list string) (m : gomap) : gomap :=
  foldl (fun m f => mdel f m) m fields.

Definition stripInternal (m : gomap) : gomap := delete_fields internalFields m.

Definition strVal (m : gomap) (key : string) : string :=
  match mget key m with
  | None => ""
  | Some v => match asStr v with Some s => s | None => "" end
  end.

Definition boolVal (m : gomap) (key : string) : bool := default false (getAs asBool key m).

(** [m["id"].(string)]. *)
Definition idOf (m : gomap) : option string := getAs asStr "id" m.

(** The keys of a [map[string]struct{}] filled from [l]. *)
Definition to_set (l : list string) : list string :=
  foldl (fun acc x => if mem_str x acc then acc else acc ++ [x])%list [] l.

Section base.
Context {U : Unicode} {S : Type} (remote : Remote S) (p : Provider).
Abbreviation Mp := (M (PWorld S)).

Definition translateSpec (spec : gomap) : gomap := CamelToSnake spec.
Definition translateResult (result : gomap) : gomap := SnakeToCamel result.

(** [if err != nil { return ..., err }] on a pure result. *)
Definition liftP {A} (r : res A) : Mp A := liftM r.

Definition http_get (path : string) : Mp string := Get remote (p_http p) path.

(** [resp.<Field>] of a response that is an object with one list of rows; each
    caller words its own errors. *)
Definition decode_rows (field parse_msg data : string) : Mp (list gomap) :=
  liftP (res_wrap parse_msg (unmarshal_maps field data)).

Definition get_rows (path field list_msg parse_msg : string) : Mp (list gomap) :=
  let! data := wrapM list_msg (http_get path) in
  decode_rows field parse_msg data.

(** ** Tenants *)

Definition list_tenants : Mp (list gomap) :=
  get_rows "/v1/tenants" "tenants" "list tenants: " "parse tenants response: ".

Definition observeTenant (key : string) : Mp (option gomap) :=
  let! rows := list_tenants in
  retM (option_map (fun r => translateResult (stripInternal r))
          (List.find (fun t => String.eqb (strVal t "slug") key) rows)).

(** The body of [tenantOnce.Do]: the UUID or [tenantErr]. *)
Definition tenant_lookup : Mp string :=
  let! tenant := wrapM ("resolve tenant UUID for " +:+ Quote (tenantID p) +:+ ": ")
                   (observeTenant (tenantID p)) in
  match tenant with
  | None => failM (errorf ("tenant " +:+ Quote (tenantID p) +:+ " not found"))
  | Some t => match idOf t with
              | None => failM (errorf ("tenant " +:+ Quote (tenantID p) +:+ ": missing id"))
              | Some id => retM id
              end
  end.

(** [p.tenantUUID, p.tenantErr] after [tenantOnce.Do]. *)
Definition resolveTenantUUID : Mp string :=
  if String.eqb (tenantID p) "" then retM ""
  else fun w =>
    match tenant w with
    | Some r => (w, r)
    | None => let '(w', r) := tenant_lookup w in
              (mkPWorld (server w') (Some r) (sent w'), r)
    end.

Definition matchesTenant (resource : gomap) : Mp bool :=
  if String.eqb (tenantID p) "" then retM true
  else
    let tid := strVal resource "tenant_id" in
    if String.eqb tid "" then retM true
    else
      let! r := tryM resolveTenantUUID in
      retM match r with
           | Err _ => true
           | Ok uuid => if String.eqb uuid "" then true else String.eqb tid uuid
           end.

(** [for _, row := range rows { if test(row) && p.matchesTenant(ctx, row) { return row } }]. *)
Fixpoint find_row (test : gomap -> bool) (rows : list gomap) : Mp (option gomap) :=
  match rows with
  | [] => retM None
  | row :: rows' =>
    if test row then
      let! m := matchesTenant row in
      if m : bool then retM (Some row) else find_row test rows'
    else find_row test rows'
  end.

(** The rows for which [matchesTenant] holds, each mapped to its reference. *)
Fixpoint tenant_rows {A} (f : gomap -> A) (rows : list gomap) : Mp (list A) :=
  match rows with
  | [] => retM []
  | row :: rows' =>
    let! m := matchesTenant row in
    let! rest := tenant_rows f rows' in
    retM (if m : bool then f row :: rest else rest)
  end.

(** The first row passing [test] with a non-empty ["id"]. *)
Definition find_id (test : gomap -> bool) (rows : list gomap) : option string :=
  match List.find (fun r => test r && negb (String.eqb (strVal r "id") "")) rows with
  | Some r => Some (strVal r "id")
  | None => None
  end.

(** [find_id] among the rows of the tenant. *)
Fixpoint find_tenant_id (test : gomap -> bool) (rows : list gomap) : Mp (option string) :=
  match rows with
  | [] => retM None
  | row :: rows' =>
    if test row then
      let! m := matchesTenant row in
      if (m : bool) && negb (String.eqb (strVal row "id") "")
      then retM (Some (strVal row "id")) else find_tenant_id test rows'
    else find_tenant_id test rows'
  end.

(** What Observe returns for a row. *)
Definition observed (row : option gomap) : option gomap :=
  option_map (fun r => translateResult (stripInternal r)) row.

(** ** WebSocket calls *)

Definition ensureWS : Mp unit := fun w =>
  if ws_alive remote (server w) then (w, Ok tt)
  else let '(s, r) := ws_connect remote (server w) in
       (log_sent MConnect s w, match r with None => Ok tt | Some e => Err e end).

Definition Call (method : string) (params : option gomap) : Mp string := fun w =>
  let '(s, r) := ws_call remote method params (server w) in
  (log_sent (MRpc method params) s w, r).

(** [if _, err := p.ws.Call(...); err != nil { return fmt.Errorf("<msg>%w", err) }]. *)
Definition call_ (msg method : string) (params : gomap) : Mp unit :=
  do! wrapM msg (Call method (Some params)) in skipM.

(** ** Agents *)

Definition list_agents : Mp (list gomap) :=
  get_rows "/v1/agents" "agents" "list agents: " "parse agents response: ".

Definition resolveAgentID (agentKey : string) : Mp string :=
  let! rows := list_agents in
  match find_id (fun a => String.eqb (strVal a "agent_key") agentKey) rows with
  | Some id => retM id
  | None => failM (errorf ("agent " +:+ Quote agentKey +:+ " not found"))
  end.

(** ** Common shapes of the mutating calls *)

(** [_, err := p.http.Post(ctx, path, body)], wrapped. *)
Definition post_ (msg path : string) (body : gomap) : Mp unit :=
  do! wrapM msg (Post remote (p_http p) path (VMap body)) in skipM.

Definition put_ (path : string) (body : gomap) : Mp unit :=
  do! Put remote (p_http p) path (VMap body) in skipM.

(** [if errors.Is(err, ErrNotFound) { return fmt.Errorf("<label> (id=<id>) not found: %w", err) };
    return err]. *)
Definition put_found (label id path : string) (body : gomap) : Mp unit :=
  let! r := tryM (Put remote (p_http p) path (VMap body)) in
  match r with
  | Ok _ => skipM
  | Err err =>
    if errorsIs err ErrNotFound
    then failM (wrapf (label +:+ " (id=" +:+ id +:+ ") not found: ") err "")
    else failM err
  end.

Definition delete_ (path : string) : Mp unit := DeleteReq remote (p_http p) path.

(** [Observe], then the id of what was observed: [absent] when there is nothing,
    an error when the row has no string id. *)
Definition with_id (label : string) (observe : Mp (option gomap)) (absent : Mp unit)
    (k : string -> Mp unit) : Mp unit :=
  let! current := observe in
  match current with
  | None => absent
  | Some c => match idOf c with
              | None => failM (errorf (label +:+ ": missing id"))
              | Some id => k id
              end
  end.

(** Resolves [agent_key] to [agent_id] in a request body. *)
Definition resolve_agent_key (label keyField idField : string) (body : gomap) : Mp gomap :=
  match getAs asStr keyField body with
  | None => retM body
  | Some agentKey =>
    let! agentID := wrapM label (resolveAgentID agentKey) in
    retM (mdel keyField (mset idField (VStr agentID) body))
  end.
End base.

(** ** Deleted fields *)

Lemma delete_fields_elem fields (v : gomap) kv : kv ∈ delete_fields fields v -> kv ∈ v.
Proof.
  unfold delete_fields. revert v. induction fields as [|f fields IH]; intros v; simpl; [done|].
  intros Hin. apply IH in Hin. unfold mdel in Hin. rewrite list_elem_of_In in Hin |- *.
  by apply filter_In in Hin as [? _].
Qed.

Lemma mget_delete_fields k fields (m : gomap) :
  k ∉ fields -> mget k (delete_fields fields m) = mget k m.
Proof.
  unfold delete_fields. revert m. induction fields as [|f fields IH]; intros m Hk; [done|].
  apply not_elem_of_cons in Hk as [Hf Hk]. cbn [foldl]. rewrite IH, mget_mdel by done.
  by destruct (String.eqb_spec k f).
Qed.

Lemma delete_fields_uniq fields (m : gomap) : uniq_keys m -> uniq_keys (delete_fields fields m).
Proof.
  unfold delete_fields. revert m. induction fields as [|f fields IH]; intros m H; [done|].
  by apply IH, uniq_keys_mdel.
Qed.
