(* ===== verification/Cmd.v ===== *)
(** * The command line

    [cmd]: how the commands find the manifest and the connection ([config.go]) and what
    [plan], [diff], [status], [apply], [destroy], [export], [validate] and [init] do with
    them.  A command acts on a [World]: the environment with the file tree, the two
    standard streams, the answers typed, the clock and the state the provider acts on.
    [goclaw.New] is the argument [open], the provider behind a connection; file
    [CmdGoclaw] instantiates it.  The [Close] at the end of a command only drops the
    connection and is left out. *)
From Stdlib Require Import ZArith Lia Bool Ascii.
From Stdlib Require String.
From S2P Require Import Prelude GoStr GoValue Filepath Manifest Secrets Regexp Compare Json SkillPkg.
From S2P Require Import Validate Engine Display Loader Http GoclawBase.

Local Open Scope string_scope.
Local Open Scope go_scope.

(** ** The world of a command *)

Record World (P : Type) := mkWorld {
  w_env : Env;
  w_stdin : string;
  w_stdout : string;
  w_stderr : string;
  w_now : Z;
  w_prov : P
}.
Arguments mkWorld {P}. Arguments w_env {P}. Arguments w_stdin {P}. Arguments w_stdout {P}.
Arguments w_stderr {P}. Arguments w_now {P}. Arguments w_prov {P}.

Section world.
Context {P : Type}.
Implicit Types w : World P.

Definition set_prov (p : P) w : World P :=
  mkWorld (w_env w) (w_stdin w) (w_stdout w) (w_stderr w) (w_now w) p.

Definition set_fs (fs : Filesystem) w : World P :=
  mkWorld (mkEnv (env_vars (w_env w)) fs) (w_stdin w) (w_stdout w) (w_stderr w) (w_now w) (w_prov w).

Definition print (s : string) w : World P :=
  mkWorld (w_env w) (w_stdin w) (w_stdout w +:+ s) (w_stderr w) (w_now w) (w_prov w).

Definition eprint (s : string) w : World P :=
  mkWorld (w_env w) (w_stdin w) (w_stdout w) (w_stderr w +:+ s) (w_now w) (w_prov w).

Definition w_fs w : Filesystem := env_fs (w_env w).

(** [os.Getenv]. *)
Definition Getenv w (key : string) : string := default "" (LookupEnv (w_env w) key).

(** [reader.ReadString] up to a newline: the line without it, or the rest of the input. *)
Definition ReadString w : World P * string :=
  let '(line, rest) := match Cut (w_stdin w) nl with
                       | Some (line, rest) => (line, rest)
                       | None => (w_stdin w, "")
                       end in
  (mkWorld (w_env w) rest (w_stdout w) (w_stderr w) (w_now w) (w_prov w), line).

(** *** Commands

    A command returns, with an error or not, or panics. *)
Definition C (A : Type) : Type := World P -> World P * outcome A.

Definition retC {A} (a : A) : C A := fun w => (w, Returned (Ok a)).
Definition failC {A} (e : error) : C A := fun w => (w, Returned (Err e)).

Definition bindC {A B} (m : C A) (k : A -> C B) : C B := fun w =>
  match m w with
  | (w, Returned (Ok a)) => k a w
  | (w, Returned (Err e)) => (w, Returned (Err e))
  | (w, Panicked) => (w, Panicked)
  end.

Definition liftC {A} (r : res A) : C A := fun w => (w, Returned r).
Definition printC (s : string) : C unit := fun w => (print s w, Returned (Ok tt)).
Definition readC : C string := fun w => let '(w, line) := ReadString w in (w, Returned (Ok line)).
Definition getC {A} (f : World P -> A) : C A := fun w => (w, Returned (Ok (f w))).

(** A step that cannot fail. *)
Definition runC {A} (f : World P -> World P * A) : C A := fun w =>
  let '(w, a) := f w in (w, Returned (Ok a)).

(** An operation on the file tree. *)
Definition fsC {A} (pre : string) (m : M Filesystem A) : C A := fun w =>
  let '(fs, r) := m (w_fs w) in (set_fs fs w, Returned (res_wrap pre r)).

(** A provider, attached to the world of the command. *)
Definition onProv {A} (m : M P A) : M (World P) A := fun w =>
  let '(p, r) := m (w_prov w) in (set_prov p w, r).

Definition attached (p : ProviderInterface P) : ProviderInterface (World P) :=
  mkProvider _ (fun k n => onProv (Observe p k n)) (fun k n s => onProv (Create p k n s))
    (fun k n s => onProv (Engine.Update p k n s)) (fun k n => onProv (Engine.Delete p k n))
    (fun k => onProv (ListAll p k)).
End world.
Arguments C : clear implicits.

Notation "'let%' x ':=' m 'in' k" := (bindC m (fun x => k))
  (at level 10, x pattern, m at level 100, k at level 200) : go_scope.
Notation "'do%' m 'in' k" := (bindC m (fun _ => k))
  (at level 10, m at level 100, k at level 200) : go_scope.

(** What the commands call of a connected provider: the engine's operations and the two
    downloads of [pull]. *)
Record Client (P : Type) := mkClient {
  cl_provider : ProviderInterface P;
  cl_skill : string -> M P (list SkillFile * list string);
  cl_context : string -> M P (list (string * string))
}.
Arguments mkClient {P}. Arguments cl_provider {P}. Arguments cl_skill {P}. Arguments cl_context {P}.

(** The flags of [root.go]. *)
Record GlobalFlags := mkFlags {
  configFile : string;
  endpoint_flag : string;
  token_flag : string;
  verbose : bool
}.

Record ApplyFlags := mkApplyFlags {
  autoApprove : bool;
  applyPrune : bool;
  applyForce : bool;
  applyLabelSelector : string;
  applyLogFile : string
}.

Record DestroyFlags := mkDestroyFlags {
  destroyAutoApprove : bool;
  destroyDryRun : bool;
  destroyLogFile : string;
  destroyBackup : string
}.

(** [if v == "" { v = next }], down a list of places. *)
Definition first_set (l : list string) : string :=
  foldr (fun s rest => if String.eqb s "" then rest else s) "" l.

Section cmd.
Context {U : Unicode} {P : Type}.
Context (yaml : Yaml) (renderTemplate : Template) (semver : Semver) (zip : list (string * string) -> string).
Context (marshal_manifest : Manifest -> res string) (format_time : Z -> string) (other_v : gval -> string).
Context (open : Env -> string -> string -> list Option -> Client P).
Context (g : GlobalFlags).
Abbreviation Cp := (C P).

(** ** config.go *)

Definition tenantIDRe : re :=
  RCat (RCls lower_digit) (ROpt (RCat (RStar (RCls lower_digit_hyphen)) (RCls lower_digit))).

(** [secrets.Resolve] with the error of its caller. *)
Definition resolve_as (what : string) (env : Env) (s : string) : res string :=
  match Resolve env s with
  | (v, None) => Ok v
  | (_, Some err) => Err (wrapf ("resolve " +:+ what +:+ ": ") err "")
  end.

Definition resolveConnection (m : Manifest) (w : World P) : res (string * string) :=
  let ep := first_set [endpoint_flag g; Getenv w "GCPLANE_ENDPOINT"; Endpoint (ManifestConnection m)] in
  if String.eqb ep ""
  then Err (errorf "endpoint required: use --endpoint, GCPLANE_ENDPOINT, or manifest connection.endpoint")
  else
  let tok := first_set [token_flag g; Getenv w "GCPLANE_TOKEN"; Token (ManifestConnection m)] in
  if String.eqb tok ""
  then Err (errorf "token required: use --token, GCPLANE_TOKEN, or manifest connection.token")
  else
  let? ep := resolve_as "endpoint" (w_env w) ep in
  let? tok := resolve_as "token" (w_env w) tok in
  Ok (ep, tok).

Definition resolveProviderOpts (m : Manifest) (w : World P) : res (list Option) :=
  let tid := first_set [Getenv w "GCPLANE_TENANT_ID"; TenantID (ManifestConnection m)] in
  let? opts :=
    if String.eqb tid "" then Ok []
    else
      let? resolved := resolve_as "tenantId" (w_env w) tid in
      if negb (MatchString tenantIDRe resolved)
      then Err (errorf ("invalid tenantId " +:+ Quote resolved +:+ ": must be kebab-case (a-z0-9, hyphens)"))
      else Ok [WithTenantID resolved] in
  let uid := first_set [Getenv w "GCPLANE_USER_ID"; UserID (ManifestConnection m)] in
  if String.eqb uid "" then Ok opts
  else
    let? resolved := resolve_as "userId" (w_env w) uid in
    Ok (opts ++ [WithUserID resolved])%list.

(** The file of the manifest: the flag, the variable or one of three names. *)
Definition manifest_path (w : World P) : string :=
  first_set [configFile g; Getenv w "GCPLANE_CONFIG";
             default "" (List.find (fun name => is_ok (Stat (w_fs w) name))
                           ["gcplane.yaml"; "gcplane.yml"; ".gcplane.yaml"])].

Definition count_text (n : nat) (s : string) : string := Itoan n +:+ s.

Definition loadAndValidateManifest : Cp Manifest := fun w =>
  let path := manifest_path w in
  if String.eqb path ""
  then failC (errorf "manifest file required: use --file, GCPLANE_CONFIG env, or create gcplane.yaml") w
  else
  match Load yaml renderTemplate (w_fs w) path with
  | Panicked => (w, Panicked)
  | Returned (Err err) => failC err w
  | Returned (Ok m) =>
    match Validate semver zip (w_fs w) m with
    | [] => retC m w
    | errs =>
      failC (errorf ("manifest validation failed with " +:+ count_text (length errs) " error(s)"))
        (eprint (String.concat "" (map (fun e => "  " +:+ Error e +:+ nl) errs)) w)
    end
  end.

(** [if selector != "" { m.Resources = FilterByLabels(...) }]. *)
Definition filter_labels (selector : string) (m : Manifest) : Manifest :=
  if String.eqb selector "" then m
  else with_resources m (FilterByLabels (Resources m) (ParseLabelSelector selector)).

(** The beginning of most commands: the manifest, filtered, and the provider. *)
Definition connect (selector : string) : Cp (Manifest * Client P) :=
  let% m := loadAndValidateManifest in
  let m := filter_labels selector m in
  let% conn := getC (resolveConnection m) in
  let% (ep, tok) := liftC conn in
  let% provOpts := getC (resolveProviderOpts m) in
  let% opts := liftC provOpts in
  let% env := getC w_env in
  retC (m, open env ep tok opts).

(** [engine.Reconcile], whose concurrency is the zero value. *)
Definition reconcile (c : Client P) (m : Manifest) (opts : ReconcileOpts) : Cp (Plan * ApplyResult) :=
  runC (Reconcile w_env (attached (cl_provider c)) sequential m opts).

(** ** plan.go, diff.go *)

Definition planCmd (prune force : bool) (selector : string) : Cp unit :=
  let% (m, c) := connect selector in
  let% (plan, _) := reconcile c m (mkOpts true prune force 0) in
  printC (PrintPlan other_v plan (verbose g)).

Definition diffCmd : Cp unit :=
  let% (m, c) := connect "" in
  let% (plan, _) := reconcile c m (mkOpts true false false 0) in
  printC (PrintDiff other_v plan).

(** ** status.go *)

(** [%-12s]. *)
Definition pad12 (s : string) : string :=
  s +:+ of_bytes (replicate (12 - length (runes s)) " "%char).

Definition kind_count (plan : Plan) (kind : ResourceKind) : nat :=
  length (List.filter (fun c => String.eqb (ch_Kind c) kind) (Changes plan)).

Definition status_text (m : Manifest) (plan : Plan) : string :=
  let total := (Creates plan + Updates plan + Noops plan + Deletes plan)%nat in
  let positive (n : nat) (s : string) := if (0 <? n)%nat then s else "" in
  nl +:+ colorBold +:+ "GCPlane Status" +:+ colorReset +:+ " — " +:+ MetaName (ManifestMetadata m) +:+ nl +:+ nl
  +:+ "  Resources:  " +:+ Itoan total +:+ " total" +:+ nl
  +:+ "  In Sync:    " +:+ colorGreen +:+ Itoan (Noops plan) +:+ colorReset +:+ nl
  +:+ positive (Updates plan) ("  Drifted:    " +:+ colorYellow +:+ Itoan (Updates plan) +:+ colorReset +:+ nl)
  +:+ positive (Creates plan) ("  Missing:    " +:+ colorRed +:+ Itoan (Creates plan) +:+ colorReset +:+ nl)
  +:+ nl
  +:+ String.concat "" (map (fun kind => positive (kind_count plan kind)
        ("  " +:+ pad12 kind +:+ " " +:+ Itoan (kind_count plan kind) +:+ nl)) ApplyOrder)
  +:+ (if (0 <? Updates plan)%nat || (0 <? Creates plan)%nat
       then nl +:+ "  Run " +:+ colorBold +:+ "gcplane plan" +:+ colorReset +:+ " for details." +:+ nl
       else nl +:+ "  " +:+ colorGreen +:+ "✓ All resources in sync" +:+ colorReset +:+ nl)
  +:+ nl.

Definition statusCmd : Cp unit :=
  let% (m, c) := connect "" in
  let% (plan, _) := reconcile c m (mkOpts true false false 0) in
  printC (status_text m plan).

(** ** apply.go *)

(** [y] or [yes], in any case and with space around it. *)
Definition affirmative (line : string) : bool :=
  let answer := TrimSpace (ToLower line) in
  String.eqb answer "y" || String.eqb answer "yes".

Definition confirm (auto : bool) (prompt : string) : Cp bool :=
  if auto then retC true
  else
    do% printC prompt in
    let% line := readC in
    retC (affirmative line).

(** [os.OpenFile] for appending and [Write]: nothing when the file cannot be opened. *)
Definition append_file (path data : string) (fs : Filesystem) : Filesystem :=
  let existing := match ReadFile fs path with Ok s => s | Err _ => "" end in
  (WriteFile path (existing +:+ data) fs).1.

Definition audit (logFile : string) (entry : string -> gomap) : Cp unit := fun w =>
  if String.eqb logFile "" then retC tt w
  else
    let data := default "" (Marshal (VMap (entry (format_time (w_now w))))) in
    retC tt (set_fs (append_file logFile (data +:+ nl) (w_fs w)) w).

Definition nat_v (n : nat) : gval := VInt (Z.of_nat n).

(** A nil slice is written as [null]. *)
Definition strs_v (l : list string) : gval := match l with [] => VNil | _ => VStrs l end.

Definition writeApplyAuditLog (logFile manifestFile : string) (plan : Plan) (result : ApplyResult) : Cp unit :=
  audit logFile (fun timestamp =>
    [("timestamp", VStr timestamp); ("action", VStr "apply"); ("manifest", VStr manifestFile);
     ("creates", nat_v (Creates plan)); ("updates", nat_v (Updates plan)); ("deletes", nat_v (Deletes plan));
     ("applied", nat_v (Applied result)); ("failed", nat_v (Failed result)); ("errors", strs_v (Errors result))]).

(** The end of [apply], once confirmed. *)
Definition apply_confirmed (f : ApplyFlags) (m : Manifest) (c : Client P) (plan : Plan) : Cp unit :=
  let% (_, result) := reconcile c m (mkOpts false (applyPrune f) (applyForce f) 0) in
  do% printC (PrintApplyResult result) in
  do% writeApplyAuditLog (applyLogFile f) (configFile g) plan result in
  if (0 <? Failed result)%nat
  then failC (errorf (count_text (Failed result) " resource(s) failed to apply"))
  else retC tt.

(** From the displayed plan to the end. *)
Definition apply_shown (f : ApplyFlags) (m : Manifest) (c : Client P) (plan : Plan) : Cp unit :=
  if (Creates plan =? 0)%nat && (Updates plan =? 0)%nat && (Deletes plan =? 0)%nat
  then printC (nl +:+ "No changes to apply." +:+ nl)
  else
  do% (if (0 <? Deletes plan)%nat then printC (PrintPruneWarning (Deletes plan)) else retC tt) in
  let% yes := confirm (autoApprove f) (nl +:+ "Apply these changes? [y/N] ") in
  if negb yes then printC ("Apply cancelled." +:+ nl)
  else apply_confirmed f m c plan.

Definition apply_plan (f : ApplyFlags) (m : Manifest) (c : Client P) : Cp unit :=
  let% (plan, _) := reconcile c m (mkOpts true (applyPrune f) (applyForce f) 0) in
  do% printC (PrintPlan other_v plan (verbose g)) in
  apply_shown f m c plan.

Definition applyCmd (f : ApplyFlags) : Cp unit :=
  let% (m, c) := connect (applyLabelSelector f) in
  apply_plan f m c.

(** ** export.go *)

Definition exportInternalFields : list string :=
  [ "id"; "createdAt"; "updatedAt"; "createdBy"; "created_at"; "updated_at"; "created_by";
    "writeOnlyHash"; "write_only_hash" ].

(** The fields deleted from an observation. *)
Definition export_spec (observed : option gomap) : option gomap :=
  option_map (delete_fields (exportInternalFields ++ ["name"; "agentKey"; "agent_key"])) observed.

(** The loop over the resources listed of one kind. *)
Fixpoint export_infos (p : ProviderInterface (World P)) (all : bool) (kind : ResourceKind)
    (infos : list ResourceInfo) (out : list Resource) (w : World P) : World P * list Resource :=
  match infos with
  | [] => (w, out)
  | info :: rest =>
    if negb all && negb (String.eqb (ri_CreatedBy info) "gcplane") then export_infos p all kind rest out w
    else match Observe p kind (ri_Name info) w with
         | (w, Err _) => export_infos p all kind rest out w
         | (w, Ok observed) =>
           export_infos p all kind rest
             (out ++ [mkResource kind (ri_Name info) [] [] (export_spec observed)])%list w
         end
  end.

Fixpoint export_kinds (p : ProviderInterface (World P)) (all : bool) (kinds : list ResourceKind)
    (out : list Resource) (w : World P) : World P * list Resource :=
  match kinds with
  | [] => (w, out)
  | kind :: rest =>
    match ListAll p kind w with
    | (w, Err _) => export_kinds p all rest out w
    | (w, Ok infos) =>
      let '(w, out) := export_infos p all kind infos out w in export_kinds p all rest out w
    end
  end.

(** [tok] is not written: the manifest refers to the variable. *)
Definition buildExportManifest (c : Client P) (all : bool) (ep tok : string) (w : World P) :
    World P * Manifest :=
  let '(w, resources) := export_kinds (attached (cl_provider c)) all ApplyOrder [] w in
  (w, mkManifest "gcplane.io/v1" "Manifest" (mkMetadata "exported" "")
        (mkConnection ep "${GCPLANE_TOKEN}" "" "") resources).

Definition flag_or_env (flag var : string) (w : World P) : string := first_set [flag; Getenv w var].

Definition exportCmd (exportAll : bool) : Cp unit :=
  let% ep := getC (flag_or_env (endpoint_flag g) "GCPLANE_ENDPOINT") in
  let% tok := getC (flag_or_env (token_flag g) "GCPLANE_TOKEN") in
  if String.eqb ep "" || String.eqb tok ""
  then failC (errorf "--endpoint and --token (or GCPLANE_ENDPOINT/GCPLANE_TOKEN env) required")
  else
  let% env := getC w_env in
  let% m := runC (buildExportManifest (open env ep tok []) exportAll ep tok) in
  let% data := liftC (marshal_manifest m) in
  printC data.

(** ** destroy.go *)

Definition not_destroyed (kind : ResourceKind) : bool :=
  String.eqb kind KindSkill || String.eqb kind KindBuiltinToolConfig || String.eqb kind KindSkillConfig
  || String.eqb kind KindSystemConfig || String.eqb kind KindMCPCredentials.

Definition owned (info : ResourceInfo) : bool := String.eqb (ri_CreatedBy info) "gcplane".

Fixpoint discover (p : ProviderInterface (World P)) (kinds : list ResourceKind)
    (toDelete : list ResourceInfo) (w : World P) : World P * list ResourceInfo :=
  match kinds with
  | [] => (w, toDelete)
  | kind :: rest =>
    if not_destroyed kind then discover p rest toDelete w
    else match ListAll p kind w with
         | (w, Err _) => discover p rest toDelete w
         | (w, Ok infos) => discover p rest (toDelete ++ List.filter owned infos)%list w
         end
  end.

Definition ri_text (r : ResourceInfo) : string := ri_Kind r +:+ "/" +:+ ri_Name r.

(** The deletions, with their output: the number that failed. *)
Fixpoint destroy_all (p : ProviderInterface (World P)) (toDelete : list ResourceInfo) (failed : nat)
    (w : World P) : World P * nat :=
  match toDelete with
  | [] => (w, failed)
  | r :: rest =>
    match Engine.Delete p (ri_Kind r) (ri_Name r) w with
    | (w, Err err) =>
      destroy_all p rest (S failed)
        (print ("  " +:+ line colorRed "x" (ri_text r +:+ ": " +:+ Error err)) w)
    | (w, Ok _) =>
      destroy_all p rest failed (print ("  " +:+ line colorGreen "+" (ri_text r +:+ " deleted")) w)
    end
  end.

Definition writeDestroyAuditLog (logFile : string) (deleted failed : nat) : Cp unit :=
  audit logFile (fun timestamp =>
    [("timestamp", VStr timestamp); ("action", VStr "destroy"); ("deleted", nat_v deleted);
     ("failed", nat_v failed)]).

(** The endpoint, the token and the options; the manifest is read only with [-f]. *)
Definition destroy_connection : Cp (string * string * list Option) :=
  if String.eqb (configFile g) "" then
    let% ep := getC (flag_or_env (endpoint_flag g) "GCPLANE_ENDPOINT") in
    let% tok := getC (flag_or_env (token_flag g) "GCPLANE_TOKEN") in
    retC (ep, tok, [])
  else
    let% m := loadAndValidateManifest in
    let% conn := getC (resolveConnection m) in
    let% (ep, tok) := liftC conn in
    let% provOpts := getC (resolveProviderOpts m) in
    let% opts := liftC provOpts in
    retC (ep, tok, opts).

Definition backup (f : DestroyFlags) (c : Client P) (ep tok : string) : Cp unit :=
  if String.eqb (destroyBackup f) "" then retC tt
  else
    let% m := runC (buildExportManifest c false ep tok) in
    let% data := liftC (res_wrap "backup marshal failed: " (marshal_manifest m)) in
    do% fsC "backup write failed: " (WriteFile (destroyBackup f) data) in
    printC ("Backup saved to " +:+ destroyBackup f +:+ nl).

(** The deletions once confirmed, to the end. *)
Definition destroy_confirmed (f : DestroyFlags) (p : ProviderInterface (World P))
    (toDelete : list ResourceInfo) : Cp unit :=
  let% failed := runC (destroy_all p toDelete 0) in
  let deleted := (length toDelete - failed)%nat in
  do% printC (nl +:+ colorBold +:+ "Destroy complete!" +:+ colorReset +:+ " " +:+ Itoan deleted
              +:+ " deleted, " +:+ Itoan failed +:+ " failed." +:+ nl) in
  do% writeDestroyAuditLog (destroyLogFile f) deleted failed in
  if (0 <? failed)%nat then failC (errorf (count_text failed " resource(s) failed to delete"))
  else retC tt.

Definition will_destroy (toDelete : list ResourceInfo) : string :=
  nl +:+ colorBold +:+ colorRed +:+ "Will destroy " +:+ Itoan (length toDelete)
  +:+ " resource(s):" +:+ colorReset +:+ nl +:+ nl
  +:+ String.concat "" (map (fun r => "  " +:+ line colorRed "-" (ri_text r)) toDelete).

(** From the list shown to the end. *)
Definition destroy_shown (f : DestroyFlags) (p : ProviderInterface (World P))
    (toDelete : list ResourceInfo) : Cp unit :=
  if destroyDryRun f then printC (nl +:+ "Dry-run: no resources deleted." +:+ nl)
  else
  let% yes := confirm (destroyAutoApprove f)
                (nl +:+ "Destroy these resources? This cannot be undone. [y/N] ") in
  if negb yes then printC ("Destroy cancelled." +:+ nl)
  else destroy_confirmed f p toDelete.

Definition destroy_listed (f : DestroyFlags) (p : ProviderInterface (World P)) : Cp unit :=
  let% toDelete := runC (discover p DeleteOrder []) in
  match toDelete with
  | [] => printC ("No gcplane-managed resources found." +:+ nl)
  | _ =>
    do% printC (will_destroy toDelete) in
    destroy_shown f p toDelete
  end.

Definition destroyCmd (f : DestroyFlags) : Cp unit :=
  let% (ep, tok, opts) := destroy_connection in
  if String.eqb ep "" || String.eqb tok ""
  then failC (errorf "--endpoint and --token (or -f manifest) required")
  else
  let% env := getC w_env in
  let c := open env ep tok opts in
  do% backup f c ep tok in
  destroy_listed f (attached (cl_provider c)).

(** ** validate.go *)

Definition validateCmd : Cp unit := fun w =>
  if String.eqb (configFile g) ""
  then failC (errorf "manifest file required: use --file or -f") w
  else
  match Load yaml renderTemplate (w_fs w) (configFile g) with
  | Panicked => (w, Panicked)
  | Returned (Err err) => failC err w
  | Returned (Ok m) =>
    match Validate semver zip (w_fs w) m with
    | [] => printC ("Valid: " +:+ MetaName (ManifestMetadata m) +:+ " (" +:+ Itoan (length (Resources m))
                    +:+ " resources)" +:+ nl) w
    | errs =>
      failC (errorf (count_text (length errs) " validation error(s)"))
        (eprint ("Validation errors:" +:+ nl
                 +:+ String.concat "" (map (fun e => "  - " +:+ Error e +:+ nl) errs)) w)
    end
  end.

(** ** init.go *)

Record providerTemplate := mkTemplate {
  displayName : string;
  providerType : string;
  apiBase : string;
  envVar : string;
  defaultModel : string
}.

Definition providers : list (string * providerTemplate) :=
  [("anthropic", mkTemplate "Anthropic" "anthropic" "https://api.anthropic.com" "ANTHROPIC_API_KEY"
      "claude-sonnet-4-20250514");
   ("openai", mkTemplate "OpenAI" "openai" "https://api.openai.com/v1" "OPENAI_API_KEY" "gpt-4o");
   ("openrouter", mkTemplate "OpenRouter" "openrouter" "https://openrouter.ai/api/v1" "OPENROUTER_API_KEY"
      "google/gemini-3-flash-preview")].

Definition template (key : string) : providerTemplate :=
  default (mkTemplate "" "" "" "" "") (mget key providers).

Definition readLine (defaultVal : string) : Cp string :=
  let% line := readC in
  let line := TrimSpace line in
  retC (if String.eqb line "" then defaultVal else line).

(** A prompt and its answer. *)
Definition ask (prompt defaultVal : string) : Cp string :=
  do% printC prompt in readLine defaultVal.

Definition capitalizeFirst (s : string) : string :=
  if String.eqb s "" then s else ToUpper (str_take 1 s) +:+ str_drop 1 s.

(** The template of the provider chosen and its name. *)
Definition choose_provider (choice : string) : Cp (providerTemplate * string) :=
  if String.eqb choice "1" then retC (template "anthropic", "anthropic")
  else if String.eqb choice "2" then retC (template "openai", "openai")
  else if String.eqb choice "4" then
    let% provName := ask "Provider name: " "custom" in
    let% base := ask "API base URL: " "https://api.example.com/v1" in
    let% model := ask "Default model: " "default" in
    retC (mkTemplate provName "custom" base (ToUpper provName +:+ "_API_KEY") model, provName)
  else retC (template "openrouter", "openrouter").

Definition quoted (s : string) : string := of_bytes [byte_of 34] +:+ s +:+ of_bytes [byte_of 34].

(** The manifest written. *)
Definition init_content (name ep provName : string) (prov : providerTemplate) (agentName model : string) :
    string :=
  Join [ "apiVersion: gcplane.io/v1"; "kind: Manifest"; "metadata:";
         "  name: " +:+ name; "  environment: dev"; "";
         "connection:"; "  endpoint: " +:+ ep; "  token: ${GOCLAW_TOKEN}"; "";
         "resources:";
         "  - kind: Provider"; "    name: " +:+ provName; "    spec:";
         "      displayName: " +:+ quoted (displayName prov);
         "      providerType: " +:+ providerType prov;
         "      apiBase: " +:+ apiBase prov;
         "      apiKey: ${" +:+ envVar prov +:+ "}"; "      enabled: true"; "";
         "  - kind: Agent"; "    name: " +:+ agentName; "    spec:";
         "      displayName: " +:+ quoted (capitalizeFirst agentName);
         "      provider: " +:+ provName; "      model: " +:+ model;
         "      agentType: predefined"; "      status: active"; "      isDefault: true"; "" ] nl.

Definition init_env (prov : providerTemplate) : string :=
  "GOCLAW_TOKEN=" +:+ nl +:+ envVar prov +:+ "=" +:+ nl +:+ nl +:+ "# Drift notifications (optional)" +:+ nl
  +:+ "GCPLANE_WEBHOOK_URL=" +:+ nl +:+ "GCPLANE_WEBHOOK_FORMAT=slack" +:+ nl.

(** [.env.example], unless there is one. *)
Definition write_env_example (prov : providerTemplate) : Cp unit := fun w =>
  match Stat (w_fs w) ".env.example" with
  | Ok _ => retC tt w
  | Err _ => printC ("Created .env.example" +:+ nl)
               (set_fs (WriteFile ".env.example" (init_env prov) (w_fs w)).1 w)
  end.

Definition initCmd : Cp unit :=
  let% existing := getC (fun w => Stat (w_fs w) "gcplane.yaml") in
  if is_ok existing then failC (errorf "gcplane.yaml already exists")
  else
  do% printC ("GCPlane Init — Generate starter manifest" +:+ nl +:+ nl) in
  let% name := ask "Deployment name [my-setup]: " "my-setup" in
  let% ep := ask "GoClaw endpoint [http://localhost:18790]: " "http://localhost:18790" in
  do% printC (nl +:+ "Provider type:" +:+ nl +:+ "  1) anthropic" +:+ nl +:+ "  2) openai" +:+ nl
              +:+ "  3) openrouter" +:+ nl +:+ "  4) custom" +:+ nl) in
  let% choice := ask "Choose [3]: " "3" in
  let% (prov, provName) := choose_provider choice in
  let% model := ask ("Model [" +:+ defaultModel prov +:+ "]: ") (defaultModel prov) in
  let% agentName := ask "Agent name [assistant]: " "assistant" in
  do% fsC "write gcplane.yaml: " (WriteFile "gcplane.yaml" (init_content name ep provName prov agentName model)) in
  do% printC (nl +:+ "Created gcplane.yaml" +:+ nl) in
  do% write_env_example prov in
  printC (nl +:+ "Next steps:" +:+ nl +:+ "  1. cp .env.example .env && edit .env" +:+ nl
          +:+ "  2. gcplane plan" +:+ nl +:+ "  3. gcplane apply" +:+ nl).
End cmd.
