(* ===== verification/CmdProps.v ===== *)
(** * What the commands do

    [apply] does what it displayed and only when it may; [destroy] deletes exactly what it
    listed; a manifest that [export] writes is in sync with the store it came from. *)
From Stdlib Require Import ZArith Lia Bool Ascii.
From Stdlib Require String.
From S2P Require Import Prelude GoStr GoValue Filepath Manifest Secrets Compare SkillPkg WriteOnly.
From S2P Require Import Engine Display EngineProps EngineTrace EngineFrame EngineConverge EngineClaims EngineForesee.
From S2P Require Import Validate Loader ValidateProps Http GoclawBase Cmd.

Local Open Scope string_scope.
Local Open Scope go_scope.

(** ** Providers inside the world of a command *)

Lemma onProv_prov {P A} (m : M P A) (w : World P) : w_prov (onProv m w).1 = (m (w_prov w)).1.
Proof. unfold onProv. by destruct (m (w_prov w)). Qed.

Lemma onProv_res {P A} (m : M P A) (w : World P) : (onProv m w).2 = (m (w_prov w)).2.
Proof. unfold onProv. by destruct (m (w_prov w)). Qed.

Lemma onProv_ok {P A} (m : M P A) (w w' : World P) a :
  onProv m w = (w', Ok a) -> m (w_prov w) = (w_prov w', Ok a).
Proof. unfold onProv. destruct (m (w_prov w)) as [q r]. by intros [= <- ->]. Qed.

#[export] Instance attached_traced {P} (p : ProviderInterface P) calls :
  Traced p calls -> Traced (attached p) (fun w : World P => calls (w_prov w)).
Proof. intros T. split; intros; simpl; rewrite onProv_prov; apply T. Qed.

#[export] Instance prov_lens {P} : Lens (w_prov (P := P)) set_prov.
Proof. split; [done|by intros []]. Qed.

#[export] Instance attached_lawful {P} env (p : ProviderInterface P) view listed :
  LawfulStore (fun _ => env) p view listed ->
  LawfulStore w_env (attached p) (fun w => view (w_prov w)) (fun w => listed (w_prov w)).
Proof. by apply (zoomed_lawful w_prov set_prov w_env env). Qed.

(** A store whose calls are recorded. *)
#[export] Instance instrument_lawful {W} env (p : ProviderInterface W) view listed :
  LawfulStore (fun _ => env) p view listed ->
  LawfulStore (fun _ => env) (instrument p) (fun w => view w.1) (fun w => listed w.1).
Proof.
  intros L.
  assert (Hfr : forall A (m : M W A) x k n w, frames (fun _ => env) view listed k n w.1 (m w.1).1 ->
            frames (fun _ => env) (fun w => view w.1) (fun w => listed w.1) k n w (with_calls m x w).1).
  { intros A m x k n [w cs] [_ H2 H3]. unfold with_calls. simpl in *. destruct (m w) as [w' r].
    by split. }
  assert (Hok : forall A (m : M W A) x w w' a, with_calls m x w = (w', Ok a) -> m w.1 = (w'.1, Ok a)).
  { intros A m x [w cs] w' a. unfold with_calls. simpl. destruct (m w) as [w1 r]. by intros [= <- ->]. }
  split; intros; simpl in *.
  - destruct w as [w cs]. unfold with_calls. rewrite store_observe. by rewrite app_nil_r.
  - destruct w as [w cs]. unfold with_calls. rewrite store_list. by rewrite app_nil_r.
  - apply Hfr, store_create_frame.
  - apply Hfr, store_update_frame.
  - apply Hfr, store_delete_frame.
  - apply Hok in H. by eapply store_create.
  - apply Hok in H. by eapply store_update.
  - apply Hok in H. by eapply store_delete.
Qed.

(** ** The parts of the world a command's steps change *)

Section frames.
Context {P : Type}.

(** The same streams, environment and clock. *)
Definition same_console (w w' : World P) : Prop :=
  w_env w' = w_env w /\ w_stdin w' = w_stdin w /\ w_stdout w' = w_stdout w /\
  w_stderr w' = w_stderr w /\ w_now w' = w_now w.

#[export] Instance same_console_preorder : PreOrder same_console.
Proof.
  split; [done|]. intros x y z (?&?&?&?&?) (?&?&?&?&?). repeat split; congruence.
Qed.

(** The same environment and provider state, and more output. *)
Record talks (w w' : World P) : Prop := {
  tk_env : w_env w' = w_env w;
  tk_prov : w_prov w' = w_prov w;
  tk_out : exists s, w_stdout w' = w_stdout w +:+ s
}.

#[export] Instance talks_preorder : PreOrder talks.
Proof.
  split.
  - intros w. split; [done|done|]. exists "". by rewrite string_app_nil_r.
  - intros x y z [A1 A2 [s A3]] [B1 B2 [t B3]]. split; [congruence|congruence|].
    exists (s +:+ t). by rewrite B3, A3, string_app_assoc.
Qed.

Lemma print_talks s (w : World P) : talks w (print s w).
Proof. split; [done|done|by exists s]. Qed.

Lemma onProv_console {A} (m : M P A) (w : World P) : same_console w (onProv m w).1.
Proof. unfold onProv. by destruct (m (w_prov w)). Qed.

Lemma Reconcile_console {U : Unicode} (p : ProviderInterface P) sch m opts w :
  same_console w (Reconcile w_env (attached p) sch m opts w).1.
Proof. apply frame_run; try apply _; intros; apply onProv_console. Qed.
End frames.

(** ** apply *)

Section commands.
Context {U : Unicode} {P : Type}.
Context (yaml : Yaml) (renderTemplate : Template) (semver : Semver) (zip : list (string * string) -> string).
Context (marshal_manifest : Manifest -> res string) (format_time : Z -> string) (other_v : gval -> string).
Context (open : Env -> string -> string -> list Option -> Client P).
Context (g : GlobalFlags).
Context (calls : P -> list call).

(** A manifest that loads is valid, and nothing was changed or said. *)
Lemma loadAndValidate_ok w w' m :
  loadAndValidateManifest (P := P) yaml renderTemplate semver zip g w = (w', Returned (Ok m)) ->
  w' = w /\ Validate semver zip (w_fs w) m = [].
Proof.
  unfold loadAndValidateManifest, failC, retC. case_match; [done|].
  destruct (Load _ _ _ _) as [[m'|e]|]; [|done|done].
  destruct (Validate _ _ _ m') eqn:Hv; [|done]. by intros [= <- <-].
Qed.

Lemma connect_ok sel w w' m c :
  connect yaml renderTemplate semver zip open g sel w = (w', Returned (Ok (m, c))) -> w' = w.
Proof.
  unfold connect, bindC, getC, liftC.
  destruct (loadAndValidateManifest _ _ _ _ _ w) as [w1 [[m1|e]|]] eqn:El; [|done|done].
  apply loadAndValidate_ok in El as [-> _].
  destruct (resolveConnection _ _ _) as [[ep tok]|e]; [|done].
  destruct (resolveProviderOpts _ _) as [opts|e]; [|done]. by intros [= <- <- <-].
Qed.

Lemma audit_frame file entry (w : World P) :
  exists w', audit format_time file entry w = (w', Returned (Ok tt)) /\
    w_prov w' = w_prov w /\ w_stdout w' = w_stdout w.
Proof. unfold audit, retC. case_match; by eexists. Qed.

(** The run after the confirmation: the provider is where the engine left it. *)
Lemma apply_confirmed_out f m c plan (w : World P) :
  let run := Reconcile w_env (attached (cl_provider c)) sequential m
               (mkOpts false (applyPrune f) (applyForce f) 0) w in
  let out := (apply_confirmed format_time g f m c plan w).1 in
  w_prov out = w_prov run.1 /\ w_stdout out = w_stdout run.1 +:+ PrintApplyResult run.2.2.
Proof.
  unfold apply_confirmed, reconcile, runC, bindC, printC.
  destruct (Reconcile _ _ _ _ _ w) as [w1 [plan1 result]]. cbn [fst snd].
  unfold writeApplyAuditLog.
  match goal with |- context [audit format_time ?file ?entry ?w'] =>
    destruct (audit_frame file entry w') as (w2 & -> & H1 & H2) end.
  by case_match.
Qed.

Lemma ReadString_same (w w' : World P) :
  w_stdin w' = w_stdin w -> (ReadString w').2 = (ReadString w).2.
Proof. unfold ReadString. intros ->. by destruct (Cut _ _) as [[??]|]. Qed.

(** The answer is read once; only output comes with it. *)
Lemma confirm_out auto prompt (w : World P) :
  exists w', confirm auto prompt w = (w', Returned (Ok (auto || affirmative (ReadString w).2))) /\ talks w w'.
Proof.
  unfold confirm, bindC, printC, readC, retC. destruct auto; simpl; [by exists w|].
  unfold ReadString. simpl. destruct (Cut _ _) as [[l r]|]; eexists; (split; [done|]); split; try done;
    by exists prompt.
Qed.

(** Something to apply. *)
Definition has_changes (plan : Plan) : bool :=
  negb ((Creates plan =? 0)%nat && (Updates plan =? 0)%nat && (Deletes plan =? 0)%nat).

Lemma apply_plan_eq f m (c : Client P) (w w1 : World P) plan result :
  Reconcile w_env (attached (cl_provider c)) sequential m (mkOpts true (applyPrune f) (applyForce f) 0) w
    = (w1, (plan, result)) ->
  apply_plan format_time other_v g f m c w
  = apply_shown format_time g f m c plan (print (PrintPlan other_v plan (verbose g)) w1).
Proof. intros HR. unfold apply_plan, reconcile, runC, printC, bindC. by rewrite HR. Qed.

(** After the dry run, [apply] says what it found, asks, and either stops or goes on. *)
Lemma apply_shown_out f m (c : Client P) (w : World P) plan out :
  apply_shown format_time g f m c plan w = out ->
  exists w2, talks w w2 /\
    if has_changes plan && (autoApprove f || affirmative (ReadString w).2)
    then out = apply_confirmed format_time g f m c plan w2
    else out.1 = w2.
Proof.
  unfold apply_shown, has_changes. destruct ((Creates plan =? 0)%nat && _ && _); cbn [negb andb].
  { intros <-. eexists. split; [|done]. apply print_talks. }
  set (warning := if (0 <? Deletes plan)%nat then printC (PrintPruneWarning (Deletes plan)) else retC tt).
  assert (Hwarn : exists w3, warning w = (w3, Returned (Ok tt)) /\ talks w w3 /\ w_stdin w3 = w_stdin w).
  { unfold warning. destruct (0 <? Deletes plan)%nat; eexists; (split; [done|]); (split; [|done]);
      [apply print_talks|done]. }
  destruct Hwarn as (w3 & Hw & H3 & Hin). unfold bindC at 1. rewrite Hw.
  destruct (confirm_out (autoApprove f) (nl +:+ "Apply these changes? [y/N] ") w3) as (w4 & Hc & H4).
  unfold bindC at 1. rewrite Hc, (ReadString_same w w3) by done.
  destruct (autoApprove f || affirmative (ReadString w).2); cbn [negb]; intros <-.
  - exists w4. split; [by etrans|done].
  - eexists. split; [|done]. etrans; [exact H3|]. etrans; [exact H4|apply print_talks].
Qed.

(** C8: what [apply] displays is what it does.  It prints the plan of a dry run first; when
    that plan is empty, or the answer is not a yes, nothing in the store changes.  Otherwise,
    over a store that keeps its promises, the mutating calls it makes are exactly the
    creations and updates of the plan displayed, in its order, followed by deletions that the
    plan displayed. *)
Theorem apply_does_what_it_showed view listed f w w1 m c :
  connect yaml renderTemplate semver zip open g (applyLabelSelector f) w = (w1, Returned (Ok (m, c))) ->
  LawfulStore (fun _ => w_env w) (cl_provider c) view listed -> Traced (cl_provider c) calls ->
  let out := (applyCmd yaml renderTemplate semver zip format_time other_v open g f w).1 in
  let shown := (Reconcile w_env (attached (cl_provider c)) sequential m
                  (mkOpts true (applyPrune f) (applyForce f) 0) w).2.1 in
  exists changes deletions,
    Changes shown = (changes ++ deletions)%list /\
    Forall2 change_for (apply_sequence m) changes /\
    (exists rest, w_stdout out = w_stdout w +:+ PrintPlan other_v shown (verbose g) +:+ rest) /\
    if has_changes shown && (autoApprove f || affirmative (ReadString w).2)
    then exists deleted, Forall (fun c => c ∈ deletions) deleted /\
           calls (w_prov out) = (calls (w_prov w) ++ map call_of (actionable (changes ++ deleted)))%list
    else w_prov out = w_prov w.
Proof.
  intros Hc L T out shown. pose proof (connect_ok _ _ _ _ _ Hc) as ->.
  pose proof (attached_lawful (w_env w) (cl_provider c) view listed L) as L'.
  pose proof (attached_traced (cl_provider c) calls T) as T'.
  set (opts := mkOpts true (applyPrune f) (applyForce f) 0) in *.
  destruct (dry_run_plan (env_of := w_env) (p := attached (cl_provider c)) m sequential opts w)
    as [Hw Hch]; [apply _|done|]. cbn [Force Prune] in Hch. fold shown in Hch.
  eexists _, _. split; [exact Hch|]. split; [apply (planned_all_for (p := attached (cl_provider c)))|].
  assert (Ho : out = (apply_plan format_time other_v g f m c w).1).
  { unfold out, applyCmd, bindC. by rewrite Hc. }
  clearbody out. subst out.
  destruct (Reconcile w_env (attached (cl_provider c)) sequential m opts w) as [w1 [plan res]] eqn:HR.
  cbn [fst snd] in *. subst w1 shown.
  rewrite (apply_plan_eq _ _ _ _ _ _ _ HR).
  destruct (apply_shown_out f m c (print (PrintPlan other_v plan (verbose g)) w) plan _ eq_refl) as (w2 & [He Hp [s Hs]] & Hout). simpl in He, Hp, Hs.
  rewrite (ReadString_same w) in Hout by done.
  destruct (has_changes plan && _).
  2: { rewrite Hout. split; [|done]. exists s. by rewrite Hs, string_app_assoc. }
  rewrite Hout.
  destruct (apply_confirmed_out f m c plan w2) as [H1 H2].
  set (ropts := mkOpts false (applyPrune f) (applyForce f) 0) in *.
  pose proof (Reconcile_console (cl_provider c) sequential m ropts w2) as (_ & _ & H3 & _).
  split.
  { exists (s +:+ PrintApplyResult (Reconcile w_env (attached (cl_provider c)) sequential m ropts w2).2.2).
    rewrite H2, H3, Hs. by rewrite !string_app_assoc. }
  assert (Hf : foreseen (env_of := w_env) (view := fun w => view (w_prov w))
                 (listed := fun w => listed (w_prov w)) m [] w w2).
  { split; [done|by rewrite Hp|]. intros k ri. rewrite Hp. by left. }
  destruct (run_foreseen (p := attached (cl_provider c)) m sequential ropts w2 w ltac:(apply _) Hf)
    as (ds & Hds & _ & Hp1 & Hp0).
  destruct (Reconcile w_env (attached (cl_provider c)) sequential m ropts w2) as [w3 [plan3 res3]] eqn:HR3.
  destruct (Reconcile_calls w_env (attached (cl_provider c)) (fun w => calls (w_prov w)) sequential m ropts
              w2 w3 plan3 res3 ltac:(apply _) HR3) as (ms & Hms & Hperf).
  cbn [DryRun Concurrency ropts fst snd] in *. exists ds. split.
  - unfold opts in *. cbn [Prune] in *. destruct (applyPrune f); [by apply Hp1|]. rewrite Hp0 by done. constructor.
  - rewrite H1, Hms, Hp. f_equal. cbn [Force opts ropts] in *. rewrite <- Hds. by apply (pf_seq _ _ _ Hperf).
Qed.

(** ** destroy *)

(** The calls of the provider, the streams, the environment and the clock stay. *)
Definition quiet (w w' : World P) : Prop :=
  same_console w w' /\ calls (w_prov w') = calls (w_prov w).

#[local] Instance quiet_preorder : PreOrder quiet.
Proof.
  split; [done|]. intros x y z [A1 A2] [B1 B2]. split; [by etrans|congruence].
Qed.

(** More output, and the calls [cs] made. *)
Definition does (cs : list call) (w w' : World P) : Prop :=
  calls (w_prov w') = (calls (w_prov w) ++ cs)%list /\ exists s, w_stdout w' = w_stdout w +:+ s.

Lemma does_trans cs ds w1 w2 w3 : does cs w1 w2 -> does ds w2 w3 -> does (cs ++ ds) w1 w3.
Proof.
  intros [A1 [s A2]] [B1 [t B2]]. split; [by rewrite B1, A1, (assoc_L (++))|].
  exists (s +:+ t). by rewrite B2, A2, string_app_assoc.
Qed.

Lemma talks_does w w' : talks w w' -> does [] w w'.
Proof. intros [_ Hp Ho]. split; [|done]. by rewrite Hp, app_nil_r. Qed.

Section provider.
Context (p : ProviderInterface P) {T : Traced p calls}.

Lemma observe_quiet k n w : quiet w (Observe (attached p) k n w).1.
Proof. split; [apply onProv_console|apply (calls_observe (Traced := attached_traced p calls T))]. Qed.

Lemma list_quiet k w : quiet w (ListAll (attached p) k w).1.
Proof. split; [apply onProv_console|apply (calls_list (Traced := attached_traced p calls T))]. Qed.

Lemma export_infos_quiet all k infos out w : quiet w (export_infos (attached p) all k infos out w).1.
Proof.
  revert out w. induction infos as [|i infos IH]; intros out w; simpl; [done|].
  destruct (negb all && _); [apply IH|]. pose proof (observe_quiet k (ri_Name i) w) as H. simpl in H.
  destruct (onProv _ w) as [w1 [o|e]]; (etrans; [exact H|apply IH]).
Qed.

Lemma export_kinds_quiet all ks out w : quiet w (export_kinds (attached p) all ks out w).1.
Proof.
  revert out w. induction ks as [|k ks IH]; intros out w; simpl; [done|].
  pose proof (list_quiet k w) as H. simpl in H.
  destruct (onProv _ w) as [w1 [infos|e]]; [|etrans; [exact H|apply IH]].
  pose proof (export_infos_quiet all k infos out w1) as H1.
  destruct (export_infos _ all k infos out w1) as [w2 out2]. etrans; [exact H|]. etrans; [exact H1|apply IH].
Qed.

(** The kinds [destroy] lists, in its order. *)
Definition destroyed_kinds : list ResourceKind := List.filter (fun k => negb (not_destroyed k)) DeleteOrder.

(** What is found is what gcplane created among the resources listed. *)
Lemma discover_exact kinds acc w :
  quiet w (discover (attached p) kinds acc w).1 /\
  exists ls, Forall2 (listing p) (List.filter (fun k => negb (not_destroyed k)) kinds) ls /\
    (discover (attached p) kinds acc w).2 = (acc ++ concat (map (List.filter owned) ls))%list.
Proof.
  revert acc w. induction kinds as [|k kinds IH]; intros acc w; cbn [discover List.filter].
  { split; [done|]. exists []. by rewrite app_nil_r. }
  destruct (not_destroyed k); cbn [negb]; [apply IH|].
  pose proof (list_quiet k w) as H. simpl in *.
  assert (Hl : forall w' l, onProv (ListAll p k) w = (w', Ok l) -> listing p k l).
  { intros w' l Ho. right. exists (w_prov w). by apply onProv_ok in Ho as ->. }
  destruct (onProv (ListAll p k) w) as [w1 [infos|e]].
  - destruct (IH (acc ++ List.filter owned infos)%list w1) as [Hq (ls & H1 & H2)].
    split; [etrans; [exact H|exact Hq]|]. exists (infos :: ls).
    split; [by constructor; [eapply Hl|]|]. rewrite H2. by rewrite <- (assoc_L (++)).
  - destruct (IH acc w1) as [Hq (ls & H1 & H2)]. split; [etrans; [exact H|exact Hq]|].
    exists ([] :: ls). split; [constructor; [by left|done]|]. done.
Qed.

Definition destroy_call (r : ResourceInfo) : call := (ActionDelete, ri_Kind r, ri_Name r).

Lemma destroy_all_does targets failed w :
  does (map destroy_call targets) w (destroy_all (attached p) targets failed w).1.
Proof.
  revert failed w. induction targets as [|r targets IH]; intros failed w; cbn [destroy_all map].
  { by apply talks_does. }
  pose proof (calls_delete (Traced := attached_traced p calls T) (ri_Kind r) (ri_Name r) w) as H.
  pose proof (onProv_console (Engine.Delete p (ri_Kind r) (ri_Name r)) w) as (_ & _ & Ho & _).
  simpl in *. fold (destroy_call r) in H.
  assert (Hd : forall s w1, calls (w_prov w1) = (calls (w_prov w) ++ [destroy_call r])%list ->
                 w_stdout w1 = w_stdout w -> does [destroy_call r] w (print s w1)).
  { intros s w1 Hc1 Ho1. split; [done|]. exists s. simpl. by rewrite Ho1. }
  destruct (onProv _ w) as [w1 [[]|e]]; cbn [fst] in *;
    (eapply (does_trans [destroy_call r]); [by apply Hd|apply IH]).
Qed.

Lemma destroy_confirmed_does f targets w :
  does (map destroy_call targets) w (destroy_confirmed format_time f (attached p) targets w).1.
Proof.
  unfold destroy_confirmed, runC, bindC, printC.
  pose proof (destroy_all_does targets 0 w) as Hd.
  destruct (destroy_all (attached p) targets 0 w) as [w1 failed]. cbn [fst] in Hd.
  unfold writeDestroyAuditLog.
  match goal with |- context [audit format_time ?file ?entry ?w'] =>
    destruct (audit_frame file entry w') as (w2 & -> & H1 & H2) end.
  assert (Hw : does (map destroy_call targets) w w2).
  { rewrite <- (app_nil_r (map _ _)). eapply does_trans; [exact Hd|].
    split; [by rewrite H1, app_nil_r|]. rewrite H2. simpl. by eexists. }
  by case_match.
Qed.
End provider.

Lemma destroy_connection_ok (w w' : World P) x :
  destroy_connection yaml renderTemplate semver zip g w = (w', Returned (Ok x)) -> w' = w.
Proof.
  unfold destroy_connection, bindC, getC, liftC, retC. case_match; [by intros [= <- _]|].
  destruct (loadAndValidateManifest _ _ _ _ _ w) as [w1 [[m1|e]|]] eqn:El; [|done|done].
  apply loadAndValidate_ok in El as [-> _].
  destruct (resolveConnection _ _ _) as [[ep tok]|e]; [|done].
  destruct (resolveProviderOpts _ _) as [opts|e]; [|done]. by intros [= <- _].
Qed.

(** The backup only reads the store. *)
Lemma backup_quiet f (c : Client P) ep tok w :
  Traced (cl_provider c) calls ->
  let out := backup marshal_manifest f c ep tok w in
  calls (w_prov out.1) = calls (w_prov w) /\ w_stdin out.1 = w_stdin w /\
  (exists s, w_stdout out.1 = w_stdout w +:+ s) /\
  (destroyBackup f = "" -> out = (w, Returned (Ok tt))).
Proof.
  intros T. unfold backup. destruct (String.eqb_spec (destroyBackup f) "") as [Hb|Hb].
  { cbn. split; [done|]. split; [done|]. split; [|done]. exists "". by rewrite string_app_nil_r. }
  unfold runC, bindC, buildExportManifest.
  destruct (export_kinds_quiet (cl_provider c) false ApplyOrder [] w) as [(_ & Hi & Ho & _) Hc].
  destruct (export_kinds _ false ApplyOrder [] w) as [w1 rs]. cbn [fst] in *.
  destruct (marshal_manifest _) as [data|e]; cbn.
  2: { split; [done|]. split; [done|]. split; [|done]. exists "". by rewrite string_app_nil_r, Ho. }
  unfold fsC. destruct (WriteFile _ _ _) as [fs [[]|e]]; cbn.
  - split; [done|]. split; [done|]. split; [|done]. eexists. by rewrite Ho.
  - split; [done|]. split; [done|]. split; [|done]. exists "". by rewrite string_app_nil_r, Ho.
Qed.

(** The answer, or the flag that replaces it. *)
Definition destroy_agreed (f : DestroyFlags) (w : World P) : bool :=
  negb (destroyDryRun f) && (destroyAutoApprove f || affirmative (ReadString w).2).

Lemma destroy_shown_does f p targets w :
  Traced p calls ->
  does (if destroy_agreed f w then map destroy_call targets else []) w
    (destroy_shown format_time f (attached p) targets w).1.
Proof.
  intros T. unfold destroy_shown, destroy_agreed. destruct (destroyDryRun f); cbn [negb andb].
  { apply talks_does, print_talks. }
  destruct (confirm_out (destroyAutoApprove f)
              (nl +:+ "Destroy these resources? This cannot be undone. [y/N] ") w) as (w1 & Hc & H1).
  unfold bindC. rewrite Hc. destruct (destroyAutoApprove f || _); cbn [negb].
  - eapply (does_trans []); [by apply talks_does|by apply destroy_confirmed_does].
  - apply talks_does. etrans; [exact H1|apply print_talks].
Qed.

(** C9: [destroy] deletes exactly what it shows.  With a connection, there is a list of
    resources, those created by gcplane among what the provider listed of the kinds that can
    be destroyed, in the order of deletion, such that the mutating calls of the command are
    one deletion for each of them in that order, after they were all displayed, or none at
    all; there are none in a dry run and without a yes, and with a yes, and without a backup
    that can fail, there are all of them. *)
Theorem destroy_deletes_listed f w w1 ep tok opts :
  destroy_connection yaml renderTemplate semver zip g w = (w1, Returned (Ok (ep, tok, opts))) ->
  Traced (cl_provider (open (w_env w) ep tok opts)) calls ->
  let out := (destroyCmd yaml renderTemplate semver zip marshal_manifest format_time open g f w).1 in
  exists ls (ran : bool),
    Forall2 (listing (cl_provider (open (w_env w) ep tok opts))) destroyed_kinds ls /\
    let targets := concat (map (List.filter owned) ls) in
    calls (w_prov out) = (calls (w_prov w) ++ if ran then map destroy_call targets else [])%list /\
    (ran = true -> destroy_agreed f w = true /\
       exists before after, w_stdout out = before +:+ will_destroy targets +:+ after) /\
    (ep <> "" -> tok <> "" -> destroyBackup f = "" -> destroy_agreed f w = true -> targets <> [] -> ran = true).
Proof.
  intros Hc T out. pose proof (destroy_connection_ok _ _ _ Hc) as ->.
  set (c := open (w_env w) ep tok opts) in *.
  destruct (backup_quiet f c ep tok w T) as (B1 & B2 & [s0 B3] & B4).
  assert (Ho : out = (if String.eqb ep "" || String.eqb tok "" then w else
             match backup marshal_manifest f c ep tok w with
             | (w2, Returned (Ok _)) => (destroy_listed format_time f (attached (cl_provider c)) w2).1
             | (w2, _) => w2
             end)).
  { unfold out, destroyCmd, bindC, getC. rewrite Hc. fold c. destruct (String.eqb ep "" || String.eqb tok ""); [done|].
    by destruct (backup _ _ _ _ _ w) as [w2 [[]|]]. }
  clearbody out. subst out.
  assert (Hnone : forall ls w2, calls (w_prov w2) = calls (w_prov w) ->
            calls (w_prov w2) = (calls (w_prov w) ++
              if false then map destroy_call (concat (map (List.filter owned) ls)) else [])%list)
    by (intros ls w2 ->; by rewrite app_nil_r).
  assert (Hls : exists ls, Forall2 (listing (cl_provider c)) destroyed_kinds ls).
  { destruct (discover_exact (cl_provider c) DeleteOrder [] w) as (_ & ls & ? & _). by exists ls. }
  destruct (String.eqb_spec ep "") as [He|He]; cbn [orb].
  { destruct Hls as [ls Hls]. exists ls, false. split; [done|]. split; [exact (Hnone ls w eq_refl)|]. done. }
  destruct (String.eqb_spec tok "") as [Ht|Ht].
  { destruct Hls as [ls Hls]. exists ls, false. split; [done|]. split; [exact (Hnone ls w eq_refl)|]. done. }
  destruct (backup _ f c ep tok w) as [w2 [[[]|e]|]]; cbn [fst] in *.
  2-3: destruct Hls as [ls Hls]; exists ls, false; split; [done|]; split; [exact (Hnone ls w2 B1)|]; split; [done|];
       intros _ _ Hb; by specialize (B4 Hb).
  unfold destroy_listed, runC, bindC.
  destruct (discover_exact (cl_provider c) DeleteOrder [] w2) as (Hq & ls & Hl & Hd).
  destruct (discover _ DeleteOrder [] w2) as [w3 targets]. cbn [fst snd app] in *. subst targets.
  destruct Hq as [(_ & Q2 & Q3 & _) Q4].
  set (targets := concat (map (List.filter owned) ls)).
  destruct targets as [|t ts] eqn:Et.
  { exists ls, false. split; [done|]. fold targets. rewrite Et.
    split; [simpl; by rewrite Q4, B1, app_nil_r|]. done. }
  exists ls, (destroy_agreed f w). split; [done|]. fold targets. rewrite Et. cbv zeta.
  assert (Ha : destroy_agreed f (print (will_destroy (t :: ts)) w3) = destroy_agreed f w).
  { unfold destroy_agreed. rewrite (ReadString_same w) by (simpl; congruence). done. }
  unfold printC.
  destruct (destroy_shown_does f (cl_provider c) (t :: ts) (print (will_destroy (t :: ts)) w3) T) as [D1 [s D2]].
  rewrite Ha in D1. simpl in D1, D2. split; [by rewrite D1, Q4, B1|]. split; [|done].
  intros Hy. split; [done|]. exists (w_stdout w3), s. by rewrite D2, string_app_assoc.
Qed.

(** ** export *)

(** An observation that the manifest can state: distinct fields with values the comparison
    treats exactly, no reference to a secret, and no write-only field. *)
Record exportable (env : Env) (kind : ResourceKind) (v : gomap) : Prop := {
  xp_uniq : uniq_keys v;
  xp_values : Forall (fun kv => proper_val kv.2) v;
  xp_sets : set_fields_ok EmptyString (default [] (export_spec (Some v)));
  xp_plain : resolveSpecSecrets env (default [] (export_spec (Some v))) = default [] (export_spec (Some v));
  xp_write_only f : f ∈ WriteOnlyFields kind -> mget f (default [] (export_spec (Some v))) = None
}.

(** What is exported of the resources listed. *)
Definition exported (all : bool) (info : ResourceInfo) : bool := all || owned info.

Section export.
Context (p : ProviderInterface P) (view : P -> ResourceKind -> string -> option gomap).
Context (listed : P -> ResourceKind -> list ResourceInfo) (env : Env).
Context {L : LawfulStore (fun _ => env) p view listed}.

Lemma set_prov_same (w : World P) : set_prov (w_prov w) w = w.
Proof. by destruct w. Qed.

Definition export_resource (q : P) (kind : ResourceKind) (info : ResourceInfo) : Resource :=
  mkResource kind (ri_Name info) [] [] (export_spec (view q kind (ri_Name info))).

Lemma export_infos_lawful all k infos out w :
  export_infos (attached p) all k infos out w
  = (w, (out ++ map (export_resource (w_prov w) k) (List.filter (exported all) infos))%list).
Proof.
  revert out. induction infos as [|i infos IH]; intros out; cbn [export_infos List.filter map];
    [by rewrite app_nil_r|].
  unfold exported, owned at 1. destruct all, (String.eqb (ri_CreatedBy i) "gcplane"); cbn [negb andb orb];
    try (simpl; unfold onProv; rewrite store_observe, set_prov_same); rewrite IH; cbn [map];
    by rewrite <- ?(assoc_L (++)).
Qed.

Lemma export_kinds_lawful all ks out w :
  export_kinds (attached p) all ks out w
  = (w, (out ++ concat (map (fun k => map (export_resource (w_prov w) k)
                                       (List.filter (exported all) (listed (w_prov w) k))) ks))%list).
Proof.
  revert out. induction ks as [|k ks IH]; intros out; cbn [export_kinds map concat]; [by rewrite app_nil_r|].
  simpl. unfold onProv. rewrite store_list, set_prov_same. fold (attached p).
  rewrite export_infos_lawful, IH. by rewrite <- (assoc_L (++)).
Qed.

Lemma hashed_none spec fields ig :
  (forall f, f ∈ fields -> mget f spec = None) -> HashWriteOnlyFields spec fields ig = "".
Proof.
  intros Hf. unfold HashWriteOnlyFields. replace (hashed_pairs spec fields ig) with (@nil (string * gval)); [done|].
  symmetry. unfold hashed_pairs. induction fields as [|f fields IH]; [done|]. simpl.
  rewrite Hf by left. destruct (existsb _ ig); (apply IH; intros; apply Hf; by right).
Qed.

(** An exported observation leaves nothing to do. *)
Lemma export_settled k info v w :
  w_env w = env -> view (w_prov w) k (ri_Name info) = Some v -> exportable env k v ->
  settled (env_of := w_env) (view := fun w => view (w_prov w)) w (export_resource (w_prov w) k info).
Proof.
  intros He Hv [Hu Hp Hs Hr Hw]. right. exists v. unfold export_resource. rewrite Hv. cbn [Kind Name].
  unfold resolved, specMap. cbn [Spec]. rewrite He, Hr. split; [done|].
  assert (Hin : forall kv, kv ∈ default [] (export_spec (Some v)) -> kv ∈ v) by (intros kv; apply delete_fields_elem).
  split.
  - apply CompareSpecExcluding_covers; [|done|].
    + apply Forall_forall. intros kv Hkv. rewrite Forall_forall in Hp. by apply Hp, Hin.
    + intros f x Hx _. by apply mget_in; [|apply Hin].
  - unfold desired_hash. cbn [Annotations Kind]. cbn [strget mget default].
    by rewrite hashed_none.
Qed.
End export.

(** C13: a manifest that [export] writes is in sync with the store it was read from: over a
    store that keeps its promises, and whose exported observations can be stated in a
    manifest, exporting changes nothing, and reconciling the exported manifest, with or
    without pruning, plans only no-ops, deletes nothing, fails nothing and changes nothing. *)
Theorem export_in_sync (c : Client P) view listed all ep tok (w : World P) sch opts :
  LawfulStore (fun _ => w_env w) (cl_provider c) view listed ->
  (forall k info, k ∈ ApplyOrder -> info ∈ listed (w_prov w) k -> exported all info = true ->
     exists v, view (w_prov w) k (ri_Name info) = Some v /\ exportable (w_env w) k v) ->
  FairSchedule sch -> Force opts = false ->
  let '(w', m) := buildExportManifest c all ep tok w in
  w' = w /\
  exists plan, Reconcile w_env (attached (cl_provider c)) sch m opts w = (w, (plan, emptyResult)) /\
    Forall (fun c => ch_Action c = ActionNoop /\ ch_Error c = "") (Changes plan).
Proof.
  intros L Hx Hf Hfo. unfold buildExportManifest.
  rewrite (export_kinds_lawful (cl_provider c) view listed (w_env w) all ApplyOrder [] w). cbn [app].
  split; [done|]. set (m := mkManifest _ _ _ _ _).
  assert (Hm : forall r, r ∈ Resources m <-> exists k info, k ∈ ApplyOrder /\ info ∈ listed (w_prov w) k /\
                 exported all info = true /\ r = export_resource view (w_prov w) k info).
  { intros r. unfold m. cbn [Resources]. rewrite list_elem_of_In, in_concat. split.
    - intros (l & Hl & Hr). apply in_map_iff in Hl as (k & <- & Hk). apply in_map_iff in Hr as (i & <- & Hi).
      apply filter_In in Hi as [Hi He]. exists k, i. by rewrite !list_elem_of_In.
    - intros (k & i & Hk & Hi & He & ->). eexists. split; [apply in_map; by apply list_elem_of_In|].
      apply in_map, filter_In. by rewrite <- list_elem_of_In. }
  pose proof (attached_lawful (w_env w) (cl_provider c) view listed L) as L'.
  apply (settled_Reconcile m sch opts w Hf Hfo).
  - intros r Hr _. apply Hm in Hr as (k & i & Hk & Hi & He & ->).
    destruct (Hx k i Hk Hi He) as (v & Hv & Hxv). by eapply export_settled.
  - intros _ k Hk. right. apply Forall_forall. intros i Hi. unfold orphan.
    destruct (String.eqb (ri_CreatedBy i) "gcplane") eqn:Ho; [|done].
    apply negb_false_iff, in_manifest_spec, list_elem_of_fmap.
    exists (export_resource view (w_prov w) k i). split; [done|]. apply Hm. exists k, i.
    split; [by rewrite DeleteOrder_reverse, elem_of_reverse in Hk|]. split; [done|]. split; [|done].
    unfold exported, owned. rewrite Ho. apply orb_true_r.
Qed.
End commands.

(** ** Examples: the store in memory *)

#[local] Existing Instance ascii_unicode.

Definition ex_yaml : Yaml :=
  mkYaml (fun _ => Ok ex_manifest) (fun _ => Ok None) (fun _ => Err (errorf "")) (fun _ => Err (errorf ""))
    (fun _ => Err (errorf "")) (fun _ => Err (errorf "")).

Definition ex_template : Template := fun text _ => Ok text.
Definition ex_semver : Semver := mkSemver (fun _ => true) (fun _ _ => 0%Z).
Definition ex_zip : list (string * string) -> string := fun _ => "".

Definition ex_client : Client (mem * list call) :=
  mkClient (instrument mem_provider) (fun _ => failM (errorf "no skill")) (fun _ => failM (errorf "no agent")).

Definition ex_env : Env :=
  mkEnv [("KEY", "s3cret")] (mkFs (FDir [("gcplane.yaml", FFile (Ok "resources: []"))]) []).

(** The answer is a yes. *)
Definition ex_world : World (mem * list call) := mkWorld ex_env ("Yes " +:+ nl) "" "" 0 (ex_store, []).

Definition ex_flags : GlobalFlags := mkFlags "gcplane.yaml" "http://x" "t" false.
Definition ex_apply_flags : ApplyFlags := mkApplyFlags false true false "" "".
Definition ex_destroy_flags : DestroyFlags := mkDestroyFlags false false "" "".

Abbreviation ex_applied :=
  (applyCmd ex_yaml ex_template ex_semver ex_zip Itoa (fun _ => "") (fun _ _ _ _ => ex_client) ex_flags
     ex_apply_flags ex_world).1.

Abbreviation ex_shown :=
  (Reconcile w_env (attached (cl_provider ex_client)) sequential ex_manifest
     (mkOpts true (applyPrune ex_apply_flags) (applyForce ex_apply_flags) 0) ex_world).2.1.

Lemma ex_client_lawful env :
  LawfulStore (fun _ => env) (cl_provider ex_client) (fun w => mem_view w.1) (fun w => mem_listed w.1).
Proof. apply instrument_lawful, (lawful_env mem_env), _. Qed.

(** The condition of a conditional hypothesis, computed. *)
Ltac decide_if H :=
  match type of H with
  | if ?b then _ else _ => first [replace b with true in H by (vm_compute; reflexivity)
                                 |replace b with false in H by (vm_compute; reflexivity)]
  end.

Lemma apply_does_what_it_showed_witness :
  exists changes deletions deleted,
    Changes ex_shown = (changes ++ deletions)%list /\ Forall2 change_for (apply_sequence ex_manifest) changes /\
    Forall (fun c => c ∈ deletions) deleted /\
    (w_prov ex_applied).2 = map call_of (actionable (changes ++ deleted)).
Proof.
  destruct (apply_does_what_it_showed ex_yaml ex_template ex_semver ex_zip Itoa (fun _ => "")
              (fun _ _ _ _ => ex_client) ex_flags snd _ _ ex_apply_flags ex_world ex_world ex_manifest ex_client
              ltac:(vm_compute; reflexivity) (ex_client_lawful _) (instrument_traced mem_provider))
    as (changes & deletions & H1 & H2 & _ & H3).
  decide_if H3. destruct H3 as (deleted & H3 & H4). exists changes, deletions, deleted.
  split; [exact H1|]. split; [exact H2|]. split; [exact H3|exact H4].
Defined.

(** What [apply] called. *)
Example ex_applied_calls :
  (w_prov ex_applied).2 =
  [(ActionUpdate, KindProvider, "openai"); (ActionCreate, KindAgent, "bot"); (ActionCreate, KindChannel, "slack");
   (ActionDelete, KindAgent, "stale")].
Proof. vm_compute. reflexivity. Qed.

Abbreviation ex_destroyed :=
  (destroyCmd ex_yaml ex_template ex_semver ex_zip (fun _ => Ok "") Itoa (fun _ _ _ _ => ex_client) ex_flags
     ex_destroy_flags ex_world).1.

Lemma destroy_deletes_listed_witness :
  exists ls (ran : bool),
    Forall2 (listing (cl_provider ex_client)) destroyed_kinds ls /\
    let targets := concat (map (List.filter owned) ls) in
    (w_prov ex_destroyed).2 = (if ran then map destroy_call targets else []) /\
    (ran = true -> destroy_agreed ex_destroy_flags ex_world = true /\
       exists before after, w_stdout ex_destroyed = before +:+ will_destroy targets +:+ after) /\
    (targets <> [] -> ran = true).
Proof.
  destruct (destroy_deletes_listed ex_yaml ex_template ex_semver ex_zip (fun _ => Ok "") Itoa
              (fun _ _ _ _ => ex_client) ex_flags snd ex_destroy_flags ex_world ex_world "http://x" "t" []
              ltac:(vm_compute; reflexivity) (instrument_traced mem_provider))
    as (ls & ran & H1 & H2 & H3 & H4).
  exists ls, ran. split; [exact H1|]. split; [exact H2|]. split; [exact H3|].
  apply H4; try discriminate; vm_compute; reflexivity.
Defined.

Example ex_destroyed_calls :
  (w_prov ex_destroyed).2 = [(ActionDelete, KindAgent, "stale"); (ActionDelete, KindProvider, "openai")].
Proof. vm_compute. reflexivity. Qed.

Lemma ex_exportable k info :
  info ∈ mem_listed ex_store k ->
  exists v, mem_view ex_store k (ri_Name info) = Some v /\ exportable ex_env k v.
Proof.
  assert (Hx : forall k' v, bool_decide (uniq_keys v) && forallb (fun kv => wf_valb kv.2 && no_nan kv.2) v
                 && set_fields_okb (default [] (export_spec (Some v)))
                 && forallb (fun f => negb (bool_decide (is_Some (mget f (default [] (export_spec (Some v)))))))
                      (WriteOnlyFields k') = true ->
               resolveSpecSecrets ex_env (default [] (export_spec (Some v))) = default [] (export_spec (Some v)) ->
               exportable ex_env k' v).
  { intros k' v H Hr. apply andb_true_iff in H as [H Hw]. apply andb_true_iff in H as [H Hs].
    apply andb_true_iff in H as [Hu Hp]. rewrite forallb_forall in Hp, Hw. split; [| | |done|].
    - by apply bool_decide_eq_true in Hu.
    - apply Forall_forall. intros kv Hkv. apply list_elem_of_In, Hp, andb_true_iff in Hkv as [Hk1 Hk2].
      split; [by apply wf_valb_ok|done].
    - by apply set_fields_okb_ok.
    - intros f Hf. apply list_elem_of_In, Hw, negb_true_iff, bool_decide_eq_false in Hf.
      by apply eq_None_not_Some. }
  intros (s & Hs & _)%mem_listed_elem. apply elem_of_cons in Hs as [Hs|Hs]; [|apply elem_of_cons in Hs as [Hs|Hs]];
    [| |by apply not_elem_of_nil in Hs]; injection Hs as -> Hn ->; rewrite Hn; eexists;
    (split; [vm_compute; reflexivity|apply Hx; vm_compute; reflexivity]).
Qed.

Lemma export_in_sync_witness :
  let c := mkClient mem_provider (fun _ => failM (errorf "")) (fun _ => failM (errorf "")) in
  let w := mkWorld ex_env "" "" "" 0 ex_store in
  let '(w', m) := buildExportManifest c false "http://x" "t" w in
  w' = w /\
  exists plan, Reconcile w_env (attached mem_provider) sequential m (mkOpts false true false 0) w
                 = (w, (plan, emptyResult)) /\
    Forall (fun c => ch_Action c = ActionNoop /\ ch_Error c = "") (Changes plan).
Proof.
  intros c w.
  apply (export_in_sync c mem_view mem_listed false "http://x" "t" w sequential (mkOpts false true false 0)).
  - apply (lawful_env mem_env), _.
  - intros k info _ Hi _. by apply ex_exportable.
  - apply _.
  - reflexivity.
Defined.

(** ** Where the commands do more or less than they say *)

(** [--label] filters the manifest before the prune phase looks at it: a resource that the
    manifest declares without the label is deleted. *)
Lemma label_prune_deletes_declared :
  let m := with_resources ex_manifest
             [ mkResource KindProvider "openai" [] [] (Some [("displayName", VStr "old name")]);
               mkResource KindAgent "stale" [("tier", "x")] [] (Some [("model", VStr "gpt")]) ] in
  let yaml := mkYaml (fun _ => Ok m) (y_map ex_yaml) (y_frontmatter ex_yaml) (y_overlay ex_yaml)
                (y_overrides ex_yaml) (y_marshal ex_yaml) in
  in_manifest m KindProvider "openai" = true /\
  (w_prov (applyCmd yaml ex_template ex_semver ex_zip Itoa (fun _ => "") (fun _ _ _ _ => ex_client) ex_flags
             (mkApplyFlags true true false "tier=x" "") ex_world).1).2
  = [(ActionDelete, KindProvider, "openai")].
Proof. split; vm_compute; reflexivity. Qed.

(** Without [-f], [destroy] opens the provider without a tenant, whatever the
    environment (GCPLANE_TENANT_ID) says. *)
Lemma destroy_ignores_tenant {P} w :
  destroy_connection (P := P) ex_yaml ex_template ex_semver ex_zip (mkFlags "" "http://x" "t" false) w
  = (w, Returned (Ok ("http://x", "t", []))).
Proof. reflexivity. Qed.

(** The manifest [init] writes for a provider whose name has a hyphen refers to a variable
    that no reference can name. *)
Lemma init_hyphen_reference :
  let '(w, _) := initCmd (mkWorld (mkEnv [("MY-LLM_API_KEY", "s3cret")] (mkFs (FDir []) []))
                            (Join ["prod"; ""; "4"; "my-llm"; ""; ""; ""; ""; ""] nl) "" "" 0 tt) in
  (exists data, ReadFile (w_fs w) "gcplane.yaml" = Ok data /\
     Contains data "apiKey: ${MY-LLM_API_KEY}" = true) /\
  Resolve (w_env w) "${MY-LLM_API_KEY}" = ("${MY-LLM_API_KEY}", None).
Proof. vm_compute. split; [eexists; split; reflexivity|reflexivity]. Qed.

(** A server that cannot be reached: every observation fails, which the plan counts as a
    no-op, and [status] reports all resources in sync. *)
Lemma status_hides_errors :
  let down := mkProvider (mem * list call) (fun _ _ => failM (errorf "connection refused"))
                (fun _ _ _ => retM tt) (fun _ _ _ => retM tt) (fun _ _ => retM tt)
                (fun _ => failM (errorf "connection refused")) in
  let c := mkClient down (cl_skill ex_client) (cl_context ex_client) in
  let '(w, r) := statusCmd ex_yaml ex_template ex_semver ex_zip (fun _ _ _ _ => c) ex_flags ex_world in
  r = Returned (Ok tt) /\ Contains (w_stdout w) "✓ All resources in sync" = true /\
  Contains (w_stdout w) ("In Sync:    " +:+ colorGreen +:+ "3") = true.
Proof. vm_compute. done. Qed.
