(* ===== verification/Pull.v ===== *)
(** * pull

    [cmd/pull.go]: the skills and the context files of the agents, from the server back
    into the repository.  YAML documents are trees of nodes with what yaml.v3 keeps of
    them; parsing and printing are arguments.  The code changes nodes through pointers
    into one tree that nothing else holds, so a change rebuilds the path to the node. *)
From Stdlib Require Import ZArith Lia Bool Ascii.
From Stdlib Require String.
From S2P Require Import Prelude GoStr GoValue Filepath Manifest Secrets Sha256 SkillPkg JsonParse.
From S2P Require Import Validate Engine Display Loader Http GoclawBase Cmd.

Local Open Scope string_scope.
Local Open Scope go_scope.

(** ** yaml.Node *)

Inductive NodeKind := ZeroNode | DocumentNode | SequenceNode | MappingNode | ScalarNode | AliasNode.

#[export] Instance NodeKind_eq_dec : EqDecision NodeKind.
Proof. solve_decision. Defined.

(** [n_rest]: the anchor and the comments. *)
Inductive Node := mkNode {
  n_kind : NodeKind;
  n_tag : string;
  n_value : string;
  n_style : Z;
  n_rest : list string;
  n_content : list Node
}.

Definition LiteralStyle : Z := 8.

Definition is_kind (k : NodeKind) (n : Node) : bool := bool_decide (n_kind n = k).

Definition with_content (n : Node) (content : list Node) : Node :=
  mkNode (n_kind n) (n_tag n) (n_value n) (n_style n) (n_rest n) content.

(** The index of the value of the first pair with this key. *)
Fixpoint value_index (key : string) (content : list Node) : option nat :=
  match content with
  | k :: v :: rest => if String.eqb (n_value k) key then Some 1%nat
                      else (fun i => S (S i)) <$> value_index key rest
  | _ => None
  end.

Definition mapping_index (m : Node) (key : string) : option nat :=
  if is_kind MappingNode m then value_index key (n_content m) else None.

Definition mappingValue (m : Node) (key : string) : option Node :=
  i ← mapping_index m key; n_content m !! i.

Definition mappingStringValue (m : Node) (key : string) : string :=
  match mappingValue m key with Some v => n_value v | None => "" end.

Definition scalar (v : string) : Node := mkNode ScalarNode "" v 0 [] [].

(** The loop looks at the content whatever the kind of the node. *)
Definition setMappingValue (m : Node) (key : string) (val : Node) : Node :=
  match value_index key (n_content m) with
  | Some i => with_content m (<[ i := val ]> (n_content m))
  | None => with_content m (n_content m ++ [scalar key; val])
  end.

Definition docRoot (n : Node) : Node :=
  match n_content n with
  | c :: _ => if is_kind DocumentNode n then c else n
  | [] => n
  end.

Definition set_docRoot (n root : Node) : Node :=
  match n_content n with
  | _ :: rest => if is_kind DocumentNode n then with_content n (root :: rest) else root
  | [] => root
  end.

Definition is_agent (agentKey : string) (item : Node) : bool :=
  is_kind MappingNode item && String.eqb (mappingStringValue item "kind") "Agent"
  && String.eqb (mappingStringValue item "name") agentKey.

(** The position of the agent among the resources. *)
Definition findAgent (resources : Node) (agentKey : string) : option (nat * Node) :=
  list_find (fun item => is_agent agentKey item = true) (n_content resources).

(** ** Context files *)

Abbreviation ctxfile := (string * string)%type.

(** The names and content hashes of the document; a later name wins. *)
Definition current_step (m : list (string * list Z)) (item : Node) : list (string * list Z) :=
  if negb (is_kind MappingNode item) then m
  else let name := mappingStringValue item "name" in
       if String.eqb name "" then m
       else mset name (Sum256 (mappingStringValue item "content")) m.

Definition current_files (items : list Node) : list (string * list Z) := foldl current_step [] items.

Definition file_current (current : list (string * list Z)) (f : ctxfile) : bool :=
  match mget f.1 current with
  | Some got => bool_decide (got = Sum256 f.2)
  | None => false
  end.

Definition contextFilesChanged (agentNode : Node) (files : list ctxfile) : bool :=
  match mappingValue agentNode "spec" with
  | None => true
  | Some specNode =>
    match mappingValue specNode "contextFiles" with
    | None => true
    | Some cfNode =>
      if negb (is_kind SequenceNode cfNode) then true
      else
        let current := current_files (n_content cfNode) in
        negb (length current =? length files)%nat || negb (forallb (file_current current) files)
    end
  end.

Definition file_node (f : ctxfile) : Node :=
  mkNode MappingNode "!!map" "" 0 []
    [scalar "name"; scalar f.1; scalar "content"; mkNode ScalarNode "" f.2 LiteralStyle [] []].

Definition buildContextFilesNode (files : list ctxfile) : Node :=
  mkNode SequenceNode "!!seq" "" 0 [] (map file_node files).

(** What becomes of the document: unchanged, or changed; or an error. *)
Definition patch_document (path agentKey : string) (files : list ctxfile) (doc : Node) : res (option Node) :=
  let root := docRoot doc in
  match mapping_index root "resources" with
  | None => Err (errorf ("no 'resources' sequence in " +:+ path))
  | Some i =>
    match n_content root !! i with
    | None => Err (errorf ("no 'resources' sequence in " +:+ path))
    | Some resources =>
      if negb (is_kind SequenceNode resources) then Err (errorf ("no 'resources' sequence in " +:+ path))
      else match findAgent resources agentKey with
      | None => Ok None
      | Some (j, agentNode) =>
        if negb (contextFilesChanged agentNode files) then Ok None
        else match mapping_index agentNode "spec" with
        | None => Err (errorf ("agent " +:+ agentKey +:+ " has no spec in " +:+ path))
        | Some s =>
          match n_content agentNode !! s with
          | None => Err (errorf ("agent " +:+ agentKey +:+ " has no spec in " +:+ path))
          | Some specNode =>
            let specNode := setMappingValue specNode "contextFiles" (buildContextFilesNode files) in
            let agentNode := with_content agentNode (<[ s := specNode ]> (n_content agentNode)) in
            let resources := with_content resources (<[ j := agentNode ]> (n_content resources)) in
            let root := with_content root (<[ i := resources ]> (n_content root)) in
            Ok (Some (set_docRoot doc root))
          end
        end
      end
    end
  end.

(** yaml.v3: reading and writing a document, and the grants of a skill. *)
Record YamlNodes := mkYamlNodes {
  yn_parse : string -> res Node;
  yn_marshal : Node -> res string;
  yn_grants : list string -> res string
}.

Section pull.
Context {U : Unicode} (yn : YamlNodes).

Definition patchAgentsYAML (path agentKey : string) (files : list ctxfile) : M Filesystem bool := fun fs =>
  let patched :=
    let? raw := res_wrap ("read " +:+ path +:+ ": ") (ReadFile fs path) in
    let? doc := res_wrap ("parse " +:+ path +:+ ": ") (yn_parse yn raw) in
    let? doc := patch_document path agentKey files doc in
    match doc with
    | None => Ok None
    | Some doc => let? out := res_wrap ("marshal " +:+ path +:+ ": ") (yn_marshal yn doc) in Ok (Some out)
    end in
  match patched with
  | Err e => (fs, Err e)
  | Ok None => (fs, Ok false)
  | Ok (Some out) => bindM (wrapM ("write " +:+ path +:+ ": ") (WriteFile path out)) (fun _ => retM true) fs
  end.

Definition is_dir_at (fs : Filesystem) (path : string) : bool :=
  match Stat fs path with Ok n => isDir n | Err _ => false end.

Definition resolveAgentsFile (fs : Filesystem) (cfgPath : string) : string :=
  if String.eqb cfgPath "" then "agents.yaml"
  else if is_dir_at fs cfgPath then JoinPath [cfgPath; "agents.yaml"]
  else JoinPath [Dir cfgPath; "agents.yaml"].

Definition inferSourceDir (fs : Filesystem) (cfgPath slug : string) : string :=
  let base :=
    if String.eqb cfgPath "" then cfgPath
    else match Stat fs cfgPath with
         | Ok n => if isDir n then cfgPath else Dir cfgPath
         | Err _ => cfgPath
         end in
  JoinPath [base; "skills"; slug].

Definition writeFrontmatter (sourceDir : string) (grantees : list string) : M Filesystem unit := fun fs =>
  let outPath := JoinPath [sourceDir; "frontmatter.yaml"] in
  match grantees with
  | [] => match Remove outPath fs with
          | (fs, Err e) => if errorsIs e NotExist then (fs, Ok tt) else (fs, Err e)
          | (fs, Ok _) => (fs, Ok tt)
          end
  | _ =>
    match yn_grants yn (sortStrings grantees) with
    | Err e => (fs, Err e)
    | Ok data =>
      let existing := match ReadFile fs outPath with Ok s => s | Err _ => "" end in
      if String.eqb existing data then (fs, Ok tt) else WriteFile outPath data fs
    end
  end.

(** ** Selection *)

(** [strings.EqualFold] with one of the two kinds, which are ASCII: [field_match]. *)
Definition wantKind (kinds : list string) (k : string) : bool :=
  match kinds with [] => true | _ => existsb (field_match k) kinds end.

Definition shouldPullSkill (info : ResourceInfo) (all localKnown : bool) : bool :=
  if all then negb (ri_IsSystem info) && negb (String.eqb (ri_Source info) "bundled")
  else if negb (String.eqb (ri_Source info) "gcplane") && negb (String.eqb (ri_Source info) "evolution") then false
  else localKnown.

(** slug to source directory, of the skills of the manifest that have one. *)
Definition local_slugs (m : Manifest) : strmap :=
  foldl (fun slugs r =>
    if negb (String.eqb (Kind r) KindSkill) then slugs
    else let sd := getStr "sourceDir" (specMap r) in
         if String.eqb sd "" then slugs else mset (Name r) sd slugs) [] (Resources m).

(** ** The command *)

Context {P : Type}.
Abbreviation Cp := (C P).

(** An operation of the provider. *)
Definition provC {A} (pre : string) (m : M P A) : Cp A := fun w =>
  let '(q, r) := m (w_prov w) in (set_prov q w, Returned (res_wrap pre r)).

Definition printSkillDiff (slug sourceDir : string) (files : list SkillFile) (fs : Filesystem) : string :=
  "[dry-run] skill " +:+ slug +:+ " → " +:+ sourceDir +:+ " (" +:+ Itoan (length files) +:+ " files)" +:+ nl
  +:+ String.concat "" (map (fun f =>
        match ReadFile fs (JoinPath [sourceDir; Path f]) with
        | Ok existing => if String.eqb existing (Data f) then "" else "  ~ " +:+ Path f +:+ nl
        | Err _ => "  ~ " +:+ Path f +:+ nl
        end) files).

Definition printContextFileDiff (agentKey agentsFile : string) (files : list ctxfile) : string :=
  "[dry-run] agent " +:+ agentKey +:+ " context-files in " +:+ agentsFile +:+ ":" +:+ nl
  +:+ String.concat "" (map (fun f => "  ~ " +:+ f.1 +:+ " (" +:+ Itoan (String.length f.2) +:+ " bytes)" +:+ nl) files).

Definition wrote_text (slug : string) (changed : list string) : string :=
  match changed with
  | [] => "skill " +:+ slug +:+ ": no changes" +:+ nl
  | _ => "skill " +:+ slug +:+ ": wrote " +:+ Itoan (length changed) +:+ " file(s)" +:+ nl
         +:+ String.concat "" (map (fun f => "  " +:+ f +:+ nl) changed)
  end.

(** One skill that is pulled. *)
Definition pull_skill (c : Client P) (cfgPath : string) (slugs : strmap) (dryRun pruneFiles : bool)
    (slug : string) : Cp unit :=
  let% fs := getC w_fs in
  let sourceDir := match mget slug slugs with Some sd => sd | None => inferSourceDir fs cfgPath slug end in
  let% (files, grantees) := provC ("download skill " +:+ slug +:+ ": ") (cl_skill c slug) in
  if dryRun then printC (printSkillDiff slug sourceDir files fs)
  else
  let% changed := fsC ("unpack skill " +:+ slug +:+ ": ") (UnpackTo sourceDir files pruneFiles) in
  do% fsC ("write frontmatter for " +:+ slug +:+ ": ") (writeFrontmatter sourceDir grantees) in
  printC (wrote_text slug changed).

Fixpoint pull_skills_loop (c : Client P) (cfgPath : string) (slugs : strmap) (all dryRun pruneFiles : bool)
    (infos : list ResourceInfo) (pulled : nat) : Cp nat :=
  match infos with
  | [] => retC pulled
  | info :: rest =>
    if negb (shouldPullSkill info all (bool_decide (is_Some (mget (ri_Name info) slugs))))
    then pull_skills_loop c cfgPath slugs all dryRun pruneFiles rest pulled
    else
      do% pull_skill c cfgPath slugs dryRun pruneFiles (ri_Name info) in
      pull_skills_loop c cfgPath slugs all dryRun pruneFiles rest (S pulled)
  end.

Definition pullSkills (c : Client P) (cfgPath : string) (m : Manifest) (all dryRun pruneFiles : bool) : Cp unit :=
  let% infos := provC "list skills: " (ListAll (cl_provider c) KindSkill) in
  let% pulled := pull_skills_loop c cfgPath (local_slugs m) all dryRun pruneFiles infos 0 in
  if (pulled =? 0)%nat then printC ("pull skills: no matching skills found" +:+ nl) else retC tt.

Definition agent_keys (m : Manifest) : list string :=
  map Name (List.filter (fun r => String.eqb (Kind r) KindAgent) (Resources m)).

(** One agent. *)
Definition pull_agent (c : Client P) (agentsFile : string) (dryRun : bool) (agentKey : string) : Cp unit :=
  let% files := provC ("download context files for " +:+ agentKey +:+ ": ") (cl_context c agentKey) in
  match files with
  | [] => printC ("agent " +:+ agentKey +:+ ": no context files" +:+ nl)
  | _ =>
    if dryRun then printC (printContextFileDiff agentKey agentsFile files)
    else
    let% changed := fsC ("patch agents.yaml for " +:+ agentKey +:+ ": ")
                      (patchAgentsYAML agentsFile agentKey files) in
    printC (if changed : bool
            then "agent " +:+ agentKey +:+ ": context files updated in " +:+ agentsFile +:+ nl
            else "agent " +:+ agentKey +:+ ": context files unchanged" +:+ nl)
  end.

Fixpoint pull_agents (c : Client P) (agentsFile : string) (dryRun : bool) (keys : list string) : Cp unit :=
  match keys with
  | [] => retC tt
  | k :: rest => do% pull_agent c agentsFile dryRun k in pull_agents c agentsFile dryRun rest
  end.

Definition pullContextFiles (c : Client P) (cfgPath : string) (m : Manifest) (dryRun : bool) : Cp unit :=
  match agent_keys m with
  | [] => printC ("pull context-files: no Agent resources in manifest" +:+ nl)
  | keys =>
    let% agentsFile := getC (fun w => resolveAgentsFile (w_fs w) cfgPath) in
    pull_agents c agentsFile dryRun keys
  end.

Record PullFlags := mkPullFlags {
  pullKinds : list string;
  pullAll : bool;
  pullDryRun : bool;
  pullPruneFiles : bool
}.

Definition pullCmd (yaml : Yaml) (renderTemplate : Template) (semver : Semver)
    (zip : list (string * string) -> string) (open : Env -> string -> string -> list Option -> Client P)
    (g : GlobalFlags) (f : PullFlags) : Cp unit :=
  let% (m, c) := connect yaml renderTemplate semver zip open g "" in
  do% (if wantKind (pullKinds f) "skill"
       then pullSkills c (configFile g) m (pullAll f) (pullDryRun f) (pullPruneFiles f) else retC tt) in
  if wantKind (pullKinds f) "context-files"
  then pullContextFiles c (configFile g) m (pullDryRun f) else retC tt.
End pull.
