(* ===== verification/PullProps.v ===== *)
(** * What pull changes

    Patching the context files of an agent changes that field of that agent and nothing
    else that the document's mappings show, and a second pull of the same files finds
    nothing to do. *)
From Stdlib Require Import ZArith Lia Bool Ascii.
From Stdlib Require String.
From S2P Require Import Prelude GoStr GoValue Filepath Sha256 SkillPkg Loader Cmd Pull.

Local Open Scope string_scope.
#[local] Opaque Sum256.

(** ** Mapping nodes *)

Lemma pairs_ind {A} (Q : list A -> Prop) :
  Q [] -> (forall a, Q [a]) -> (forall a b l, Q l -> Q (a :: b :: l)) -> forall l, Q l.
Proof.
  intros H0 H1 H2. fix IH 1. intros [|a [|b l]]; [exact H0|apply H1|apply H2, IH].
Qed.

Lemma value_index_lt k l i : value_index k l = Some i -> (i < length l)%nat.
Proof.
  revert i. induction l as [|a|a b l IH] using pairs_ind; intros i; [done|done|]. simpl.
  destruct (String.eqb (n_value a) k); [intros [= <-]; lia|].
  destruct (value_index k l) as [i'|]; [|done]. intros [= <-]. specialize (IH i' eq_refl). lia.
Qed.

(** Replacing a value keeps the places of all keys. *)
Lemma value_index_insert k k' l i v :
  value_index k l = Some i -> value_index k' (<[ i := v ]> l) = value_index k' l.
Proof.
  revert i. induction l as [|a|a b l IH] using pairs_ind; intros i; [done|done|]. simpl.
  destruct (String.eqb (n_value a) k); [by intros [= <-]|].
  destruct (value_index k l) as [i'|]; [|done]. intros [= <-]. simpl. by rewrite IH.
Qed.

Lemma value_index_ne k k' l i i' :
  k <> k' -> value_index k l = Some i -> value_index k' l = Some i' -> i <> i'.
Proof.
  intros Hk. revert i i'. induction l as [|a|a b l IH] using pairs_ind; intros i i'; [done|done|]. simpl.
  destruct (String.eqb_spec (n_value a) k) as [Ha|Ha], (String.eqb_spec (n_value a) k') as [Ha'|Ha'];
    [congruence|..].
  - intros [= <-]. destruct (value_index k' l); simpl; [intros [= <-]; lia|done].
  - intros H [= <-]. destruct (value_index k l); simpl in H; [|done]. injection H as <-. lia.
  - destruct (value_index k l) as [j|], (value_index k' l) as [j'|]; simpl; try done.
    intros [= <-] [= <-]. specialize (IH j j' eq_refl eq_refl). lia.
Qed.

Lemma value_index_app k k' l v :
  Nat.even (length l) = true -> value_index k' l = None ->
  value_index k (l ++ [scalar k'; v]) =
    if String.eqb k k' then Some (S (length l)) else value_index k l.
Proof.
  induction l as [|a|a b l IH] using pairs_ind; [|done|].
  - intros _ _. simpl. rewrite String.eqb_sym. by destruct (String.eqb k k').
  - intros He. simpl. destruct (String.eqb_spec (n_value a) k') as [Ha|Ha]; [done|].
    destruct (value_index k' l) eqn:Hl; [done|]. intros _. rewrite (IH He eq_refl).
    destruct (String.eqb_spec k k') as [->|Hk].
    + rewrite (proj2 (String.eqb_neq _ _) Ha). done.
    + done.
Qed.

(** A mapping as the parser makes it. *)
Definition mapping_ok (n : Node) : Prop := n_kind n = MappingNode /\ Nat.even (length (n_content n)) = true.

Lemma mappingValue_with m k :
  n_kind m = MappingNode -> mappingValue m k = (i ← value_index k (n_content m); n_content m !! i).
Proof. unfold mappingValue, mapping_index, is_kind. intros ->. done. Qed.

(** Looking up after replacing the value of [k]. *)
Lemma mappingValue_insert m k k' i v :
  mapping_index m k = Some i ->
  mappingValue (with_content m (<[ i := v ]> (n_content m))) k' =
    if String.eqb k' k then Some v else mappingValue m k'.
Proof.
  unfold mapping_index, is_kind. case_bool_decide as Hm; [|done]. intros Hi.
  rewrite !mappingValue_with by done. cbn [with_content n_content].
  rewrite (value_index_insert k) by done.
  destruct (String.eqb_spec k' k) as [->|Hk].
  - rewrite Hi. simpl. apply list_lookup_insert_eq. by eapply value_index_lt.
  - destruct (value_index k' (n_content m)) as [i'|] eqn:Hi'; [|done]. simpl.
    apply list_lookup_insert_ne. by apply (value_index_ne k k' (n_content m)).
Qed.

Lemma setMappingValue_lookup m k k' v :
  mapping_ok m -> mappingValue (setMappingValue m k v) k' = if String.eqb k' k then Some v else mappingValue m k'.
Proof.
  intros [Hm He]. unfold setMappingValue. destruct (value_index k (n_content m)) as [i|] eqn:Hi.
  - apply mappingValue_insert. unfold mapping_index, is_kind. by rewrite bool_decide_eq_true_2.
  - rewrite !mappingValue_with by done. cbn [with_content n_content]. rewrite value_index_app by done.
    destruct (String.eqb k' k); simpl.
    + rewrite lookup_app_r by lia. by replace (S (length (n_content m)) - length (n_content m))%nat with 1%nat by lia.
    + destruct (value_index k' (n_content m)) as [i'|] eqn:Hi'; [|done]. simpl.
      apply lookup_app_l. by eapply value_index_lt.
Qed.

(** ** The agent in the document *)

Lemma list_find_insert {A} (f : A -> bool) l i x y :
  l !! i = Some x -> f y = f x ->
  list_find (fun z => f z = true) (<[ i := y ]> l) =
    (fun q => if decide (q.1 = i) then (q.1, y) else q) <$> list_find (fun z => f z = true) l.
Proof.
  revert i. induction l as [|z l IH]; intros [|i]; [done|done|..].
  - intros [= ->] Hf. change (<[0%nat := y]> (x :: l)) with (y :: l). cbn [list_find]. rewrite Hf.
    case_decide; [done|]. by destruct (list_find _ l) as [[j u]|].
  - intros Hx Hf. change (<[S i := y]> (z :: l)) with (z :: <[i := y]> l). cbn [list_find].
    case_decide; [done|]. rewrite (IH i Hx Hf).
    destruct (list_find _ l) as [[j u]|]; [|done]. simpl. do 2 case_decide; simplify_eq/=; try done; lia.
Qed.

(** A field of the spec of an agent, as the code reads it. *)
Definition agent_node (doc : Node) (agentKey : string) : option Node :=
  resources ← mappingValue (docRoot doc) "resources";
  if is_kind SequenceNode resources then snd <$> findAgent resources agentKey else None.

Definition agent_field (doc : Node) (agentKey field : string) : option Node :=
  agent ← agent_node doc agentKey; spec ← mappingValue agent "spec"; mappingValue spec field.

(** The names are those of the server: present and distinct. *)
Definition proper_files (files : list ctxfile) : Prop :=
  NoDup (map fst files) /\ Forall (fun f => f.1 <> "") files.

Lemma current_files_spec files acc :
  proper_files files -> (forall f, f ∈ files -> mget f.1 acc = None) ->
  let out := foldl current_step acc (map file_node files) in
  length out = (length acc + length files)%nat /\
  (forall f, f ∈ files -> mget f.1 out = Some (Sum256 f.2)) /\
  (forall k, k ∉ map fst files -> mget k out = mget k acc).
Proof.
  intros [Hn Hne]. revert acc. induction files as [|f files IH]; intros acc Hacc; cbn [map foldl].
  { split; [simpl; lia|]. split; [by intros f ?%not_elem_of_nil|done]. }
  apply NoDup_cons in Hn as [Hf Hn]. apply Forall_cons in Hne as [Hf1 Hne].
  assert (Hs : current_step acc (file_node f) = mset f.1 (Sum256 f.2) acc).
  { unfold current_step. change (mappingStringValue (file_node f) "name") with f.1.
    change (is_kind MappingNode (file_node f)) with true. cbn [negb].
    by rewrite (proj2 (String.eqb_neq _ _) Hf1). }
  rewrite Hs.
  destruct (IH Hn Hne (mset f.1 (Sum256 f.2) acc)) as (H1 & H2 & H3).
  { intros f' Hf'. rewrite mget_mset_ne; [apply Hacc; by right|]. intros He. apply Hf. rewrite <- He.
    apply list_elem_of_fmap. by exists f'. }
  cbv zeta in *. split; [|split].
  - rewrite H1. assert (Hl : length (mset f.1 (Sum256 f.2) acc) = S (length acc)).
    { pose proof (mkeys_mset f.1 (Sum256 f.2) acc) as Hk. rewrite (Hacc f) in Hk by left.
      apply (f_equal length) in Hk. unfold mkeys in Hk. rewrite length_app, !length_map in Hk. simpl in Hk. lia. }
    rewrite Hl. simpl. lia.
  - intros f' Hf'. apply elem_of_cons in Hf' as [->|Hf']; [|by apply H2].
    rewrite H3 by done. apply mget_mset_eq.
  - intros k Hk. apply not_elem_of_cons in Hk as [Hk1 Hk2]. rewrite H3 by done. by rewrite mget_mset_ne.
Qed.

(** The files written are the files the comparison reads. *)
Lemma written_unchanged agent spec files :
  proper_files files -> mappingValue agent "spec" = Some spec ->
  mappingValue spec "contextFiles" = Some (buildContextFilesNode files) ->
  contextFilesChanged agent files = false.
Proof.
  intros Hp Hs Hc. unfold contextFilesChanged. rewrite Hs, Hc.
  change (is_kind SequenceNode (buildContextFilesNode files)) with true. cbn [negb n_content buildContextFilesNode].
  destruct (current_files_spec files [] Hp) as (H1 & H2 & _); [done|]. cbv zeta in *.
  unfold current_files. rewrite H1. simpl. rewrite Nat.eqb_refl. simpl. apply negb_false_iff, forallb_forall.
  intros f Hf. apply list_elem_of_In in Hf. unfold file_current. rewrite (H2 f) by done. by apply bool_decide_eq_true.
Qed.

(** What a patch found and what it rebuilt. *)
Record patched (agentKey : string) (files : list ctxfile) (doc doc' : Node)
    (i j s : nat) (resources agent spec : Node) : Prop := {
  pd_index : mapping_index (docRoot doc) "resources" = Some i;
  pd_resources : n_content (docRoot doc) !! i = Some resources;
  pd_sequence : n_kind resources = SequenceNode;
  pd_agent : findAgent resources agentKey = Some (j, agent);
  pd_spec_index : mapping_index agent "spec" = Some s;
  pd_spec : n_content agent !! s = Some spec;
  pd_doc :
    let spec' := setMappingValue spec "contextFiles" (buildContextFilesNode files) in
    let agent' := with_content agent (<[ s := spec' ]> (n_content agent)) in
    let resources' := with_content resources (<[ j := agent' ]> (n_content resources)) in
    doc' = set_docRoot doc (with_content (docRoot doc) (<[ i := resources' ]> (n_content (docRoot doc))))
}.

Lemma patch_document_inv path key files doc doc' :
  patch_document path key files doc = Ok (Some doc') ->
  exists i j s resources agent spec, patched key files doc doc' i j s resources agent spec.
Proof.
  unfold patch_document. destruct (mapping_index (docRoot doc) "resources") as [i|] eqn:Hi; [|done].
  destruct (n_content (docRoot doc) !! i) as [resources|] eqn:Hr; [|done].
  destruct (is_kind SequenceNode resources) eqn:Hk; cbn [negb]; [|done].
  destruct (findAgent resources key) as [[j agent]|] eqn:Ha; [|done].
  destruct (contextFilesChanged agent files); cbn [negb]; [|done].
  destruct (mapping_index agent "spec") as [s|] eqn:Hs; [|done].
  destruct (n_content agent !! s) as [spec|] eqn:Hsp; [|done]. intros [= <-].
  exists i, j, s, resources, agent, spec. split; try done. unfold is_kind in Hk. by apply bool_decide_eq_true in Hk.
Qed.

Lemma docRoot_set doc root : n_kind root = MappingNode -> docRoot (set_docRoot doc root) = root.
Proof.
  intros Hr. assert (Hroot : docRoot root = root).
  { unfold docRoot, is_kind. rewrite Hr. by destruct (n_content root). }
  unfold set_docRoot. destruct (n_content doc) as [|c rest]; [done|].
  destruct (is_kind DocumentNode doc) eqn:Hd; [|done]. unfold docRoot. cbn [with_content n_content].
  unfold is_kind in *. cbn [with_content n_kind]. by rewrite Hd.
Qed.

Section patched.
Context {key : string} {files : list ctxfile} {doc doc' : Node} {i j s : nat} {resources agent spec : Node}.
Context (Hp : patched key files doc doc' i j s resources agent spec).

Let spec' := setMappingValue spec "contextFiles" (buildContextFilesNode files).
Let agent' := with_content agent (<[ s := spec' ]> (n_content agent)).
Let resources' := with_content resources (<[ j := agent' ]> (n_content resources)).

Lemma patched_root :
  docRoot doc' = with_content (docRoot doc) (<[ i := resources' ]> (n_content (docRoot doc))).
Proof.
  destruct Hp as [Hi _ _ _ _ _ ->]. apply docRoot_set. unfold mapping_index, is_kind in Hi.
  case_bool_decide; done.
Qed.

Lemma patched_root_value k :
  mappingValue (docRoot doc') k =
    if String.eqb k "resources" then Some resources' else mappingValue (docRoot doc) k.
Proof. rewrite patched_root. apply mappingValue_insert, Hp. Qed.

Lemma patched_agent_value k :
  mappingValue agent' k = if String.eqb k "spec" then Some spec' else mappingValue agent k.
Proof. apply mappingValue_insert, Hp. Qed.

Lemma patched_is_agent k : is_agent k agent' = is_agent k agent.
Proof.
  unfold is_agent, mappingStringValue. rewrite !patched_agent_value. done.
Qed.

Lemma patched_find k :
  findAgent resources' k = (fun q => if decide (q.1 = j) then (q.1, agent') else q) <$> findAgent resources k.
Proof.
  unfold findAgent. apply (list_find_insert (is_agent k) (n_content resources) j agent agent').
  - pose proof (pd_agent _ _ _ _ _ _ _ _ _ _ Hp) as Ha. unfold findAgent in Ha.
    by apply list_find_Some in Ha as [? _].
  - apply patched_is_agent.
Qed.

(** The agent is found where it was; the others are where they were. *)
Lemma patched_agent_node k :
  agent_node doc' k = if String.eqb k key then Some agent' else agent_node doc k.
Proof.
  destruct Hp as [Hi Hr Hk Ha _ _ _]. unfold agent_node at 1. rewrite patched_root_value. simpl.
  assert (Hk' : is_kind SequenceNode resources' = true) by (by apply bool_decide_eq_true).
  rewrite Hk', patched_find. destruct (String.eqb_spec k key) as [->|Hne].
  - rewrite Ha. simpl. by rewrite decide_True.
  - unfold agent_node, mappingValue. rewrite Hi. simpl. rewrite Hr. simpl.
    rewrite (proj2 (bool_decide_eq_true _) Hk : is_kind SequenceNode resources = true).
    destruct (findAgent resources k) as [[j2 a2]|] eqn:Hf; [|done]. simpl.
    case_decide as Hj; [|done]. exfalso. subst j2. unfold findAgent in Ha, Hf.
    apply list_find_Some in Ha as (Ha1 & Ha2 & _), Hf as (Hf1 & Hf2 & _). simplify_eq.
    unfold is_agent in Ha2, Hf2. apply andb_true_iff in Ha2 as [_ Ha2], Hf2 as [_ Hf2].
    apply String.eqb_eq in Ha2, Hf2. congruence.
Qed.
End patched.

(** C15: pulling the context files of an agent into the manifest changes that field and
    nothing else: when the agent has a spec and the document is patched, the field then holds
    the files pulled; every field of every other agent, every other field of the agent, and
    every other key of the document is read as before; and pulling the same files again
    changes nothing. *)
Theorem pull_patch_exact path key files doc doc' agent spec :
  proper_files files -> agent_node doc key = Some agent -> mappingValue agent "spec" = Some spec ->
  mapping_ok spec -> patch_document path key files doc = Ok (Some doc') ->
  agent_field doc' key "contextFiles" = Some (buildContextFilesNode files) /\
  (forall k f, (k, f) <> (key, "contextFiles") -> agent_field doc' k f = agent_field doc k f) /\
  (forall k, k <> "resources" -> mappingValue (docRoot doc') k = mappingValue (docRoot doc) k) /\
  patch_document path key files doc' = Ok None.
Proof.
  intros Hfiles Hagent Hspec Hok Hpatch.
  destruct (patch_document_inv _ _ _ _ _ Hpatch) as (i & j & s & resources & agent1 & spec1 & Hp).
  pose proof Hp as [Hi Hr Hk Ha Hs Hsp _].
  assert (Hag : agent1 = agent).
  { unfold agent_node, mappingValue in Hagent. rewrite Hi in Hagent. simpl in Hagent. rewrite Hr in Hagent.
    simpl in Hagent. rewrite (proj2 (bool_decide_eq_true _) Hk : is_kind SequenceNode resources = true), Ha in Hagent.
    by simplify_eq/=. }
  subst agent1. assert (spec1 = spec) as ->.
  { unfold mappingValue in Hspec. rewrite Hs in Hspec. simpl in Hspec. congruence. }
  set (spec' := setMappingValue spec "contextFiles" (buildContextFilesNode files)).
  assert (Hfield : forall f, agent_field doc' key f =
            if String.eqb f "contextFiles" then Some (buildContextFilesNode files) else mappingValue spec f).
  { intros f. unfold agent_field. rewrite (patched_agent_node Hp), String.eqb_refl. simpl.
    rewrite (patched_agent_value Hp). simpl. by apply setMappingValue_lookup. }
  split; [by rewrite Hfield|]. split; [|split].
  - intros k f Hkf. destruct (decide (k = key)) as [->|Hne].
    + rewrite Hfield. destruct (String.eqb_spec f "contextFiles") as [->|_]; [done|].
      unfold agent_field. rewrite Hagent. simpl. by rewrite Hspec.
    + unfold agent_field. by rewrite (patched_agent_node Hp), (proj2 (String.eqb_neq _ _) Hne).
  - intros k Hne. by rewrite (patched_root_value Hp), (proj2 (String.eqb_neq _ _) Hne).
  - unfold patch_document.
    pose proof (patched_root_value Hp "resources") as Hroot. simpl in Hroot. unfold mappingValue in Hroot.
    destruct (mapping_index (docRoot doc') "resources") as [i'|]; [|done]. simpl in Hroot. rewrite Hroot.
    assert (Hk' : forall l, is_kind SequenceNode (with_content resources l) = true)
      by (intros; by apply bool_decide_eq_true).
    rewrite Hk'. cbn [negb]. rewrite (patched_find Hp), Ha. simpl. rewrite decide_True by done.
    rewrite (written_unchanged _ spec' files); [done|done|..].
    + by rewrite (patched_agent_value Hp).
    + unfold spec'. by rewrite setMappingValue_lookup.
Qed.

(** ** An example *)

Definition ex_pair (k : string) (v : Node) : list Node := [scalar k; v].
Definition ex_map (l : list Node) : Node := mkNode MappingNode "!!map" "" 0 [] l.
Definition ex_seq (l : list Node) : Node := mkNode SequenceNode "!!seq" "" 0 [] l.

Definition ex_agent (name : string) (spec : Node) : Node :=
  ex_map (ex_pair "kind" (scalar "Agent") ++ ex_pair "name" (scalar name) ++ ex_pair "spec" spec).

Definition ex_doc (spec : Node) : Node :=
  mkNode DocumentNode "" "" 0 [] [ex_map (ex_pair "apiVersion" (scalar "gcplane.io/v1") ++
    ex_pair "resources" (ex_seq [ex_agent "helper" (ex_map (ex_pair "model" (scalar "gpt")));
                                 ex_agent "bot" spec]))].

Definition ex_spec : Node :=
  ex_map (ex_pair "model" (scalar "gpt") ++ ex_pair "contextFiles" (ex_seq [file_node ("SOUL.md", "old")])).

Definition ex_files : list ctxfile := [("SOUL.md", "new"); ("USER.md", "hello")].

Definition ex_patched : Node :=
  match patch_document "agents.yaml" "bot" ex_files (ex_doc ex_spec) with Ok (Some d) => d | _ => ex_doc ex_spec end.

#[local] Transparent Sum256.

Lemma pull_patch_exact_witness :
  agent_field ex_patched "bot" "contextFiles" = Some (buildContextFilesNode ex_files) /\
  agent_field ex_patched "helper" "model" = Some (scalar "gpt") /\
  mappingValue (docRoot ex_patched) "apiVersion" = Some (scalar "gcplane.io/v1") /\
  patch_document "agents.yaml" "bot" ex_files ex_patched = Ok None.
Proof.
  destruct (pull_patch_exact "agents.yaml" "bot" ex_files (ex_doc ex_spec) ex_patched (ex_agent "bot" ex_spec) ex_spec)
    as (H1 & H2 & H3 & H4).
  - split; [apply (bool_decide_unpack _); vm_compute; exact I|].
    repeat (apply Forall_cons; split; [discriminate|]). apply Forall_nil_2.
  - vm_compute. reflexivity.
  - reflexivity.
  - split; reflexivity.
  - vm_compute. reflexivity.
  - split; [exact H1|]. split; [rewrite H2; [reflexivity|discriminate]|].
    split; [rewrite H3; [reflexivity|discriminate]|exact H4].
Defined.

(** ** Where pull does less than it says *)

(** An agent with an empty spec ([spec:] alone): the patch reports a change, and the field
    is added to a node that is not a mapping, where nothing reads it. *)
Lemma empty_spec_patch_lost :
  match patch_document "agents.yaml" "bot" ex_files (ex_doc (scalar "")) with
  | Ok (Some doc) => agent_field doc "bot" "contextFiles" = None
  | _ => False
  end.
Proof. vm_compute. reflexivity. Qed.

(** The manifest found through GCPLANE_CONFIG is read; the file patched is the one in the
    working directory. *)
Lemma pull_ignores_config_variable {P} (w : World P) (g : GlobalFlags) :
  configFile g = "" -> Getenv w "GCPLANE_CONFIG" = "deploy" ->
  manifest_path g w = "deploy" /\ resolveAgentsFile (w_fs w) (configFile g) = "agents.yaml".
Proof. intros Hc Hg. unfold manifest_path, resolveAgentsFile. rewrite Hc, Hg. done. Qed.
