(* ===== verification/GoclawHttp.v ===== *)
(** * The GoClaw provider: resources served over HTTP

    Observe, Create, Update and Delete of tenants ([tenants.go]), LLM providers
    ([providers.go]), agents ([agents.go], [context_files.go]), channels
    ([channels.go]), system configs ([system_configs.go]), builtin tool configs
    ([builtin_tool_configs.go]), skill configs ([skill_configs.go]), MCP servers and
    credentials ([mcp_servers.go], [mcp_credentials.go]), secure CLIs and their
    grants ([secure_cli.go], [secure_cli_grants.go]), with the HTTP half of
    [delete.go]. *)
From Stdlib Require Import ZArith Lia Bool Ascii.
From Stdlib Require String.
From S2P Require Import Prelude GoStr GoValue Manifest Keyconv Filepath Validate Json JsonParse Http GoclawBase.

Local Open Scope string_scope.
Local Open Scope go_scope.

(** ** Pure parts *)

(** [%T] of a value decoded from JSON. *)
Definition json_type_name (v : gval) : string :=
  match v with
  | VNil => "<nil>"
  | VBool _ => "bool"
  | VStr _ => "string"
  | VSlice _ => "[]interface {}"
  | VMap _ => "map[string]interface {}"
  | _ => "float64"
  end.

(** [url.PathEscape]: everything but unreserved characters and [$&+=:@]. *)
Definition path_unescaped (c : ascii) : bool :=
  lower_digit c || char_in 65 90 c
  || existsb (Ascii.eqb c) (bytes_of "-_.~$&+=:@").

Definition upper_hex (n : Z) : ascii := if (n <? 10)%Z then byte_of (48 + n) else byte_of (55 + n).

Definition PathEscape (s : string) : string :=
  of_bytes (concat (map (fun c => if path_unescaped c then [c]
                                  else ["%"%char; upper_hex (byteZ c / 16); upper_hex (byteZ c mod 16)])
                        (bytes_of s))).

Definition sysConfigPath (key : string) : string := "/v1/system-configs/" +:+ PathEscape key.

Definition toolName (key : string) : string := ReplaceAll key "-" "_".

Definition extractGrantAgents (spec : gomap) : list string :=
  match getAs asMap "grants" spec with
  | None => []
  | Some grants =>
    match mget "agents" grants with
    | Some (VStrs v) => v
    | Some (VSlice v) => omap asStr v
    | _ => []
    end
  end.

Definition grantInternalFields : list string := ["binary_id"; "agent_id"].

Definition maxContextFileSize : Z := Z.shiftl 8 20.

(** [buildContextFilesArchive]: the entries written to the archive. *)
Definition context_entries (files : list gval) : list (string * string) :=
  omap (fun f => match asMap f with
                 | None => None
                 | Some fm =>
                   let name := getStr "name" fm in
                   if String.eqb name "" then None
                   else Some ("context_files/" +:+ name, getStr "content" fm)
                 end) files.

(** [parseContextFilesArchive] over the entries of the archive: their names, whether
    they are directories, and their data. *)
Fixpoint parse_entries (entries : list (string * (bool * string))) :
    res (list (string * string)) :=
  match entries with
  | [] => Ok []
  | (name, (is_dir, data)) :: rest =>
    if is_dir then parse_entries rest
    else match CutPrefix name "context_files/" with
         | None => parse_entries rest
         | Some short =>
           if String.eqb short "" then parse_entries rest
           else if (maxContextFileSize <? Z.of_nat (String.length data))%Z
           then Err (errorf ("context file " +:+ short +:+ " exceeds "
                             +:+ Itoa maxContextFileSize +:+ " bytes"))
           else res_map (cons (short, data)) (parse_entries rest)
         end
  end.

Definition parseGrantName {U : Unicode} (name : string) : res (string * string) :=
  let bad := Err (errorf ("invalid grant name " +:+ Quote name +:+ ": expected format binaryName--agentKey")) in
  match Cut name "--" with
  | Some (before, after) =>
    if String.eqb before "" || String.eqb after "" then bad else Ok (before, after)
  | None => bad
  end.

Section http.
Context {U : Unicode} {S : Type} (remote : Remote S) (p : Provider) (deps : Deps).
Abbreviation Mp := (M (PWorld S)).
Abbreviation rows_at := (get_rows remote p).

(** ** tenants.go *)

Definition createTenant (key : string) (spec : gomap) : Mp unit :=
  post_ remote p ("create tenant " +:+ key +:+ ": ") "/v1/tenants"
    (mset "slug" (VStr key) (translateSpec spec)).

Definition updateTenant (key : string) (spec : gomap) : Mp unit :=
  with_id ("tenant " +:+ key) (observeTenant remote p key)
    (failM (errorf ("tenant " +:+ key +:+ " not found for update")))
    (fun id => put_found remote p ("tenant " +:+ key) id ("/v1/tenants/" +:+ id) (translateSpec spec)).

Definition deleteTenant (key : string) : Mp unit :=
  let! current := observeTenant remote p key in
  match current with
  | None => skipM
  | Some c => match idOf c with
              | None => failM (errorf ("tenant " +:+ key +:+ ": missing id for delete"))
              | Some id => delete_ remote p ("/v1/tenants/" +:+ id)
              end
  end.

(** ** providers.go *)

Definition list_providers : Mp (list gomap) :=
  rows_at "/v1/providers" "providers" "list providers: " "parse providers response: ".

Definition observeProvider (key : string) : Mp (option gomap) :=
  let! rows := list_providers in
  let! row := find_row remote p (fun r => String.eqb (strVal r "name") key) rows in
  retM (observed row).

Definition createProvider (key : string) (spec : gomap) : Mp unit :=
  post_ remote p ("create provider " +:+ key +:+ ": ") "/v1/providers"
    (mset "name" (VStr key) (translateSpec spec)).

Definition updateProvider (key : string) (spec : gomap) : Mp unit :=
  with_id ("provider " +:+ key) (observeProvider key)
    (failM (errorf ("provider " +:+ key +:+ " not found for update")))
    (fun id => put_found remote p ("provider " +:+ key) id ("/v1/providers/" +:+ id)
                 (mset "name" (VStr key) (translateSpec spec))).

Definition deleteProvider (key : string) : Mp unit :=
  with_id ("provider " +:+ key) (observeProvider key) skipM
    (fun id => delete_ remote p ("/v1/providers/" +:+ id)).

Definition VerifyProvider (key : string) : Mp unit :=
  with_id ("verify provider " +:+ key)
    (wrapM ("verify provider " +:+ key +:+ ": ") (observeProvider key))
    (failM (wrapf ("verify provider " +:+ key +:+ ": ") (sentinelError ErrNotFound) ""))
    (fun id => do! Post remote (p_http p) ("/v1/providers/" +:+ id +:+ "/verify") VNil in skipM).

(** ** agents.go and context_files.go *)

Definition observeAgent (key : string) : Mp (option gomap) :=
  let! rows := list_agents remote p in
  let! row := find_row remote p (fun r => String.eqb (strVal r "agent_key") key) rows in
  retM (observed row).

(** The import endpoint, with a client of its own: no [Accept] header, the status
    checked by hand, at most 1024 bytes of the body quoted. *)
Definition syncContextFiles (agentID : string) (files : list gval) : Mp unit :=
  match files with
  | [] => skipM
  | _ =>
    match d_targz deps (context_entries files) with
    | Err e => failM (wrapf "build context files archive: " e "")
    | Ok archive => fun w =>
      let rq := mkHttpRequest "POST"
        (endpoint p +:+ "/v1/agents/" +:+ agentID +:+ "/import?include=context_files")
        (set_headers (headers (p_http p))
           [("Content-Type", "multipart/form-data"); ("Authorization", "Bearer " +:+ p_token p)])
        (FormBody [FormFile "file" "context-files.tar.gz" archive]) in
      let '(s, out) := http_send remote rq (server w) in
      (log_sent (MHttp rq) s w,
       match out with
       | BadRequest e => Err (wrapf "create import request: " e "")
       | TransportError e => Err (wrapf "import context files: " e "")
       | ReadError _ => Ok tt
       | Response code body =>
         if ((code <? 200) || (300 <=? code))%Z
         then Err (errorf ("import context files: status " +:+ Itoa code +:+ ": "
                           +:+ take_bytes 1024 body))
         else Ok tt
       end)
    end
  end.

Definition syncAgentContextFiles (key : string) (files : list gval) : Mp unit :=
  with_id ("agent " +:+ key) (observeAgent key)
    (failM (errorf ("agent " +:+ key +:+ " not found")))
    (fun id => syncContextFiles id files).

(** A failure is only logged. *)
Definition sync_files_logged (key : string) (files : list gval) : Mp unit :=
  match files with
  | [] => skipM
  | _ => do! tryM (syncAgentContextFiles key files) in skipM
  end.

Definition contextFiles (spec : gomap) : list gval := default [] (getAs asSlice "contextFiles" spec).

Definition createAgent (key : string) (spec : gomap) : Mp unit :=
  let body := mdel "context_files" (mset "agent_key" (VStr key) (translateSpec spec)) in
  do! post_ remote p ("create agent " +:+ key +:+ ": ") "/v1/agents" body in
  sync_files_logged key (contextFiles spec).

Definition updateAgent (key : string) (spec : gomap) : Mp unit :=
  with_id ("agent " +:+ key) (observeAgent key)
    (failM (errorf ("agent " +:+ key +:+ " not found for update")))
    (fun id =>
       do! put_found remote p ("agent " +:+ key) id ("/v1/agents/" +:+ id)
             (mdel "context_files" (translateSpec spec)) in
       sync_files_logged key (contextFiles spec)).

Definition deleteAgent (key : string) : Mp unit :=
  with_id ("agent " +:+ key) (observeAgent key) skipM
    (fun id => delete_ remote p ("/v1/agents/" +:+ id)).

(** [parseContextFilesArchive]; an unreadable archive is an error. *)
Definition parseContextFilesArchive (gz : string) : res (list (string * string)) :=
  res_bind (d_untar deps gz) parse_entries.

Definition DownloadAgentContextFiles (agentKey : string) : Mp (list (string * string)) :=
  let! id := resolveAgentID remote p agentKey in
  let! gz := wrapM ("export context files for agent " +:+ agentKey +:+ ": ")
               (GetRaw remote (p_http p)
                  ("/v1/agents/" +:+ id +:+ "/export?sections=context_files&stream=false")) in
  liftM (parseContextFilesArchive gz).

(** ** channels.go *)

Definition list_channels : Mp (list gomap) :=
  rows_at "/v1/channels/instances" "instances" "list channel instances: "
    "parse channel instances response: ".

Definition observeChannelInstance (key : string) : Mp (option gomap) :=
  let! rows := list_channels in
  let! row := find_row remote p (fun r => String.eqb (strVal r "name") key) rows in
  retM (observed (option_map (mdel "agent_id") row)).

Definition createChannelInstance (key : string) (spec : gomap) : Mp unit :=
  let! body := resolve_agent_key remote p ("channel " +:+ key +:+ ": ") "agent_key" "agent_id"
                 (mset "name" (VStr key) (translateSpec spec)) in
  post_ remote p ("create channel instance " +:+ key +:+ ": ") "/v1/channels/instances" body.

Definition updateChannelInstance (key : string) (spec : gomap) : Mp unit :=
  with_id ("channel instance " +:+ key) (observeChannelInstance key)
    (failM (errorf ("channel instance " +:+ key +:+ " not found for update")))
    (fun id =>
       let! body := resolve_agent_key remote p ("channel " +:+ key +:+ ": ") "agent_key" "agent_id"
                      (translateSpec spec) in
       put_found remote p ("channel instance " +:+ key) id ("/v1/channels/instances/" +:+ id) body).

Definition deleteChannelInstance (key : string) : Mp unit :=
  with_id ("channel instance " +:+ key) (observeChannelInstance key) skipM
    (fun id => delete_ remote p ("/v1/channels/instances/" +:+ id)).

(** ** system_configs.go *)

Definition observeSystemConfig (key : string) : Mp (option gomap) :=
  let! r := tryM (http_get remote p (sysConfigPath key)) in
  match r with
  | Err err =>
    if errorsIs err ErrNotFound then retM None
    else failM (wrapf ("observe system config " +:+ Quote key +:+ ": ") err "")
  | Ok data =>
    let! config := liftM (res_wrap ("parse system config " +:+ Quote key +:+ " response: ")
                            (UnmarshalMap data)) in
    retM (Some [("value", default VNil (mget "value" config))])
  end.

Definition updateSystemConfig (key : string) (spec : gomap) : Mp unit :=
  wrapM ("update system config " +:+ Quote key +:+ ": ")
    (put_ remote p (sysConfigPath key) [("value", VStr (getStr "value" spec))]).

Definition createSystemConfig (key : string) (spec : gomap) : Mp unit := updateSystemConfig key spec.

Definition deleteSystemConfig (key : string) : Mp unit :=
  let! r := tryM (delete_ remote p (sysConfigPath key)) in
  match r with
  | Ok _ => skipM
  | Err err => if errorsIs err ErrNotFound then skipM
               else failM (wrapf ("delete system config " +:+ Quote key +:+ ": ") err "")
  end.

(** ** builtin_tool_configs.go *)

Definition list_builtin_tools : Mp (list gomap) :=
  rows_at "/v1/tools/builtin" "tools" "list builtin tools: " "parse builtin tools response: ".

Definition observeBuiltinToolConfig (key : string) : Mp (option gomap) :=
  let! rows := list_builtin_tools in
  retM match List.find (fun t => String.eqb (strVal t "name") (toolName key)) rows with
       | None => None
       | Some t =>
         match mget "tenant_enabled" t with
         | None => None
         | Some te =>
           Some (match mget "tenant_settings" t with
                 | None | Some VNil => [("enabled", te)]
                 | Some ts => [("enabled", te); ("settings", ts)]
                 end)
         end
       end.

Definition builtin_config_path (key : string) : string :=
  "/v1/tools/builtin/" +:+ toolName key +:+ "/tenant-config".

Definition createBuiltinToolConfig (key : string) (spec : gomap) : Mp unit :=
  wrapM ("set builtin tool config " +:+ key +:+ ": ")
    (put_ remote p (builtin_config_path key) (translateSpec spec)).

Definition updateBuiltinToolConfig (key : string) (spec : gomap) : Mp unit :=
  createBuiltinToolConfig key spec.

Definition deleteBuiltinToolConfig (key : string) : Mp unit :=
  delete_ remote p (builtin_config_path key).

(** ** skill_configs.go *)

Definition list_skills : Mp (list gomap) :=
  rows_at "/v1/skills" "skills" "list skills: " "parse skills response: ".

Definition observeSkillConfig (key : string) : Mp (option gomap) :=
  let! rows := list_skills in
  match List.find (fun s => String.eqb (strVal s "slug") key) rows with
  | None => retM None
  | Some s =>
    match mget "tenant_enabled" s with
    | None | Some VNil => retM None
    | Some (VBool enabled) => retM (Some (translateResult [("enabled", VBool enabled)]))
    | Some raw => failM (errorf ("skill " +:+ Quote key +:+ ": tenant_enabled has unexpected type "
                               +:+ json_type_name raw))
    end
  end.

Definition resolveSkillID (slug : string) : Mp string :=
  let! rows := list_skills in
  match find_id (fun s => String.eqb (strVal s "slug") slug) rows with
  | Some id => retM id
  | None => failM (errorf ("skill " +:+ Quote slug +:+ " not found"))
  end.

Definition createSkillConfig (key : string) (spec : gomap) : Mp unit :=
  let! id := resolveSkillID key in
  wrapM ("set skill config " +:+ key +:+ ": ")
    (put_ remote p ("/v1/skills/" +:+ id +:+ "/tenant-config") (translateSpec spec)).

Definition updateSkillConfig (key : string) (spec : gomap) : Mp unit := createSkillConfig key spec.

Definition deleteSkillConfig (key : string) : Mp unit :=
  let! id := resolveSkillID key in
  delete_ remote p ("/v1/skills/" +:+ id +:+ "/tenant-config").

(** ** mcp_servers.go *)

Definition list_mcp_servers : Mp (list gomap) :=
  rows_at "/v1/mcp/servers" "servers" "list mcp servers: " "parse mcp servers response: ".

Definition resolveMCPServerID (name : string) : Mp string :=
  let! rows := list_mcp_servers in
  match find_id (fun s => String.eqb (strVal s "name") name) rows with
  | Some id => retM id
  | None => failM (errorf ("mcp server " +:+ Quote name +:+ " not found"))
  end.

Definition listMCPGrants (serverID : string) : Mp (list gomap) :=
  rows_at ("/v1/mcp/servers/" +:+ serverID +:+ "/grants") "grants"
    ("list mcp grants for server " +:+ serverID +:+ ": ") "parse mcp grants response: ".

(** Agent id to agent key, over the rows that have an id. *)
Definition id_to_key (agents : list gomap) : strmap :=
  foldl (fun m a => let id := strVal a "id" in
                    if String.eqb id "" then m else mset id (strVal a "agent_key") m) [] agents.

Definition listMCPGrantAgentKeys (serverID : string) : Mp (list string) :=
  let! grants := listMCPGrants serverID in
  match grants with
  | [] => retM []
  | _ =>
    let! agents := rows_at "/v1/agents" "agents" "list agents for grant resolution: "
                     "parse agents response: " in
    let idToKey := id_to_key agents in
    retM (omap (fun g => match mget (strVal g "agent_id") idToKey with
                         | Some key => if String.eqb key "" then None else Some key
                         | None => None
                         end) grants)
  end.

(** [if agentKeys, err := ...; err == nil { result["grants"] = ... }]. *)
Definition inject_grants (id : string) (keys : Mp (list string)) (result : gomap) : Mp gomap :=
  if String.eqb id "" then retM result
  else
    let! r := tryM keys in
    retM match r with
         | Ok agentKeys => mset "grants" (VMap [("agents", VStrs agentKeys)]) result
         | Err _ => result
         end.

Definition observeMCPServer (key : string) : Mp (option gomap) :=
  let! rows := list_mcp_servers in
  let! row := find_row remote p (fun s => String.eqb (strVal s "name") key) rows in
  match row with
  | None => retM None
  | Some s =>
    let serverID := strVal s "id" in
    let! result := inject_grants serverID (listMCPGrantAgentKeys serverID)
                     (translateResult (stripInternal s)) in
    retM (Some result)
  end.

Definition grant_path (serverID : string) : string :=
  "/v1/mcp/servers/" +:+ serverID +:+ "/grants/agent".

(** [p.http.Delete], a missing grant not being an error. *)
Definition revoke (msg path : string) : Mp unit :=
  let! r := tryM (delete_ remote p path) in
  match r with
  | Ok _ => skipM
  | Err err => if errorsIs err ErrNotFound then skipM else failM (wrapf msg err "")
  end.

(** The ids of the current grants. *)
Definition grant_ids (grants : list gomap) : list string :=
  List.filter (fun id => negb (String.eqb id "")) (map (fun g => strVal g "agent_id") grants).

(** The loop that resolves the desired agents. *)
Definition resolve_agents (agents : list string) : Mp (list string) :=
  mapM (fun agentKey => wrapM ("resolve agent " +:+ Quote agentKey +:+ ": ")
                          (resolveAgentID remote p agentKey)) agents.

Definition applyMCPGrants (serverName : string) (desiredAgents : list string) : Mp unit :=
  let! serverID := resolveMCPServerID serverName in
  let! currentGrants := listMCPGrants serverID in
  let currentIDs := to_set (grant_ids currentGrants) in
  let! ids := resolve_agents desiredAgents in
  let desiredIDs := to_set ids in
  do! forM_ (d_range deps desiredIDs) (fun agentID =>
        if mem_str agentID currentIDs then skipM
        else post_ remote p ("grant agent " +:+ agentID +:+ " to mcp server " +:+ serverName +:+ ": ")
               (grant_path serverID) [("agent_id", VStr agentID)]) in
  forM_ (d_range deps currentIDs) (fun agentID =>
    if mem_str agentID desiredIDs then skipM
    else revoke ("revoke agent " +:+ agentID +:+ " from mcp server " +:+ serverName +:+ ": ")
           (grant_path serverID +:+ "/" +:+ agentID)).

Definition createMCPServer (key : string) (spec : gomap) : Mp unit :=
  let body := mdel "grants" (mset "name" (VStr key) (translateSpec spec)) in
  do! post_ remote p ("create mcp server " +:+ key +:+ ": ") "/v1/mcp/servers" body in
  match extractGrantAgents spec with
  | [] => skipM
  | agents => wrapM ("apply grants for mcp server " +:+ key +:+ ": ") (applyMCPGrants key agents)
  end.

Definition updateMCPServer (key : string) (spec : gomap) : Mp unit :=
  with_id ("mcp server " +:+ key) (observeMCPServer key)
    (failM (errorf ("mcp server " +:+ key +:+ " not found for update")))
    (fun id =>
       do! put_found remote p ("mcp server " +:+ key) id ("/v1/mcp/servers/" +:+ id)
             (mdel "grants" (translateSpec spec)) in
       applyMCPGrants key (extractGrantAgents spec)).

Definition deleteMCPServer (key : string) : Mp unit :=
  with_id ("mcp server " +:+ key) (observeMCPServer key) skipM
    (fun id => delete_ remote p ("/v1/mcp/servers/" +:+ id)).

(** ** mcp_credentials.go *)

Definition observeMCPCredentials (key : string) : Mp (option gomap) :=
  let! r := tryM (resolveMCPServerID key) in
  retM match r with
       | Err _ => None
       | Ok _ => Some [("serverName", VStr key)]
       end.

Definition credentials_path (id : string) : string :=
  "/v1/mcp/servers/" +:+ id +:+ "/user-credentials".

Definition createMCPCredentials (key : string) (spec : gomap) : Mp unit :=
  let! id := resolveMCPServerID key in
  wrapM ("set mcp credentials " +:+ key +:+ ": ")
    (put_ remote p (credentials_path id) (translateSpec spec)).

Definition updateMCPCredentials (key : string) (spec : gomap) : Mp unit :=
  createMCPCredentials key spec.

Definition deleteMCPCredentials (key : string) : Mp unit :=
  let! id := resolveMCPServerID key in
  delete_ remote p (credentials_path id).

(** ** secure_cli.go *)

Definition list_secure_clis : Mp (list gomap) :=
  rows_at "/v1/cli-credentials" "items" "list cli-credentials: " "parse cli-credentials response: ".

Definition observeSecureCLI (key : string) : Mp (option gomap) :=
  let! rows := list_secure_clis in
  let! row := find_row remote p (fun r => String.eqb (strVal r "binary_name") key) rows in
  retM (observed (option_map (delete_fields ["env_keys"; "encrypted_env"]) row)).

Definition createSecureCLI (key : string) (spec : gomap) : Mp unit :=
  post_ remote p ("create cli-credential " +:+ key +:+ ": ") "/v1/cli-credentials"
    (mset "binary_name" (VStr key) (translateSpec spec)).

Definition updateSecureCLI (key : string) (spec : gomap) : Mp unit :=
  with_id ("cli-credential " +:+ key) (observeSecureCLI key)
    (failM (errorf ("cli-credential " +:+ key +:+ " not found for update")))
    (fun id => put_found remote p ("cli-credential " +:+ key) id ("/v1/cli-credentials/" +:+ id)
                 (translateSpec spec)).

Definition deleteSecureCLI (key : string) : Mp unit :=
  with_id ("cli-credential " +:+ key) (observeSecureCLI key) skipM
    (fun id => delete_ remote p ("/v1/cli-credentials/" +:+ id)).

Definition resolveSecureCLIID (binaryName : string) : Mp string :=
  let! rows := list_secure_clis in
  let! id := find_tenant_id remote p (fun r => String.eqb (strVal r "binary_name") binaryName) rows in
  match id with
  | Some id => retM id
  | None => failM (errorf ("cli-credential " +:+ Quote binaryName +:+ " not found"))
  end.

(** ** secure_cli_grants.go *)

Definition grants_path (binaryID : string) : string :=
  "/v1/cli-credentials/" +:+ binaryID +:+ "/agent-grants".

Definition observeSecureCLIGrant (key : string) : Mp (option gomap) :=
  let! (binaryName, agentKey) := liftM (parseGrantName key) in
  let! binaryID := wrapM ("grant " +:+ key +:+ ": ") (resolveSecureCLIID binaryName) in
  let! agentID := wrapM ("grant " +:+ key +:+ ": ") (resolveAgentID remote p agentKey) in
  let! rows := rows_at (grants_path binaryID) "grants" ("list grants for " +:+ binaryName +:+ ": ")
                 "parse grants response: " in
  retM (observed (option_map (delete_fields grantInternalFields)
                    (List.find (fun g => String.eqb (strVal g "agent_id") agentID) rows))).

Definition createSecureCLIGrant (key : string) (spec : gomap) : Mp unit :=
  let! (binaryName, agentKey) := liftM (parseGrantName key) in
  let! binaryID := wrapM ("grant " +:+ key +:+ ": ") (resolveSecureCLIID binaryName) in
  let! agentID := wrapM ("grant " +:+ key +:+ ": ") (resolveAgentID remote p agentKey) in
  let body := mset "agent_id" (VStr agentID)
                (mdel "agent_key" (mdel "binary_name" (translateSpec spec))) in
  post_ remote p ("create grant " +:+ key +:+ ": ") (grants_path binaryID) body.

Definition updateSecureCLIGrant (key : string) (spec : gomap) : Mp unit :=
  let! (binaryName, _) := liftM (parseGrantName key) in
  let! binaryID := wrapM ("grant " +:+ key +:+ ": ") (resolveSecureCLIID binaryName) in
  with_id ("grant " +:+ key) (observeSecureCLIGrant key)
    (failM (errorf ("grant " +:+ key +:+ " not found for update")))
    (fun grantID => put_ remote p (grants_path binaryID +:+ "/" +:+ grantID)
                      (mdel "agent_key" (mdel "binary_name" (translateSpec spec)))).

Definition deleteSecureCLIGrant (key : string) : Mp unit :=
  let! (binaryName, _) := liftM (parseGrantName key) in
  let! r := tryM (resolveSecureCLIID binaryName) in
  match r with
  | Err _ => skipM
  | Ok binaryID =>
    with_id ("grant " +:+ key) (observeSecureCLIGrant key) skipM
      (fun grantID => delete_ remote p (grants_path binaryID +:+ "/" +:+ grantID))
  end.
End http.
