(* ===== verification/GoclawWs.v ===== *)
(** * The GoClaw provider: resources served over WebSocket RPC

    Cron jobs ([cron_jobs.go]), teams ([teams.go]), agent links ([agent_links.go])
    and workstations ([workstations.go]), with the RPC half of [delete.go] and the
    log-tail calls of [provider.go].  A slice that may be nil is an [option]. *)
From Stdlib Require Import ZArith Lia Bool Ascii.
From Stdlib Require String.
From S2P Require Import Prelude GoStr GoValue Manifest Keyconv Validate Json JsonParse Http GoclawBase.

Local Open Scope string_scope.
Local Open Scope go_scope.

(** ** Pure parts *)

Definition cronInternalFields : list string :=
  ["tenantId"; "userId"; "payload"; "state"; "createdAtMs"; "updatedAtMs"; "createdBy"].

Definition agentLinkInternalFields : list string :=
  [ "sourceAgentId"; "targetAgentId"; "sourceAgentKey"; "sourceDisplayName"; "sourceEmoji";
    "targetAgentKey"; "targetDisplayName"; "targetEmoji"; "targetDescription";
    "teamId"; "teamName"; "targetIsTeamLead"; "targetTeamName" ].

Definition workstationInternalFields : list string :=
  ["id"; "tenantId"; "createdAt"; "updatedAt"; "createdBy"; "metadataSummary"].

Definition parseAgentLinkName {U : Unicode} (name : string) : res (string * string) :=
  match Split name "--" with
  | [s; t] =>
    if String.eqb s "" || String.eqb t ""
    then Err (errorf ("invalid agent link name " +:+ Quote name +:+
                      ": expected format sourceAgent--targetAgent (agent_keys may not contain "
                      +:+ Quote "--" +:+ ")"))
    else Ok (s, t)
  | _ => Err (errorf ("invalid agent link name " +:+ Quote name +:+
                      ": expected format sourceAgent--targetAgent (agent_keys may not contain "
                      +:+ Quote "--" +:+ ")"))
  end.

(** ["id"], or ["name"] when there is none. *)
Definition id_or_name (current : gomap) : string :=
  if String.eqb (strVal current "id") "" then strVal current "name" else strVal current "id".

Definition sshMetaKeys : list string :=
  ["host"; "port"; "user"; "privateKey"; "knownHostsFingerprint"; "connectTimeoutSec"].

(** [if v, ok := spec[from]; ok { m[to] = v }]. *)
Definition carry (from to : string) (spec m : gomap) : gomap :=
  match mget from spec with Some v => mset to v m | None => m end.

(** [displayName], [backendType] and [defaultCwd], then the SSH fields under
    [metadata]: common to create and update. *)
Definition workstation_columns (spec m : gomap) : gomap :=
  let m := carry "defaultCwd" "defaultCwd" spec
             (carry "backendType" "backendType" spec (carry "displayName" "name" spec m)) in
  match foldl (fun meta f => carry f f spec meta) [] sshMetaKeys with
  | [] => m
  | meta => mset "metadata" (VMap meta) m
  end.

Definition buildWorkstationCreateParams (key : string) (spec : gomap) : gomap :=
  workstation_columns spec [("workstationKey", VStr key); ("createdBy", VStr "gcplane")].

Definition skipKeys : list string :=
  ["allowlist"; "agents"; "displayName"; "backendType"; "defaultCwd"].

Definition buildWorkstationUpdatePatch (spec : gomap) : gomap :=
  foldl (fun patch kv =>
           if mem_str kv.1 skipKeys || mem_str kv.1 sshMetaKeys then patch
           else match mget kv.1 patch with Some _ => patch | None => mset kv.1 kv.2 patch end)
        (workstation_columns spec []) spec.

Definition extractStringSlice (spec : gomap) (key : string) : list string :=
  omap asStr (default [] (getAs asSlice key spec)).

Record permEntry := mkPerm { perm_id : string; perm_pattern : string }.

Definition decode_perm (v : jval) : res permEntry :=
  let? i := struct_field "id" "" decode_string v in
  let? pat := struct_field "pattern" "" decode_string v in
  Ok (mkPerm i pat).

Section ws.
Context {U : Unicode} {S : Type} (remote : Remote S) (p : Provider) (deps : Deps).
Abbreviation Mp := (M (PWorld S)).

(** [payload, err := p.ws.Call(...)], decoded as a list of rows. *)
Definition call_rows (call_msg parse_msg method field : string) (params : option gomap) :
    Mp (list gomap) :=
  let! payload := wrapM call_msg (Call remote method params) in
  decode_rows field parse_msg payload.

(** ** provider.go: log tail *)

Definition StartLogTail (level : string) : Mp unit :=
  do! ensureWS remote in
  do! Call remote "logs.tail" (Some [("action", VStr "start"); ("level", VStr level)]) in skipM.

Definition StopLogTail : Mp unit :=
  do! ensureWS remote in
  do! Call remote "logs.tail" (Some [("action", VStr "stop")]) in skipM.

(** ** cron_jobs.go *)

Definition ws_cron : Mp unit := wrapM "ws connect for cron: " (ensureWS remote).

Definition list_cron_jobs : Mp (list gomap) :=
  call_rows "cron.list: " "parse cron.list response: " "cron.list" "jobs"
    (Some [("includeDisabled", VBool true)]).

Definition observeCronJob (key : string) : Mp (option gomap) :=
  do! ws_cron in
  let! rows := list_cron_jobs in
  let! row := find_row remote p (fun r => String.eqb (strVal r "name") key) rows in
  retM (option_map (delete_fields cronInternalFields) (observed row)).

Definition createCronJob (key : string) (spec : gomap) : Mp unit :=
  do! ws_cron in
  let! params := resolve_agent_key remote p ("cron " +:+ key +:+ ": ") "agentKey" "agentId"
                   (mset "name" (VStr key) spec) in
  call_ remote ("cron.create " +:+ key +:+ ": ") "cron.create" params.

Definition updateCronJob (key : string) (spec : gomap) : Mp unit :=
  do! ws_cron in
  let! current := observeCronJob key in
  match current with
  | None => failM (errorf ("cron job " +:+ key +:+ " not found for update"))
  | Some c =>
    let! patch := resolve_agent_key remote p ("cron " +:+ key +:+ ": ") "agentKey" "agentId" spec in
    call_ remote ("cron.update " +:+ key +:+ ": ") "cron.update"
      [("jobId", VStr (id_or_name c)); ("patch", VMap patch)]
  end.

Definition deleteCronJob (key : string) : Mp unit :=
  do! ensureWS remote in
  let! current := observeCronJob key in
  match current with
  | None => skipM
  | Some c => do! Call remote "cron.delete" (Some [("jobId", VStr (id_or_name c))]) in skipM
  end.

(** ** teams.go *)

Definition ws_teams : Mp unit := wrapM "ws connect for teams: " (ensureWS remote).

Definition list_teams : Mp (list gomap) :=
  call_rows "teams.list: " "parse teams.list response: " "teams.list" "teams" None.

Definition observeTeam (key : string) : Mp (option gomap) :=
  do! ws_teams in
  let! rows := list_teams in
  let! row := find_row remote p (fun r => String.eqb (strVal r "name") key) rows in
  retM (observed row).

Definition createTeam (key : string) (spec : gomap) : Mp unit :=
  do! ws_teams in
  call_ remote ("teams.create " +:+ key +:+ ": ") "teams.create"
    (mset "name" (VStr key) (translateSpec spec)).

Definition updateTeam (key : string) (spec : gomap) : Mp unit :=
  do! ws_teams in
  let! current := observeTeam key in
  match current with
  | None => failM (errorf ("team " +:+ key +:+ " not found for update"))
  | Some c => call_ remote ("teams.update " +:+ key +:+ ": ") "teams.update"
                (mset "teamId" (VStr (id_or_name c)) (translateSpec spec))
  end.

Definition deleteTeam (key : string) : Mp unit :=
  do! ensureWS remote in
  let! current := observeTeam key in
  match current with
  | None => skipM
  | Some c => do! Call remote "teams.delete" (Some [("teamId", VStr (id_or_name c))]) in skipM
  end.

(** ** agent_links.go *)

Definition ws_links : Mp unit := wrapM "ws connect for agent links: " (ensureWS remote).

Definition list_links_from (call_msg sourceID : string) : Mp (list gomap) :=
  call_rows call_msg "parse agents.links.list response: " "agents.links.list" "links"
    (Some [("agentId", VStr sourceID); ("direction", VStr "from")]).

Definition observeAgentLink (key : string) : Mp (option gomap) :=
  do! ws_links in
  let! (sourceKey, targetKey) := liftM (parseAgentLinkName key) in
  let! sourceID := wrapM ("link " +:+ key +:+ ": source: ") (resolveAgentID remote p sourceKey) in
  let! targetID := wrapM ("link " +:+ key +:+ ": target: ") (resolveAgentID remote p targetKey) in
  let! links := list_links_from "agents.links.list: " sourceID in
  retM (option_map (fun link =>
          delete_fields agentLinkInternalFields (translateResult (stripInternal link)))
        (List.find (fun link => String.eqb (strVal (translateResult link) "targetAgentId") targetID)
                   links)).

Definition createAgentLink (key : string) (spec : gomap) : Mp unit :=
  do! ws_links in
  let! (sourceKey, targetKey) := liftM (parseAgentLinkName key) in
  call_ remote ("agents.links.create " +:+ key +:+ ": ") "agents.links.create"
    (mset "targetAgent" (VStr targetKey) (mset "sourceAgent" (VStr sourceKey) spec)).

Definition updateAgentLink (key : string) (spec : gomap) : Mp unit :=
  do! ws_links in
  let! current := observeAgentLink key in
  match current with
  | None => failM (errorf ("agent link " +:+ key +:+ " not found for update"))
  | Some c =>
    let linkID := strVal c "id" in
    if String.eqb linkID "" then failM (errorf ("agent link " +:+ key +:+ ": missing id"))
    else call_ remote ("agents.links.update " +:+ key +:+ ": ") "agents.links.update"
           (mset "linkId" (VStr linkID) (mdel "targetAgent" (mdel "sourceAgent" spec)))
  end.

Definition deleteAgentLink (key : string) : Mp unit :=
  do! ws_links in
  let! r := tryM (observeAgentLink key) in
  match r with
  | Err err => if Contains (Error err) "not found" then skipM else failM err
  | Ok None => skipM
  | Ok (Some c) =>
    let linkID := strVal c "id" in
    if String.eqb linkID "" then failM (errorf ("agent link " +:+ key +:+ ": missing id"))
    else call_ remote ("agents.links.delete " +:+ key +:+ ": ") "agents.links.delete"
           [("linkId", VStr linkID)]
  end.

(** ** workstations.go *)

Definition ws_workstations : Mp unit := wrapM "ws connect for workstations: " (ensureWS remote).

Definition list_workstations : Mp (list gomap) :=
  call_rows "workstations.list: " "parse workstations.list response: " "workstations.list"
    "workstations" None.

Definition observeWorkstation (key : string) : Mp (option gomap) :=
  do! ws_workstations in
  let! rows := list_workstations in
  retM (option_map (delete_fields workstationInternalFields)
          (List.find (fun r => String.eqb (strVal r "workstationKey") key) rows)).

Definition resolveWorkstationID (key : string) : Mp string :=
  do! ws_workstations in
  let! rows := list_workstations in
  match find_id (fun r => String.eqb (strVal r "workstationKey") key) rows with
  | Some id => retM id
  | None => failM (errorf ("workstation " +:+ Quote key +:+ " not found"))
  end.

Definition listWorkstationPermissions (wsID : string) : Mp (list permEntry) :=
  let! payload := wrapM "workstations.permissions.list: "
                    (Call remote "workstations.permissions.list" (Some [("workstationId", VStr wsID)])) in
  liftM (res_wrap "parse permissions.list response: "
           (let? v := parse_json payload in
            struct_field "permissions" [] (decode_slice decode_perm) v)).

(** [current = None] is the nil of the create path: nothing is removed. *)
Definition reconcileAllowlist (wsID : string) (current : option (list permEntry))
    (desired : list string) : Mp unit :=
  let currentSet : strmap :=
    foldl (fun m e => mset (perm_pattern e) (perm_id e) m) [] (default [] current) in
  do! forM_ desired (fun d =>
        match mget d currentSet with
        | Some _ => skipM
        | None => call_ remote ("add permission " +:+ Quote d +:+ ": ")
                    "workstations.permissions.add"
                    [("workstationId", VStr wsID); ("pattern", VStr d)]
        end) in
  match current with
  | None => skipM
  | Some _ =>
    forM_ (d_range deps (mkeys currentSet)) (fun pattern =>
      if mem_str pattern desired then skipM
      else call_ remote ("remove permission " +:+ Quote pattern +:+ ": ")
             "workstations.permissions.remove" [("id", VStr (strget pattern currentSet))])
  end.

Definition reconcileWorkstationAgentLinks (wsID : string) (current : option (list string))
    (desired : list string) : Mp unit :=
  do! forM_ desired (fun agentKey =>
        if mem_str agentKey (default [] current) then skipM
        else
          let! agentID := wrapM ("resolve agent " +:+ Quote agentKey +:+ " for link: ")
                            (resolveAgentID remote p agentKey) in
          call_ remote ("linkAgent " +:+ agentKey +:+ " → " +:+ wsID +:+ ": ")
            "workstations.linkAgent"
            [("workstationId", VStr wsID); ("agentId", VStr agentID); ("isDefault", VBool false)]) in
  match current with
  | None => skipM
  | Some cur =>
    forM_ cur (fun agentKey =>
      if mem_str agentKey desired then skipM
      else
        let! agentID := wrapM ("resolve agent " +:+ Quote agentKey +:+ " for unlink: ")
                          (resolveAgentID remote p agentKey) in
        call_ remote ("unlinkAgent " +:+ agentKey +:+ " → " +:+ wsID +:+ ": ")
          "workstations.unlinkAgent"
          [("workstationId", VStr wsID); ("agentId", VStr agentID)])
  end.

Definition workstation_lists (key wsID : string) (current : option (list permEntry)) (spec : gomap) :
    Mp unit :=
  do! wrapM ("workstation " +:+ key +:+ ": reconcile allowlist: ")
        (reconcileAllowlist wsID current (extractStringSlice spec "allowlist")) in
  wrapM ("workstation " +:+ key +:+ ": reconcile agent links: ")
    (reconcileWorkstationAgentLinks wsID None (extractStringSlice spec "agents")).

Definition createWorkstation (key : string) (spec : gomap) : Mp unit :=
  do! ws_workstations in
  do! call_ remote ("workstations.create " +:+ key +:+ ": ") "workstations.create"
        (buildWorkstationCreateParams key spec) in
  let! wsID := wrapM ("workstation " +:+ key +:+ ": resolve after create: ")
                 (resolveWorkstationID key) in
  workstation_lists key wsID None spec.

Definition updateWorkstation (key : string) (spec : gomap) : Mp unit :=
  do! ws_workstations in
  let! wsID := wrapM ("workstation " +:+ key +:+ " not found for update: ")
                 (resolveWorkstationID key) in
  do! (match buildWorkstationUpdatePatch spec with
       | [] => skipM
       | patch => call_ remote ("workstations.update " +:+ key +:+ ": ") "workstations.update"
                    [("id", VStr wsID); ("updates", VMap patch)]
       end) in
  let! currentPerms := wrapM ("workstation " +:+ key +:+ ": list permissions: ")
                         (listWorkstationPermissions wsID) in
  workstation_lists key wsID (Some currentPerms) spec.

Definition deleteWorkstation (key : string) : Mp unit :=
  do! ws_workstations in
  let! r := tryM (resolveWorkstationID key) in
  match r with
  | Err err =>
    if Contains (Error err) "not found" then skipM
    else failM (wrapf ("workstation " +:+ key +:+ ": resolve for delete: ") err "")
  | Ok wsID =>
    call_ remote ("workstations.delete " +:+ key +:+ ": ") "workstations.delete" [("id", VStr wsID)]
  end.
End ws.
