(* ===== verification/GoclawSkills.v ===== *)
(** * The GoClaw provider: skills

    [skills.go] and [system.go]: a skill is created by uploading the archive of its
    source directory, overlaid with the fields of the manifest and with per-agent
    grants; its files are downloaded one by one.  Warnings are only logged. *)
From Stdlib Require Import ZArith Lia Bool Ascii.
From Stdlib Require String.
From S2P Require Import Prelude GoStr GoValue Manifest Keyconv Filepath SkillPkg Validate Json JsonParse.
From S2P Require Import Http GoclawBase GoclawHttp.

Local Open Scope string_scope.
Local Open Scope go_scope.

Definition skillWritableFields : list string :=
  ["description"; "visibility"; "status"; "tags"; "version"; "name"].

Definition matchSkillKey (row : gomap) (key : string) : bool :=
  String.eqb (strVal row "slug") key || String.eqb (strVal row "key") key.

(** [v != nil && v != ""]. *)
Definition non_trivial (v : gval) : bool :=
  match v with VNil => false | VStr s => negb (String.eqb s "") | _ => true end.

Definition hasOverlay (spec : gomap) : bool :=
  existsb (fun k => match mget k spec with Some v => non_trivial v | None => false end)
          skillWritableFields.

Definition isSystemSourceDir (sourceDir : string) : bool :=
  let clean := Clean sourceDir in
  String.eqb clean "_system" || HasPrefix clean "_system/" || Contains clean "/_system/".

(** The entries of [spec] that PUT may carry. *)
Definition writable (spec : gomap) : gomap :=
  foldl (fun m kv => if mem_str kv.1 skillWritableFields then mset kv.1 kv.2 m else m) [] spec.

(** [struct { Path string; IsDir bool }]. *)
Definition decode_tree_entry (v : jval) : res (string * bool) :=
  let? path := struct_field "path" "" decode_string v in
  let? dir := struct_field "isDir" false decode_bool v in
  Ok (path, dir).

Section skills.
Context {U : Unicode} {S : Type} (remote : Remote S) (p : Provider) (deps : Deps).
Abbreviation Mp := (M (PWorld S)).

(** ** system.go *)

Definition GetCLIVersions : Mp strmap :=
  let! data := wrapM "get cli-versions: " (http_get remote p "/v1/system/cli-versions") in
  liftM (res_wrap "parse cli-versions response: "
           (let? v := parse_json data in struct_field "versions" [] decode_strmap v)).

(** ** Grants *)

Definition agentHasSkillGrant (agentID skillID : string) : Mp bool :=
  let! rows := get_rows remote p ("/v1/agents/" +:+ agentID +:+ "/skills") "skills"
                 ("list skills for agent " +:+ agentID +:+ ": ") "parse agent skills response: " in
  retM match List.find (fun s => String.eqb (strVal s "id") skillID) rows with
       | Some s => boolVal s "granted"
       | None => false
       end.

(** The loop over the agents. *)
Fixpoint granted_keys (skillID : string) (agents : list gomap) : Mp (list string) :=
  match agents with
  | [] => retM []
  | a :: rest =>
    let! m := matchesTenant remote p a in
    let agentID := strVal a "id" in
    let agentKey := strVal a "agent_key" in
    if negb (m : bool) || String.eqb agentID "" || String.eqb agentKey ""
    then granted_keys skillID rest
    else
      let! granted := agentHasSkillGrant agentID skillID in
      let! keys := granted_keys skillID rest in
      retM (if granted : bool then agentKey :: keys else keys)
  end.

Definition listSkillGrantAgentKeys (skillID : string) : Mp (list string) :=
  let! agents := get_rows remote p "/v1/agents" "agents" "list agents for skill-grant resolution: "
                   "parse agents response: " in
  granted_keys skillID agents.

Definition resolveSkillIDFromList (slug : string) : Mp string :=
  let! rows := list_skills remote p in
  let! id := find_tenant_id remote p (fun s => String.eqb (strVal s "slug") slug) rows in
  match id with
  | Some id => retM id
  | None => failM (errorf ("skill " +:+ Quote slug +:+ " not found"))
  end.

(** The map from agent key to agent id that both loops of [applySkillGrants] fill. *)
Fixpoint resolve_keys (what : string) (keys : list string) (m : strmap) : Mp strmap :=
  match keys with
  | [] => retM m
  | agentKey :: rest =>
    let! agentID := wrapM ("resolve " +:+ what +:+ " grant agent " +:+ Quote agentKey +:+ ": ")
                      (resolveAgentID remote p agentKey) in
    resolve_keys what rest (mset agentKey agentID m)
  end.

Definition skill_grant_path (skillID : string) : string :=
  "/v1/skills/" +:+ skillID +:+ "/grants/agent".

Definition applySkillGrants (slug : string) (desiredAgents : list string) : Mp unit :=
  let! skillID := resolveSkillIDFromList slug in
  let! currentAgents := wrapM ("list current grants for skill " +:+ slug +:+ ": ")
                          (listSkillGrantAgentKeys skillID) in
  let! currentIDs := resolve_keys "current" currentAgents [] in
  let! desiredIDs := resolve_keys "desired" desiredAgents [] in
  do! forM_ (d_range deps (mkeys desiredIDs)) (fun agentKey =>
        match mget agentKey currentIDs with
        | Some _ => skipM
        | None => post_ remote p ("grant skill " +:+ slug +:+ " to agent " +:+ agentKey +:+ ": ")
                    (skill_grant_path skillID)
                    [("agent_id", VStr (strget agentKey desiredIDs))]
        end) in
  forM_ (d_range deps (mkeys currentIDs)) (fun agentKey =>
    match mget agentKey desiredIDs with
    | Some _ => skipM
    | None => revoke remote p ("revoke skill " +:+ slug +:+ " from agent " +:+ agentKey +:+ ": ")
                (skill_grant_path skillID +:+ "/" +:+ strget agentKey currentIDs)
    end).

(** ** Observe, Create, Update, Delete *)

Definition observeSkill (key : string) : Mp (option gomap) :=
  let! rows := list_skills remote p in
  let! row := find_row remote p (fun s => matchSkillKey s key) rows in
  match row with
  | None => retM None
  | Some s =>
    let skillID := strVal s "id" in
    let! result := inject_grants skillID (listSkillGrantAgentKeys skillID)
                     (translateResult (stripInternal s)) in
    retM (Some result)
  end.

Definition putSkillFields (key : string) (spec : gomap) : Mp unit :=
  with_id ("skill " +:+ key) (observeSkill key)
    (failM (errorf ("skill " +:+ key +:+ " not found for update")))
    (fun id => put_ remote p ("/v1/skills/" +:+ id) (translateSpec (writable spec))).

(** The cross-check of [requires.cli] against the server's binaries: a failed lookup
    and its warnings are only logged. *)
Definition check_cli (key : string) (spec : gomap) : Mp unit :=
  let! r := tryM GetCLIVersions in
  match r with
  | Err _ => skipM
  | Ok installed =>
    match snd (CrossCheckRequiresCli (d_semver deps) (Some spec) installed) with
    | Some mismatch => failM (wrapf ("skill " +:+ key +:+ ": ") mismatch "")
    | None => skipM
    end
  end.

Definition skill_form (key : string) (sourceDir : string) (pkg : PackResult) : list FormPart :=
  ([FormFile "file" (key +:+ ".zip") (ZIP pkg); FormField "source" "gcplane"]
   ++ (if isSystemSourceDir sourceDir then [FormField "is_system" "true"] else []))%list.

Definition createSkill (key : string) (spec : gomap) : Mp unit :=
  let sourceDir := getStr "sourceDir" spec in
  if String.eqb sourceDir ""
  then failM (wrapf ("skill " +:+ key +:+ ": ") (sentinelError ErrSkillSourceMissing) "")
  else
    do! check_cli key spec in
    let! pkg := liftM (res_wrap ("pack skill " +:+ key +:+ ": ")
                         (PackDir (d_zip deps) (d_fs deps) sourceDir)) in
    do! wrapM ("upload skill " +:+ key +:+ ": ")
          (PostMultipart remote (p_http p) "/v1/skills/upload"
             (FormBody (skill_form key sourceDir pkg)) "multipart/form-data") in
    do! (if hasOverlay spec
         then wrapM ("apply overlay to skill " +:+ key +:+ " after upload: ") (putSkillFields key spec)
         else skipM) in
    match extractGrantAgents spec with
    | [] => skipM
    | agents => wrapM ("apply grants for skill " +:+ key +:+ ": ") (applySkillGrants key agents)
    end.

Definition deleteSkill (key : string) : Mp unit :=
  let! current := observeSkill key in
  match current with
  | None => skipM
  | Some c =>
    match idOf c with
    | Some id => if String.eqb id ""
                 then failM (errorf ("skill " +:+ key +:+ ": missing id in observed result"))
                 else delete_ remote p ("/v1/skills/" +:+ id)
    | None => failM (errorf ("skill " +:+ key +:+ ": missing id in observed result"))
    end
  end.

Definition updateSkill (key : string) (spec : gomap) : Mp unit :=
  if String.eqb (getStr "sourceDir" spec) "" then
    do! putSkillFields key spec in
    applySkillGrants key (extractGrantAgents spec)
  else createSkill key spec.

(** ** Downloads *)

Fixpoint download_files (slug id : string) (entries : list (string * bool)) : Mp (list SkillFile) :=
  match entries with
  | [] => retM []
  | (path, is_dir) :: rest =>
    if is_dir || String.eqb path "" then download_files slug id rest
    else
      let! raw := wrapM ("download skill file " +:+ slug +:+ "/" +:+ path +:+ ": ")
                    (GetRaw remote (p_http p)
                       ("/v1/skills/" +:+ id +:+ "/files/" +:+ path +:+ "?raw=true")) in
      let! out := download_files slug id rest in
      retM (mkSkillFile path raw :: out)
  end.

Definition DownloadSkill (slug : string) : Mp (list SkillFile) :=
  let! id := resolveSkillIDFromList slug in
  let! treeData := wrapM ("list skill files " +:+ slug +:+ ": ")
                     (http_get remote p ("/v1/skills/" +:+ id +:+ "/files")) in
  let! entries := liftM (res_wrap ("parse skill file tree " +:+ slug +:+ ": ")
                           (let? v := parse_json treeData in
                            struct_field "files" [] (decode_slice decode_tree_entry) v)) in
  download_files slug id entries.

Definition DownloadSkillSource (slug : string) : Mp (list SkillFile * list string) :=
  let! files := DownloadSkill slug in
  let! id := resolveSkillIDFromList slug in
  let! grantees := wrapM ("list skill grants " +:+ slug +:+ ": ") (listSkillGrantAgentKeys id) in
  retM (files, grantees).
End skills.
