(* ===== verification/GoclawProvider.v ===== *)
(** * The GoClaw provider: listing and dispatch

    [list_all.go] and the dispatch of [provider.go], which together make the
    provider an implementation of the engine's interface ([goclaw]). *)
From Stdlib Require Import ZArith Lia Bool Ascii.
From Stdlib Require String.
From S2P Require Import Prelude GoStr GoValue Manifest Keyconv Filepath Validate Json JsonParse Engine.
From S2P Require Import Http GoclawBase GoclawHttp GoclawWs GoclawSkills.

Local Open Scope string_scope.
Local Open Scope go_scope.

Section provider.
Context {U : Unicode} {S : Type} (remote : Remote S) (p : Provider) (deps : Deps).
Abbreviation Mp := (M (PWorld S)).

(** ** list_all.go *)

(** The reference of a row: its name under [field] and its creator. *)
Definition info (kind : ResourceKind) (field : string) (row : gomap) : ResourceInfo :=
  mkResourceInfo kind (strVal row field) (strVal row "created_by") "" false.

Definition skill_info (row : gomap) : ResourceInfo :=
  mkResourceInfo KindSkill (strVal row "slug") (strVal row "created_by")
    (strVal row "source") (boolVal row "is_system").

Definition listAllProviders : Mp (list ResourceInfo) :=
  let! rows := list_providers remote p in tenant_rows remote p (info KindProvider "name") rows.

Definition listAllAgents : Mp (list ResourceInfo) :=
  let! rows := list_agents remote p in tenant_rows remote p (info KindAgent "agent_key") rows.

Definition listAllChannels : Mp (list ResourceInfo) :=
  let! rows := list_channels remote p in tenant_rows remote p (info KindChannel "name") rows.

Definition listAllMCPServers : Mp (list ResourceInfo) :=
  let! rows := list_mcp_servers remote p in tenant_rows remote p (info KindMCPServer "name") rows.

Definition listAllSkills : Mp (list ResourceInfo) :=
  let! rows := list_skills remote p in tenant_rows remote p skill_info rows.

Definition listAllCronJobs : Mp (list ResourceInfo) :=
  do! ws_cron remote in
  let! rows := list_cron_jobs remote in tenant_rows remote p (info KindCronJob "name") rows.

Definition listAllTeams : Mp (list ResourceInfo) :=
  do! ws_teams remote in
  let! rows := list_teams remote in tenant_rows remote p (info KindAgentTeam "name") rows.

Definition listAllSecureCLIs : Mp (list ResourceInfo) :=
  let! rows := list_secure_clis remote p in
  tenant_rows remote p (info KindSecureCLI "binary_name") rows.

(** The tenant's agents with an id and a key, as (id, key). *)
Fixpoint source_agents (rows : list gomap) : Mp (list (string * string)) :=
  match rows with
  | [] => retM []
  | a :: rest =>
    let! m := matchesTenant remote p a in
    let! out := source_agents rest in
    let id := strVal a "id" in
    let key := strVal a "agent_key" in
    retM (if negb m || String.eqb id "" || String.eqb key "" then out else (id, key) :: out)
  end.

(** One link of [sourceKey], [None] when it is a team's or has no target key. *)
Definition link_info (keyByID : strmap) (sourceKey : string) (link : gomap) : option ResourceInfo :=
  let camel := translateResult link in
  if negb (String.eqb (strVal camel "teamId") "") then None
  else
    let byId := strget (strVal camel "targetAgentId") keyByID in
    let targetKey := if String.eqb byId "" then strVal camel "targetAgentKey" else byId in
    if String.eqb targetKey "" then None
    else Some (mkResourceInfo KindAgentLink (sourceKey +:+ "--" +:+ targetKey)
                 (strVal camel "createdBy") "" false).

Fixpoint links_of (keyByID : strmap) (agents : list (string * string)) : Mp (list ResourceInfo) :=
  match agents with
  | [] => retM []
  | (sourceID, sourceKey) :: rest =>
    let! links := list_links_from remote ("agents.links.list for " +:+ sourceKey +:+ ": ") sourceID in
    let! infos := links_of keyByID rest in
    retM (omap (link_info keyByID sourceKey) links ++ infos)%list
  end.

Definition listAllAgentLinks : Mp (list ResourceInfo) :=
  do! ws_links remote in
  let! rows := list_agents remote p in
  let! agents := source_agents rows in
  links_of (foldl (fun m a => mset a.1 a.2 m) [] agents) agents.

Definition workstation_info (row : gomap) : ResourceInfo :=
  mkResourceInfo KindWorkstation (strVal row "workstationKey") (strVal row "createdBy") "" false.

Definition listAllWorkstations : Mp (list ResourceInfo) :=
  do! ws_workstations remote in
  let! rows := list_workstations remote in retM (map workstation_info rows).

Definition listAllTenants : Mp (list ResourceInfo) :=
  let! rows := list_tenants remote p in retM (map (info KindTenant "slug") rows).

(** ** provider.go: dispatch on the kind *)

Definition pObserve (kind : ResourceKind) (key : string) : Mp (option gomap) :=
  if String.eqb kind KindTenant then observeTenant remote p key
  else if String.eqb kind KindProvider then observeProvider remote p key
  else if String.eqb kind KindAgent then observeAgent remote p key
  else if String.eqb kind KindChannel then observeChannelInstance remote p key
  else if String.eqb kind KindMCPServer then observeMCPServer remote p key
  else if String.eqb kind KindSkill then observeSkill remote p key
  else if String.eqb kind KindCronJob then observeCronJob remote p key
  else if String.eqb kind KindAgentTeam then observeTeam remote p key
  else if String.eqb kind KindBuiltinToolConfig then observeBuiltinToolConfig remote p key
  else if String.eqb kind KindSkillConfig then observeSkillConfig remote p key
  else if String.eqb kind KindMCPCredentials then observeMCPCredentials remote p key
  else if String.eqb kind KindSystemConfig then observeSystemConfig remote p key
  else if String.eqb kind KindSecureCLI then observeSecureCLI remote p key
  else if String.eqb kind KindSecureCLIGrant then observeSecureCLIGrant remote p key
  else if String.eqb kind KindAgentLink then observeAgentLink remote p key
  else if String.eqb kind KindWorkstation then observeWorkstation remote key
  else failM (errorf ("observe not implemented for kind " +:+ kind)).

Definition create_kind (kind : ResourceKind) (key : string) (spec : gomap) : Mp unit :=
  if String.eqb kind KindTenant then createTenant remote p key spec
  else if String.eqb kind KindProvider then createProvider remote p key spec
  else if String.eqb kind KindAgent then createAgent remote p deps key spec
  else if String.eqb kind KindChannel then createChannelInstance remote p key spec
  else if String.eqb kind KindMCPServer then createMCPServer remote p deps key spec
  else if String.eqb kind KindSkill then createSkill remote p deps key spec
  else if String.eqb kind KindCronJob then createCronJob remote p key spec
  else if String.eqb kind KindAgentTeam then createTeam remote key spec
  else if String.eqb kind KindBuiltinToolConfig then createBuiltinToolConfig remote p key spec
  else if String.eqb kind KindSkillConfig then createSkillConfig remote p key spec
  else if String.eqb kind KindMCPCredentials then createMCPCredentials remote p key spec
  else if String.eqb kind KindSystemConfig then createSystemConfig remote p key spec
  else if String.eqb kind KindSecureCLI then createSecureCLI remote p key spec
  else if String.eqb kind KindSecureCLIGrant then createSecureCLIGrant remote p key spec
  else if String.eqb kind KindAgentLink then createAgentLink remote key spec
  else if String.eqb kind KindWorkstation then createWorkstation remote p deps key spec
  else failM (errorf ("create not implemented for kind " +:+ kind)).

Definition pCreate (kind : ResourceKind) (key : string) (spec : gomap) : Mp unit :=
  if negb (String.eqb (tenantID p) "") && negb (String.eqb kind KindTenant) then
    let! uuid := resolveTenantUUID remote p in
    create_kind kind key (mset "tenantId" (VStr uuid) spec)
  else create_kind kind key spec.

Definition pUpdate (kind : ResourceKind) (key : string) (spec : gomap) : Mp unit :=
  if String.eqb kind KindTenant then updateTenant remote p key spec
  else if String.eqb kind KindProvider then updateProvider remote p key spec
  else if String.eqb kind KindAgent then updateAgent remote p deps key spec
  else if String.eqb kind KindChannel then updateChannelInstance remote p key spec
  else if String.eqb kind KindMCPServer then updateMCPServer remote p deps key spec
  else if String.eqb kind KindSkill then updateSkill remote p deps key spec
  else if String.eqb kind KindCronJob then updateCronJob remote p key spec
  else if String.eqb kind KindAgentTeam then updateTeam remote p key spec
  else if String.eqb kind KindBuiltinToolConfig then updateBuiltinToolConfig remote p key spec
  else if String.eqb kind KindSkillConfig then updateSkillConfig remote p key spec
  else if String.eqb kind KindMCPCredentials then updateMCPCredentials remote p key spec
  else if String.eqb kind KindSystemConfig then updateSystemConfig remote p key spec
  else if String.eqb kind KindSecureCLI then updateSecureCLI remote p key spec
  else if String.eqb kind KindSecureCLIGrant then updateSecureCLIGrant remote p key spec
  else if String.eqb kind KindAgentLink then updateAgentLink remote p key spec
  else if String.eqb kind KindWorkstation then updateWorkstation remote p deps key spec
  else failM (errorf ("update not implemented for kind " +:+ kind)).

Definition pDelete (kind : ResourceKind) (key : string) : Mp unit :=
  if String.eqb kind KindTenant then deleteTenant remote p key
  else if String.eqb kind KindProvider then deleteProvider remote p key
  else if String.eqb kind KindAgent then deleteAgent remote p key
  else if String.eqb kind KindChannel then deleteChannelInstance remote p key
  else if String.eqb kind KindMCPServer then deleteMCPServer remote p key
  else if String.eqb kind KindCronJob then deleteCronJob remote p key
  else if String.eqb kind KindAgentTeam then deleteTeam remote p key
  else if String.eqb kind KindBuiltinToolConfig then deleteBuiltinToolConfig remote p key
  else if String.eqb kind KindSkillConfig then deleteSkillConfig remote p key
  else if String.eqb kind KindMCPCredentials then deleteMCPCredentials remote p key
  else if String.eqb kind KindSystemConfig then deleteSystemConfig remote p key
  else if String.eqb kind KindSecureCLI then deleteSecureCLI remote p key
  else if String.eqb kind KindSecureCLIGrant then deleteSecureCLIGrant remote p key
  else if String.eqb kind KindAgentLink then deleteAgentLink remote p key
  else if String.eqb kind KindSkill then deleteSkill remote p key
  else if String.eqb kind KindWorkstation then deleteWorkstation remote key
  else failM (errorf ("delete not implemented for kind " +:+ kind)).

(** The kinds [ListAll] does not enumerate. *)
Definition not_enumerable (kind : ResourceKind) : bool :=
  mem_str kind [KindBuiltinToolConfig; KindSkillConfig; KindSystemConfig; KindMCPCredentials;
                KindSecureCLIGrant].

Definition pListAll (kind : ResourceKind) : Mp (list ResourceInfo) :=
  if String.eqb kind KindTenant then listAllTenants
  else if String.eqb kind KindProvider then listAllProviders
  else if String.eqb kind KindAgent then listAllAgents
  else if String.eqb kind KindChannel then listAllChannels
  else if String.eqb kind KindMCPServer then listAllMCPServers
  else if String.eqb kind KindSkill then listAllSkills
  else if String.eqb kind KindCronJob then listAllCronJobs
  else if String.eqb kind KindAgentTeam then listAllTeams
  else if String.eqb kind KindSecureCLI then listAllSecureCLIs
  else if String.eqb kind KindAgentLink then listAllAgentLinks
  else if String.eqb kind KindWorkstation then listAllWorkstations
  else if not_enumerable kind then retM []
  else failM (errorf ("list not implemented for kind " +:+ kind)).

(** The provider as the engine sees it. *)
Definition goclaw : ProviderInterface (PWorld S) :=
  mkProvider _ pObserve pCreate pUpdate pDelete pListAll.
End provider.
