(* ===== verification/GoclawEmits.v ===== *)
(** * What the provider sends

    The messages an operation adds to the history, as a property of the operation:
    [emits P m] says that every message [m] sends, whatever the server answers,
    satisfies [P].  It composes over the monad, so the hint database [emits] proves
    it for a whole operation.  The reading operations of the provider are
    characterised with it. *)
From Stdlib Require Import ZArith Lia Bool Ascii.
From Stdlib Require String.
From S2P Require Import Prelude GoStr GoValue Manifest Keyconv Filepath SkillPkg Validate Json JsonParse Engine.
From S2P Require Import Http GoclawBase GoclawHttp GoclawWs GoclawSkills GoclawProvider.

Local Open Scope string_scope.

Create HintDb emits discriminated.
#[export] Hint Constants Opaque : emits.

(** ** The composition of footprints *)

Section emits.
Context {S : Type} (P : Message -> Prop).
Abbreviation Mp := (M (PWorld S)).

(** The history of [w'] extends that of [w] by messages satisfying [P]. *)
Definition extends (w w' : PWorld S) : Prop := exists ms, sent w' = (sent w ++ ms)%list /\ Forall P ms.

Definition emits {A} (m : Mp A) : Prop := forall w, extends w (m w).1.

Lemma extends_refl w : extends w w.
Proof. exists []. by rewrite app_nil_r. Qed.

Lemma extends_trans w1 w2 w3 : extends w1 w2 -> extends w2 w3 -> extends w1 w3.
Proof.
  intros (l & Hl & Pl) (k & Hk & Pk). exists (l ++ k)%list.
  rewrite Hk, Hl, app_assoc. split; [done|]. by apply Forall_app.
Qed.

Lemma extends_log m s w : P m -> extends w (log_sent m s w).
Proof. intros H. exists [m]. split; [done|]. by constructor. Qed.

Lemma emits_ret {A} (a : A) : emits (retM a).
Proof. intros w. apply extends_refl. Qed.

Lemma emits_skip : emits skipM.
Proof. intros w. apply extends_refl. Qed.

Lemma emits_fail {A} e : emits (failM e : Mp A).
Proof. intros w. apply extends_refl. Qed.

Lemma emits_lift {A} (r : res A) : emits (liftM r).
Proof. intros w. apply extends_refl. Qed.

Lemma emits_liftP {A} (r : res A) : emits (liftP r).
Proof. intros w. apply extends_refl. Qed.

Lemma emits_bind {A B} (m : Mp A) (k : A -> Mp B) :
  emits m -> (forall a, emits (k a)) -> emits (bindM m k).
Proof.
  intros Hm Hk w. unfold bindM. specialize (Hm w). destruct (m w) as [w' [a|e]]; [|done].
  eapply extends_trans; [exact Hm|apply Hk].
Qed.

Lemma emits_try {A} (m : Mp A) : emits m -> emits (tryM m).
Proof. intros Hm w. unfold tryM. specialize (Hm w). by destruct (m w). Qed.

Lemma emits_wrap {A} s (m : Mp A) : emits m -> emits (wrapM s m).
Proof. intros Hm w. unfold wrapM. specialize (Hm w). by destruct (m w). Qed.

Lemma emits_forM {A} (l : list A) (f : A -> Mp unit) :
  (forall a, emits (f a)) -> emits (forM_ l f).
Proof.
  intros Hf. induction l as [|a l IH]; simpl; [apply emits_skip|]. by apply emits_bind.
Qed.

Lemma emits_mapM {A B} (f : A -> Mp B) (l : list A) : (forall a, emits (f a)) -> emits (mapM f l).
Proof.
  intros Hf. induction l as [|a l IH]; simpl; [apply emits_ret|].
  apply emits_bind; [done|]. intros b. apply emits_bind; [done|]. intros bs. apply emits_ret.
Qed.
End emits.

#[export] Hint Resolve emits_ret emits_skip emits_fail emits_lift emits_liftP : emits.

(** Splits the scrutinee of the operation whose footprint is asked for. *)
Ltac emits_case :=
  match goal with
  | |- emits _ (match ?x with _ => _ end) => destruct x
  | |- emits _ (let '_ := ?x in _) => destruct x
  end.

Ltac emits_auto :=
  repeat first
    [ progress intros
    | solve [eauto with emits nocore]
    | apply emits_bind
    | apply emits_try
    | apply emits_wrap
    | apply emits_forM
    | apply emits_mapM
    | emits_case
    | progress cbv zeta ].

(** ** Reading operations *)

(** The remote procedures that only report. *)
Definition read_methods : list string :=
  [ "cron.list"; "teams.list"; "agents.links.list"; "workstations.list";
    "workstations.permissions.list" ].

(** A GET request, a connection or the call of a reporting procedure. *)
Definition read_message (m : Message) : Prop :=
  match m with
  | MHttp rq => rq_method rq = "GET"
  | MConnect => True
  | MRpc method _ => method ∈ read_methods
  end.

Section reads.
Context {U : Unicode} {S : Type} (remote : Remote S) (p : Provider) (deps : Deps).
Abbreviation reads := (emits (S := S) read_message).

Lemma send_request_emits P method path rq : P (MHttp rq) -> emits P (send_request remote method path rq).
Proof.
  intros H w. unfold send_request. destruct (http_send _ _ _) as [s out]. simpl.
  by apply extends_log.
Qed.

Lemma Call_emits P method params : P (MRpc method params) -> emits P (Call remote method params).
Proof.
  intros H w. unfold Call. destruct (ws_call _ _ _ _) as [s r]. by apply extends_log.
Qed.

Lemma ensureWS_emits P : P MConnect -> emits P (ensureWS remote).
Proof.
  intros H w. unfold ensureWS. destruct (ws_alive _ _); [apply extends_refl|].
  destruct (ws_connect _ _) as [s r]. by apply extends_log.
Qed.

Lemma http_get_reads path : reads (http_get remote p path).
Proof. by apply send_request_emits. Qed.

Lemma GetRaw_reads path : reads (GetRaw remote (p_http p) path).
Proof. by apply send_request_emits. Qed.

Lemma get_rows_reads path field a b : reads (get_rows remote p path field a b).
Proof. pose proof http_get_reads. unfold get_rows, decode_rows. emits_auto. Qed.

Lemma resolveTenantUUID_reads : reads (resolveTenantUUID remote p).
Proof.
  assert (H : reads (tenant_lookup remote p)).
  { pose proof get_rows_reads. unfold tenant_lookup, observeTenant, list_tenants. emits_auto. }
  unfold resolveTenantUUID. destruct (String.eqb _ _); [apply emits_ret|].
  intros w. destruct (tenant w); [apply extends_refl|].
  specialize (H w). by destruct (tenant_lookup _ _ _) as [w' r].
Qed.

Lemma matchesTenant_reads row : reads (matchesTenant remote p row).
Proof. pose proof resolveTenantUUID_reads. unfold matchesTenant. emits_auto. Qed.

Lemma find_row_reads test rows : reads (find_row remote p test rows).
Proof. pose proof matchesTenant_reads. induction rows; simpl; emits_auto. Qed.

Lemma find_tenant_id_reads test rows : reads (find_tenant_id remote p test rows).
Proof. pose proof matchesTenant_reads. induction rows; simpl; emits_auto. Qed.

Lemma tenant_rows_reads {A} (f : gomap -> A) rows : reads (tenant_rows remote p f rows).
Proof. pose proof matchesTenant_reads. induction rows; simpl; emits_auto. Qed.

Lemma ensureWS_reads : reads (ensureWS remote).
Proof. by apply ensureWS_emits. Qed.

Lemma call_rows_reads a b method field params :
  method ∈ read_methods -> reads (call_rows remote a b method field params).
Proof.
  intros H. pose proof (Call_emits read_message method params H).
  unfold call_rows, decode_rows. emits_auto.
Qed.
End reads.

#[export] Hint Resolve http_get_reads GetRaw_reads get_rows_reads resolveTenantUUID_reads
  matchesTenant_reads find_row_reads find_tenant_id_reads tenant_rows_reads ensureWS_reads : emits.

Section observe_reads.
Context {U : Unicode} {S : Type} (remote : Remote S) (p : Provider) (deps : Deps).
Abbreviation reads := (emits (S := S) read_message).

Ltac in_methods := rewrite list_elem_of_In; vm_compute; tauto.

Lemma resolveAgentID_reads key : reads (resolveAgentID remote p key).
Proof. unfold resolveAgentID, list_agents. emits_auto. Qed.

Lemma resolveSecureCLIID_reads key : reads (resolveSecureCLIID remote p key).
Proof. unfold resolveSecureCLIID, list_secure_clis. emits_auto. Qed.

Lemma resolveMCPServerID_reads key : reads (resolveMCPServerID remote p key).
Proof. unfold resolveMCPServerID, list_mcp_servers. emits_auto. Qed.

Lemma listMCPGrantAgentKeys_reads id : reads (listMCPGrantAgentKeys remote p id).
Proof. unfold listMCPGrantAgentKeys, listMCPGrants. emits_auto. Qed.

Lemma listSkillGrantAgentKeys_reads id : reads (listSkillGrantAgentKeys remote p id).
Proof.
  unfold listSkillGrantAgentKeys. apply emits_bind; [auto with emits|]. intros agents.
  induction agents; simpl; unfold agentHasSkillGrant; emits_auto.
Qed.

Lemma inject_grants_reads id keys result : reads keys -> reads (inject_grants id keys result).
Proof. unfold inject_grants. emits_auto. Qed.

Lemma list_cron_reads : reads (list_cron_jobs remote).
Proof. apply call_rows_reads. in_methods. Qed.

Lemma list_teams_reads : reads (list_teams remote).
Proof. apply call_rows_reads. in_methods. Qed.

Lemma list_links_reads a id : reads (list_links_from remote a id).
Proof. apply call_rows_reads. in_methods. Qed.

Lemma list_workstations_reads : reads (list_workstations remote).
Proof. apply call_rows_reads. in_methods. Qed.

#[local] Hint Resolve resolveAgentID_reads resolveSecureCLIID_reads resolveMCPServerID_reads
  listMCPGrantAgentKeys_reads listSkillGrantAgentKeys_reads inject_grants_reads
  list_cron_reads list_teams_reads list_links_reads list_workstations_reads : emits.

Ltac observe_auto :=
  unfold observeTenant, observeProvider, observeAgent, observeChannelInstance, observeMCPServer,
    observeSkill, observeCronJob, observeTeam, observeBuiltinToolConfig, observeSkillConfig,
    observeMCPCredentials, observeSystemConfig, observeSecureCLI, observeSecureCLIGrant,
    observeAgentLink, observeWorkstation, list_tenants, list_providers, list_agents, list_channels,
    list_mcp_servers, list_skills, list_builtin_tools, list_secure_clis,
    ws_cron, ws_teams, ws_links, ws_workstations;
  emits_auto.

Lemma pObserve_reads kind key : reads (pObserve remote p kind key).
Proof. unfold pObserve. repeat emits_case; observe_auto. Qed.

Lemma source_agents_reads rows : reads (source_agents remote p rows).
Proof. induction rows; simpl; emits_auto. Qed.

Lemma links_of_reads m agents : reads (links_of remote m agents).
Proof. induction agents as [|[??]]; simpl; emits_auto. Qed.

#[local] Hint Resolve source_agents_reads links_of_reads : emits.

Lemma pListAll_reads kind : reads (pListAll remote p kind).
Proof.
  unfold pListAll, listAllTenants, listAllProviders, listAllAgents, listAllChannels,
    listAllMCPServers, listAllSkills, listAllCronJobs, listAllTeams, listAllSecureCLIs,
    listAllAgentLinks, listAllWorkstations.
  repeat emits_case; observe_auto.
Qed.
End observe_reads.
