(* ===== verification/Traces.v ===== *)
(** * Trace queries

    [internal/provider/goclaw/traces.go]: the query of the trace list, and the decoding
    of a list and of one trace with its spans.  How a time is read is an argument. *)
From Stdlib Require Import ZArith Lia Bool Ascii.
From Stdlib Require String.
From S2P Require Import Prelude GoStr GoValue Filepath Validate Json JsonParse TraceStore Http.
From S2P Require Import GoclawBase GoclawHttp GoclawEmits.

Local Open Scope string_scope.
Local Open Scope go_scope.

(** ** url.Values *)

(** [url.QueryEscape]: a space is a plus; everything but unreserved characters is hex. *)
Definition query_unescaped (c : ascii) : bool :=
  lower_digit c || char_in 65 90 c || existsb (Ascii.eqb c) (bytes_of "-_.~").

Definition QueryEscape (s : string) : string :=
  of_bytes (concat (map (fun c => if query_unescaped c then [c]
                                  else if Ascii.eqb c " " then ["+"%char]
                                  else ["%"%char; upper_hex (byteZ c / 16); upper_hex (byteZ c mod 16)])
                        (bytes_of s))).

(** [Values.Encode], for one value per key. *)
Definition Encode (params : list (string * string)) : string :=
  Join (map (fun kv => QueryEscape kv.1 +:+ "=" +:+ QueryEscape kv.2) (sort_by fst params)) "&".

Definition buildTraceQuery (f : TraceFilters) : string :=
  let params :=
    ((if negb (String.eqb (tf_AgentID f) "") then [("agent_id", tf_AgentID f)] else [])
    ++ (if negb (String.eqb (tf_Channel f) "") then [("channel", tf_Channel f)] else [])
    ++ (if (0 <? tf_Limit f)%Z then [("limit", Itoa (tf_Limit f))] else [])
    ++ (if (0 <? tf_Offset f)%Z then [("offset", Itoa (tf_Offset f))] else []))%list in
  match params with [] => "" | _ => "?" +:+ Encode params end.

Example query_ex :
  buildTraceQuery (mkTraceFilters "a b" "x/y" 50 0) = "?agent_id=a+b&channel=x%2Fy&limit=50".
Proof. vm_compute. reflexivity. Qed.

(** ** Decoding *)

Section traces.
Context (parse_time : string -> res Z).

Definition time_field (name : string) (v : jval) : res Z :=
  struct_field name 0%Z (fun x => let? s := decode_string x in parse_time s) v.

(** A pointer to a time. *)
Definition time_pointer (name : string) (v : jval) : res (option Z) :=
  struct_field name None (fun x => let? s := decode_string x in let? t := parse_time s in Ok (Some t)) v.

Definition text_field (name : string) (v : jval) : res string := struct_field name "" decode_string v.
Definition int_field (name : string) (v : jval) : res Z := struct_field name 0%Z decode_int64 v.

Definition decode_trace_metadata (v : jval) : res TraceMetadata :=
  let? r := int_field "total_cache_read_tokens" v in
  let? c := int_field "total_cache_creation_tokens" v in
  Ok (mkTraceMetadata r c).

Definition decode_span_metadata (v : jval) : res SpanMetadata :=
  let? c := int_field "cache_creation_tokens" v in
  let? r := int_field "cache_read_tokens" v in
  let? t := int_field "thinking_tokens" v in
  Ok (mkSpanMetadata c r t).

Definition decode_trace (v : jval) : res TraceData :=
  let? id := text_field "id" v in
  let? parent := text_field "parent_trace_id" v in
  let? agent := text_field "agent_id" v in
  let? name := text_field "name" v in
  let? channel := text_field "channel" v in
  let? session := text_field "session_key" v in
  let? run := text_field "run_id" v in
  let? status := text_field "status" v in
  let? duration := int_field "duration_ms" v in
  let? input := int_field "total_input_tokens" v in
  let? output := int_field "total_output_tokens" v in
  let? spans := int_field "span_count" v in
  let? llm := int_field "llm_call_count" v in
  let? tools := int_field "tool_call_count" v in
  let? inp := text_field "input_preview" v in
  let? outp := text_field "output_preview" v in
  let? error := text_field "error" v in
  let? start := time_field "start_time" v in
  let? end_ := time_pointer "end_time" v in
  let? meta := struct_field "metadata" None (fun x => res_map Some (decode_trace_metadata x)) v in
  let? created := time_field "created_at" v in
  Ok (mkTraceData id parent agent name channel session run status duration input output spans llm tools
        inp outp error start end_ meta created).

Definition decode_span (v : jval) : res SpanData :=
  let? id := text_field "id" v in
  let? trace := text_field "trace_id" v in
  let? parent := text_field "parent_span_id" v in
  let? agent := text_field "agent_id" v in
  let? type := text_field "span_type" v in
  let? name := text_field "name" v in
  let? status := text_field "status" v in
  let? duration := int_field "duration_ms" v in
  let? model := text_field "model" v in
  let? provider := text_field "provider" v in
  let? input := int_field "input_tokens" v in
  let? output := int_field "output_tokens" v in
  let? tool := text_field "tool_name" v in
  let? inp := text_field "input_preview" v in
  let? outp := text_field "output_preview" v in
  let? error := text_field "error" v in
  let? meta := struct_field "metadata" None (fun x => res_map Some (decode_span_metadata x)) v in
  let? start := time_field "start_time" v in
  let? end_ := time_pointer "end_time" v in
  let? created := time_field "created_at" v in
  Ok (mkSpanData id trace parent agent type name status duration model provider input output tool
        inp outp error meta start end_ created).

(** A trace that the response does not have. *)
Definition zeroTrace : TraceData :=
  mkTraceData "" "" "" "" "" "" "" "" 0 0 0 0 0 0 "" "" "" 0 None None 0.

(** The two response structs. *)
Definition decode_trace_list (v : jval) : res (list TraceData * Z) :=
  let? traces := struct_field "traces" [] (decode_slice decode_trace) v in
  let? total := int_field "total" v in
  Ok (traces, total).

Definition decode_trace_detail (v : jval) : res (TraceData * list SpanData) :=
  let? trace := struct_field "trace" zeroTrace decode_trace v in
  let? spans := struct_field "spans" [] (decode_slice decode_span) v in
  Ok (trace, spans).

Context {S : Type} (remote : Remote S) (http : HTTPClient).
Abbreviation Mp := (M (PWorld S)).

Definition ListTraces (f : TraceFilters) : Mp (list TraceData * Z) :=
  let! data := wrapM "list traces: " (Get remote http ("/v1/traces" +:+ buildTraceQuery f)) in
  liftM (res_wrap "parse traces: " (res_bind (parse_json data) decode_trace_list)).

Definition GetTrace (traceID : string) : Mp (TraceData * list SpanData) :=
  let! data := wrapM ("get trace " +:+ traceID +:+ ": ") (Get remote http ("/v1/traces/" +:+ traceID)) in
  liftM (res_wrap "parse trace detail: " (res_bind (parse_json data) decode_trace_detail)).
End traces.

(** Both send one GET. *)
Section traces_read.
Context (parse_time : string -> res Z) {S : Type} (remote : Remote S) (http : HTTPClient).

Lemma ListTraces_reads f : emits (S := S) read_message (ListTraces parse_time remote http f).
Proof. unfold ListTraces. emits_auto. by apply send_request_emits. Qed.

Lemma GetTrace_reads id : emits (S := S) read_message (GetTrace parse_time remote http id).
Proof. unfold GetTrace. emits_auto. by apply send_request_emits. Qed.
End traces_read.

