(* ===== verification/CmdGoclaw.v ===== *)
(** * The commands over GoClaw

    [goclaw.New] as the provider the commands open, and what the commands that only look
    send to the server. *)
From Stdlib Require Import ZArith Lia Bool Ascii.
From Stdlib Require String.
From S2P Require Import Prelude GoStr GoValue Filepath Manifest Secrets SkillPkg Validate Engine Display Loader.
From S2P Require Import Http GoclawBase GoclawHttp GoclawWs GoclawSkills GoclawProvider GoclawEmits EngineFrame.
From S2P Require Import Cmd Pull.

Local Open Scope string_scope.
Local Open Scope go_scope.

(** The provider with the token and the options; what it reads of the disk and the
    archives, in the environment of the command, is [deps_of]. *)
Definition goclaw_open {U : Unicode} {S} (remote : Remote S) (deps_of : Env -> Deps) (env : Env)
    (ep tok : string) (opts : list Option) : Client (PWorld S) :=
  let p := New ep tok opts in
  mkClient (goclaw remote p (deps_of env)) (DownloadSkillSource remote p)
    (DownloadAgentContextFiles remote p (deps_of env)).

(** ** The downloads read *)

Section downloads.
Context {U : Unicode} {S : Type} (remote : Remote S) (p : Provider) (deps : Deps).

Lemma download_files_reads slug id entries :
  emits (S := S) read_message (download_files remote p slug id entries).
Proof. induction entries as [|[path d] entries IH]; simpl; emits_auto. Qed.

Lemma DownloadSkillSource_reads slug : emits (S := S) read_message (DownloadSkillSource remote p slug).
Proof.
  pose proof download_files_reads. pose proof (listSkillGrantAgentKeys_reads remote p).
  unfold DownloadSkillSource, DownloadSkill, resolveSkillIDFromList, list_skills. emits_auto.
Qed.

Lemma DownloadAgentContextFiles_reads key :
  emits (S := S) read_message (DownloadAgentContextFiles remote p deps key).
Proof. pose proof (resolveAgentID_reads remote p). unfold DownloadAgentContextFiles. emits_auto. Qed.
End downloads.

(** ** Commands that keep a relation of the provider's state *)

Section keep.
Context {P : Type} (R : relation P) {PO : PreOrder R}.

Definition prov_rel (w w' : World P) : Prop := R (w_prov w) (w_prov w').

#[export] Instance prov_rel_preorder : PreOrder prov_rel.
Proof. split; [by intros w; unfold prov_rel|]. intros w1 w2 w3 H1 H2. unfold prov_rel in *. by etrans. Qed.

Definition keeps {A} (m : C P A) : Prop := forall w, R (w_prov w) (w_prov (m w).1).

Lemma keeps_pure {A} (m : C P A) : (forall w, w_prov (m w).1 = w_prov w) -> keeps m.
Proof. intros H w. by rewrite H. Qed.

Lemma keeps_bind {A B} (m : C P A) (k : A -> C P B) :
  keeps m -> (forall a, keeps (k a)) -> keeps (bindC m k).
Proof.
  intros Hm Hk w. unfold bindC. specialize (Hm w). destruct (m w) as [w1 [[a|e]|]]; [|done|done].
  etrans; [exact Hm|apply Hk].
Qed.

Lemma keeps_ret {A} (a : A) : keeps (retC a).
Proof. by apply keeps_pure. Qed.
Lemma keeps_fail {A} e : keeps (failC e : C P A).
Proof. by apply keeps_pure. Qed.
Lemma keeps_lift {A} (r : res A) : keeps (liftC r).
Proof. by apply keeps_pure. Qed.
Lemma keeps_print s : keeps (printC s).
Proof. by apply keeps_pure. Qed.
Lemma keeps_get {A} (f : World P -> A) : keeps (getC f).
Proof. by apply keeps_pure. Qed.
Lemma keeps_fs {A} s (m : M Filesystem A) : keeps (fsC s m).
Proof. apply keeps_pure. intros w. unfold fsC. by destruct (m (w_fs w)). Qed.

Lemma keeps_run {A} (f : World P -> World P * A) :
  (forall w, R (w_prov w) (w_prov (f w).1)) -> keeps (runC f).
Proof. intros Hf w. unfold runC. specialize (Hf w). by destruct (f w). Qed.

Lemma keeps_prov {A} s (m : M P A) : (forall q, R q (m q).1) -> keeps (provC s m).
Proof. intros Hm w. unfold provC. specialize (Hm (w_prov w)). by destruct (m (w_prov w)). Qed.

Lemma keeps_case {A} (b : bool) (m m' : C P A) : keeps m -> keeps m' -> keeps (if b then m else m').
Proof. by destruct b. Qed.

(** A client whose reading operations keep the relation. *)
Record reader (c : Client P) : Prop := {
  rd_observe k n q : R q (Observe (cl_provider c) k n q).1;
  rd_list k q : R q (ListAll (cl_provider c) k q).1;
  rd_skill n q : R q (cl_skill c n q).1;
  rd_context n q : R q (cl_context c n q).1
}.

Lemma onProv_keeps {A} (m : M P A) (w : World P) : R (w_prov w) (m (w_prov w)).1 -> R (w_prov w) (w_prov (onProv m w).1).
Proof. unfold onProv. by destruct (m (w_prov w)). Qed.

Context {U : Unicode} (c : Client P) (Hc : reader c).

Lemma export_infos_keeps all k infos out w :
  R (w_prov w) (w_prov (export_infos (attached (cl_provider c)) all k infos out w).1).
Proof.
  revert out w. induction infos as [|i infos IH]; intros out w; simpl; [done|].
  destruct (negb all && _); [apply IH|].
  pose proof (onProv_keeps (Observe (cl_provider c) k (ri_Name i)) w (rd_observe _ Hc _ _ _)) as H.
  destruct (onProv _ w) as [w1 [o|e]]; (etrans; [exact H|apply IH]).
Qed.

Lemma export_kinds_keeps all ks out w :
  R (w_prov w) (w_prov (export_kinds (attached (cl_provider c)) all ks out w).1).
Proof.
  revert out w. induction ks as [|k ks IH]; intros out w; simpl; [done|].
  pose proof (onProv_keeps (ListAll (cl_provider c) k) w (rd_list _ Hc _ _)) as H.
  destruct (onProv _ w) as [w1 [infos|e]]; [|etrans; [exact H|apply IH]].
  pose proof (export_infos_keeps all k infos out w1) as H1.
  destruct (export_infos _ all k infos out w1) as [w2 out2]. etrans; [exact H|]. etrans; [exact H1|apply IH].
Qed.

Lemma buildExportManifest_keeps all ep tok : keeps (runC (buildExportManifest c all ep tok)).
Proof.
  apply keeps_run. intros w. unfold buildExportManifest.
  pose proof (export_kinds_keeps all ApplyOrder [] w) as H. by destruct (export_kinds _ _ _ _ w).
Qed.

Lemma dry_reconcile_keeps m opts : DryRun opts = true -> keeps (reconcile c m opts).
Proof.
  intros Hd. apply keeps_run. intros w.
  apply (frame_dry_run w_env (attached (cl_provider c)) prov_rel); [..|done];
    intros; by apply onProv_keeps, Hc.
Qed.

(** *** The commands *)

Context (yn : YamlNodes).

Lemma pull_skill_keeps cfg slugs dry prune slug : keeps (pull_skill yn c cfg slugs dry prune slug).
Proof.
  unfold pull_skill. apply keeps_bind; [apply keeps_get|]. intros fs.
  apply keeps_bind; [apply keeps_prov, Hc|]. intros [files grantees]. apply keeps_case; [apply keeps_print|].
  apply keeps_bind; [apply keeps_fs|]. intros changed.
  apply keeps_bind; [apply keeps_fs|]. intros _. apply keeps_print.
Qed.

Lemma pull_skills_keeps cfg m all dry prune : keeps (pullSkills yn c cfg m all dry prune).
Proof.
  unfold pullSkills. apply keeps_bind; [apply keeps_prov, Hc|]. intros infos. apply keeps_bind.
  - generalize 0%nat. induction infos as [|i infos IH]; intros n; simpl; [apply keeps_ret|].
    apply keeps_case; [apply IH|]. apply keeps_bind; [apply pull_skill_keeps|]. intros _. apply IH.
  - intros n. apply keeps_case; [apply keeps_print|apply keeps_ret].
Qed.

Lemma pull_agent_keeps file dry key : keeps (pull_agent yn c file dry key).
Proof.
  unfold pull_agent. apply keeps_bind; [apply keeps_prov, Hc|]. intros [|f files]; [apply keeps_print|].
  apply keeps_case; [apply keeps_print|]. apply keeps_bind; [apply keeps_fs|]. intros b. apply keeps_print.
Qed.

Lemma pull_context_keeps cfg m dry : keeps (pullContextFiles yn c cfg m dry).
Proof.
  unfold pullContextFiles. destruct (agent_keys m) as [|k ks]; [apply keeps_print|].
  apply keeps_bind; [apply keeps_get|]. intros file. generalize (k :: ks). intros keys.
  induction keys as [|x keys IH]; simpl; [apply keeps_ret|].
  apply keeps_bind; [apply pull_agent_keeps|]. intros _. exact IH.
Qed.
End keep.

(** ** What they send *)

Section sends.
Context {U : Unicode} {S : Type} (remote : Remote S) (deps_of : Env -> Deps).
Context (yaml : Yaml) (renderTemplate : Template) (semver : Semver) (zip : list (string * string) -> string).

#[local] Instance extends_preorder : PreOrder (extends (S := S) read_message).
Proof. split; [intros w; apply extends_refl|intros w1 w2 w3; apply extends_trans]. Qed.

(** A command that sends only reads. *)
Definition sends_reads {A} (m : C (PWorld S) A) : Prop := keeps (extends read_message) m.

Lemma goclaw_reader env ep tok opts : reader (extends read_message) (goclaw_open remote deps_of env ep tok opts).
Proof.
  split; intros; [apply pObserve_reads|apply pListAll_reads|apply DownloadSkillSource_reads
    |apply DownloadAgentContextFiles_reads].
Qed.

Lemma load_keeps g : sends_reads (loadAndValidateManifest yaml renderTemplate semver zip g).
Proof.
  apply keeps_pure; [apply _|]. intros w. unfold loadAndValidateManifest, failC, retC. case_match; [done|].
  destruct (Load _ _ _ _) as [[m|e]|]; [|done|done]. by destruct (Validate _ _ _ m).
Qed.

Lemma connect_keeps {A} g sel (k : Manifest * Client (PWorld S) -> C (PWorld S) A) :
  (forall m c, reader (extends read_message) c -> sends_reads (k (m, c))) ->
  sends_reads (bindC (connect yaml renderTemplate semver zip (goclaw_open remote deps_of) g sel) k).
Proof.
  intros Hk w. unfold connect, bindC, getC, liftC, retC. pose proof (load_keeps g w) as H.
  destruct (loadAndValidateManifest _ _ _ _ g w) as [w1 [[m|e]|]]; [|done|done].
  destruct (resolveConnection _ _ _) as [[ep tok]|e]; [|done].
  destruct (resolveProviderOpts _ _) as [opts|e]; [|done].
  etrans; [exact H|]. apply Hk, goclaw_reader.
Qed.
End sends.

(** C14: the commands that look and the one that pulls leave the server as it is: whatever
    the manifest, the flags and the answers of the server, [plan], [diff], [status],
    [export] and [pull] send it nothing but reads. *)
Theorem looking_commands_send_reads {U : Unicode} {S} (remote : Remote S) deps_of yaml renderTemplate semver zip
    marshal_manifest other_v yn g prune force all pf sel w :
  let open := goclaw_open remote deps_of in
  let reads {A} (m : C (PWorld S) A) := exists ms,
    sent (w_prov (m w).1) = (sent (w_prov w) ++ ms)%list /\ Forall read_message ms in
  reads (planCmd yaml renderTemplate semver zip other_v open g prune force sel) /\
  reads (diffCmd yaml renderTemplate semver zip other_v open g) /\
  reads (statusCmd yaml renderTemplate semver zip open g) /\
  reads (exportCmd marshal_manifest open g all) /\
  reads (pullCmd yn yaml renderTemplate semver zip open g pf).
Proof.
  cbv zeta. assert (PreOrder (extends (S := S) read_message)) by apply extends_preorder.
  repeat split.
  - apply (connect_keeps remote deps_of yaml renderTemplate semver zip g sel). intros m c Hc.
    apply (keeps_bind (extends read_message)); [by apply (dry_reconcile_keeps (extends read_message))|]. intros [plan r]. apply (keeps_print (extends read_message)).
  - apply (connect_keeps remote deps_of yaml renderTemplate semver zip g ""). intros m c Hc.
    apply (keeps_bind (extends read_message)); [by apply (dry_reconcile_keeps (extends read_message))|]. intros [plan r]. apply (keeps_print (extends read_message)).
  - apply (connect_keeps remote deps_of yaml renderTemplate semver zip g ""). intros m c Hc.
    apply (keeps_bind (extends read_message)); [by apply (dry_reconcile_keeps (extends read_message))|]. intros [plan r]. apply (keeps_print (extends read_message)).
  - revert w. change (sends_reads (exportCmd marshal_manifest (goclaw_open remote deps_of) g all)).
    unfold exportCmd. apply (keeps_bind (extends read_message)); [apply (keeps_get (extends read_message))|]. intros ep.
    apply (keeps_bind (extends read_message)); [apply (keeps_get (extends read_message))|]. intros tok. apply (keeps_case (extends read_message)); [apply (keeps_fail (extends read_message))|].
    apply (keeps_bind (extends read_message)); [apply (keeps_get (extends read_message))|]. intros env.
    apply (keeps_bind (extends read_message)); [apply (buildExportManifest_keeps (extends read_message)), goclaw_reader|]. intros m.
    apply (keeps_bind (extends read_message)); [apply (keeps_lift (extends read_message))|]. intros data. apply (keeps_print (extends read_message)).
  - apply (connect_keeps remote deps_of yaml renderTemplate semver zip g ""). intros m c Hc.
    apply (keeps_bind (extends read_message)).
    + apply (keeps_case (extends read_message)); [by apply (pull_skills_keeps (extends read_message))|apply (keeps_ret (extends read_message))].
    + intros _. apply (keeps_case (extends read_message)); [by apply (pull_context_keeps (extends read_message))|apply (keeps_ret (extends read_message))].
Qed.
