(* ===== verification/GoclawExample.v ===== *)
(** * A small GoClaw server

    A concrete remote for the witnesses of the provider's theorems: one tenant of
    its own and rows of another, an MCP server granted to the other tenant's agent,
    and a WebSocket that is always up.  Its state is the number of requests. *)
From Stdlib Require Import ZArith Lia Bool Ascii.
From Stdlib Require String.
From S2P Require Import Prelude GoStr GoValue Manifest Filepath Validate JsonParse Http GoclawBase Engine.

Local Open Scope string_scope.

Definition toy_pages : strmap :=
  [ ("h/v1/tenants", js "{'tenants':[{'id':'t1','slug':'acme'}]}");
    ("h/v1/agents", js ("{'agents':[{'id':'a1','agent_key':'alice','tenant_id':'t1','created_by':'gcplane'},"
       +:+ "{'id':'a2','agent_key':'bob','tenant_id':'t2','created_by':'gcplane'}]}"));
    ("h/v1/mcp/servers", js "{'servers':[{'id':'m1','name':'files','tenant_id':'t1'}]}");
    ("h/v1/mcp/servers/m1/grants", js "{'grants':[{'agent_id':'a2'}]}") ].

Definition toy_rpc : strmap :=
  [ ("workstations.list", js "{'workstations':[{'id':'w1','workstationKey':'box'}]}");
    ("workstations.permissions.list",
     js "{'permissions':[{'id':'p1','pattern':'ls'},{'id':'p2','pattern':'rm'}]}") ].

Definition toy_remote : Remote nat := {|
  http_send rq n :=
    (S n, if String.eqb (rq_method rq) "GET"
          then match mget (rq_url rq) toy_pages with
               | Some body => Response 200 body
               | None => Response 404 "no such page"
               end
          else Response 200 "{}");
  ws_alive _ := true;
  ws_connect n := (S n, None);
  ws_call method _ n := (S n, Ok (default "{}" (mget method toy_rpc))) |}.

Definition toy_provider : Provider := New "h" "secret" [WithTenantID "acme"].

Definition toy_deps : Deps :=
  mkDeps (mkFs (FDir []) []) (fun _ => "zip") (fun _ => Ok "tgz") (fun _ => Ok [])
         (mkSemver (fun _ => true) (fun _ _ => 0%Z)) (fun l => l).

Definition toy_start : PWorld nat := mkPWorld O None [].
Definition toy_resolved : PWorld nat := mkPWorld O (Some (Ok "t1")) [].

Definition toy_manifest : Manifest :=
  mkManifest "gcplane.io/v1" "Manifest" (mkMetadata "m" "") (mkConnection "h" "secret" "acme" "")
    [ mkResource KindAgent "alice" [] [] (Some [("displayName", VStr "Alice")]);
      mkResource KindMCPServer "files" [] [] (Some [("grants", VMap [("agents", VSlice [VStr "alice"])])]) ].
