(* ===== verification/GoclawProps.v ===== *)
(** * Properties of the GoClaw provider

    What a dry run sends, how HTTP statuses become errors, which rows belong to the
    tenant and what listing, creating and deleting may therefore touch, what the
    grant and allowlist reconciliations send, and the names of composite
    resources. *)
From Stdlib Require Import ZArith Lia Bool Ascii.
From Stdlib Require String.
From S2P Require Import Prelude GoStr GoValue Manifest Keyconv Filepath SkillPkg Secrets Validate.
From S2P Require Import Json JsonParse Compare Engine EngineProps EngineFrame.
From S2P Require Import Http GoclawBase GoclawHttp GoclawWs GoclawSkills GoclawProvider GoclawEmits GoclawExample.

Local Open Scope string_scope.
#[local] Existing Instance ascii_unicode.

(** ** Dry runs *)

#[export] Instance extends_reflexive {S} P : Reflexive (extends (S := S) P).
Proof. intros w. apply extends_refl. Qed.
#[export] Instance extends_transitive {S} P : Transitive (extends (S := S) P).
Proof. intros w1 w2 w3. apply extends_trans. Qed.

(** A dry run of the engine over the GoClaw provider, with or without pruning,
    sequential or concurrent, sends only GET requests, connection handshakes and
    calls of reporting procedures, whatever the server answers. *)
Theorem goclaw_dry_run_sends_reads {U : Unicode} {S} (env_of : PWorld S -> Env) (remote : Remote S)
    p deps sch m opts w :
  DryRun opts = true ->
  exists ms, sent (Reconcile env_of (goclaw remote p deps) sch m opts w).1 = (sent w ++ ms)%list /\
             Forall read_message ms.
Proof.
  intros Hd. apply (frame_dry_run env_of (goclaw remote p deps) (extends read_message)).
  - intros k n w'. apply pObserve_reads.
  - intros k w'. apply pListAll_reads.
  - done.
Qed.

Lemma goclaw_dry_run_sends_reads_witness :
  exists ms,
    sent (Reconcile (fun _ => mkEnv [] (mkFs (FDir []) [])) (goclaw toy_remote toy_provider toy_deps)
            sequential toy_manifest (mkOpts true true false 4) toy_start).1 = ([] ++ ms)%list /\
    Forall read_message ms.
Proof. by apply (goclaw_dry_run_sends_reads _ toy_remote toy_provider toy_deps). Defined.

(** ** Rows of the tenant *)

(** [matchesTenant] once the tenant's UUID is known. *)
Definition own (u : string) (row : gomap) : bool :=
  String.eqb (strVal row "tenant_id") "" || String.eqb (strVal row "tenant_id") u.

(** The listing of a tenant-scoped kind, and the reference made of each row. *)
Definition tenant_listing {U : Unicode} {S} (remote : Remote S) (p : Provider) (kind : ResourceKind) :
    option (M (PWorld S) (list gomap) * (gomap -> ResourceInfo)) :=
  mget kind
    [ (KindProvider, (list_providers remote p, info KindProvider "name"));
      (KindAgent, (list_agents remote p, info KindAgent "agent_key"));
      (KindChannel, (list_channels remote p, info KindChannel "name"));
      (KindMCPServer, (list_mcp_servers remote p, info KindMCPServer "name"));
      (KindSkill, (list_skills remote p, skill_info));
      (KindCronJob, ((let! _ := ws_cron remote in list_cron_jobs remote)%go, info KindCronJob "name"));
      (KindAgentTeam, ((let! _ := ws_teams remote in list_teams remote)%go, info KindAgentTeam "name"));
      (KindSecureCLI, (list_secure_clis remote p, info KindSecureCLI "binary_name")) ].

Section tenant.
Context {U : Unicode} {S : Type} (remote : Remote S) (p : Provider) (deps : Deps) (u : string).
Hypothesis scoped : tenantID p <> "".
Hypothesis known : u <> "".
Abbreviation Mp := (M (PWorld S)).

(** The tenant has been resolved to [u]. *)
Definition resolved (w : PWorld S) : Prop := tenant w = Some (Ok u).

(** Leaves a resolved tenant resolved. *)
Definition keeps {A} (m : Mp A) : Prop := forall w, resolved w -> resolved (m w).1.

Lemma matchesTenant_resolved row w :
  resolved w -> matchesTenant remote p row w = (w, Ok (own u row)).
Proof.
  intros Hr. unfold matchesTenant, own.
  destruct (String.eqb_spec (tenantID p) ""); [done|].
  destruct (String.eqb_spec (strVal row "tenant_id") ""); [done|].
  unfold bindM, tryM, resolveTenantUUID. destruct (String.eqb_spec (tenantID p) ""); [done|].
  rewrite Hr. cbn. by destruct (String.eqb_spec u "").
Qed.

Lemma find_row_resolved test rows w :
  resolved w ->
  find_row remote p test rows w = (w, Ok (List.find (fun r => test r && own u r) rows)).
Proof.
  intros Hr. induction rows as [|row rows IH]; [done|]. simpl.
  destruct (test row); simpl; [|apply IH].
  unfold bindM. rewrite matchesTenant_resolved by done. by destruct (own u row).
Qed.

Lemma tenant_rows_resolved {A} (f : gomap -> A) rows w :
  resolved w -> tenant_rows remote p f rows w = (w, Ok (map f (List.filter (own u) rows))).
Proof.
  intros Hr. induction rows as [|row rows IH]; [done|]. simpl. unfold bindM.
  rewrite matchesTenant_resolved by done. rewrite IH. by destruct (own u row).
Qed.

Lemma http_get_keeps path : keeps (http_get remote p path).
Proof. intros w H. unfold http_get, Get, do, send_request. by destruct (http_send _ _ _). Qed.

Lemma get_rows_keeps path field a b : keeps (get_rows remote p path field a b).
Proof.
  intros w H. unfold get_rows, decode_rows, wrapM, bindM.
  pose proof (http_get_keeps path w H) as Hk.
  by destruct (http_get remote p path w) as [w' [d|e]].
Qed.

Lemma ensureWS_keeps : keeps (ensureWS remote).
Proof.
  intros w H. unfold ensureWS. destruct (ws_alive _ _); [done|]. by destruct (ws_connect _ _).
Qed.

Lemma call_rows_keeps a b m f ps : keeps (call_rows remote a b m f ps).
Proof.
  intros w H. unfold call_rows, decode_rows, Call, wrapM, bindM.
  by destruct (ws_call _ _ _ _) as [s [r|e]].
Qed.

Lemma after_ws_keeps {A} s (m : Mp A) :
  keeps m -> keeps (bindM (wrapM s (ensureWS remote)) (fun _ => m)).
Proof.
  intros Hm w H. unfold bindM, wrapM. pose proof (ensureWS_keeps w H) as Hk.
  destruct (ensureWS remote w) as [w' [x|e]]; cbn; [by apply Hm|done].
Qed.

(** The listing of a kind of the table keeps the tenant, and [ListAll] filters it. *)
Lemma tenant_listing_keeps kind rows f :
  tenant_listing remote p kind = Some (rows, f) -> keeps rows.
Proof.
  unfold tenant_listing. intros H%mget_Some_in.
  repeat (apply elem_of_cons in H as [H|H]; [simplify_eq|]);
    [apply get_rows_keeps..|apply after_ws_keeps, call_rows_keeps
    |apply after_ws_keeps, call_rows_keeps|apply get_rows_keeps|by apply not_elem_of_nil in H].
Qed.

Lemma bind_tenant_rows {A} (rows : Mp (list gomap)) (f : gomap -> A) w :
  keeps rows -> resolved w ->
  bindM rows (fun l => tenant_rows remote p f l) w
  = match rows w with
    | (w', Ok l) => (w', Ok (map f (List.filter (own u) l)))
    | (w', Err e) => (w', Err e)
    end.
Proof.
  intros Hk Hr. unfold bindM. specialize (Hk w Hr). destruct (rows w) as [w' [l|e]]; [|done].
  by apply tenant_rows_resolved.
Qed.

Lemma bind_assoc {A B C} (m : Mp A) (k : A -> Mp B) (h : B -> Mp C) w :
  bindM m (fun a => bindM (k a) h) w = bindM (bindM m k) h w.
Proof. unfold bindM. by destruct (m w) as [w' [a|e]]. Qed.

Lemma list_all_rows kind rows f w :
  tenant_listing remote p kind = Some (rows, f) ->
  pListAll remote p kind w = bindM rows (fun l => tenant_rows remote p f l) w.
Proof.
  unfold tenant_listing. intros H%mget_Some_in.
  repeat (apply elem_of_cons in H as [H|H]; [simplify_eq|]); try done;
    try (by apply not_elem_of_nil in H).
  - unfold pListAll. cbn. unfold listAllCronJobs. apply (bind_assoc _ (fun _ => list_cron_jobs remote)).
  - unfold pListAll. cbn. unfold listAllTeams. apply (bind_assoc _ (fun _ => list_teams remote)).
Qed.
End tenant.



(** ** Deletion *)

(** What [Delete] of a kind looks through: the list, the name field, the fields
    hidden from the result, and the path an id is appended to. *)
Definition deletion {U : Unicode} {S} (remote : Remote S) (p : Provider) (kind : ResourceKind) :
    option (M (PWorld S) (list gomap) * (string * (list string * string))) :=
  mget kind
    [ (KindProvider, (list_providers remote p, ("name", ([], "/v1/providers/"))));
      (KindAgent, (list_agents remote p, ("agent_key", ([], "/v1/agents/"))));
      (KindChannel, (list_channels remote p, ("name", (["agent_id"], "/v1/channels/instances/"))));
      (KindMCPServer, (list_mcp_servers remote p, ("name", ([], "/v1/mcp/servers/"))));
      (KindSecureCLI, (list_secure_clis remote p,
         ("binary_name", (["env_keys"; "encrypted_env"], "/v1/cli-credentials/")))) ].

(** The id [Delete] uses of a row. *)
Definition row_id {U : Unicode} (hidden : list string) (row : gomap) : option string :=
  idOf (translateResult (stripInternal (delete_fields hidden row))).

Definition delete_message (p : Provider) (path : string) (m : Message) : Prop :=
  exists hs, m = MHttp (mkHttpRequest "DELETE" (baseURL (p_http p) +:+ path) hs NoBody).

Section delete.
Context {U : Unicode} {S : Type} (remote : Remote S) (p : Provider) (deps : Deps) (u : string).
Hypothesis scoped : tenantID p <> "".
Hypothesis known : u <> "".
Abbreviation Mp := (M (PWorld S)).
Abbreviation reads := (emits (S := S) read_message).

(** [observe] finds the first own row with that name in the list, or nothing. *)
Definition finds (observe : Mp (option gomap)) (rows : Mp (list gomap)) (field key : string)
    (hidden : list string) (w : PWorld S) : Prop :=
  match rows w with
  | (_, Err _) => exists w2 e, observe w = (w2, Err e)
  | (_, Ok l) =>
    match List.find (fun r => String.eqb (strVal r field) key && own u r) l with
    | None => exists w2, observe w = (w2, Ok None)
    | Some row => exists w2 c, observe w = (w2, Ok (Some c)) /\ idOf c = row_id hidden row
    end
  end.

Lemma finds_observed (hide : option gomap -> option gomap) rows field key hidden w :
  (forall row, hide row = option_map (delete_fields hidden) row) ->
  keeps u rows -> resolved u w ->
  finds (let! l := rows in
         let! row := find_row remote p (fun r => String.eqb (strVal r field) key) l in
         retM (observed (hide row)))%go rows field key hidden w.
Proof.
  intros Hh Hk Hr. unfold finds, bindM. specialize (Hk w Hr).
  destruct (rows w) as [w1 [l|e]]; [|eauto]. rewrite (find_row_resolved remote p u) by done.
  rewrite Hh. by destruct (List.find _ _); eauto.
Qed.

Lemma finds_mcp key w :
  resolved u w ->
  finds (observeMCPServer remote p key) (list_mcp_servers remote p) "name" key [] w.
Proof.
  intros Hr. unfold finds, observeMCPServer, bindM.
  pose proof (get_rows_keeps remote p u "/v1/mcp/servers" "servers" "list mcp servers: "
                "parse mcp servers response: " w Hr) as Hk.
  unfold list_mcp_servers in *. destruct (get_rows _ _ _ _ _ _ w) as [w1 [l|e]]; [|eauto].
  rewrite (find_row_resolved remote p u) by done.
  destruct (List.find _ _) as [row|]; [|eauto].
  unfold inject_grants, bindM, retM. destruct (String.eqb _ _); [by eexists _, _|].
  unfold tryM. destruct (listMCPGrantAgentKeys _ _ _ _) as [w2 [ks|e]]; cbn.
  - eexists _, _. split; [done|]. unfold idOf, getAs. by rewrite mget_mset_ne.
  - by eexists _, _.
Qed.

(** The kinds of the table delete through [with_id]. *)
Lemma deletion_cases kind rows field hidden prefix key w :
  deletion remote p kind = Some (rows, (field, (hidden, prefix))) -> resolved u w ->
  exists observe label,
    reads observe /\ finds observe rows field key hidden w /\
    pDelete remote p kind key
    = with_id label observe skipM (fun id => delete_ remote p (prefix +:+ id)).
Proof.
  unfold deletion. intros H%mget_Some_in Hr.
  repeat (apply elem_of_cons in H as [H|H]; [simplify_eq|]); try by apply not_elem_of_nil in H.
  - exists (observeProvider remote p key), ("provider " +:+ key).
    split; [apply (pObserve_reads remote p KindProvider)|]. split; [|done].
    apply (finds_observed id); [by intros []|apply get_rows_keeps|done].
  - exists (observeAgent remote p key), ("agent " +:+ key).
    split; [apply (pObserve_reads remote p KindAgent)|]. split; [|done].
    apply (finds_observed id); [by intros []|apply get_rows_keeps|done].
  - exists (observeChannelInstance remote p key), ("channel instance " +:+ key).
    split; [apply (pObserve_reads remote p KindChannel)|]. split; [|done].
    apply finds_observed; [by intros []|apply get_rows_keeps|done].
  - exists (observeMCPServer remote p key), ("mcp server " +:+ key).
    split; [apply (pObserve_reads remote p KindMCPServer)|]. split; [|done]. by apply finds_mcp.
  - exists (observeSecureCLI remote p key), ("cli-credential " +:+ key).
    split; [apply (pObserve_reads remote p KindSecureCLI)|]. split; [|done].
    apply finds_observed; [by intros []|apply get_rows_keeps|done].
Qed.

Lemma delete_sends path w :
  exists s m, (delete_ remote p path w).1 = log_sent m s w /\ delete_message p path m.
Proof.
  unfold delete_, DeleteReq, do, send_request, bindM. destruct (http_send _ _ _) as [s out].
  eexists s, _. split; [by destruct out; cbn; repeat case_match|]. by eexists.
Qed.
End delete.

(** Deleting a resource of a tenant-scoped kind reads the server's list once and
    then sends at most one more message that is not a read: the DELETE of the id of
    the first row of the list that has that name and belongs to the tenant.  When
    there is no such row nothing is deleted and the deletion succeeds. *)
Theorem delete_own_row {U : Unicode} {S} (remote : Remote S) p deps u kind rows field hidden prefix key w :
  tenantID p <> "" -> u <> "" -> tenant w = Some (Ok u) ->
  deletion remote p kind = Some (rows, (field, (hidden, prefix))) ->
  let run := Delete (goclaw remote p deps) kind key w in
  match rows w with
  | (_, Err _) => is_ok run.2 = false /\ extends read_message w run.1
  | (_, Ok l) =>
    match List.find (fun r => String.eqb (strVal r field) key && own u r) l with
    | None => run.2 = Ok tt /\ extends read_message w run.1
    | Some row =>
      match row_id hidden row with
      | None => is_ok run.2 = false /\ extends read_message w run.1
      | Some id =>
        exists ms m, sent run.1 = (sent w ++ ms ++ [m])%list /\ Forall read_message ms /\
             delete_message p (prefix +:+ id) m
      end
    end
  end.
Proof.
  intros Hs Hu Ht Hd. cbn [Delete goclaw].
  destruct (deletion_cases remote p u Hs Hu kind rows field hidden prefix key w Hd Ht)
    as (observe & label & Hrd & Hf & ->).
  specialize (Hrd w). unfold with_id, bindM. unfold finds in Hf.
  destruct (rows w) as [w1 [l|e]].
  - destruct (List.find _ l) as [row|].
    + destruct Hf as (w2 & c & Ho & Hid). rewrite Ho in *. cbn in Hrd. rewrite Hid.
      destruct (row_id hidden row) as [id|]; [|done].
      destruct (delete_sends remote p (prefix +:+ id) w2) as (s & m & Hl & Hm).
      destruct Hrd as (ms & Hms & Hr). exists ms, m. rewrite Hl. cbn. rewrite Hms.
      by rewrite <- (assoc_L (++)%list).
    + destruct Hf as (w2 & Ho). by rewrite Ho in *.
  - destruct Hf as (w2 & e2 & Ho). by rewrite Ho in *.
Qed.

Lemma delete_own_row_witness :
  let run := Delete (goclaw toy_remote toy_provider toy_deps) KindAgent "alice" toy_resolved in
  exists ms m, sent run.1 = ([] ++ ms ++ [m])%list /\ Forall read_message ms /\
               delete_message toy_provider "/v1/agents/a1" m.
Proof.
  apply (delete_own_row toy_remote toy_provider toy_deps "t1" KindAgent
           (list_agents toy_remote toy_provider) "agent_key" [] "/v1/agents/" "alice" toy_resolved);
    [done|done|reflexivity|reflexivity].
Defined.
