(* ===== verification/GoclawMutations.v ===== *)
(** * What the GoClaw provider changes

    The requests that change the server: a creation carries the tenant's UUID, the
    reconciliation of grants and of allowlists sends exactly the missing additions
    and the surplus removals, a skill is not uploaded when its checks fail, and the
    patch of a workstation. *)
From Stdlib Require Import ZArith Lia Bool Ascii.
From Stdlib Require String.
From S2P Require Import Prelude GoStr GoValue Manifest Keyconv Filepath SkillPkg Validate Json JsonParse Engine.
From S2P Require Import Http GoclawBase GoclawHttp GoclawWs GoclawSkills GoclawProvider GoclawEmits.
From S2P Require Import GoclawExample GoclawProps.

Local Open Scope string_scope.
#[local] Existing Instance ascii_unicode.
#[local] Existing Instance ascii_unicode_ok.

(** ** Translated keys *)

Lemma transformKeys_other fn nk (m out : gomap) :
  (forall k, k ∈ mkeys m -> fn k <> nk) ->
  mget nk (foldl (fun out kv => mset (transformEntry fn kv).1 (transformEntry fn kv).2 out) out m)
  = mget nk out.
Proof.
  revert out. induction m as [|[k v] m IH]; intros out H; [done|]. cbn [foldl].
  rewrite IH by (intros k' Hk'; apply H; by right).
  apply mget_mset_ne. intros Hf. apply (H k); [by left|]. by symmetry.
Qed.

Lemma transformKeys_lookup fn k v (m : gomap) :
  uniq_keys m -> mget k m = Some v ->
  (forall k', k' ∈ mkeys m -> fn k' = fn k -> k' = k) ->
  mget (fn k) (transformKeys fn m) = Some (transformEntry fn (k, v)).2.
Proof.
  unfold transformKeys. generalize (@nil (string * gval)).
  induction m as [|[k0 v0] m IH]; intros out Hu Hm Hinj; [done|]. cbn [foldl mget] in *.
  apply NoDup_cons in Hu as [Hk0 Hu]. destruct (String.eqb_spec k k0) as [->|Hne].
  - simplify_eq. rewrite transformKeys_other; [by rewrite mget_mset_eq|].
    intros k' Hk' Hf. apply Hk0. rewrite <- (Hinj k'); [done|by right|done].
  - apply IH; [done|done|]. intros k' Hk'. apply Hinj. by right.
Qed.

Section unicode.
Context {U : Unicode} {UA : UnicodeAscii U}.

Lemma camelToSnake_tenantId : camelToSnake "tenantId" = "tenant_id".
Proof.
  assert (H : snakeToCamel "tenant_id" = "tenantId").
  { rewrite snakeToCamel_scan by reflexivity.
    set (l := map byteZ _). vm_compute in l. subst l. unfold snake_scan, underscore.
    cbn [Z.eqb Pos.eqb]. rewrite ToUpper_ascii by lia. vm_compute. reflexivity. }
  rewrite <- H. apply camelToSnake_snakeToCamel. vm_compute. reflexivity.
Qed.

(** The spec names no other key that the translation turns into [tenant_id]. *)
Definition no_tenant_alias (spec : gomap) : Prop :=
  uniq_keys spec /\ forall k, k ∈ mkeys spec -> camelToSnake k = "tenant_id" -> k = "tenantId".

Lemma translateSpec_tenant u spec :
  no_tenant_alias spec ->
  mget "tenant_id" (translateSpec (mset "tenantId" (VStr u) spec)) = Some (VStr u).
Proof.
  intros [Hu Ha]. unfold translateSpec, CamelToSnake. rewrite <- camelToSnake_tenantId.
  rewrite (transformKeys_lookup _ "tenantId" (VStr u)).
  - unfold transformEntry. simpl. by case_match.
  - by apply uniq_keys_mset.
  - apply mget_mset_eq.
  - rewrite camelToSnake_tenantId. intros k' Hk'. rewrite mkeys_mset in Hk'.
    destruct (mget "tenantId" spec); [by apply Ha|].
    apply elem_of_app in Hk' as [Hk'| ->%list_elem_of_singleton]; [by apply Ha|done].
Qed.
End unicode.

(** ** Creation *)

(** The request that creates a resource of a kind: an HTTP path or a remote
    procedure, and the key that carries the tenant. *)
Inductive creation_via := ViaHttp (path : string) | ViaRpc (method field : string).

Definition creation (kind : ResourceKind) : option creation_via :=
  mget kind
    [ (KindProvider, ViaHttp "/v1/providers"); (KindAgent, ViaHttp "/v1/agents");
      (KindChannel, ViaHttp "/v1/channels/instances"); (KindMCPServer, ViaHttp "/v1/mcp/servers");
      (KindSecureCLI, ViaHttp "/v1/cli-credentials");
      (KindCronJob, ViaRpc "cron.create" "tenantId"); (KindAgentTeam, ViaRpc "teams.create" "tenant_id");
      (KindAgentLink, ViaRpc "agents.links.create" "tenantId") ].

(** A creation request whose body names the tenant [u]. *)
Definition creates_in (p : Provider) (via : creation_via) (u : string) (m : Message) : Prop :=
  match via with
  | ViaHttp path =>
    exists hs body text,
      m = MHttp (mkHttpRequest "POST" (baseURL (p_http p) +:+ path) hs (BytesBody text)) /\
      Marshal (VMap body) = Some text /\ mget "tenant_id" body = Some (VStr u)
  | ViaRpc method field =>
    exists params, m = MRpc method (Some params) /\ mget field params = Some (VStr u)
  end.

Lemma emits_mono {S A} (P Q : Message -> Prop) (m : M (PWorld S) A) :
  (forall x, P x -> Q x) -> emits P m -> emits Q m.
Proof.
  intros H Hm w. destruct (Hm w) as (ms & He & Hf). exists ms. split; [done|].
  by eapply Forall_impl.
Qed.

Section grows.
Context {U : Unicode} {S : Type} (remote : Remote S) (p : Provider) (deps : Deps).
Abbreviation grows := (emits (S := S) (fun _ => True)).

Lemma reads_grow {A} (m : M (PWorld S) A) : emits read_message m -> grows m.
Proof. by apply emits_mono. Qed.

Lemma post_grows msg path body : grows (post_ remote p msg path body).
Proof.
  unfold post_, Post, doJSON. pose proof (fun P m' pt rq => send_request_emits remote P m' pt rq).
  emits_auto. by apply send_request_emits.
Qed.

Lemma delete_grows path : grows (delete_ remote p path).
Proof. unfold delete_, DeleteReq. emits_auto. by apply send_request_emits. Qed.

Lemma syncContextFiles_grows id files : grows (syncContextFiles remote p deps id files).
Proof.
  unfold syncContextFiles. destruct files; [apply emits_skip|].
  destruct (d_targz _ _); [|apply emits_fail]. intros w.
  destruct (http_send _ _ _) as [s out]. by apply extends_log.
Qed.

Lemma sync_files_grows key files : grows (sync_files_logged remote p deps key files).
Proof.
  pose proof syncContextFiles_grows. pose proof (reads_grow _ (pObserve_reads remote p KindAgent key)).
  unfold sync_files_logged, syncAgentContextFiles, with_id. emits_auto.
Qed.

Lemma applyMCPGrants_grows key agents : grows (applyMCPGrants remote p deps key agents).
Proof.
  pose proof post_grows. pose proof delete_grows.
  pose proof (fun k => reads_grow _ (resolveAgentID_reads remote p k)).
  pose proof (fun k => reads_grow _ (resolveMCPServerID_reads remote p k)).
  pose proof (fun a b c d => reads_grow _ (get_rows_reads remote p a b c d)).
  unfold applyMCPGrants, resolve_agents, listMCPGrants, revoke. emits_auto.
Qed.
End grows.

Section creation.
Context {U : Unicode} {UA : UnicodeAscii U}.
Context {S : Type} (remote : Remote S) (p : Provider) (deps : Deps).
Abbreviation Mp := (M (PWorld S)).

(** Either nothing is changed and the run fails, or, after reads, the creation
    request goes out. *)
Definition creates_at (via : creation_via) (u : string) (m : Mp unit) (w : PWorld S) : Prop :=
  (is_ok (m w).2 = false /\ extends read_message w (m w).1) \/
  exists ms x rest, sent (m w).1 = (sent w ++ ms ++ x :: rest)%list /\
    Forall read_message ms /\ creates_in p via u x.

Definition creates (via : creation_via) (u : string) (m : Mp unit) : Prop :=
  forall w, creates_at via u m w.

Lemma creates_after_at {A} via u (m : Mp A) (k : A -> Mp unit) w :
  emits read_message m -> (forall a, (m w).2 = Ok a -> creates via u (k a)) ->
  creates_at via u (bindM m k) w.
Proof.
  intros Hm Hk. specialize (Hm w). unfold creates_at, bindM.
  destruct (m w) as [w1 [a|e]]; [|by left]. specialize (Hk a eq_refl w1).
  destruct Hm as (ms & Hms & Hf). destruct Hk as [(He & Hx)|(ms' & x & rest & Hs & Hf' & Hx)].
  - left. split; [done|]. eapply extends_trans; [by exists ms|done].
  - right. exists (ms ++ ms')%list, x, rest. cbn in Hms. rewrite Hs, Hms, <- !(assoc_L (++)%list).
    split; [done|]. split; [by apply Forall_app|done].
Qed.

Lemma creates_after {A} via u (m : Mp A) (k : A -> Mp unit) :
  emits read_message m -> (forall a w, (m w).2 = Ok a -> creates via u (k a)) ->
  creates via u (bindM m k).
Proof. intros Hm Hk w. apply creates_after_at; eauto. Qed.

Lemma creates_then via u (m : Mp unit) (k : unit -> Mp unit) :
  creates via u m -> (forall a, emits (fun _ => True) (k a)) -> creates via u (bindM m k).
Proof.
  intros Hm Hk w. specialize (Hm w). unfold creates_at, bindM in *.
  destruct (m w) as [w1 [a|e]]; [|done].
  destruct Hm as [[He _]|(ms & x & rest & Hs & Hf & Hx)]; [done|]. right.
  destruct (Hk a w1) as (rest' & Hr & _). exists ms, x, (rest ++ rest')%list.
  split; [|done]. cbn in Hs. by rewrite Hr, Hs, <- !(assoc_L (++)%list).
Qed.

Lemma creates_post u msg path body :
  mget "tenant_id" body = Some (VStr u) ->
  creates (ViaHttp path) u (post_ remote p msg path body).
Proof.
  intros Hb w. unfold creates_at, post_, Post, doJSON, wrapM, bindM.
  destruct (Marshal (VMap body)) as [text|] eqn:Em; [|left; split; [done|apply extends_refl]].
  right. unfold do, send_request. destruct (http_send _ _ _) as [s out].
  eexists [], _, []. split; [by destruct out; cbn; repeat case_match|]. split; [constructor|].
  by eexists _, body, text.
Qed.

Lemma creates_call u msg method field params :
  mget field params = Some (VStr u) ->
  creates (ViaRpc method field) u (call_ remote msg method params).
Proof.
  intros Hb w. unfold creates_at, call_, Call, wrapM, bindM. destruct (ws_call _ _ _ _) as [s r].
  right. eexists [], _, []. split; [by destruct r|]. split; [constructor|]. by eexists.
Qed.

Lemma resolve_agent_key_keeps label kf idf body field w b :
  kf <> field -> idf <> field ->
  (resolve_agent_key remote p label kf idf body w).2 = Ok b -> mget field b = mget field body.
Proof.
  intros H1 H2. unfold resolve_agent_key, bindM, wrapM.
  destruct (getAs asStr kf body); [|by intros [= <-]].
  destruct (resolveAgentID _ _ _ _) as [w1 [a|e]]; [|done]. intros [= <-].
  rewrite mget_mdel. destruct (String.eqb_spec field kf); [congruence|]. by apply mget_mset_ne.
Qed.

Lemma resolve_agent_key_reads label kf idf body :
  emits read_message (resolve_agent_key remote p label kf idf body).
Proof. pose proof (resolveAgentID_reads remote p). unfold resolve_agent_key. emits_auto. Qed.

Lemma ws_reads s : emits read_message (wrapM s (ensureWS (S := S) remote)).
Proof. apply emits_wrap, ensureWS_reads. Qed.

Lemma create_kind_creates kind via key spec u :
  creation kind = Some via -> no_tenant_alias spec ->
  creates via u (create_kind remote p deps kind key (mset "tenantId" (VStr u) spec)).
Proof.
  unfold creation. intros H%mget_Some_in Hsp.
  pose proof (translateSpec_tenant u spec Hsp) as Ht.
  assert (Ht' : mget "tenantId" (mset "tenantId" (VStr u) spec) = Some (VStr u))
    by apply mget_mset_eq.
  revert Ht Ht'. generalize (mset "tenantId" (VStr u) spec). intros sp Ht Ht'.
  repeat (apply elem_of_cons in H as [H|H]; [simplify_eq|]); try by apply not_elem_of_nil in H.
  - apply creates_post. by rewrite mget_mset_ne.
  - apply creates_then; [|intros; apply sync_files_grows].
    apply creates_post. rewrite mget_mdel. cbn. by rewrite mget_mset_ne.
  - apply creates_after; [apply resolve_agent_key_reads|]. intros b w Hb.
    apply creates_post.
    erewrite resolve_agent_key_keeps; [| | |exact Hb]; [|done|done].
    by rewrite mget_mset_ne.
  - apply creates_then.
    + apply creates_post. rewrite mget_mdel. cbn. by rewrite mget_mset_ne.
    + intros _. destruct (extractGrantAgents sp); [apply emits_skip|].
      apply emits_wrap, applyMCPGrants_grows.
  - apply creates_post. by rewrite mget_mset_ne.
  - apply creates_after; [apply ws_reads|]. intros _ _ _.
    apply creates_after; [apply resolve_agent_key_reads|]. intros b w Hb. apply creates_call.
    erewrite resolve_agent_key_keeps; [| | |exact Hb]; [|done|done].
    by rewrite mget_mset_ne.
  - apply creates_after; [apply ws_reads|]. intros _ _ _. apply creates_call. by rewrite mget_mset_ne.
  - apply creates_after; [apply ws_reads|]. intros _ _ _.
    apply creates_after; [apply emits_lift|]. intros [s t] _ _. apply creates_call.
    by rewrite !mget_mset_ne.
Qed.
End creation.


