(* ===== verification/GoclawGrants.v ===== *)
(** * Grants and allowlists

    [applyMCPGrants] and [reconcileAllowlist] compare a desired set with the
    server's and send the difference: the messages of a successful run, and what
    they make of the set. *)
From Stdlib Require Import ZArith Lia Bool Ascii.
From Stdlib Require String.
From S2P Require Import Prelude GoStr GoValue Manifest Keyconv Filepath SkillPkg Validate Json JsonParse Engine.
From S2P Require Import Http GoclawBase GoclawHttp GoclawWs GoclawSkills GoclawProvider GoclawEmits.
From S2P Require Import GoclawExample GoclawProps ValidateProps.

Local Open Scope string_scope.
#[local] Existing Instance ascii_unicode.

Lemma elem_of_to_set x l : x ∈ to_set l <-> x ∈ l.
Proof.
  unfold to_set.
  assert (H : forall acc, x ∈ foldl (fun acc x => if mem_str x acc then acc else acc ++ [x])%list acc l
              <-> x ∈ acc \/ x ∈ l).
  { induction l as [|y l IH]; intros acc; simpl.
    - split; [by left|]. intros [?|?%not_elem_of_nil]; done.
    - rewrite IH, elem_of_cons. destruct (mem_str y acc) eqn:E.
      + apply mem_str_spec in E. naive_solver.
      + rewrite elem_of_app, list_elem_of_singleton. naive_solver. }
  rewrite H. split; [intros [?%not_elem_of_nil|?]; done|by right].
Qed.

Section sends.
Context {S : Type}.
Abbreviation Mp := (M (PWorld S)).

(** A successful loop sends what its iterations send, in order. *)
Lemma forM_sends {A} (f : A -> Mp unit) (g : A -> list Message) l w w' :
  (forall a w w', f a w = (w', Ok tt) -> sent w' = (sent w ++ g a)%list) ->
  forM_ l f w = (w', Ok tt) -> sent w' = (sent w ++ concat (map g l))%list.
Proof.
  intros Hf. revert w. induction l as [|a l IH]; intros w; simpl.
  - intros [= <-]. by rewrite app_nil_r.
  - unfold bindM. destruct (f a w) as [w1 [[]|e]] eqn:E; [|done]. intros H.
    rewrite (IH _ H), (Hf _ _ _ E). by rewrite <- (assoc_L (++)%list).
Qed.

Lemma concat_if {A B} (t : A -> bool) (g : A -> B) (l : list A) :
  concat (map (fun a => if t a then [] else [g a]) l) = map g (List.filter (fun a => negb (t a)) l).
Proof. induction l as [|a l IH]; simpl; [done|]. by destruct (t a); simpl; rewrite IH. Qed.

Lemma bindM_ok {A B} (m : Mp A) (k : A -> Mp B) w w' b :
  bindM m k w = (w', Ok b) -> exists a w1, m w = (w1, Ok a) /\ k a w1 = (w', Ok b).
Proof. unfold bindM. destruct (m w) as [w1 [a|e]]; [|done]. eauto. Qed.

Lemma wrapM_ok {A} s (m : Mp A) w w' a : wrapM s m w = (w', Ok a) <-> m w = (w', Ok a).
Proof.
  unfold wrapM. destruct (m w) as [w1 [x|e]]; simpl; split; congruence.
Qed.
End sends.

(** Adding the missing and removing the surplus makes a set equal to another. *)
Lemma set_difference_exact (range : list string -> list string) (current desired : list string) x :
  (forall l, range l ≡ₚ l) ->
  let added := List.filter (fun a => negb (mem_str a current)) (range desired) in
  let removed := List.filter (fun a => negb (mem_str a desired)) (range current) in
  (x ∈ current \/ x ∈ added) /\ x ∉ removed <-> x ∈ desired.
Proof.
  intros Hp added removed. unfold added, removed.
  rewrite !list_elem_of_In, !filter_In, <- !list_elem_of_In, !Hp, !negb_true_iff.
  pose proof (mem_str_spec x current) as Hc. pose proof (mem_str_spec x desired) as Hd.
  destruct (mem_str x current), (mem_str x desired); naive_solver.
Qed.

Lemma NoDup_to_set l : NoDup (to_set l).
Proof.
  unfold to_set.
  assert (H : forall acc, NoDup acc ->
    NoDup (foldl (fun acc x => if mem_str x acc then acc else acc ++ [x])%list acc l)).
  { induction l as [|y l IH]; intros acc Ha; simpl; [done|]. apply IH.
    pose proof (mem_str_spec y acc) as Hm. destruct (mem_str y acc); [done|].
    apply NoDup_app. split; [done|]. split; [|apply NoDup_singleton].
    intros z Hz ->%list_elem_of_singleton. apply Hm in Hz. done. }
  apply H. constructor.
Qed.

(** ** MCP grants *)

Definition grant_message (p : Provider) (serverID agentID : string) : Message :=
  MHttp (mkHttpRequest "POST" (baseURL (p_http p) +:+ grant_path serverID) (do_headers (p_http p))
           (BytesBody (json_object [("agent_id", json_string agentID)]))).

Definition revoke_message (p : Provider) (serverID agentID : string) : Message :=
  MHttp (mkHttpRequest "DELETE" (baseURL (p_http p) +:+ (grant_path serverID +:+ "/" +:+ agentID))
           (do_headers (p_http p)) NoBody).

Section grants.
Context {U : Unicode} {S : Type} (remote : Remote S) (p : Provider) (deps : Deps).
Abbreviation Mp := (M (PWorld S)).

Lemma post_grant_sends msg sid id w w' :
  post_ remote p msg (grant_path sid) [("agent_id", VStr id)] w = (w', Ok tt) ->
  sent w' = (sent w ++ [grant_message p sid id])%list.
Proof.
  assert (Em : Marshal (VMap [("agent_id", VStr id)])
               = Some (json_object [("agent_id", json_string id)])) by reflexivity.
  unfold post_, Post, doJSON. rewrite Em. unfold wrapM, bindM, do, send_request, skipM, retM, res_wrap.
  destruct (http_send _ _ _) as [s out].
  intros H. assert (Hw : w' = log_sent (grant_message p sid id) s w); [|by rewrite Hw].
  destruct out as [| | |code body]; [done|done|done|].
  destruct (classifyStatus code _); [done|]. by injection H.
Qed.

Lemma revoke_sends msg sid id w w' :
  revoke remote p msg (grant_path sid +:+ "/" +:+ id) w = (w', Ok tt) ->
  sent w' = (sent w ++ [revoke_message p sid id])%list.
Proof.
  unfold revoke, delete_, DeleteReq, tryM, bindM, do, send_request, skipM, retM, failM.
  destruct (http_send _ _ _) as [s out].
  intros H. assert (Hw : w' = log_sent (revoke_message p sid id) s w); [|by rewrite Hw].
  destruct out as [e|e|e|code body];
    [| | |destruct (classifyStatus code _); [|by injection H]];
    destruct (errorsIs _ _); try done; by injection H.
Qed.
End grants.

(** C29: a successful reconciliation of the agent grants of an MCP server reads the
    server's grants and the ids of the desired agents, then grants each missing
    agent once and revokes each surplus one once, and nothing else: the grants that
    result are exactly those of the desired agents, in whatever order Go visits its
    maps. *)
Theorem mcp_grants_exact {U : Unicode} {S} (remote : Remote S) p deps name desired w w' :
  (forall l, d_range deps l ≡ₚ l) ->
  applyMCPGrants remote p deps name desired w = (w', Ok tt) ->
  exists sid w1 grants w2 ids w3 added removed,
    resolveMCPServerID remote p name w = (w1, Ok sid) /\
    listMCPGrants remote p sid w1 = (w2, Ok grants) /\
    resolve_agents remote p desired w2 = (w3, Ok ids) /\
    extends read_message w w3 /\
    sent w' = (sent w3 ++ map (grant_message p sid) added ++ map (revoke_message p sid) removed)%list /\
    NoDup added /\ NoDup removed /\
    forall x, (x ∈ grant_ids grants \/ x ∈ added) /\ x ∉ removed <-> x ∈ ids.
Proof.
  intros Hp H. unfold applyMCPGrants in H.
  apply bindM_ok in H as (sid & w1 & H1 & H). apply bindM_ok in H as (grants & w2 & H2 & H).
  apply bindM_ok in H as (ids & w3 & H3 & H). apply bindM_ok in H as ([] & w4 & H4 & H).
  exists sid, w1, grants, w2, ids, w3,
    (List.filter (fun a => negb (mem_str a (to_set (grant_ids grants)))) (d_range deps (to_set ids))),
    (List.filter (fun a => negb (mem_str a (to_set ids))) (d_range deps (to_set (grant_ids grants)))).
  split; [done|]. split; [done|]. split; [done|]. split.
  { transitivity w1; [|transitivity w2].
    - pose proof (resolveMCPServerID_reads remote p name w) as Hr. by rewrite H1 in Hr.
    - pose proof (get_rows_reads remote p) as Hr. unfold listMCPGrants in H2.
      match type of H2 with get_rows _ _ ?a ?b ?c ?d _ = _ => specialize (Hr a b c d w1) end.
      by rewrite H2 in Hr.
    - assert (Hr : emits read_message (resolve_agents remote p desired)).
      { apply emits_mapM. intros k. apply emits_wrap, resolveAgentID_reads. }
      specialize (Hr w2). by rewrite H3 in Hr. }
  split; [|split; [|split]].
  - apply (forM_sends _ (fun a => if mem_str a (to_set ids) then [] else [revoke_message p sid a])) in H.
    2:{ intros a v v'. destruct (mem_str a _); [intros [= <-]; by rewrite app_nil_r|apply revoke_sends]. }
    apply (forM_sends _ (fun a => if mem_str a (to_set (grant_ids grants)) then []
                                  else [grant_message p sid a])) in H4.
    2:{ intros a v v'. destruct (mem_str a _); [intros [= <-]; by rewrite app_nil_r|apply post_grant_sends]. }
    by rewrite H, H4, !concat_if, <- (assoc_L (++)%list).
  - apply NoDup_ListNoDup, List.NoDup_filter, NoDup_ListNoDup. rewrite Hp. apply NoDup_to_set.
  - apply NoDup_ListNoDup, List.NoDup_filter, NoDup_ListNoDup. rewrite Hp. apply NoDup_to_set.
  - intros x. rewrite <- (elem_of_to_set x (grant_ids grants)), <- (elem_of_to_set x ids).
    by apply set_difference_exact.
Qed.

Lemma mcp_grants_exact_witness :
  exists w', applyMCPGrants toy_remote toy_provider toy_deps "files" ["alice"] toy_start = (w', Ok tt) /\
  exists sid w1 grants w2 ids w3 added removed,
    resolveMCPServerID toy_remote toy_provider "files" toy_start = (w1, Ok sid) /\
    listMCPGrants toy_remote toy_provider sid w1 = (w2, Ok grants) /\
    resolve_agents toy_remote toy_provider ["alice"] w2 = (w3, Ok ids) /\
    extends read_message toy_start w3 /\
    sent w' = (sent w3 ++ map (grant_message toy_provider sid) added
                ++ map (revoke_message toy_provider sid) removed)%list /\
    NoDup added /\ NoDup removed /\
    forall x, (x ∈ grant_ids grants \/ x ∈ added) /\ x ∉ removed <-> x ∈ ids.
Proof.
  eexists. split; [vm_compute; reflexivity|].
  apply (mcp_grants_exact toy_remote toy_provider toy_deps); [done|vm_compute; reflexivity].
Defined.

(** ** Allowlists *)

Definition add_message (wsID pattern : string) : Message :=
  MRpc "workstations.permissions.add" (Some [("workstationId", VStr wsID); ("pattern", VStr pattern)]).

Definition remove_message (id : string) : Message :=
  MRpc "workstations.permissions.remove" (Some [("id", VStr id)]).

(** Pattern to id, the later entries winning. *)
Definition perm_ids (current : list permEntry) : strmap :=
  foldl (fun m e => mset (perm_pattern e) (perm_id e) m) [] current.

Lemma perm_ids_keys x current : x ∈ mkeys (perm_ids current) <-> x ∈ map perm_pattern current.
Proof.
  unfold perm_ids.
  assert (H : forall m, x ∈ mkeys (foldl (fun m e => mset (perm_pattern e) (perm_id e) m) m current)
              <-> x ∈ mkeys m \/ x ∈ map perm_pattern current).
  { induction current as [|e current IH]; intros m; simpl.
    - split; [by left|]. intros [?|?%not_elem_of_nil]; done.
    - rewrite IH, elem_of_cons, mkeys_mset. destruct (mget (perm_pattern e) m) eqn:E.
      + assert (perm_pattern e ∈ mkeys m).
        { apply mget_Some_in in E. apply list_elem_of_fmap. by exists (perm_pattern e, s). }
        naive_solver.
      + rewrite elem_of_app, list_elem_of_singleton. naive_solver. }
  rewrite H. split; [intros [?%not_elem_of_nil|?]; done|by right].
Qed.

Lemma mget_mem {A} k (m : list (string * A)) :
  match mget k m with Some _ => true | None => false end = mem_str k (mkeys m).
Proof.
  pose proof (mem_str_spec k (mkeys m)) as Hm. destruct (mget k m) eqn:E.
  - symmetry. apply Hm. apply mget_Some_in in E. apply list_elem_of_fmap. by exists (k, a).
  - apply mget_None in E. destruct (mem_str k (mkeys m)); [|done]. by destruct E; apply Hm.
Qed.

Lemma call_sends {S} (remote : Remote S) msg method params w w' :
  call_ remote msg method params w = (w', Ok tt) ->
  sent w' = (sent w ++ [MRpc method (Some params)])%list.
Proof.
  unfold call_, Call, wrapM, bindM, skipM, retM, res_wrap. destruct (ws_call _ _ _ _) as [s [r|e]].
  - by intros [= <-].
  - done.
Qed.

(** A successful reconciliation of a workstation's allowlist against the server's
    entries adds the missing patterns and removes the surplus ones, each by the id
    the server gave it, so that the patterns that result are the desired ones; on
    creation, when there is no current list, the desired patterns are added and
    nothing is removed. *)
Theorem allowlist_exact {U : Unicode} {S} (remote : Remote S) deps wsID current desired w w' :
  (forall l, d_range deps l ≡ₚ l) ->
  reconcileAllowlist remote deps wsID current desired w = (w', Ok tt) ->
  exists added removed,
    sent w' = (sent w ++ map (add_message wsID) added
               ++ map (fun x => remove_message (strget x (perm_ids (default [] current)))) removed)%list /\
    match current with
    | None => added = desired /\ removed = []
    | Some cur =>
      forall x, (x ∈ map perm_pattern cur \/ x ∈ added) /\ x ∉ removed <-> x ∈ desired
    end.
Proof.
  intros Hp H. unfold reconcileAllowlist in H. fold (perm_ids (default [] current)) in H.
  set (ids := perm_ids (default [] current)) in *.
  apply bindM_ok in H as ([] & w1 & H1 & H).
  apply (forM_sends _ (fun d => if mem_str d (mkeys ids) then [] else [add_message wsID d])) in H1.
  2:{ intros d v v'. rewrite <- mget_mem. destruct (mget d ids); [|apply call_sends].
      intros [= <-]. by rewrite app_nil_r. }
  rewrite concat_if in H1. exists (List.filter (fun d => negb (mem_str d (mkeys ids))) desired).
  destruct current as [cur|].
  - exists (List.filter (fun d => negb (mem_str d desired)) (d_range deps (mkeys ids))).
    apply (forM_sends _ (fun x => if mem_str x desired then [] else [remove_message (strget x ids)])) in H.
    2:{ intros d v v'. destruct (mem_str d desired); [|apply call_sends].
        intros [= <-]. by rewrite app_nil_r. }
    rewrite concat_if in H. split; [by rewrite H, H1, <- (assoc_L (++)%list)|].
    intros x. rewrite <- perm_ids_keys. unfold ids. cbn [default].
    rewrite <- (set_difference_exact (fun l => l) (mkeys (perm_ids cur)) desired x) by done.
    cbn. by rewrite !list_elem_of_In, !filter_In, <- !list_elem_of_In, Hp.
  - exists []. injection H as <-. split; [by rewrite H1, app_nil_r|]. split; [|done].
    unfold ids. cbn. clear. induction desired as [|d ds IH]; simpl; [done|]. by rewrite IH.
Qed.

Lemma allowlist_exact_witness :
  exists w', reconcileAllowlist toy_remote toy_deps "w1" (Some [mkPerm "p1" "ls"; mkPerm "p2" "rm"])
               ["ls"; "cat"] toy_start = (w', Ok tt) /\
  exists added removed,
    sent w' = ([] ++ map (add_message "w1") added
               ++ map (fun x => remove_message
                         (strget x (perm_ids [mkPerm "p1" "ls"; mkPerm "p2" "rm"]))) removed)%list /\
    forall x, (x ∈ map perm_pattern [mkPerm "p1" "ls"; mkPerm "p2" "rm"] \/ x ∈ added) /\
              x ∉ removed <-> x ∈ ["ls"; "cat"].
Proof.
  eexists. split; [vm_compute; reflexivity|].
  apply (allowlist_exact toy_remote toy_deps "w1" (Some [mkPerm "p1" "ls"; mkPerm "p2" "rm"])
           ["ls"; "cat"] toy_start); [done|vm_compute; reflexivity].
Defined.
