(* ===== verification/GoclawNames.v ===== *)
(** * Names, paths, statuses and archives of the GoClaw provider

    Composite resource names parse back into their parts, in the validator and in
    the provider alike; the path of a system config keeps keys apart; an HTTP status
    becomes the right sentinel; the files of an archive read back as written; the
    patch of a workstation, field by field; the checks before a skill's upload. *)
From Stdlib Require Import ZArith Lia Bool Ascii.
From Stdlib Require String.
From S2P Require Import Prelude GoStr GoValue Manifest Keyconv Filepath SkillPkg Regexp Validate ValidateProps.
From S2P Require Import Json JsonParse Engine Http GoclawBase GoclawHttp GoclawWs GoclawSkills.
From S2P Require Import GoclawProvider GoclawEmits GoclawExample GoclawMutations.

Local Open Scope string_scope.
#[local] Existing Instance ascii_unicode.

(** ** Composite names *)

(** No ["--"] in [s], nor across its end when a ["-"] follows. *)
Fixpoint plain_key (s : string) : bool :=
  match s with
  | EmptyString => true
  | String c s' =>
    negb (Ascii.eqb c "-" && match s' with EmptyString => true | String d _ => Ascii.eqb d "-" end)
    && plain_key s'
  end.

Lemma dash_prefix c s :
  HasPrefix (String c s) "--" = Ascii.eqb "-" c && match s with String d _ => Ascii.eqb "-" d | _ => false end.
Proof.
  unfold HasPrefix. cbn [CutPrefix]. destruct (Ascii.eqb "-" c); [|done].
  destruct s as [|d s]; [done|]. cbn [CutPrefix].
  destruct (Ascii.eqb "-" d); [by destruct s|done].
Qed.

Lemma split_plain s t :
  plain_key s = true -> Split (s +:+ "--" +:+ t) "--" = s :: Split t "--".
Proof.
  unfold Split. induction s as [|c s IH]; intros Hp.
  { change ("" +:+ "--" +:+ t) with (String "-" (String "-" t)). cbn [split_go].
    rewrite dash_prefix, !Ascii.eqb_refl. reflexivity. }
  cbn [plain_key] in Hp. apply andb_true_iff in Hp as [Hc Hs]. specialize (IH Hs).
  change (String c s +:+ "--" +:+ t) with (String c (s +:+ "--" +:+ t)).
  cbn [split_go]. rewrite dash_prefix.
  replace (Ascii.eqb "-" c && _) with false; [by rewrite IH|]. symmetry.
  destruct (Ascii.eqb_spec "-" c) as [<-|]; [|done].
  apply negb_true_iff in Hc. cbn in Hc.
  destruct s as [|d s]; [done|]. cbn. destruct (Ascii.eqb_spec "-" d) as [<-|]; done.
Qed.

Lemma split_plain_end s : plain_key s = true -> Split s "--" = [s].
Proof.
  unfold Split. induction s as [|c s IH]; intros Hp; [done|].
  cbn [plain_key] in Hp. apply andb_true_iff in Hp as [Hc Hs]. specialize (IH Hs).
  cbn [split_go]. rewrite dash_prefix.
  replace (Ascii.eqb "-" c && _) with false; [by rewrite IH|]. symmetry.
  destruct (Ascii.eqb_spec "-" c) as [<-|]; [|done].
  apply negb_true_iff in Hc. cbn in Hc.
  destruct s as [|d s]; [done|]. destruct (Ascii.eqb_spec "-" d) as [<-|]; done.
Qed.

Lemma cut_plain s t : plain_key s = true -> Cut (s +:+ "--" +:+ t) "--" = Some (s, t).
Proof.
  induction s as [|c s IH]; intros Hp.
  { change ("" +:+ "--" +:+ t) with (String "-" (String "-" t)). cbn [Cut CutPrefix].
    rewrite !Ascii.eqb_refl. by destruct t. }
  cbn [plain_key] in Hp. apply andb_true_iff in Hp as [Hc Hs]. specialize (IH Hs).
  change (String c s +:+ "--" +:+ t) with (String c (s +:+ "--" +:+ t)).
  pose proof (dash_prefix c (s +:+ "--" +:+ t)) as Hd. unfold HasPrefix in Hd.
  cbn [Cut]. destruct (CutPrefix _ _) eqn:E; [|by rewrite IH]. exfalso. symmetry in Hd.
  apply andb_true_iff in Hd as [Hc1 Hd]. apply Ascii.eqb_eq in Hc1 as <-.
  apply negb_true_iff in Hc. cbn in Hc.
  destruct s as [|d s]; [done|]. cbn in Hd. by rewrite (Ascii.eqb_sym d), Hd in Hc.
Qed.

(** The name ["source--target"] under which [ListAll] reports an agent link, and
    which the manifest declares, parses back into its two keys in the validator, in
    the agent-link operations and in the secure-CLI grants, for non-empty keys that
    hold no ["--"] and do not end in ["-"]; and the validator accepts a link name
    exactly when the provider does, with the same parts. *)
Theorem composite_names {U : Unicode} :
  (forall s t, plain_key s = true -> plain_key t = true -> s <> "" -> t <> "" ->
     let name := s +:+ "--" +:+ t in
     splitAgentLinkName name = Ok (s, t) /\ parseAgentLinkName name = Ok (s, t) /\
     parseGrantName name = Ok (s, t)) /\
  (forall name st, splitAgentLinkName name = Ok st <-> parseAgentLinkName name = Ok st).
Proof.
  split.
  - intros s t Hs Ht Hns Hnt. cbn zeta.
    unfold splitAgentLinkName, parseAgentLinkName, parseGrantName.
    rewrite split_plain, split_plain_end, cut_plain by done.
    apply String.eqb_neq in Hns, Hnt. by rewrite Hns, Hnt.
  - intros name st. unfold splitAgentLinkName, parseAgentLinkName. cbn zeta.
    destruct (Split name "--") as [|a [|b [|]]]; try done. by case_match.
Qed.

(** ** Paths *)

Fixpoint path_unescape (s : list ascii) : list ascii :=
  match s with
  | [] => []
  | c :: t =>
    match t with
    | a :: b :: t' =>
      if Ascii.eqb c "%" then
        byte_of (default 0 (hex_value (byteZ a)) * 16 + default 0 (hex_value (byteZ b)))%Z
          :: path_unescape t'
      else c :: path_unescape t
    | _ => c :: path_unescape t
    end
  end.

Lemma upper_hex_value n : (0 <= n < 16)%Z -> hex_value (byteZ (upper_hex n)) = Some n.
Proof.
  intros H. unfold upper_hex, hex_value, between. destruct (Z.ltb_spec n 10);
    rewrite byteZ_byte_of by lia; repeat case_match; f_equal; lia.
Qed.

Lemma path_unescape_cons c t : c <> "%"%char -> path_unescape (c :: t) = c :: path_unescape t.
Proof.
  intros H. cbn [path_unescape]. destruct t as [|a [|b t]]; [done|done|].
  by destruct (Ascii.eqb_spec c "%").
Qed.

Lemma path_roundtrip k : path_unescape (bytes_of (PathEscape k)) = bytes_of k.
Proof.
  unfold PathEscape. rewrite String.list_ascii_of_string_of_list_ascii.
  induction (bytes_of k) as [|c l IH]; [done|]. cbn [map concat].
  destruct (path_unescaped c) eqn:E.
  - cbn [app]. rewrite path_unescape_cons, IH; [done|]. intros ->. by vm_compute in E.
  - cbn [app path_unescape]. rewrite Ascii.eqb_refl.
    pose proof (byteZ_range c). pose proof (Z.mod_pos_bound (byteZ c) 16 ltac:(lia)).
    assert (0 <= byteZ c / 16 < 16)%Z by (split; [apply Z.div_pos|apply Z.div_lt_upper_bound]; lia).
    rewrite !upper_hex_value by lia. cbn [default id]. rewrite IH. f_equal.
    rewrite <- (byte_of_byteZ c) at 3. f_equal. unfold id. pose proof (Z.div_mod (byteZ c) 16 ltac:(lia)). lia.
Qed.

Lemma path_escape_chars k c :
  c ∈ bytes_of (PathEscape k) -> c = "%"%char \/ path_unescaped c = true.
Proof.
  unfold PathEscape. rewrite String.list_ascii_of_string_of_list_ascii.
  rewrite list_elem_of_In. intros (l & Hl & Hc)%in_concat. apply in_map_iff in Hl as (d & <- & _).
  assert (Hu : forall n, (0 <= n < 16)%Z -> path_unescaped (upper_hex n) = true).
  { intros n Hn. unfold path_unescaped, lower_digit, char_in, upper_hex, between.
    destruct (Z.ltb_spec n 10); rewrite byteZ_byte_of by lia; apply orb_true_iff; left; lia. }
  pose proof (byteZ_range d). pose proof (Z.mod_pos_bound (byteZ d) 16 ltac:(lia)).
  assert (0 <= byteZ d / 16 < 16)%Z by (split; [apply Z.div_pos|apply Z.div_lt_upper_bound]; lia).
  destruct (path_unescaped d) eqn:E; simpl in Hc.
  - destruct Hc as [<-|[]]. by right.
  - destruct Hc as [<-|[<-|[<-|[]]]]; [by left|right; apply Hu; lia..].
Qed.

(** Distinct system-config keys are kept at distinct paths, and no key reaches
    outside its own path segment: the escaped key holds no slash, question mark or
    hash sign. *)
Theorem sys_config_paths_distinct :
  (forall k1 k2, sysConfigPath k1 = sysConfigPath k2 -> k1 = k2) /\
  (forall k c, c ∈ bytes_of (PathEscape k) -> c <> "/"%char /\ c <> "?"%char /\ c <> "#"%char).
Proof.
  split.
  - intros k1 k2 H. unfold sysConfigPath in H. apply string_app_inj_l in H.
    rewrite <- (String.string_of_list_ascii_of_string k1), <- (String.string_of_list_ascii_of_string k2).
    by rewrite <- (path_roundtrip k1), <- (path_roundtrip k2), H.
  - intros k c [->|H]%path_escape_chars; [done|]. by repeat split; intros ->.
Qed.

(** ** Statuses *)

Lemma errorsIs_wrap pre e post s : errorsIs (wrapf pre e post) s = errorsIs e s.
Proof. done. Qed.

Lemma errorsIs_sentinel a s : errorsIs (sentinelError a) s = bool_decide (s = a).
Proof. unfold errorsIs. cbn. apply bool_decide_ext. apply list_elem_of_singleton. Qed.

(** C30: a request is sent once, and its outcome follows the status alone: the body, at
    most 10 MiB of it, exactly for the statuses 200 to 299; otherwise an error whose
    sentinel is "not found" exactly for 404, "unauthorized" for 401 and 403, "invalid
    request" for 400 and 422 and "server error" from 500 on, whatever the body says. *)
Theorem http_status_classified {S} (remote : Remote S) c method path body w s code text :
  let rq := mkHttpRequest method (baseURL c +:+ path) (do_headers c) body in
  http_send remote rq (server w) = (s, Response code text) ->
  let run := do remote c method path body w in
  run.1 = mkPWorld s (tenant w) (sent w ++ [MHttp rq])%list /\
  match run.2 with
  | Ok data => (200 <= code < 300)%Z /\ data = take_bytes maxResponseSize text
  | Err e =>
    ~ (200 <= code < 300)%Z /\
    (errorsIs e ErrNotFound = true <-> code = 404%Z) /\
    (errorsIs e ErrUnauthorized = true <-> code = 401%Z \/ code = 403%Z) /\
    (errorsIs e ErrInvalidRequest = true <-> code = 400%Z \/ code = 422%Z) /\
    (errorsIs e ErrServerError = true <-> (500 <= code)%Z)
  end.
Proof.
  intros rq Hs run. subst run. unfold do, send_request. fold rq. rewrite Hs. split; [done|].
  cbn [snd]. unfold classifyStatus.
  repeat match goal with
  | |- context [if ?b then _ else _] => destruct b eqn:?
  end; cbn [snd]; rewrite ?errorsIs_wrap, ?errorsIs_sentinel, ?bool_decide_eq_true;
    repeat match goal with
    | |- _ /\ _ => split
    | |- _ <-> _ => split
    | |- _ -> False => intros ?
    end; try done; try lia; intros; try lia; try discriminate.
Qed.

Lemma http_status_classified_witness :
  let run := do toy_remote (p_http toy_provider) "GET" "/v1/nothing" NoBody toy_start in
  run.2 = Err (wrapf "" (sentinelError ErrNotFound) ": no such page") /\
  match run.2 with
  | Ok data => (200 <= 404 < 300)%Z /\ data = take_bytes maxResponseSize "no such page"
  | Err e =>
    ~ (200 <= 404 < 300)%Z /\
    (errorsIs e ErrNotFound = true <-> 404%Z = 404%Z) /\
    (errorsIs e ErrUnauthorized = true <-> 404%Z = 401%Z \/ 404%Z = 403%Z) /\
    (errorsIs e ErrInvalidRequest = true <-> 404%Z = 400%Z \/ 404%Z = 422%Z) /\
    (errorsIs e ErrServerError = true <-> (500 <= 404)%Z)
  end.
Proof.
  split; [vm_compute; reflexivity|].
  apply (http_status_classified toy_remote (p_http toy_provider) "GET" "/v1/nothing" NoBody
           toy_start 1 404 "no such page"). vm_compute. reflexivity.
Defined.

(** ** Workstations *)

Lemma mget_carry k from to spec m :
  mget k (carry from to spec m)
  = if String.eqb k to then match mget from spec with Some v => Some v | None => mget k m end
    else mget k m.
Proof.
  unfold carry. destruct (mget from spec); [apply mget_mset|]. by destruct (String.eqb k to).
Qed.

(** The SSH fields of a spec, as they travel under ["metadata"]. *)
Definition ssh_fields (spec : gomap) : gomap :=
  foldl (fun meta f => carry f f spec meta) [] sshMetaKeys.

Lemma mget_carries k spec (fs : list string) m :
  mget k (foldl (fun meta f => carry f f spec meta) m fs)
  = match (if mem_str k fs then mget k spec else None) with Some v => Some v | None => mget k m end.
Proof.
  revert m. induction fs as [|f fs IH]; intros m; [done|]. cbn [foldl]. rewrite IH, mget_carry.
  unfold mem_str. cbn [existsb]. fold (mem_str k fs).
  destruct (String.eqb_spec k f) as [->|]; [|done]. cbn [orb].
  destruct (mem_str f fs); by destruct (mget f spec).
Qed.

Lemma mget_foldl_rest (skip : string -> bool) (spec m : gomap) k :
  uniq_keys spec ->
  mget k (foldl (fun patch kv => if skip kv.1 then patch
                                 else match mget kv.1 patch with Some _ => patch
                                      | None => mset kv.1 kv.2 patch end) m spec)
  = match mget k m with
    | Some v => Some v
    | None => if skip k then None else mget k spec
    end.
Proof.
  revert m. induction spec as [|[k0 v0] spec IH]; intros m Hu; cbn [foldl mget].
  - destruct (mget k m); [done|]. by destruct (skip k).
  - apply NoDup_cons in Hu as [Hk0 Hu]. cbn [fst snd]. rewrite IH by done.
    destruct (String.eqb_spec k k0) as [->|Hne].
    + destruct (skip k0); [by destruct (mget k0 m)|].
      destruct (mget k0 m) eqn:E; [by rewrite E|]. by rewrite mget_mset_eq.
    + destruct (skip k0); [done|]. destruct (mget k0 m); [done|]. by rewrite mget_mset_ne.
Qed.

(** The patch of a workstation update, field by field: [displayName] travels as
    [name]; the SSH fields travel under [metadata] and never at the top level; the
    allowlist and the agents, which have procedures of their own, are not in it;
    every other field of the spec is there unchanged. *)
Theorem workstation_patch_exact spec k :
  uniq_keys spec ->
  mget k (buildWorkstationUpdatePatch spec)
  = if String.eqb k "name" then
      match mget "displayName" spec with Some v => Some v | None => mget "name" spec end
    else if String.eqb k "metadata" then
      match ssh_fields spec with [] => mget "metadata" spec | meta => Some (VMap meta) end
    else if String.eqb k "backendType" || String.eqb k "defaultCwd" then mget k spec
    else if mem_str k skipKeys || mem_str k sshMetaKeys then None
    else mget k spec.
Proof.
  intros Hu. unfold buildWorkstationUpdatePatch.
  rewrite (mget_foldl_rest (fun k => mem_str k skipKeys || mem_str k sshMetaKeys)) by done.
  unfold workstation_columns. fold (ssh_fields spec).
  set (m := carry "defaultCwd" "defaultCwd" spec
              (carry "backendType" "backendType" spec (carry "displayName" "name" spec []))).
  assert (Hm : forall k, mget k m = if String.eqb k "defaultCwd" then mget "defaultCwd" spec
                         else if String.eqb k "backendType" then mget "backendType" spec
                         else if String.eqb k "name" then mget "displayName" spec else None).
  { intros q. unfold m. rewrite !mget_carry. cbn [mget].
    destruct (String.eqb_spec q "defaultCwd") as [->|]; [by destruct (mget _ spec)|].
    destruct (String.eqb_spec q "backendType") as [->|]; [by destruct (mget _ spec)|].
    destruct (String.eqb_spec q "name") as [->|]; [by destruct (mget _ spec)|]. done. }
  assert (Hx : mget k match ssh_fields spec with [] => m | meta => mset "metadata" (VMap meta) m end
               = if String.eqb k "metadata"
                 then match ssh_fields spec with [] => None | meta => Some (VMap meta) end
                 else mget k m).
  { destruct (ssh_fields spec) as [|x l]; [|rewrite mget_mset; by destruct (String.eqb k _)].
    rewrite Hm. by destruct (String.eqb_spec k "metadata") as [->|]. }
  rewrite Hx, Hm. clear Hx Hm.
  destruct (String.eqb_spec k "name") as [->|]; [cbn; by destruct (mget "displayName" spec)|].
  destruct (String.eqb_spec k "metadata") as [->|]; [by destruct (ssh_fields spec)|].
  destruct (String.eqb_spec k "defaultCwd") as [->|]; [cbn; by destruct (mget _ spec)|].
  destruct (String.eqb_spec k "backendType") as [->|]; [cbn; by destruct (mget _ spec)|]. done.
Qed.

Lemma workstation_patch_exact_witness :
  mget "privateKey" (buildWorkstationUpdatePatch
                       [("displayName", VStr "Box"); ("privateKey", VStr "s3cret")]) = None.
Proof. rewrite workstation_patch_exact; [reflexivity|]. by apply (bool_decide_unpack _). Defined.

(** ** Context-file archives *)

(** The named files of a spec. *)
Definition named_files (files : list gval) : list (string * string) :=
  omap (fun f => match asMap f with
                 | Some fm => if String.eqb (getStr "name" fm) "" then None
                              else Some (getStr "name" fm, getStr "content" fm)
                 | None => None
                 end) files.

(** The context files of an agent survive the archive: when the archive library
    reads back the regular files it wrote, downloading the archive that was built
    for a list of files gives each named file its content, in order, as long as no
    content exceeds the size limit. *)
Theorem context_files_roundtrip deps files gz :
  (forall entries archive, d_targz deps entries = Ok archive ->
     d_untar deps archive = Ok (map (fun e => (e.1, (false, e.2))) entries)) ->
  d_targz deps (context_entries files) = Ok gz ->
  Forall (fun f => (Z.of_nat (String.length f.2) <= maxContextFileSize)%Z) (named_files files) ->
  parseContextFilesArchive deps gz = Ok (named_files files).
Proof.
  intros Hlib Hgz Hsz. unfold parseContextFilesArchive. rewrite (Hlib _ _ Hgz). cbn [res_bind].
  clear Hgz. induction files as [|f files IH]; [done|].
  unfold context_entries, named_files in *. cbn [omap list_omap] in *.
  destruct (asMap f) as [fm|]; [|by apply IH].
  destruct (String.eqb (getStr "name" fm) "") eqn:E; [by apply IH|].
  apply Forall_cons in Hsz as [Hf Hsz]. cbn [map fst snd parse_entries] in *.
  rewrite CutPrefix_app, E. rewrite IH by done.
  destruct (Z.ltb_spec maxContextFileSize (Z.of_nat (String.length (getStr "content" fm)))); [lia|done].
Qed.

(** A library that knows one archive. *)
Definition one_archive : list (string * string) := [("context_files/NOTES.md", "hello")].

Definition one_archive_deps : Deps :=
  mkDeps (mkFs (FDir []) []) (fun _ => "zip")
    (fun es => if bool_decide (es = one_archive) then Ok "tgz" else Err (errorf "unsupported"))
    (fun _ => Ok [("context_files/NOTES.md", (false, "hello"))])
    (mkSemver (fun _ => true) (fun _ _ => 0%Z)) (fun l => l).

Lemma context_files_roundtrip_witness :
  parseContextFilesArchive one_archive_deps "tgz" = Ok [("NOTES.md", "hello")].
Proof.
  apply (context_files_roundtrip one_archive_deps
           [VMap [("name", VStr "NOTES.md"); ("content", VStr "hello")]; VStr "ignored"]).
  - intros es archive. cbn. case_bool_decide as He; [by rewrite He|done].
  - vm_compute. reflexivity.
  - repeat constructor; vm_compute; congruence.
Defined.

(** ** Skills *)

Section skills.
Context {U : Unicode} {S : Type} (remote : Remote S) (p : Provider) (deps : Deps).

Lemma GetCLIVersions_reads : emits read_message (GetCLIVersions (S := S) remote p).
Proof. unfold GetCLIVersions. emits_auto. Qed.

Lemma check_cli_reads key spec : emits read_message (check_cli (S := S) remote p deps key spec).
Proof. pose proof GetCLIVersions_reads. unfold check_cli. emits_auto. Qed.

Lemma PostMultipart_sends parts ct (w : PWorld S) :
  exists hs s, (PostMultipart remote (p_http p) "/v1/skills/upload" (FormBody parts) ct w).1
    = log_sent (MHttp (mkHttpRequest "POST" (baseURL (p_http p) +:+ "/v1/skills/upload") hs
                         (FormBody parts))) s w.
Proof.
  unfold PostMultipart, doRaw, send_request. destruct (http_send _ _ _) as [s out]. by eexists _, s.
Qed.

Lemma put_grows path body : emits (S := S) (fun _ => True) (put_ remote p path body).
Proof. unfold put_, Put, doJSON. emits_auto. by apply send_request_emits. Qed.

Lemma putSkillFields_grows key spec : emits (S := S) (fun _ => True) (putSkillFields remote p key spec).
Proof.
  pose proof put_grows. pose proof (reads_grow _ (pObserve_reads remote p KindSkill key)) as Ho.
  unfold putSkillFields, with_id. emits_auto.
Qed.

Lemma resolve_keys_grows what keys m :
  emits (S := S) (fun _ => True) (resolve_keys remote p what keys m).
Proof.
  pose proof (fun k => reads_grow _ (resolveAgentID_reads remote p k)).
  revert m. induction keys; intros m; simpl; emits_auto.
Qed.

Lemma applySkillGrants_grows slug agents :
  emits (S := S) (fun _ => True) (applySkillGrants remote p deps slug agents).
Proof.
  pose proof (post_grows remote p). pose proof (delete_grows remote p). pose proof resolve_keys_grows.
  pose proof (fun k => reads_grow _ (listSkillGrantAgentKeys_reads remote p k)).
  pose proof (reads_grow _ (get_rows_reads remote p "/v1/skills" "skills" "list skills: "
                              "parse skills response: ")).
  pose proof (fun t r => reads_grow _ (find_tenant_id_reads remote p t r)).
  unfold applySkillGrants, resolveSkillIDFromList, list_skills, revoke. emits_auto.
Qed.
End skills.

(** A message sent first, then anything. *)
Lemma sends_then {S A B} (m : M (PWorld S) A) (k : A -> M (PWorld S) B) msg x s w :
  (m w).1 = log_sent x s w -> (forall a, emits (fun _ => True) (k a)) ->
  exists rest, sent (bindM (wrapM msg m) k w).1 = (sent w ++ x :: rest)%list.
Proof.
  intros Hm Hk. unfold bindM, wrapM. destruct (m w) as [w1 [a|e]]; cbn in Hm; subst w1; cbn.
  - destruct (Hk a (log_sent x s w)) as (rest & Hr & _). exists rest. rewrite Hr. cbn.
    by rewrite <- (assoc_L (++)%list).
  - by exists [].
Qed.

(** Nothing of a skill reaches the server unless its source directory is named,
    packs without error, and satisfies the command-line tools it requires on that
    server; then the first message that is not a read is the upload of exactly that
    package.  Otherwise creating it fails after reads only. *)
Theorem skill_upload_checked {U : Unicode} {S} (remote : Remote S) p deps key spec w :
  let run := createSkill remote p deps key spec w in
  let dir := getStr "sourceDir" spec in
  (exists pkg ms hs rest,
     dir <> "" /\ PackDir (d_zip deps) (d_fs deps) dir = Ok pkg /\
     (forall installed, (GetCLIVersions remote p w).2 = Ok installed ->
        (CrossCheckRequiresCli (d_semver deps) (Some spec) installed).2 = None) /\
     sent run.1 = (sent w ++ ms ++
       MHttp (mkHttpRequest "POST" (baseURL (p_http p) +:+ "/v1/skills/upload") hs
                (FormBody (skill_form key dir pkg))) :: rest)%list /\
     Forall read_message ms)
  \/ (is_ok run.2 = false /\ extends read_message w run.1).
Proof.
  intros run dir. subst run. destruct (createSkill _ _ _ _ _ w) as [wf rf] eqn:E. cbn [fst snd].
  unfold createSkill in E. fold dir in E. clearbody dir.
  destruct (String.eqb_spec dir "") as [|Hne].
  { injection E as <- <-. right. split; [done|apply extends_refl]. }
  pose proof (check_cli_reads remote p deps key spec w) as Hc.
  assert (Hcross : is_ok (check_cli remote p deps key spec w).2 = true ->
    forall installed, (GetCLIVersions remote p w).2 = Ok installed ->
      (CrossCheckRequiresCli (d_semver deps) (Some spec) installed).2 = None).
  { unfold check_cli, bindM, tryM. destruct (GetCLIVersions remote p w) as [w1 [i|e]]; [|done].
    intros Hok ? [= <-]. by destruct (CrossCheckRequiresCli _ _ _).2. }
  unfold bindM at 1 in E. destruct (check_cli remote p deps key spec w) as [w1 [[]|e]].
  2:{ injection E as <- <-. by right. }
  specialize (Hcross eq_refl). cbn in Hc. destruct Hc as (ms & Hms & Hr).
  destruct (PackDir (d_zip deps) (d_fs deps) dir) as [pkg|e].
  2:{ injection E as <- <-. right. split; [done|by exists ms]. }
  left. cbn [res_wrap] in E. unfold liftM, bindM at 1 in E.
  destruct (PostMultipart_sends remote p (skill_form key dir pkg) "multipart/form-data" w1)
    as (hs & s & Hs).
  match type of E with
  | bindM (wrapM ?msg _) ?k _ = _ => destruct (sends_then _ k msg _ _ _ Hs) as [rest Hrest]
  end.
  2:{ rewrite E in Hrest. cbn in Hrest. exists pkg, ms, hs, rest.
      by rewrite Hrest, Hms, <- (assoc_L (++)%list). }
  intros _. apply emits_bind; [|intros _].
  - destruct (hasOverlay spec); [apply emits_wrap, putSkillFields_grows|apply emits_skip].
  - destruct (extractGrantAgents spec); [apply emits_skip|apply emits_wrap, applySkillGrants_grows].
Qed.


(** ** What is not revoked *)

Definition not_delete (m : Message) : Prop :=
  match m with MHttp rq => rq_method rq <> "DELETE" | _ => True end.

Section not_delete.
Context {U : Unicode} {S : Type} (remote : Remote S) (p : Provider) (deps : Deps).

Lemma reads_not_delete {A} (m : M (PWorld S) A) : emits read_message m -> emits not_delete m.
Proof. apply emits_mono. intros [rq| |] H; [|done|done]. cbn in *. by rewrite H. Qed.

Lemma put_not_delete path body : emits (S := S) not_delete (put_ remote p path body).
Proof. unfold put_, Put, doJSON. emits_auto. by apply send_request_emits. Qed.
End not_delete.

(** Updating a skill from its source directory never revokes a grant when the
    manifest lists no agents: nothing the update sends is a DELETE, whatever grants
    the server holds. *)
Theorem skill_source_update_keeps_grants {U : Unicode} {S} (remote : Remote S) p deps key spec w :
  getStr "sourceDir" spec <> "" -> extractGrantAgents spec = [] ->
  extends not_delete w (Update (goclaw remote p deps) KindSkill key spec w).1.
Proof.
  intros Hd Hg. change (Update (goclaw remote p deps) KindSkill key spec)
    with (updateSkill remote p deps key spec).
  unfold updateSkill. destruct (String.eqb_spec (getStr "sourceDir" spec) ""); [done|].
  revert w. change (emits not_delete (createSkill remote p deps key spec)).
  pose proof (reads_not_delete _ (check_cli_reads remote p deps key spec)).
  pose proof (reads_not_delete _ (pObserve_reads remote p KindSkill key)) as Ho.
  pose proof (put_not_delete remote p).
  unfold createSkill. rewrite Hg. unfold putSkillFields, with_id. emits_auto.
  by apply send_request_emits.
Qed.

Lemma skill_source_update_keeps_grants_witness :
  extends not_delete toy_start
    (Update (goclaw toy_remote toy_provider toy_deps) KindSkill "lint"
       [("sourceDir", VStr "skills/lint")] toy_start).1.
Proof. by apply skill_source_update_keeps_grants. Defined.
