(* ===== verification/GoclawTable.v ===== *)
(** * Resources kept in a table

    Tenants, LLM providers, agents and secure CLIs are each a list that the server shows
    under one path: [Create] posts a row to it, [Update] puts one, [Observe] looks a row up
    in it ([tenants.go], [providers.go], [agents.go], [secure_cli.go]).  [RestTable] is what
    these operations rely on of the server; under it, what was written is observed in
    sync ([write_settles]): the composition of the translation of keys, JSON both ways,
    the fields that observation drops and the comparison of specs. *)
From Stdlib Require Import ZArith Lia Bool Ascii.
From Stdlib Require String.
From S2P Require Import Prelude GoStr GoValue Manifest Keyconv Filepath Validate Json JsonParse JsonRound.
From S2P Require Import Compare Sha256 WriteOnly Engine EngineProps EngineTrace EngineConverge JsonWire Echo.
From S2P Require Import Http GoclawBase GoclawHttp GoclawProvider GoclawEmits GoclawProps GoclawMutations GoclawGrants.

Local Open Scope string_scope.

#[local] Arguments CompareSpecExcluding : simpl never.
#[local] Arguments hash_drift : simpl never.
#[local] Arguments desired_hash : simpl never.

(** ** Tables *)

(** The path of the list, its member of the answer, the field that names a row, the
    fields that observation drops besides the internal ones, and whether rows belong to
    tenants. *)
Record table := mkTable {
  t_path : string;
  t_list : string;
  t_key : string;
  t_hidden : list string;
  t_scoped : bool
}.

Definition table_of (kind : ResourceKind) : option table :=
  mget kind
    [ (KindTenant, mkTable "/v1/tenants" "tenants" "slug" [] false);
      (KindProvider, mkTable "/v1/providers" "providers" "name" [] true);
      (KindAgent, mkTable "/v1/agents" "agents" "agent_key" [] true);
      (KindSecureCLI, mkTable "/v1/cli-credentials" "items" "binary_name"
                        ["env_keys"; "encrypted_env"] true) ].

(** The rows the provider looks at: all, or those without tenant and of its own. *)
Definition sees (t : table) (p : Provider) (u : string) (row : gomap) : bool :=
  negb (t_scoped t) || String.eqb (tenantID p) "" || own u row.

Definition named (t : table) (key : string) (row : gomap) : bool := String.eqb (strVal row (t_key t)) key.

(** The row of [key]: the first of that name that the provider sees. *)
Definition row_of (t : table) (p : Provider) (u key : string) (rows : list gomap) : option gomap :=
  List.find (fun r => named t key r && sees t p u r) rows.

Lemma row_of_elem t p u key rows row : row_of t p u key rows = Some row -> row ∈ rows.
Proof. intros [H _]%find_some. by apply list_elem_of_In. Qed.

(** What [Observe] makes of it. *)
Definition shown {U : Unicode} (t : table) (row : gomap) : gomap :=
  translateResult (stripInternal (delete_fields (t_hidden t) row)).
#[local] Arguments shown : simpl never.

(** ** What the operations rely on *)

(** A row as the server writes it: one member per name, in snake_case. *)
Definition row_ok (row : gomap) : Prop :=
  uniq_keys row /\ Forall (fun k => snake_key k = true) (mkeys row).

Definition accepted (code : Z) : Prop := (200 <= code < 300)%Z.

(** The row has the members of [m] that are columns of the table. *)
Definition stores (columns : list string) (m row : gomap) : Prop :=
  forall k v, k ∈ columns -> mget k m = Some v -> mget k row = Some v.

Definition holds (t : table) (p : Provider) (u : string) (columns : list string) (key : string) (m : gomap)
    (rows : list gomap) : Prop :=
  exists row, row_of t p u key rows = Some row /\ stores columns m row.

(** The server's side: a GET shows the table, which fits in a response, and changes
    nothing; after a POST that is accepted, and after a PUT to the id of the row of a
    name, the row of that name has the columns that were sent.  [columns] are those that
    the server shows; a table that does not keep the hash of the hidden ones shows none. *)
Class RestTable {S} (remote : Remote S) (p : Provider) (u : string) (t : table) (columns : list string)
    (rows : S -> list gomap) : Prop := {
  rest_rows s row : row ∈ rows s -> row_ok row;
  rest_no_hash s row : row ∈ rows s -> "write_only_hash" ∉ columns -> mget "write_only_hash" row = None;
  rest_get hs s s' code body :
    http_send remote (mkHttpRequest "GET" (baseURL (p_http p) +:+ t_path t) hs NoBody) s = (s', Response code body) ->
    accepted code ->
    rows s' = rows s /\ (Z.of_nat (String.length body) <= maxResponseSize)%Z /\
    unmarshal_maps (t_list t) body = Ok (rows s);
  rest_post hs data m key s s' code body :
    http_send remote (mkHttpRequest "POST" (baseURL (p_http p) +:+ t_path t) hs (BytesBody data)) s
      = (s', Response code body) ->
    accepted code -> UnmarshalMap data = Ok m -> mget (t_key t) m = Some (VStr key) ->
    holds t p u columns key m (rows s');
  rest_put hs data m key row id s s' code body :
    row_of t p u key (rows s) = Some row -> mget "id" row = Some (VStr id) ->
    http_send remote (mkHttpRequest "PUT" (baseURL (p_http p) +:+ t_path t +:+ "/" +:+ id) hs (BytesBody data)) s
      = (s', Response code body) ->
    accepted code -> UnmarshalMap data = Ok m ->
    mget (t_key t) m = None \/ mget (t_key t) m = Some (VStr key) ->
    holds t p u columns key m (rows s')
}.

(** A column that observation shows. *)
Definition compared (t : table) (columns : list string) (f : string) : Prop :=
  f ∈ columns /\ f ∉ internalFields /\ f ∉ t_hidden t.

(** What is required of a spec: camelCase keys, values that JSON carries, and every
    field either write-only or a column that is shown. *)
Record storable {U : Unicode} {UA : UnicodeAscii U} (t : table) (kind : ResourceKind) (columns : list string)
    (spec : gomap) : Prop := {
  st_camel : camel_val (VMap spec);
  st_carried : carried (VMap spec) = true;
  st_depth : (depth (VMap spec) <= maxNestingDepth)%Z;
  st_sets : set_fields_ok "" spec;
  st_reserved k : k ∈ mkeys spec ->
    camelToSnake k ∉ ["tenant_id"; "context_files"; "write_only_hash"; t_key t];
  st_columns k : k ∈ mkeys spec -> excluded (WriteOnlyFields kind) "" k = false ->
    compared t columns (camelToSnake k)
}.

(** ** The body that is sent *)

Section body.
Context {U : Unicode} {UA : UnicodeAscii U}.

(** What a body made of [spec] carries under the name of [k]. *)
Definition sends (spec body : gomap) : Prop :=
  forall k x, (k, x) ∈ spec -> mget (camelToSnake k) body = Some (sent_value k x).

(** A body that can be written. *)
Definition writable (body : gomap) : Prop :=
  carried (VMap body) = true /\ (depth (VMap body) <= maxNestingDepth)%Z.

(** A spec whose body can be written. *)
Definition sendable (spec : gomap) : Prop :=
  camel_val (VMap spec) /\ carried (VMap spec) = true /\ (depth (VMap spec) <= maxNestingDepth)%Z.

Lemma camel_inj spec k k' :
  sendable spec -> k ∈ mkeys spec -> camel_key k' = true -> camelToSnake k = camelToSnake k' -> k = k'.
Proof.
  intros [[_ Hf]%camel_val_VMap _] Hk Hk' He. apply list_elem_of_fmap in Hk as ([k0 x] & -> & Hin).
  rewrite Forall_forall in Hf. destruct (Hf _ Hin) as [Hc _]. cbn [fst] in *.
  rewrite <- (snakeToCamel_camelToSnake k0), He by done. by apply snakeToCamel_camelToSnake.
Qed.

Lemma translateSpec_writable spec : sendable spec -> writable (translateSpec spec).
Proof.
  intros (Hv & Hc & Hd). unfold writable, translateSpec, CamelToSnake. rewrite <- transformValue_VMap.
  split; [by apply carried_transform|by apply depth_transform].
Qed.

Lemma translateSpec_sends spec : sendable spec -> sends spec (translateSpec spec).
Proof.
  intros Hs k x Hin. destruct Hs as (Hv & Hc & Hd) eqn:E. pose proof Hv as [Hu Hf]%camel_val_VMap.
  unfold translateSpec, CamelToSnake. apply transformKeys_lookup; [done|by apply mget_in|].
  intros k' Hk' He. apply (camel_inj spec); [by split|done| |done].
  rewrite Forall_forall in Hf. by destruct (Hf _ Hin).
Qed.

(** The keys of a body are the names of the fields of its spec. *)
Lemma translateSpec_keys spec f :
  sendable spec -> f ∈ mkeys (translateSpec spec) -> exists k, k ∈ mkeys spec /\ f = camelToSnake k.
Proof.
  intros (Hv & _ & _). pose proof Hv as [Hu Hf]%camel_val_VMap. unfold translateSpec, CamelToSnake.
  rewrite transformKeys_map by by apply camelToSnake_uniq. unfold mkeys. rewrite map_map.
  intros (kv & -> & Hin)%list_elem_of_fmap. exists kv.1. split; [|done]. apply list_elem_of_fmap. by exists kv.
Qed.

Lemma writable_uniq body : writable body -> uniq_keys body.
Proof. by intros [[Hu _]%carried_VMap _]. Qed.

(** Entries of a map after an assignment are old ones or the new one. *)
Lemma mset_elem {A} k (v : A) m kv : kv ∈ mset k v m -> kv = (k, v) \/ kv ∈ m.
Proof.
  induction m as [|[k' v'] m IH]; cbn [mset]; [intros ->%list_elem_of_singleton; by left|].
  destruct (String.eqb k k'); rewrite !elem_of_cons; intuition.
Qed.

Lemma writable_mset k s body : utf8 k = true -> utf8 s = true -> writable body -> writable (mset k (VStr s) body).
Proof.
  intros Hk Hs [[Hu Hc]%carried_VMap [Hd Hv]%depth_VMap]. split.
  - apply carried_VMap. split; [by apply uniq_keys_mset|]. rewrite Forall_forall in *.
    by intros kv [->|?]%mset_elem; auto.
  - apply depth_VMap. split; [done|]. rewrite Forall_forall in *.
    by intros kv [->|?]%mset_elem; auto.
Qed.

Lemma Forall_mdel {A} (P : string * A -> Prop) k m : Forall P m -> Forall P (mdel k m).
Proof.
  rewrite !Forall_forall. intros H kv Hin. apply H. unfold mdel in Hin.
  rewrite list_elem_of_In in Hin |- *. by apply filter_In in Hin as [? _].
Qed.

Lemma writable_mdel k body : writable body -> writable (mdel k body).
Proof.
  intros [[Hu Hc]%carried_VMap [Hd Hv]%depth_VMap]. split.
  - apply carried_VMap. split; [by apply uniq_keys_mdel|]. by apply Forall_mdel.
  - apply depth_VMap. split; [done|]. by apply Forall_mdel.
Qed.

(** Adding a field with a camelCase key and a string to a spec. *)
Lemma sendable_mset k s spec :
  camel_key k = true -> utf8 s = true -> sendable spec -> sendable (mset k (VStr s) spec).
Proof.
  intros Hk Hs ([Hu Hf]%camel_val_VMap & Hc & Hd).
  assert (Hk8 : utf8 k = true) by (apply utf8_ascii; by apply camel_key_ascii).
  destruct (writable_mset k s spec Hk8 Hs) as [Hc' Hd']; [done|]. split; [|done].
  apply camel_val_VMap. split; [by apply uniq_keys_mset|]. rewrite Forall_forall in *.
  intros kv [->|?]%mset_elem; auto. split; [done|by right].
Qed.
End body.

(** ** What is observed *)

Lemma mget_wire_map k m : uniq_keys m -> mget k (wire_map m) = option_map wire (mget k m).
Proof.
  intros Hu. unfold wire_map.
  rewrite (mget_perm k _ (map (fun kv => (kv.1, wire kv.2)) m)); [apply mget_map| |apply sort_by_perm].
  unfold uniq_keys, mkeys. rewrite sort_by_perm, map_map. exact Hu.
Qed.

Section observed.
Context {U : Unicode} {UA : UnicodeAscii U}.

(** On ASCII the conversion does not depend on the Unicode tables. *)
Lemma snakeToCamel_tables s :
  ascii_string s = true -> snakeToCamel s = @snakeToCamel ascii_unicode s.
Proof.
  intros Ha. rewrite snakeToCamel_scan by done. rewrite (@snakeToCamel_scan ascii_unicode ascii_unicode_ok) by done.
  do 2 f_equal. pose proof (ascii_bytes s Ha) as Hr. generalize false.
  induction Hr as [|r rs Hr _ IH]; intros up; [done|]. cbn [snake_scan].
  destruct (Z.eqb r underscore); [apply IH|]. rewrite IH. f_equal. destruct up; [|done].
  rewrite ToUpper_ascii by done. symmetry. by apply (@ToUpper_ascii ascii_unicode ascii_unicode_ok).
Qed.

Lemma camelToSnake_of k f :
  ascii_string f = true -> snake_key f = true -> @snakeToCamel ascii_unicode f = k -> camelToSnake k = f.
Proof. intros Ha Hf <-. rewrite <- snakeToCamel_tables by done. by apply camelToSnake_snakeToCamel. Qed.

Lemma camelToSnake_hash : camelToSnake WriteOnlyHashField = "write_only_hash".
Proof. apply camelToSnake_of; vm_compute; reflexivity. Qed.

(** A row less some fields. *)
Definition kept (t : table) (row : gomap) : gomap := stripInternal (delete_fields (t_hidden t) row).

Lemma kept_ok t row : row_ok row -> row_ok (kept t row).
Proof.
  intros [Hu Hs]. split; [by apply delete_fields_uniq, delete_fields_uniq|].
  rewrite Forall_forall in *. intros k (kv & -> & Hin)%list_elem_of_fmap. apply Hs, list_elem_of_fmap.
  exists kv. split; [done|]. by apply delete_fields_elem in Hin as Hin%delete_fields_elem.
Qed.

Lemma mget_kept t row f : f ∉ internalFields -> f ∉ t_hidden t -> mget f (kept t row) = mget f row.
Proof. intros Hi Hh. unfold kept, stripInternal. by rewrite !mget_delete_fields. Qed.

Lemma shown_field t row f :
  row_ok row -> snake_key f = true -> f ∉ internalFields -> f ∉ t_hidden t ->
  mget (snakeToCamel f) (shown t row) = option_map (fun y => (transformEntry snakeToCamel (f, y)).2) (mget f row).
Proof.
  intros Hr Hf Hi Hh. destruct (kept_ok t row Hr) as [Hu Hs]. rewrite Forall_forall in Hs.
  rewrite <- (mget_kept t row f) by done. unfold shown, translateResult, SnakeToCamel. fold (kept t row).
  assert (Hinj : forall k', k' ∈ mkeys (kept t row) -> snakeToCamel k' = snakeToCamel f -> k' = f).
  { intros k' Hk' He. rewrite <- (camelToSnake_snakeToCamel k'), He by auto. by apply camelToSnake_snakeToCamel. }
  destruct (mget f (kept t row)) as [y|] eqn:E; cbn [option_map].
  - by apply transformKeys_lookup.
  - apply transformKeys_other. intros k' Hk' He. apply mget_None in E. apply E. by rewrite <- (Hinj k').
Qed.

Lemma shown_camel t row k y :
  row_ok row -> camel_key k = true -> camelToSnake k ∉ internalFields -> camelToSnake k ∉ t_hidden t ->
  mget (camelToSnake k) row = Some y ->
  mget k (shown t row) = Some (transformEntry snakeToCamel (camelToSnake k, y)).2.
Proof.
  intros Hr Hk Hi Hh Hy. pose proof Hr as [_ Hs]. rewrite Forall_forall in Hs.
  rewrite <- (snakeToCamel_camelToSnake k Hk) at 1. rewrite shown_field, Hy; [done|done| |done|done].
  apply Hs, list_elem_of_fmap. exists (camelToSnake k, y). split; [done|]. by apply mget_Some_in.
Qed.

(** The row echoes the spec that was written. *)
Lemma stored_echoes t kind columns spec m row :
  storable t kind columns spec -> row_ok row ->
  (forall k x, (k, x) ∈ spec -> mget (camelToSnake k) m = Some (wire (sent_value k x))) ->
  stores columns m row -> echoes (WriteOnlyFields kind) "" spec (shown t row).
Proof.
  intros Hs Hr Hm Hst k x Hin Hx. exists (arrives k x).
  assert (Hk : k ∈ mkeys spec) by (apply list_elem_of_fmap; by exists (k, x)).
  destruct (st_columns _ _ _ _ Hs k Hk Hx) as (Hc & Hi & Hh).
  pose proof (st_camel _ _ _ _ Hs) as [_ Hf]%camel_val_VMap.
  pose proof (st_carried _ _ _ _ Hs) as [_ Hcar]%carried_VMap. rewrite Forall_forall in Hf, Hcar.
  pose proof (Hf _ Hin) as Hentry. split; [|by apply echo_arrives; [apply (Hcar _ Hin)|]].
  apply (shown_camel t row k); [done|by destruct Hentry|done|done|]. by apply Hst, Hm.
Qed.
End observed.

(** ** The requests *)

Lemma take_bytes_all n s : (Z.of_nat (String.length s) <= n)%Z -> take_bytes n s = s.
Proof.
  revert n. induction s as [|c s IH]; intros n Hn; [done|]. cbn [take_bytes String.length] in *.
  destruct (Z.leb_spec n 0); [lia|]. f_equal. apply IH. lia.
Qed.

Lemma classifyStatus_accepted code body : classifyStatus code body = None -> accepted code.
Proof. unfold classifyStatus, accepted. repeat case_match; try done. lia. Qed.

Section operations.
Context {U : Unicode} {UA : UnicodeAscii U} {S : Type} (remote : Remote S) (p : Provider) (deps : Deps) (u : string).
Context (t : table) (columns : list string) (rows : S -> list gomap).
Context {RT : RestTable remote p u t columns rows}.
Abbreviation Mp := (M (PWorld S)).

(** The tenant, if there is one, has been resolved to [u]. *)
Definition ready (w : PWorld S) : Prop := tenantID p = "" \/ (u <> "" /\ tenant w = Some (Ok u)).

Lemma ready_same w w' : tenant w' = tenant w -> ready w -> ready w'.
Proof. unfold ready. by intros ->. Qed.

Lemma send_ok method path rq w w' text :
  send_request remote method path rq w = (w', Ok text) ->
  tenant w' = tenant w /\
  exists code body, http_send remote rq (server w) = (server w', Response code body) /\ accepted code /\
                    text = take_bytes maxResponseSize body.
Proof.
  unfold send_request. destruct (http_send remote rq (server w)) as [s out].
  destruct out as [| | |code body]; try done. destruct (classifyStatus _ _) eqn:Ec; [done|].
  intros [= <- <-]. split; [done|]. exists code, body. split; [done|]. split; [|done].
  by eapply classifyStatus_accepted.
Qed.

Lemma rows_ok a b w w' l :
  get_rows remote p (t_path t) (t_list t) a b w = (w', Ok l) ->
  l = rows (server w) /\ rows (server w') = rows (server w) /\ tenant w' = tenant w.
Proof.
  unfold get_rows, decode_rows, liftP. intros (data & w1 & Hg & Hd)%bindM_ok.
  apply wrapM_ok in Hg. apply send_ok in Hg as (Ht & code & body & Hs & Ha & ->).
  destruct (rest_get _ _ _ _ _ Hs Ha) as (Hr & Hl & Hu). rewrite take_bytes_all in Hd by done.
  unfold liftM, res_wrap in Hd. rewrite Hu in Hd. by injection Hd as <- <-.
Qed.

(** [json.Marshal] of a body that can be written. *)
Lemma body_data body : writable body -> exists data, Marshal (VMap body) = Some data /\ UnmarshalMap data = Ok (wire_map body).
Proof. intros [Hc Hd]. by apply UnmarshalMap_Marshal. Qed.

Lemma key_of_wire body f s : writable body -> mget f body = Some (VStr s) -> mget f (wire_map body) = Some (VStr s).
Proof. intros Hw Hf. rewrite mget_wire_map by by apply writable_uniq. by rewrite Hf. Qed.

Lemma post_ok msg key body w w' :
  writable body -> mget (t_key t) body = Some (VStr key) ->
  post_ remote p msg (t_path t) body w = (w', Ok tt) ->
  tenant w' = tenant w /\ holds t p u columns key (wire_map body) (rows (server w')).
Proof.
  intros Hw Hk. unfold post_. intros (text & w1 & Hp & Hr)%bindM_ok. injection Hr as <-.
  apply wrapM_ok in Hp. unfold Post, doJSON in Hp. destruct (body_data body Hw) as (data & Hm & Hd).
  rewrite Hm in Hp. apply send_ok in Hp as (Ht & code & answer & Hs & Ha & _). split; [done|].
  eapply rest_post; [exact Hs|done|exact Hd|]. by apply key_of_wire.
Qed.

Lemma put_ok label id key row body w w' :
  writable body -> mget (t_key t) body = None \/ mget (t_key t) body = Some (VStr key) ->
  row_of t p u key (rows (server w)) = Some row -> mget "id" row = Some (VStr id) ->
  put_found remote p label id (t_path t +:+ "/" +:+ id) body w = (w', Ok tt) ->
  tenant w' = tenant w /\ holds t p u columns key (wire_map body) (rows (server w')).
Proof.
  intros Hw Hk Hrow Hid. unfold put_found. intros (r & w1 & Hp & Hr)%bindM_ok.
  destruct r as [text|err]; [|by destruct (errorsIs err ErrNotFound)]. injection Hr as <-.
  unfold tryM in Hp. destruct (Put _ _ _ _ w) as [w2 r] eqn:Hput. injection Hp as <- ->.
  unfold Put, doJSON in Hput. destruct (body_data body Hw) as (data & Hm & Hd).
  rewrite Hm in Hput. apply send_ok in Hput as (Ht & code & answer & Hs & Ha & _). split; [done|].
  eapply rest_put; [exact Hrow|exact Hid|exact Hs|done|exact Hd|].
  destruct Hk as [Hk|Hk]; [left|right; by apply key_of_wire].
  rewrite mget_wire_map by by apply writable_uniq. by rewrite Hk.
Qed.

(** ** Observation *)

Lemma find_row_ready key l w :
  t_scoped t = true -> ready w -> find_row remote p (named t key) l w = (w, Ok (row_of t p u key l)).
Proof.
  intros Hsc Hr. unfold row_of, sees. rewrite Hsc. destruct (String.eqb_spec (tenantID p) "") as [He|He].
  - clear Hr. induction l as [|row l IH]; [done|]. cbn [find_row List.find].
    destruct (named t key row); [|exact IH]. cbn [andb].
    unfold bindM, matchesTenant. by rewrite He.
  - destruct Hr as [?|[Hu Ht]]; [done|]. by rewrite (find_row_resolved remote p u).
Qed.

Lemma row_of_unscoped key l : t_scoped t = false -> row_of t p u key l = List.find (named t key) l.
Proof.
  intros Hsc. unfold row_of, sees. rewrite Hsc. cbn [negb orb].
  induction l as [|row l IH]; [done|]. cbn [List.find]. rewrite andb_true_r. by destruct (named t key row).
Qed.

(** What an observation of [key] comes to. *)
Definition observes (observe : Mp (option gomap)) (key : string) : Prop :=
  forall w w' o, ready w -> observe w = (w', Ok o) ->
    o = option_map (shown t) (row_of t p u key (rows (server w))) /\
    rows (server w') = rows (server w) /\ tenant w' = tenant w.

Lemma observes_rows a b key (hide : option gomap -> option gomap) :
  t_scoped t = true -> (forall row, hide row = option_map (delete_fields (t_hidden t)) row) ->
  observes (let! l := get_rows remote p (t_path t) (t_list t) a b in
            let! row := find_row remote p (named t key) l in
            retM (observed (hide row)))%go key.
Proof.
  intros Hsc Hh w w' o Hr (l & w1 & Hl & Hf)%bindM_ok. apply rows_ok in Hl as (-> & Hrows & Ht).
  apply bindM_ok in Hf as (row & w2 & Hf & Ho).
  rewrite find_row_ready in Hf by (done || by apply (ready_same w)). injection Hf as <- <-.
  injection Ho as <- <-. split; [|done]. rewrite Hh. unfold observed.
  by destruct (row_of t p u key (rows (server w))).
Qed.
End operations.

(** Every kind of [table_of] observes its table. *)
Lemma observe_kind {U : Unicode} {UA : UnicodeAscii U} {S} (remote : Remote S) p u kind t columns rows key :
  table_of kind = Some t -> RestTable remote p u t columns rows ->
  observes p u t rows (pObserve remote p kind key) key.
Proof.
  intros H%mget_Some_in RT.
  repeat (apply elem_of_cons in H as [H|H]; [simplify_eq|]); try by apply not_elem_of_nil in H.
  - intros w w' o Hr (l & w1 & Hl & Hf)%bindM_ok.
    apply (rows_ok remote p u (mkTable "/v1/tenants" "tenants" "slug" [] false) columns rows) in Hl as (-> & Hrows & Ht).
    injection Hf as <- <-. split; [|done]. rewrite row_of_unscoped by done.
    by destruct (List.find _ (rows (server w))).
  - by apply (observes_rows remote p u (mkTable "/v1/providers" "providers" "name" [] true) columns rows _ _ key id);
      [|intros []].
  - by apply (observes_rows remote p u (mkTable "/v1/agents" "agents" "agent_key" [] true) columns rows _ _ key id);
      [|intros []].
  - by apply (observes_rows remote p u (mkTable "/v1/cli-credentials" "items" "binary_name"
                ["env_keys"; "encrypted_env"] true) columns rows _ _ key _); [|intros []].
Qed.

(** ** The requests of each kind *)

(** The bodies that the kinds send: the translated spec, with the name or not, and for
    agents without the context files. *)
Inductive body_of (t : table) (key : string) (spec : gomap) {U : Unicode} : gomap -> Prop :=
  | body_plain : body_of t key spec (translateSpec spec)
  | body_named body : body_of t key spec body -> body_of t key spec (mset (t_key t) (VStr key) body)
  | body_without body : body_of t key spec body -> body_of t key spec (mdel "context_files" body).

Ltac table_cases H :=
  apply mget_Some_in in H;
  repeat (apply elem_of_cons in H as [H|H]; [injection H as -> ->|]); [..|by apply not_elem_of_nil in H].

Lemma create_shape {U : Unicode} {S} (remote : Remote S) p deps kind t key spec :
  table_of kind = Some t -> contextFiles spec = [] ->
  exists msg body, body_of t key spec body /\ mget (t_key t) body = Some (VStr key) /\
    forall w, create_kind remote p deps kind key spec w = post_ remote p msg (t_path t) body w.
Proof.
  intros H Hc. table_cases H.
  - eexists _, _. split; [apply body_named, body_plain|]. split; [apply mget_mset_eq|done].
  - eexists _, _. split; [apply body_named, body_plain|]. split; [apply mget_mset_eq|done].
  - exists ("create agent " +:+ key +:+ ": "). eexists. split; [apply body_without, body_named, body_plain|].
    split; [rewrite mget_mdel; apply mget_mset_eq|]. intros w.
    change (create_kind remote p deps KindAgent key spec w) with (createAgent remote p deps key spec w).
    unfold createAgent. rewrite Hc. unfold bindM. cbn [t_path t_key]. by destruct (post_ _ _ _ _ _ w) as [w1 [[]|e]].
  - eexists _, _. split; [apply body_named, body_plain|]. split; [apply mget_mset_eq|done].
Qed.

Lemma update_shape {U : Unicode} {S} (remote : Remote S) p deps kind t key spec :
  table_of kind = Some t -> contextFiles spec = [] ->
  exists label err label' body, body_of t key spec body /\
    forall w, pUpdate remote p deps kind key spec w
      = with_id label (pObserve remote p kind key) (failM err)
          (fun id => put_found remote p label' id (t_path t +:+ "/" +:+ id) body) w.
Proof.
  intros H Hc. table_cases H.
  - eexists _, _, _, _. split; [apply body_plain|]. done.
  - eexists _, _, _, _. split; [apply body_named, body_plain|]. done.
  - eexists ("agent " +:+ key), _, ("agent " +:+ key), _. split; [apply body_without, body_plain|]. intros w.
    change (pUpdate remote p deps KindAgent key spec w) with (updateAgent remote p deps key spec w).
    change (pObserve remote p KindAgent key) with (observeAgent remote p key). unfold updateAgent, with_id. rewrite Hc. unfold bindM. destruct (observeAgent _ _ _ w) as [w1 [[c|]|e]]; [|done..].
    destruct (idOf c); [|done]. by destruct (put_found _ _ _ _ _ _ w1) as [w2 [[]|e]].
  - eexists _, _, _, _. split; [apply body_plain|]. done.
Qed.

(** ** Writing *)

(** What a body carries of a spec: all but the name and the context files. *)
Definition carries {U : Unicode} (t : table) (spec body : gomap) : Prop :=
  forall k x, (k, x) ∈ spec -> camelToSnake k ∉ ["context_files"; t_key t] ->
              mget (camelToSnake k) body = Some (sent_value k x).

Lemma table_facts kind t :
  table_of kind = Some t ->
  "id" ∉ t_hidden t /\ "write_only_hash" ∉ t_hidden t /\ utf8 (t_key t) = true /\
  t_key t <> "context_files" /\ t_key t <> "write_only_hash".
Proof. intros H. table_cases H; repeat split; set_solver || reflexivity || discriminate. Qed.

Section bodies.
Context {U : Unicode} {UA : UnicodeAscii U} (u : string) (kind : ResourceKind) (t : table).
Context (Hkind : table_of kind = Some t).

(** A spec that can be sent, its name, and no field that the operations treat apart. *)
Record named_spec (key : string) (spec : gomap) : Prop := {
  ns_sendable : sendable spec;
  ns_key : utf8 key = true;
  ns_reserved k : k ∈ mkeys spec -> camelToSnake k ∉ ["context_files"; t_key t]
}.

Lemma no_context_files key spec : named_spec key spec -> contextFiles spec = [].
Proof.
  intros [_ _ Hr]. unfold contextFiles, getAs. destruct (mget "contextFiles" spec) as [v|] eqn:E; [|done].
  exfalso. apply (Hr "contextFiles").
  - apply list_elem_of_fmap. exists ("contextFiles", v). split; [done|]. by apply mget_Some_in.
  - rewrite (camelToSnake_of _ "context_files") by (vm_compute; reflexivity). set_solver.
Qed.

Lemma body_carries key spec body :
  named_spec key spec -> body_of t key spec body ->
  writable body /\ carries t spec body /\
  (mget (t_key t) body = None \/ mget (t_key t) body = Some (VStr key)).
Proof.
  intros [Hs Hk Hr]. destruct (table_facts kind t Hkind) as (_ & _ & Hk8 & Hne & _).
  induction 1 as [|body _ (Hw & Hc & Hm)|body _ (Hw & Hc & Hm)].
  - split; [by apply translateSpec_writable|]. split; [intros k x Hin _; by apply translateSpec_sends|]. left.
    apply mget_None. intros (k & Hin & He)%translateSpec_keys; [|done]. apply (Hr k Hin). set_solver.
  - split; [by apply writable_mset|]. split; [|right; apply mget_mset_eq].
    intros k x Hin Hx. rewrite mget_mset_ne; [by apply Hc|set_solver].
  - split; [by apply writable_mdel|]. split.
    + intros k x Hin Hx. rewrite mget_mdel.
      destruct (String.eqb_spec (camelToSnake k) "context_files"); [set_solver|by apply Hc].
    + rewrite mget_mdel. by destruct (String.eqb_spec (t_key t) "context_files").
Qed.

Lemma tenant_spec key spec :
  utf8 u = true -> named_spec key spec -> named_spec key (mset "tenantId" (VStr u) spec).
Proof.
  intros Hu [Hs Hk Hr]. split; [by apply sendable_mset|done|].
  intros k Hin. apply list_elem_of_fmap in Hin as ([k' x] & -> & [[= -> ->]|Hin]%mset_elem).
  - cbn [fst]. rewrite camelToSnake_tenantId. revert Hkind. clear. intros H. table_cases H; set_solver.
  - apply Hr, list_elem_of_fmap. by exists (k', x).
Qed.

Lemma idOf_shown row id :
  row_ok row -> "id" ∉ t_hidden t -> idOf (shown t row) = Some id -> mget "id" row = Some (VStr id).
Proof.
  intros Hr Hh. unfold idOf, getAs. pose proof (shown_field t row "id" Hr eq_refl ltac:(set_solver) Hh) as Hs.
  change (snakeToCamel "id") with "id" in Hs. rewrite Hs.
  destruct (mget "id" row) as [y|]; [|done]. cbn [option_map]. unfold transformEntry. cbn [fst snd].
  change (passthroughKey "id" || passthroughKey (snakeToCamel "id")) with false. destruct y; try done. by intros [= ->].
Qed.

End bodies.

Section writing.
Context {U : Unicode} {UA : UnicodeAscii U} {S : Type} (remote : Remote S) (p : Provider) (deps : Deps) (u : string).
Context (kind : ResourceKind) (t : table) (columns : list string) (rows : S -> list gomap).
Context {RT : RestTable remote p u t columns rows} (Hkind : table_of kind = Some t).
Abbreviation Mp := (M (PWorld S)).

(** A write that succeeded: the row of [key] has what the body carried. *)
Definition written (key : string) (spec : gomap) (w w' : PWorld S) : Prop :=
  tenant w' = tenant w /\
  exists body row, writable body /\ carries t spec body /\
    row_of t p u key (rows (server w')) = Some row /\ stores columns (wire_map body) row.

Lemma create_kind_written key spec w w' :
  named_spec t key spec -> create_kind remote p deps kind key spec w = (w', Ok tt) -> written key spec w w'.
Proof.
  intros Hn Hc. destruct (create_shape remote p deps kind t key spec Hkind) as (msg & body & Hb & Hm & He);
    [by eapply no_context_files|]. rewrite He in Hc.
  destruct (body_carries kind t Hkind key spec body Hn Hb) as (Hw & Hca & _).
  eapply post_ok in Hc as [Ht (row & Hrow & Hst)]; [|done..]. split; [done|]. by exists body, row.
Qed.

Lemma create_written key spec w w' :
  utf8 u = true -> "tenantId" ∉ mkeys spec -> named_spec t key spec -> ready p u w ->
  pCreate remote p deps kind key spec w = (w', Ok tt) -> written key spec w w'.
Proof.
  intros Hu Ht Hn Hr. unfold pCreate.
  destruct (negb (String.eqb (tenantID p) "") && negb (String.eqb kind KindTenant)) eqn:E;
    [|by apply create_kind_written].
  apply andb_true_iff in E as [E%negb_true_iff%String.eqb_neq _]. destruct Hr as [?|[_ Hr]]; [done|].
  intros (uuid & w1 & Hres & Hc)%bindM_ok. unfold resolveTenantUUID in Hres.
  destruct (String.eqb_spec (tenantID p) ""); [done|]. rewrite Hr in Hres. injection Hres as <- <-.
  apply create_kind_written in Hc as (Htn & body & row & Hw & Hca & Hrow & Hst); [|by apply (tenant_spec u kind)].
  split; [done|]. exists body, row. split; [done|]. split; [|done]. intros k x Hin. apply Hca.
  apply mget_Some_in. rewrite mget_mset_ne; [|intros ->; apply Ht, list_elem_of_fmap; by exists ("tenantId", x)].
  apply mget_in; [|done]. destruct Hn as [[[Hu' _]%camel_val_VMap _] _ _]. done.
Qed.

Lemma update_written key spec w w' :
  named_spec t key spec -> ready p u w ->
  pUpdate remote p deps kind key spec w = (w', Ok tt) -> written key spec w w'.
Proof.
  intros Hn Hr. destruct (update_shape remote p deps kind t key spec Hkind) as (label & err & label' & body & Hb & ->);
    [by eapply no_context_files|]. destruct (table_facts kind t Hkind) as (Hid & _).
  destruct (body_carries kind t Hkind key spec body Hn Hb) as (Hw & Hca & Hm).
  unfold with_id. intros (o & w1 & Ho & Hu)%bindM_ok.
  destruct (observe_kind remote p u kind t columns rows key Hkind RT w w1 o Hr Ho) as (-> & Hrows & Ht).
  destruct (row_of t p u key (rows (server w))) as [row|] eqn:Erow; [|done]. cbn [option_map] in Hu.
  destruct (idOf (shown t row)) as [id|] eqn:Eid; [|done].
  eapply idOf_shown in Eid; [|done|by eapply (@rest_rows _ _ _ _ _ _ _ RT), row_of_elem|done].
  rewrite <- Hrows in Erow. eapply put_ok in Hu as [Ht' (row' & Hrow & Hst)]; [|done..].
  split; [congruence|]. by exists body, row'.
Qed.
End writing.

(** ** What was written is in sync *)

Section settles.
Context {U : Unicode} {UA : UnicodeAscii U} (t : table) (columns : list string).

Lemma desired_hash_utf8 r spec : utf8 (desired_hash r spec) = true.
Proof.
  unfold desired_hash. case_match; [reflexivity|]. unfold HashWriteOnlyFields. case_match; [reflexivity|].
  destruct (Marshal _) as [data|]; [|reflexivity]. apply utf8_ascii, hex_encode_ascii, Sum256_range.
Qed.

(** The spec that [execute] sends. *)
Definition with_hash (h : string) (spec : gomap) : gomap :=
  if String.eqb h "" then spec else mset WriteOnlyHashField (VStr h) spec.

Lemma storable_named kind spec h key :
  storable t kind columns spec -> utf8 h = true -> utf8 key = true -> t_key t <> "write_only_hash" ->
  named_spec t key (with_hash h spec).
Proof.
  intros Hs Hh Hk Hne. assert (Hn : named_spec t key spec).
  { split; [split; [|split]; apply Hs|done|]. intros k Hin. pose proof (st_reserved _ _ _ _ Hs k Hin). set_solver. }
  unfold with_hash. destruct (String.eqb h ""); [done|]. destruct Hn as [Hsend _ Hr].
  split; [by apply sendable_mset|done|].
  intros k Hin. apply list_elem_of_fmap in Hin as ([k' x] & -> & [[= -> ->]|Hin]%mset_elem).
  - cbn [fst]. rewrite camelToSnake_hash. set_solver.
  - apply Hr, list_elem_of_fmap. by exists (k', x).
Qed.

Lemma no_tenant_field kind spec h : storable t kind columns spec -> "tenantId" ∉ mkeys (with_hash h spec).
Proof.
  intros Hs. assert (Hn : "tenantId" ∉ mkeys spec).
  { intros Hin. pose proof (st_reserved _ _ _ _ Hs _ Hin) as Hx. rewrite camelToSnake_tenantId in Hx. set_solver. }
  unfold with_hash. destruct (String.eqb h ""); [done|]. rewrite mkeys_mset.
  destruct (mget WriteOnlyHashField spec); [done|]. set_solver.
Qed.

Lemma in_mset_ne {A} k k' (x v : A) m : uniq_keys m -> k <> k' -> (k, x) ∈ m -> (k, x) ∈ mset k' v m.
Proof. intros Hu Hne Hin. apply mget_Some_in. rewrite mget_mset_ne by done. by apply mget_in. Qed.

(** The row written for a spec agrees with it. *)
Lemma written_in_sync kind spec h body row :
  storable t kind columns spec -> table_of kind = Some t -> row_ok row ->
  (SupportsWriteOnlyHash kind = true -> "write_only_hash" ∈ columns) ->
  ("write_only_hash" ∉ columns -> mget "write_only_hash" row = None) ->
  writable body -> carries t (with_hash h spec) body -> stores columns (wire_map body) row ->
  CompareSpecExcluding spec (shown t row) (WriteOnlyFields kind) = ∅ /\
  hash_drift kind h (getStr WriteOnlyHashField (shown t row)) = false.
Proof.
  intros Hs Hkind Hr Hcol Hno Hw Hca Hst. destruct (table_facts kind t Hkind) as (_ & Hhid & _).
  pose proof (writable_uniq body Hw) as Hu.
  assert (Hres : forall k, k ∈ mkeys spec -> k <> WriteOnlyHashField).
  { intros k Hin ->. pose proof (st_reserved _ _ _ _ Hs _ Hin) as Hx. rewrite camelToSnake_hash in Hx. set_solver. }
  split.
  - apply CompareSpec_echoes; [|apply Hs]. eapply stored_echoes; [done|done| |exact Hst].
    intros k x Hin. assert (Hk : k ∈ mkeys spec) by (apply list_elem_of_fmap; by exists (k, x)).
    rewrite mget_wire_map by done. rewrite (Hca k x); [done| |].
    + unfold with_hash. destruct (String.eqb h ""); [done|]. apply in_mset_ne; [|by apply Hres|done].
      by pose proof (st_carried _ _ _ _ Hs) as [? _]%carried_VMap.
    + pose proof (st_reserved _ _ _ _ Hs k Hk). set_solver.
  - assert (Hget : mget WriteOnlyHashField (shown t row)
                   = option_map (fun y => (transformEntry snakeToCamel ("write_only_hash", y)).2) (mget "write_only_hash" row)).
    { rewrite <- (shown_field t row "write_only_hash"); [|done|reflexivity|set_solver|done].
      f_equal. symmetry. rewrite <- camelToSnake_hash. by apply snakeToCamel_camelToSnake. }
    unfold hash_drift, getStr, getAs. rewrite Hget. destruct (String.eqb_spec h "") as [->|Hne]; [done|].
    destruct (decide ("write_only_hash" ∈ columns)) as [Hin|Hnin].
    + rewrite (Hst "write_only_hash" (VStr h) Hin); [cbn; by rewrite String.eqb_refl|].
      rewrite mget_wire_map, <- camelToSnake_hash by done. rewrite (Hca WriteOnlyHashField (VStr h)); [unfold sent_value, transformEntry; by case_match| |].
      * unfold with_hash. destruct (String.eqb_spec h ""); [done|]. apply mget_Some_in, mget_mset_eq.
      * rewrite camelToSnake_hash. revert Hkind. clear. intros H. table_cases H; set_solver.
    + rewrite Hno by done. cbn. destruct (SupportsWriteOnlyHash kind) eqn:Esup; [destruct Hnin; by apply Hcol|by rewrite andb_false_r].
Qed.
End settles.
