(* ===== verification/GoclawSync.v ===== *)
(** * What was written is in sync

    [write_settles]: a resource kept in a table of the server, once written by the engine
    through the GoClaw provider, is observed without a difference.  [tiny_remote] is a
    server with one table, of LLM providers, that meets [RestTable]. *)
From Stdlib Require Import ZArith Lia Bool Ascii.
From Stdlib Require String.
From S2P Require Import Prelude GoStr GoValue Manifest Secrets Keyconv Filepath Json JsonParse JsonRound.
From S2P Require Import Compare WriteOnly Engine EngineProps EngineConverge JsonWire Echo.
From S2P Require Import Http GoclawBase GoclawProvider GoclawProps GoclawExample GoclawTable.

Local Open Scope string_scope.

#[local] Arguments CompareSpecExcluding : simpl never.
#[local] Arguments hash_drift : simpl never.
#[local] Arguments desired_hash : simpl never.
#[local] Arguments shown : simpl never.

(** C7: a tenant, LLM provider, agent or secure CLI that [execute] has created or
    updated is in sync: the next time it is observed, its plan is a no-op.  What lies
    between is the hash that is added, the translation of keys to snake_case and back,
    JSON written and read on both sides (integers become floats, maps are sorted), the
    name and tenant put into the body, the row looked up by name and tenant, and the
    internal fields that are dropped. *)
Theorem write_settles {U : Unicode} {UA : UnicodeAscii U} {S} (remote : Remote S) p deps u t columns rows
    {RT : RestTable remote p u t columns rows} env r c w w' w'' o :
  table_of (Kind r) = Some t -> ready p u w -> utf8 u = true -> utf8 (Name r) = true ->
  let spec := resolveSpecSecrets env (specMap r) in
  storable t (Kind r) columns spec ->
  (SupportsWriteOnlyHash (Kind r) = true -> "write_only_hash" ∈ columns) ->
  ch_Action c = ActionCreate \/ ch_Action c = ActionUpdate -> ch_WriteOnlyHash c = desired_hash r spec ->
  execute (fun _ => env) (goclaw remote p deps) c r w = (w', None) ->
  Observe (goclaw remote p deps) (Kind r) (Name r) w' = (w'', Ok o) ->
  let next := (reconcileOne (fun _ => env) (goclaw remote p deps) r false w').2 in
  ch_Action next = ActionNoop /\ ch_Error next = "".
Proof.
  intros Hk Hr Hu Hn spec Hs Hcol Hact Hhash Hex Hobs. destruct (table_facts (Kind r) t Hk) as (_ & _ & _ & _ & Hne).
  assert (Hnamed : named_spec t (Name r) (with_hash (ch_WriteOnlyHash c) spec)).
  { apply (storable_named t columns (Kind r)); [done|rewrite Hhash; apply desired_hash_utf8|done|done]. }
  assert (Hw : written p u t columns rows (Name r) (with_hash (ch_WriteOnlyHash c) spec) w w').
  { unfold execute in Hex. fold spec in Hex. fold (with_hash (ch_WriteOnlyHash c) spec) in Hex.
    destruct Hact as [Ha|Ha]; rewrite Ha in Hex; cbn [Create Update goclaw] in Hex.
    - destruct (pCreate _ _ _ _ _ _ w) as [w1 [[]|e]] eqn:Ec; [|done]. injection Hex as <-.
      eapply create_written; [exact RT|exact Hk|exact Hu|by eapply no_tenant_field|exact Hnamed|exact Hr|exact Ec].
    - destruct (pUpdate _ _ _ _ _ _ w) as [w1 [[]|e]] eqn:Ec; [|done]. injection Hex as <-.
      by eapply update_written. }
  destruct Hw as (Ht & body & row & Hwr & Hca & Hrow & Hst).
  destruct (observe_kind remote p u (Kind r) t columns rows (Name r) Hk RT w' w'' o) as (-> & _ & _);
    [by eapply ready_same|exact Hobs|].
  destruct (written_in_sync t columns (Kind r) spec (ch_WriteOnlyHash c) body row) as [Hcmp Hdrift]; try done.
  { by eapply (@rest_rows _ _ _ _ _ _ _ RT), row_of_elem. }
  { by eapply (@rest_no_hash _ _ _ _ _ _ _ RT), row_of_elem. }
  rewrite Hrow in Hobs. cbn [option_map] in Hobs. rewrite Hhash in Hdrift.
  unfold reconcileOne, run_steps, stepResolveSecrets, stepObserve. cbn [rc_resource rc_spec].
  rewrite Hobs. fold spec. unfold stepCompare. cbn.
  destruct (String.eqb (strget AnnotationSyncPolicy (Annotations r)) SyncPolicyIgnore); [done|].
  by rewrite desired_hash_if, Hcmp, Hdrift, bool_decide_eq_true_2.
Qed.

(** ** A server with a table of LLM providers *)

(** An entry: the name and the members it was last sent. *)
Abbreviation entries := (list (string * gomap)).

(** The row of an entry, without the key, which is never shown. *)
Definition entry_row (e : string * gomap) : gomap :=
  sort_by fst (mset "id" (VStr ("p-" +:+ e.1)) (mset "name" (VStr e.1) (mdel "api_key" e.2))).

(** A row this server can show: strings under distinct snake_case names. *)
Definition plain_row (row : gomap) : bool :=
  bool_decide (NoDup (mkeys row)) &&
  forallb (fun kv => snake_key kv.1 && utf8 kv.1 && match kv.2 with VStr s => utf8 s | _ => false end) row.

Definition tiny_rows (s : entries) : list gomap := List.filter plain_row (map entry_row s).

Definition entry_url (n : string) : string := "h/v1/providers/p-" +:+ n.

Definition body_map (b : HttpBody) : option gomap :=
  match b with
  | BytesBody data => match UnmarshalMap data with Ok m => Some m | Err _ => None end
  | _ => None
  end.

Definition tiny_get (s : entries) : HttpOutcome :=
  match Marshal (VMap [("providers", VSlice (map VMap (tiny_rows s)))]) with
  | Some text => if (Z.of_nat (String.length text) <=? maxResponseSize)%Z then Response 200 text
                 else Response 500 "too many"
  | None => Response 500 "cannot encode"
  end.

Definition tiny_post (m : gomap) (s : entries) : entries * HttpOutcome :=
  match getAs asStr "name" m with
  | Some n => if existsb (fun e => String.eqb e.1 n) s || negb (plain_row (entry_row (n, m)))
              then (s, Response 409 "refused") else (s ++ [(n, m)], Response 201 "{}")%list
  | None => (s, Response 400 "no name")
  end.

Definition tiny_put (url : string) (m : gomap) (s : entries) : entries * HttpOutcome :=
  if existsb (fun e => String.eqb url (entry_url e.1) && negb (plain_row (entry_row (e.1, m)))) s
  then (s, Response 422 "refused")
  else (map (fun e => if String.eqb url (entry_url e.1) then (e.1, m) else e) s, Response 200 "{}").

Definition tiny_remote : Remote entries := {|
  http_send rq s :=
    if String.eqb (rq_method rq) "GET" then (s, tiny_get s)
    else match body_map (rq_body rq) with
         | None => (s, Response 400 "bad body")
         | Some m => if String.eqb (rq_method rq) "POST" then tiny_post m s else tiny_put (rq_url rq) m s
         end;
  ws_alive _ := false;
  ws_connect s := (s, None);
  ws_call _ _ s := (s, Ok "{}") |}.

Definition tiny_provider : Provider := New "h" "secret" [].
Definition tiny_columns : list string := ["provider_type"; "api_base"; "display_name"; "write_only_hash"].
Definition tiny_table : table := mkTable "/v1/providers" "providers" "name" [] true.

Lemma plain_row_spec row :
  plain_row row = true ->
  uniq_keys row /\ Forall (fun kv => snake_key kv.1 = true /\ utf8 kv.1 = true /\
                             exists s, kv.2 = VStr s /\ utf8 s = true) row.
Proof.
  unfold plain_row. rewrite andb_true_iff, bool_decide_eq_true, forallb_Forall. intros [Hu Hf]. split; [done|].
  eapply Forall_impl; [exact Hf|]. intros [k v]. cbn [fst snd]. rewrite !andb_true_iff.
  intros [[Hs Hk] Hv]. split; [done|]. split; [done|]. destruct v; try done. by exists s.
Qed.

(** A plain row is carried, and comes back as it is when it is sorted. *)
Lemma plain_row_carried row :
  plain_row row = true -> carried (VMap row) = true /\ (depth (VMap row) <= 1)%Z /\ wire_map row = sort_by fst row.
Proof.
  intros [Hu Hf]%plain_row_spec. rewrite Forall_forall in Hf. split; [|split].
  - apply carried_VMap. split; [done|]. rewrite Forall_forall. intros kv Hin.
    destruct (Hf kv Hin) as (_ & Hk & s & -> & Hs). done.
  - apply depth_VMap. split; [lia|]. rewrite Forall_forall. intros kv Hin.
    by destruct (Hf kv Hin) as (_ & _ & s & -> & _).
  - unfold wire_map. f_equal. rewrite <- (map_id row) at 2. apply map_ext_in. intros [k v] Hin%list_elem_of_In.
    destruct (Hf _ Hin) as (_ & _ & s & Hs & _). cbn [fst snd] in *. by subst.
Qed.

Lemma sort_by_idem {A} (l : list (string * A)) : uniq_keys l -> sort_by fst (sort_by fst l) = sort_by fst l.
Proof.
  intros Hu. apply sort_by_ext; [|apply sort_by_perm]. change (NoDup (mkeys (sort_by fst l))).
  unfold mkeys. by rewrite sort_by_perm.
Qed.

Lemma entry_row_sorted e : plain_row (entry_row e) = true -> wire_map (entry_row e) = entry_row e.
Proof.
  intros Hp. destruct (plain_row_carried _ Hp) as (_ & _ & ->). apply sort_by_idem.
  unfold entry_row in Hp. apply plain_row_spec in Hp as [Hu _]. unfold uniq_keys, mkeys in *.
  by rewrite sort_by_perm in Hu.
Qed.

(** A field of a row is that of its entry, but for the id, the name and the key. *)
Lemma entry_row_field e k :
  plain_row (entry_row e) = true ->
  mget k (entry_row e)
  = if String.eqb k "id" then Some (VStr ("p-" +:+ e.1)) else if String.eqb k "name" then Some (VStr e.1)
    else if String.eqb k "api_key" then None else mget k e.2.
Proof.
  intros [Hu _]%plain_row_spec. unfold entry_row in *.
  rewrite (mget_perm k _ _ Hu (sort_by_perm _ _)), !mget_mset, mget_mdel. done.
Qed.

Lemma entry_row_name e : plain_row (entry_row e) = true -> strVal (entry_row e) "name" = e.1.
Proof. intros Hp. unfold strVal. by rewrite entry_row_field. Qed.

Lemma tiny_rows_elem s row : row ∈ tiny_rows s -> exists e, e ∈ s /\ row = entry_row e /\ plain_row row = true.
Proof.
  unfold tiny_rows. rewrite list_elem_of_In, filter_In, in_map_iff. intros [(e & <- & Hin) Hp].
  exists e. by rewrite list_elem_of_In.
Qed.

(** The row of a name is that of its first entry that can be shown. *)
Lemma tiny_row_of u key s :
  row_of tiny_table tiny_provider u key (tiny_rows s)
  = option_map entry_row (List.find (fun e => String.eqb e.1 key && plain_row (entry_row e)) s).
Proof.
  unfold tiny_rows. induction s as [|e s IH]; [done|]. cbn [map List.filter List.find].
  destruct (plain_row (entry_row e)) eqn:Ep; [|by rewrite andb_false_r].
  unfold row_of in *. cbn [List.find]. unfold named, sees at 1. cbn [t_key tiny_table].
  rewrite entry_row_name by done. change (negb (t_scoped tiny_table) || String.eqb (tenantID tiny_provider) "" || own u (entry_row e)) with true.
  rewrite !andb_true_r. destruct (String.eqb e.1 key); [done|exact IH].
Qed.

Lemma tiny_stores m n :
  plain_row (entry_row (n, m)) = true -> stores tiny_columns m (entry_row (n, m)).
Proof.
  intros Hp k v Hk Hv. rewrite entry_row_field by done. unfold tiny_columns in Hk.
  repeat (apply elem_of_cons in Hk as [->|Hk]; [exact Hv|]). by apply not_elem_of_nil in Hk.
Qed.

(** Marks the entries of [url] with new members. *)
Abbreviation put_entry url m := (fun e : string * gomap => if String.eqb url (entry_url e.1) then (e.1, m) else e).

Lemma entry_url_eqb key n : String.eqb (entry_url key) (entry_url n) = String.eqb n key.
Proof. unfold entry_url. simpl. apply String.eqb_sym. Qed.

Lemma tiny_get_shows s code body :
  tiny_get s = Response code body -> accepted code ->
  (Z.of_nat (String.length body) <= maxResponseSize)%Z /\ unmarshal_maps "providers" body = Ok (tiny_rows s).
Proof.
  unfold tiny_get, accepted.
  destruct (unmarshal_rows "providers" (tiny_rows s)) as (text & -> & Hu); [reflexivity| |].
  - rewrite Forall_forall. intros row (e & _ & -> & Hp)%tiny_rows_elem.
    destruct (plain_row_carried _ Hp) as (Hc & Hd & _). split; [done|]. unfold maxNestingDepth. lia.
  - destruct (Z.leb_spec (Z.of_nat (String.length text)) maxResponseSize); intros [= <- <-] ?; [|lia].
    split; [done|]. rewrite Hu. f_equal. rewrite <- (map_id (tiny_rows s)) at 2. apply map_ext_in.
    intros row (e & _ & -> & Hp)%list_elem_of_In%tiny_rows_elem. by apply entry_row_sorted.
Qed.

Lemma find_app_none {A} (f : A -> bool) l k : existsb f l = false -> List.find f (l ++ k) = List.find f k.
Proof. induction l as [|x l IH]; [done|]. cbn. destruct (f x); [done|exact IH]. Qed.

Lemma existsb_weaken {A} (f g : A -> bool) l : (forall x, g x = true -> f x = true) -> existsb f l = false -> existsb g l = false.
Proof.
  intros H Hf. apply not_true_iff_false. intros (x & Hx & Hg)%existsb_exists. apply not_true_iff_false in Hf.
  apply Hf, existsb_exists. eauto.
Qed.

#[export] Instance tiny_server u : RestTable tiny_remote tiny_provider u tiny_table tiny_columns tiny_rows.
Proof.
  split.
  - intros s row (e & _ & _ & Hp)%tiny_rows_elem. apply plain_row_spec in Hp as [Hu Hf]. split; [done|].
    unfold mkeys. apply Forall_map. eapply Forall_impl; [exact Hf|]. by intros kv [].
  - intros s row _ []. set_solver.
  - intros hs s s' code body [= <- Hg] Ha. split; [done|]. by apply tiny_get_shows in Hg.
  - intros hs data m key s s' code body Hs Ha Hm Hk. cbn in Hs. rewrite Hm in Hs. unfold tiny_post, getAs in Hs.
    change (mget "name" m = Some (VStr key)) in Hk. rewrite Hk in Hs. cbn [asStr] in Hs. unfold accepted in Ha.
    destruct (existsb (fun e => String.eqb e.1 key) s) eqn:Ee; [injection Hs as <- <-; lia|].
    destruct (plain_row (entry_row (key, m))) eqn:Ep; [|injection Hs as <- <-; lia]. injection Hs as <- <-.
    exists (entry_row (key, m)). split; [|by apply tiny_stores]. rewrite tiny_row_of, find_app_none.
    + cbn [List.find fst]. by rewrite String.eqb_refl, Ep.
    + eapply existsb_weaken; [|exact Ee]. by intros x []%andb_true_iff.
  - intros hs data m key row id s s' code body Hr Hid Hs Ha Hm _. cbn in Hs. rewrite Hm in Hs.
    rewrite tiny_row_of in Hr. destruct (List.find _ s) as [e|] eqn:Ef; [|done]. injection Hr as <-.
    apply find_some in Ef as [Hin [He%String.eqb_eq Hp]%andb_true_iff].
    rewrite entry_row_field in Hid by done. cbn in Hid. injection Hid as <-.
    change (tiny_put (entry_url e.1) m s = (s', Response code body)) in Hs. rewrite He in Hs. unfold tiny_put in Hs.
    destruct (existsb _ s) eqn:Ex; [injection Hs as <- <-; unfold accepted in Ha; lia|]. injection Hs as <- _.
    assert (Hpm : plain_row (entry_row (key, m)) = true).
    { apply not_false_iff_true. intros Hf. apply not_true_iff_false in Ex. apply Ex, existsb_exists. exists e.
      split; [done|]. by rewrite entry_url_eqb, He, String.eqb_refl, Hf. }
    exists (entry_row (key, m)). split; [|by apply tiny_stores]. rewrite tiny_row_of.
    clear -Hin He Hpm. apply list_elem_of_In in Hin.
    induction Hin as [e s|e e' s Hin IH]; cbn [map List.find].
    + by rewrite He, String.eqb_refl, String.eqb_refl, Hpm.
    + destruct (String.eqb_spec key e'.1) as [E|E]; cbn [fst]; [by rewrite <- E, String.eqb_refl, Hpm|].
      rewrite (proj2 (String.eqb_neq e'.1 key)) by congruence. by apply IH.
Qed.

(** ** An LLM provider is created *)

Definition tiny_resource : Resource :=
  mkResource KindProvider "openai" [] []
    (Some [("providerType", VStr "openai"); ("apiBase", VStr "https://api"); ("apiKey", VStr "sk-1")]).
Definition tiny_env : Env := mkEnv [] (mkFs (FDir []) []).
Definition tiny_spec : gomap := @resolveSpecSecrets ascii_unicode tiny_env (specMap tiny_resource).
Definition tiny_change : Change :=
  mkChange KindProvider "openai" ActionCreate ∅ "" false (desired_hash tiny_resource tiny_spec).
Definition tiny_start : PWorld entries := mkPWorld [] None [].
Abbreviation tiny_goclaw := (@goclaw ascii_unicode entries tiny_remote tiny_provider toy_deps).
Definition tiny_after : PWorld entries :=
  (@execute ascii_unicode _ (fun _ => tiny_env) tiny_goclaw tiny_change tiny_resource tiny_start).1.

Lemma tiny_storable : @storable ascii_unicode ascii_unicode_ok tiny_table KindProvider tiny_columns tiny_spec.
Proof.
  change tiny_spec with (specMap tiny_resource). cbn [specMap tiny_resource Spec default].
  assert (Hk : forall P : string -> Prop, P "providerType" -> P "apiBase" -> P "apiKey" ->
            forall k, k ∈ mkeys (specMap tiny_resource) -> P k).
  { intros P H1 H2 H3 k Hk. repeat (apply elem_of_cons in Hk as [->|Hk]; [done|]). by apply not_elem_of_nil in Hk. }
  split.
  - apply camel_val_VMap. split; [apply (bool_decide_unpack _); vm_compute; done|].
    repeat (constructor; [split; [vm_compute; reflexivity|by right]|]). constructor.
  - vm_compute. reflexivity.
  - vm_compute. discriminate.
  - apply set_fields_okb_ok. vm_compute. reflexivity.
  - apply Hk; apply (bool_decide_unpack _); vm_compute; done.
  - apply (Hk (fun k => excluded (WriteOnlyFields KindProvider) "" k = false ->
                        compared tiny_table tiny_columns (@camelToSnake ascii_unicode k)));
      intros H; try (vm_compute in H; discriminate); repeat split; apply (bool_decide_unpack _); vm_compute; done.
Qed.

Lemma tiny_hash_column : "write_only_hash" ∈ tiny_columns.
Proof. unfold tiny_columns. set_solver. Qed.

Lemma tiny_created :
  @execute ascii_unicode _ (fun _ => tiny_env) tiny_goclaw tiny_change tiny_resource tiny_start = (tiny_after, None).
Proof. vm_compute. reflexivity. Qed.

Lemma tiny_observed : exists w o, Observe tiny_goclaw KindProvider "openai" tiny_after = (w, Ok (Some o)).
Proof. eexists _, _. vm_compute. reflexivity. Qed.

Lemma write_settles_witness :
  let next := (@reconcileOne ascii_unicode _ (fun _ => tiny_env) tiny_goclaw tiny_resource false tiny_after).2 in
  ch_Action next = ActionNoop /\ ch_Error next = "".
Proof.
  destruct tiny_observed as (w & o & Ho).
  apply (write_settles tiny_remote tiny_provider toy_deps "" tiny_table tiny_columns tiny_rows tiny_env
           tiny_resource tiny_change tiny_start tiny_after w (Some o)).
  - reflexivity.
  - left. reflexivity.
  - reflexivity.
  - reflexivity.
  - exact tiny_storable.
  - intros _. apply tiny_hash_column.
  - left. reflexivity.
  - exact eq_refl.
  - exact tiny_created.
  - exact Ho.
Defined.
