(* ===== verification/Tenants.v ===== *)
(** * The tenant manager

    [internal/controller/tenant_manager.go]: the tenants found in the subdirectories of a
    directory, each with a source, a provider and a controller of its own, and the
    operations on all of them.  The order in which Go ranges over the map of tenants is an
    argument where it can matter. *)
From Stdlib Require Import ZArith Lia Bool Ascii.
From Stdlib Require String.
From S2P Require Import Prelude GoStr GoValue Filepath Manifest Secrets Regexp Validate Ring.
From S2P Require Import Loader Source Http GoclawBase Controller.

Local Open Scope string_scope.
Local Open Scope go_scope.

(** [^[a-z0-9]([a-z0-9-]*[a-z0-9])?$] *)
Definition tenantIDRe : re :=
  RCat (RCls lower_digit) (ROpt (RCat (RStar (RCls lower_digit_hyphen)) (RCls lower_digit))).

(** A tenant: its source and provider, the state of its controller, and whether the
    debounce timer of the controller runs. *)
Record TenantInstance := mkTenant {
  ti_Name : string;
  ti_source : FileSource;
  ti_provider : Provider;
  ti_Controller : Controller;
  ti_armed : bool
}.

Abbreviation TenantManager := (gmap string TenantInstance).

Record TenantManagerConfig := mkTenantCfg {
  tc_TenantsDir : string;
  tc_Interval : Z;
  tc_Prune : bool
}.

Section discovery.
Context {U : Unicode} (yaml : Yaml) (renderTemplate : Template) (semver : Semver)
  (zip : list (string * string) -> string) (env : Env).

(** A value that must resolve. *)
Definition resolves (s : string) : option string :=
  match Resolve env s with (v, None) => Some v | (_, Some _) => None end.

(** The option of [goclaw.New] a value of the connection stands for, if it is set and
    acceptable; [None] when the tenant must be skipped. *)
Definition optional (ok : string -> bool) (mk : string -> Option) (s : string) : option (list Option) :=
  if String.eqb s "" then Some []
  else match resolves s with
       | Some v => if ok v then Some [mk v] else None
       | None => None
       end.

Definition new_tenant (name : string) (src : FileSource) (c : Connection) : option TenantInstance :=
  if String.eqb (Endpoint c) "" || String.eqb (Token c) "" then None
  else match resolves (Endpoint c), resolves (Token c),
             optional (MatchString tenantIDRe) WithTenantID (TenantID c),
             optional (fun _ => true) WithUserID (UserID c) with
       | Some ep, Some tok, Some o1, Some o2 =>
         Some (mkTenant name src (GoclawBase.New ep tok (o1 ++ o2))
                 (mkController NewStatusTracker zeroMetrics "") false)
       | _, _, _, _ => None
       end.

(** One subdirectory: a tenant, nothing when it is skipped, or the panic of its loader. *)
Definition discover (dir name : string) : outcome (option TenantInstance) :=
  let src := NewFileSource (JoinPath [dir; name]) in
  match FetchFile yaml renderTemplate semver zip (env_fs env) src with
  | Panicked => Panicked
  | Returned (Err _) => Returned (Ok None)
  | Returned (Ok (m, _)) => Returned (Ok (new_tenant name src (ManifestConnection m)))
  end.

Fixpoint discover_all (dir : string) (es : list (string * fsnode)) (tm : TenantManager) :
    outcome TenantManager :=
  match es with
  | [] => Returned (Ok tm)
  | e :: es' =>
    if isDir e.2 then
      let* t := discover dir e.1 in
      discover_all dir es' (match t with Some inst => <[e.1 := inst]> tm | None => tm end)
    else discover_all dir es' tm
  end.

Definition NewTenantManager (cfg : TenantManagerConfig) : outcome TenantManager :=
  let* es := Returned (res_wrap "read tenants dir: " (ReadDir (env_fs env) (tc_TenantsDir cfg))) in
  let* tm := discover_all (tc_TenantsDir cfg) es ∅ in
  if decide (tm = ∅) then Returned (Err (errorf ("no valid tenants found in " +:+ tc_TenantsDir cfg)))
  else Returned (Ok tm).

(** ** The tenants found *)

Definition has_subdir (es : list (string * fsnode)) (name : string) : bool :=
  existsb (fun e => String.eqb e.1 name && isDir e.2) es.

Lemma discover_all_lookup dir es tm tm' name :
  discover_all dir es tm = Returned (Ok tm') ->
  tm' !! name =
  if has_subdir es name
  then match discover dir name with Returned (Ok (Some inst)) => Some inst | _ => tm !! name end
  else tm !! name.
Proof.
  revert tm. induction es as [|[n d] es IH]; intros tm; simpl; [by intros [= ->]|].
  destruct (isDir d); rewrite ?andb_true_r, ?andb_false_r; simpl; [|apply IH].
  destruct (discover dir n) as [[[inst|]|e]|] eqn:Hd; simpl; [| |done..]; intros H; rewrite (IH _ H).
  - destruct (String.eqb_spec n name) as [->|Hne]; simpl.
    + rewrite Hd, lookup_insert_eq. by case_match.
    + by rewrite lookup_insert_ne.
  - destruct (String.eqb_spec n name) as [->|Hne]; simpl; [rewrite Hd; by case_match|done].
Qed.

Lemma new_tenant_fresh name src c inst :
  new_tenant name src c = Some inst ->
  ti_Name inst = name /\ ti_source inst = src /\ ti_armed inst = false /\
  ti_Controller inst = mkController NewStatusTracker zeroMetrics "" /\
  Endpoint c <> "" /\ Token c <> "" /\
  resolves (Endpoint c) = Some (endpoint (ti_provider inst)) /\
  resolves (Token c) = Some (p_token (ti_provider inst)) /\
  (TenantID c = "" /\ tenantID (ti_provider inst) = "" \/
   resolves (TenantID c) = Some (tenantID (ti_provider inst)) /\
   MatchString tenantIDRe (tenantID (ti_provider inst)) = true) /\
  (UserID c = "" /\ userID (ti_provider inst) = "" \/
   resolves (UserID c) = Some (userID (ti_provider inst))).
Proof.
  unfold new_tenant, optional. destruct (String.eqb_spec (Endpoint c) ""), (String.eqb_spec (Token c) ""); try done.
  cbn [orb]. destruct (resolves (Endpoint c)) as [ep|], (resolves (Token c)) as [tok|]; try done.
  destruct (String.eqb_spec (TenantID c) ""), (String.eqb_spec (UserID c) "");
    repeat (case_match; try done); intros [= <-]; simplify_eq; cbn; naive_solver.
Qed.

(** A tenant runs for a name exactly when the directory has a subdirectory of that name
    whose manifest loads and validates and whose connection resolves; the others are
    skipped and do not disturb it. *)
Lemma tenants_exact cfg tm es :
  ReadDir (env_fs env) (tc_TenantsDir cfg) = Ok es -> NewTenantManager cfg = Returned (Ok tm) ->
  forall name inst, tm !! name = Some inst <->
    has_subdir es name = true /\
    exists m h, FetchFile yaml renderTemplate semver zip (env_fs env)
                  (NewFileSource (JoinPath [tc_TenantsDir cfg; name])) = Returned (Ok (m, h)) /\
      new_tenant name (NewFileSource (JoinPath [tc_TenantsDir cfg; name])) (ManifestConnection m) = Some inst.
Proof.
  unfold NewTenantManager. intros ->. cbn [res_wrap bindO].
  destruct (discover_all _ es ∅) as [[tm'|e]|] eqn:Hd; cbn [bindO]; [|done|done].
  destruct (decide (tm' = ∅)); [done|]. intros [= ->] name inst.
  rewrite (discover_all_lookup _ _ _ _ name Hd), lookup_empty. unfold discover.
  destruct (has_subdir es name); [|naive_solver].
  destruct (FetchFile _ _ _ _ _ _) as [[[m h]|e]|]; [|naive_solver..].
  case_match; naive_solver.
Qed.
End discovery.

(** ** Operations *)

Definition Get (tm : TenantManager) (name : string) : option TenantInstance := tm !! name.

(** [Controller.Trigger]. *)
Definition arm (inst : TenantInstance) : TenantInstance :=
  mkTenant (ti_Name inst) (ti_source inst) (ti_provider inst) (ti_Controller inst) true.

Definition Trigger (name : string) (tm : TenantManager) : TenantManager * bool :=
  match tm !! name with
  | Some inst => (<[name := arm inst]> tm, true)
  | None => (tm, false)
  end.

Definition TriggerAll (tm : TenantManager) : TenantManager := arm <$> tm.

Definition AggregatedStatus (tm : TenantManager) : gmap string SyncStatus :=
  (fun inst => tracker (ti_Controller inst)) <$> tm.

(** The body of the loop of [AggregatedMetrics]. *)
Definition add_metrics (agg snap : Metrics) : Metrics :=
  let newer := (m_LastSyncTime agg <? m_LastSyncTime snap)%Z in
  mkMetrics (wrap64 (SyncSuccess agg + SyncSuccess snap))
    (wrap64 (SyncErrors agg + SyncErrors snap))
    (if newer then SyncDuration snap else SyncDuration agg)
    (if newer then m_LastSyncTime snap else m_LastSyncTime agg)
    (wrap64 (DriftDetected agg + DriftDetected snap))
    (wrap64 (DriftResources agg + DriftResources snap))
    (wrap64 (ProviderVerifyErrors agg + ProviderVerifyErrors snap))
    (wrap64 (WriteOnlyHashMismatches agg + WriteOnlyHashMismatches snap)).

(** The tenants in the order of the range. *)
Definition AggregatedMetrics (range : list TenantInstance) : Metrics :=
  foldl (fun agg inst => add_metrics agg (metrics (ti_Controller inst))) zeroMetrics range.

(** *** The order of the range *)

Lemma wrap64_add a b c : wrap64 (wrap64 (a + b) + c) = wrap64 (wrap64 (a + c) + b).
Proof.
  unfold wrap64.
  replace ((a + b + 2 ^ 63) mod 2 ^ 64 - 2 ^ 63 + c + 2 ^ 63)%Z
    with ((a + b + 2 ^ 63) mod 2 ^ 64 + c)%Z by lia.
  replace ((a + c + 2 ^ 63) mod 2 ^ 64 - 2 ^ 63 + b + 2 ^ 63)%Z
    with ((a + c + 2 ^ 63) mod 2 ^ 64 + b)%Z by lia.
  rewrite !Zplus_mod_idemp_l. do 2 f_equal. lia.
Qed.

(** The metrics but the duration, which two tenants with the same last time contend for. *)
Definition counters (m : Metrics) : list Z :=
  [SyncSuccess m; SyncErrors m; m_LastSyncTime m; DriftDetected m; DriftResources m;
   ProviderVerifyErrors m; WriteOnlyHashMismatches m].

Lemma add_metrics_counters a b c :
  counters a = counters b -> counters (add_metrics a c) = counters (add_metrics b c).
Proof. unfold counters, add_metrics. intros [= -> -> -> -> -> -> ->]. done. Qed.

Lemma last_time_max a b : m_LastSyncTime (add_metrics a b) = Z.max (m_LastSyncTime a) (m_LastSyncTime b).
Proof. unfold add_metrics. cbn. destruct (Z.ltb_spec (m_LastSyncTime a) (m_LastSyncTime b)); lia. Qed.

Lemma add_metrics_comm a b c :
  counters (add_metrics (add_metrics a b) c) = counters (add_metrics (add_metrics a c) b).
Proof.
  unfold counters. rewrite !last_time_max, <- !Z.max_assoc, (Z.max_comm (m_LastSyncTime c)).
  cbn [add_metrics SyncSuccess SyncErrors DriftDetected DriftResources ProviderVerifyErrors
       WriteOnlyHashMismatches].
  rewrite (wrap64_add (SyncSuccess a) (SyncSuccess b)), (wrap64_add (SyncErrors a) (SyncErrors b)),
    (wrap64_add (DriftDetected a) (DriftDetected b)), (wrap64_add (DriftResources a) (DriftResources b)),
    (wrap64_add (ProviderVerifyErrors a) (ProviderVerifyErrors b)),
    (wrap64_add (WriteOnlyHashMismatches a) (WriteOnlyHashMismatches b)).
  reflexivity.
Qed.

Lemma aggregated_counters_order l l' :
  l ≡ₚ l' -> counters (AggregatedMetrics l) = counters (AggregatedMetrics l').
Proof.
  unfold AggregatedMetrics. intros Hp. generalize zeroMetrics.
  assert (Hc : forall l a b, counters a = counters b ->
    counters (foldl (fun agg inst => add_metrics agg (metrics (ti_Controller inst))) a l) =
    counters (foldl (fun agg inst => add_metrics agg (metrics (ti_Controller inst))) b l)).
  { intros l0. induction l0 as [|x l0 IH]; intros a b H; simpl; [done|]. by apply IH, add_metrics_counters. }
  induction Hp as [|x l l' Hp IH|x y l|l1 l2 l3 _ IH1 _ IH2]; intros m; simpl; [done|apply IH| |].
  - apply Hc, add_metrics_comm.
  - by rewrite IH1.
Qed.
