(* ===== verification/Server.v ===== *)
(** * The HTTP server

    [internal/server]: the routes ([server.go]) and the handlers ([handlers.go]) over a
    single controller or a tenant manager.  A handler is a function of the request and
    the state of the controllers; waiting for a sync, whose goroutines are those of
    [ControllerLoop], is an argument, as is the local time zone (how a time is written). *)
From Stdlib Require Import ZArith Lia Bool Ascii.
From Stdlib Require String.
From Stdlib Require Import Floats.SpecFloat.
From S2P Require Import Prelude GoStr GoValue Filepath Manifest Compare Sha256 Json JsonParse Ring Loader.
From S2P Require Import Controller Tenants.

Local Open Scope string_scope.

(** ** Requests and responses *)

Record request := mkReq {
  rq_header : string -> string;
  rq_body : res string;
  rq_tenant : string
}.

(** [rs_type] is the Content-Type, if the handler sets it. *)
Record response := mkResp {
  rs_code : Z;
  rs_type : option string;
  rs_body : string
}.

Definition json_response (code : Z) (body : string) : response :=
  mkResp code (Some "application/json") body.

(** ** The server's state *)

(** [Server]: with a tenant manager, the single controller is unused.  [s_armed] tells
    whether the debounce timer of the single controller runs. *)
Record Server := mkServer {
  s_tenants : option TenantManager;
  s_tracker : SyncStatus;
  s_metrics : Metrics;
  s_armed : bool;
  s_webhookSecret : string
}.

Definition with_tenants (s : Server) (tm : TenantManager) : Server :=
  mkServer (Some tm) (s_tracker s) (s_metrics s) (s_armed s) (s_webhookSecret s).

Definition arm_single (s : Server) : Server :=
  mkServer (s_tenants s) (s_tracker s) (s_metrics s) true (s_webhookSecret s).

(** ** JSON *)

Section server.
Context {U : Unicode} (format_time : Z -> string).

Definition condition_name (t : ConditionType) : string :=
  match t with ConditionSynced => "Synced" | ConditionError => "Error" | ConditionDrifted => "Drifted" end.

(** [omitempty] on a string. *)
Definition omit_empty (name s : string) : list (string * string) :=
  if String.eqb s "" then [] else [(name, json_string s)].

Definition encode_condition (c : Condition) : string :=
  json_object ([("type", json_string (condition_name (cond_Type c)));
                ("status", json_string (cond_Status c))]
               ++ omit_empty "message" (cond_Message c)
               ++ [("lastTransitionTime", json_string (format_time (LastTransitionTime c)))]).

Definition encode_resource (r : ResourceStatus) : string :=
  json_object ([("kind", json_string (rs_Kind r)); ("name", json_string (rs_Name r));
                ("status", json_string (rs_Status r))] ++ omit_empty "message" (rs_Message r)).

(** [Get] copies with [append], which leaves an empty slice nil. *)
Definition encode_list {A} (enc : A -> string) (l : list A) : string :=
  match l with [] => "null" | _ => json_array (map enc l) end.

Definition encode_status (s : SyncStatus) : string :=
  json_object [("lastSyncTime", json_string (format_time (st_LastSyncTime s)));
               ("lastSyncHash", json_string (st_LastSyncHash s));
               ("conditions", encode_list encode_condition (st_Conditions s));
               ("resources", encode_list encode_resource (st_Resources s))].

Definition encode_result (r : SyncResult) : string :=
  json_object ([("applied", Itoa (Z.of_nat (sr_Applied r))); ("failed", Itoa (Z.of_nat (sr_Failed r)));
                ("creates", Itoa (Z.of_nat (sr_Creates r))); ("updates", Itoa (Z.of_nat (sr_Updates r)));
                ("noops", Itoa (Z.of_nat (sr_Noops r)))]
               ++ match sr_Errors r with [] => [] | es => [("errors", json_array (map json_string es))] end).

(** A map is encoded by sorted keys. *)
Definition encode_statuses (m : gmap string SyncStatus) : string :=
  json_object (sort_by fst (map (fun kv => (kv.1, encode_status kv.2)) (map_to_list m))).

(** ** handlers.go *)

Definition handleHealthz (s : Server) (r : request) : response :=
  json_response 200 (js "{'status':'ok'}").

Definition isReady (s : Server) : bool :=
  match s_tenants s with
  | Some tm => forallb (fun kv => IsSynced (tracker (ti_Controller kv.2))) (map_to_list tm)
  | None => IsSynced (s_tracker s)
  end.

Definition handleReadyz (s : Server) (r : request) : response :=
  if isReady s then json_response 200 (js "{'status':'ready'}")
  else json_response 503 (js "{'status':'not ready'}").

(** [json.Encoder] ends its output with a newline. *)
Definition encoded (body : string) : response := json_response 200 (body +:+ newline).

Definition handleStatus (s : Server) (r : request) : response :=
  match s_tenants s with
  | Some tm => encoded (encode_statuses (AggregatedStatus tm))
  | None => encoded (encode_status (s_tracker s))
  end.

Definition not_enabled : response := json_response 404 (js "{'error':'multi-tenant not enabled'}").

(** [%q] puts Go quotes inside the JSON string. *)
Definition tenant_not_found (tenant : string) : response :=
  json_response 404 (js "{'error':'tenant " +:+ Quote tenant +:+ js " not found'}").

Definition handleTenantStatus (s : Server) (r : request) : response :=
  match s_tenants s with
  | None => not_enabled
  | Some tm => match Get tm (rq_tenant r) with
               | None => tenant_not_found (rq_tenant r)
               | Some inst => encoded (encode_status (tracker (ti_Controller inst)))
               end
  end.

(** [TriggerAndWait] with the request's context, cut at a minute. *)
Definition handleSync (wait : Server -> Server * res SyncResult) (s : Server) (r : request) :
    Server * response :=
  match s_tenants s with
  | Some tm => (with_tenants s (TriggerAll tm), json_response 200 (js "{'message':'sync triggered'}"))
  | None =>
    match wait s with
    | (s, Ok result) => (s, encoded (encode_result result))
    | (s, Err err) =>
      if errorsIs err DeadlineExceeded || errorsIs err Canceled
      then (s, json_response 504 (js "{'error':'sync timed out'}"))
      else (s, json_response 500 (js "{'error':" +:+ Quote (Error err) +:+ "}"))
    end
  end.

Definition handleTenantSync (s : Server) (r : request) : Server * response :=
  match s_tenants s with
  | None => (s, not_enabled)
  | Some tm =>
    match Trigger (rq_tenant r) tm with
    | (_, false) => (s, tenant_not_found (rq_tenant r))
    | (tm, true) => (with_tenants s tm,
                     json_response 200 (js "{'message':'sync triggered','tenant':"
                                        +:+ Quote (rq_tenant r) +:+ "}"))
    end
  end.

Definition maxWebhookBody : nat := Z.to_nat (2 ^ 20).
#[global] Opaque maxWebhookBody.

Definition verifyWebhookSignature (s : Server) (r : request) (body : string) : bool :=
  let sig := rq_header r "X-Hub-Signature-256" in
  let token := rq_header r "X-Gitlab-Token" in
  if negb (String.eqb sig "") then
    String.eqb ("sha256=" +:+ hex_encode (hmac_sha256 (s_webhookSecret s) body)) sig
  else if negb (String.eqb token "") then String.eqb token (s_webhookSecret s)
  else false.

(** What [handleWebhook] does once the request is accepted. *)
Definition trigger_all (s : Server) : Server :=
  match s_tenants s with
  | Some tm => with_tenants s (TriggerAll tm)
  | None => arm_single s
  end.

Definition bare (code : Z) : response := mkResp code None "".

Definition handleWebhook (s : Server) (r : request) : Server * response :=
  if String.eqb (s_webhookSecret s) "" then (trigger_all s, bare 200)
  else match rq_body r with
       | Err _ => (s, bare 400)
       | Ok body =>
         if verifyWebhookSignature s r (str_take maxWebhookBody body)
         then (trigger_all s, bare 200) else (s, bare 401)
       end.
(** *** Metrics *)

(** [%.3f] of a float: the exact value, correctly rounded, ties to even. *)
Definition format3 (f : spec_float) : string :=
  match f with
  | S754_finite neg m e =>
    let '(num, den) := scale2 (Zpos m) e in
    let q := (num * 1000 / den)%Z in
    let r := (2 * (num * 1000 mod den))%Z in
    let n := if (r >? den)%Z || ((r =? den)%Z && Z.odd q) then (q + 1)%Z else q in
    let frac := Itoa (n mod 1000)%Z in
    (if neg then "-" else "") +:+ Itoa (n / 1000) +:+ "."
      +:+ zeros (3 - String.length frac) +:+ frac
  | S754_zero neg => (if neg then "-" else "") +:+ "0.000"
  | S754_infinity neg => if neg then "-Inf" else "+Inf"
  | S754_nan => "NaN"
  end.

(** [time.Duration.Seconds]: nanoseconds to a float. *)
Definition Seconds (d : Z) : spec_float :=
  SFadd 53 1024 (float64_of_Z (Z.quot d (10 ^ 9)))
    (SFdiv 53 1024 (float64_of_Z (Z.rem d (10 ^ 9))) (float64_of_Z (10 ^ 9))).

(** [time.Time.Unix], of a time counted in nanoseconds from year 1, the zero time. *)
Definition Unix (t : Z) : Z := (t / 10 ^ 9 - 62135596800)%Z.

Definition metric_lines (name help type : string) (samples : list (string * string)) : string :=
  "# HELP " +:+ name +:+ " " +:+ help +:+ newline +:+ "# TYPE " +:+ name +:+ " " +:+ type +:+ newline
  +:+ String.concat "" (map (fun x => name +:+ x.1 +:+ " " +:+ x.2 +:+ newline) samples).

Definition metrics_text (m : Metrics) : string :=
  metric_lines "gcplane_sync_total" "Total number of sync operations" "counter"
    [(js "{status='success'}", Itoa (SyncSuccess m)); (js "{status='error'}", Itoa (SyncErrors m))]
  +:+ metric_lines "gcplane_sync_duration_seconds" "Duration of last sync" "gauge"
    [("", format3 (Seconds (SyncDuration m)))]
  +:+ metric_lines "gcplane_last_sync_timestamp" "Unix timestamp of last sync" "gauge"
    [("", Itoa (Unix (m_LastSyncTime m)))]
  +:+ metric_lines "gcplane_drift_detected_total"
        "Total number of sync cycles where drift was detected" "counter" [("", Itoa (DriftDetected m))]
  +:+ metric_lines "gcplane_drift_resources"
        "Number of resources that drifted in the last sync cycle" "gauge" [("", Itoa (DriftResources m))]
  +:+ metric_lines "gcplane_provider_verify_errors_total"
        "Total provider key verification failures" "counter" [("", Itoa (ProviderVerifyErrors m))]
  +:+ metric_lines "gcplane_write_only_hash_mismatches_total"
        "Total write-only hash mismatches detected" "counter" [("", Itoa (WriteOnlyHashMismatches m))].

(** [range] is the order in which the tenants are visited. *)
Definition handleMetrics (range : TenantManager -> list TenantInstance) (s : Server) (r : request) : response :=
  mkResp 200 (Some "text/plain; version=0.0.4; charset=utf-8")
    (metrics_text match s_tenants s with
                  | Some tm => AggregatedMetrics (range tm)
                  | None => s_metrics s
                  end).

(** ** server.go *)

Inductive handler :=
  | Healthz | Readyz | MetricsPage | Status | TenantStatus | Sync | TenantSync | Webhook.

(** The patterns registered by [New]: method, segments ([None] for [{tenant}]), handler. *)
Definition routes : list (string * list (option string) * handler) :=
  [ ("GET", [Some "healthz"], Healthz);
    ("GET", [Some "readyz"], Readyz);
    ("GET", [Some "metrics"], MetricsPage);
    ("GET", [Some "api"; Some "v1"; Some "status"], Status);
    ("GET", [Some "api"; Some "v1"; Some "status"; None], TenantStatus);
    ("POST", [Some "api"; Some "v1"; Some "sync"], Sync);
    ("POST", [Some "api"; Some "v1"; Some "sync"; None], TenantSync);
    ("POST", [Some "api"; Some "v1"; Some "webhook"; Some "git"], Webhook) ].

(** A pattern against the segments of a clean path: the tenant it captures. *)
Fixpoint match_path (pat : list (option string)) (segs : list string) : option string :=
  match pat, segs with
  | [], [] => Some ""
  | Some p :: pat, s :: segs => if String.eqb p s then match_path pat segs else None
  | None :: pat, s :: segs => if String.eqb s "" then None
                              else match match_path pat segs with Some _ => Some s | None => None end
  | _, _ => None
  end.

Definition match_method (pat method : string) : bool :=
  String.eqb pat method || (String.eqb pat "GET" && String.eqb method "HEAD").

Fixpoint find_route (rs : list (string * list (option string) * handler)) (method : string)
    (segs : list string) : option (handler * string) :=
  match rs with
  | [] => None
  | (m, pat, h) :: rs =>
    match match_path pat segs with
    | Some tenant => if match_method m method then Some (h, tenant) else find_route rs method segs
    | None => find_route rs method segs
    end
  end.

(** The handlers that change no state, and the others. *)
Definition serve (range : TenantManager -> list TenantInstance)
    (wait : Server -> Server * res SyncResult) (method : string) (segs : list string)
    (header : string -> string) (body : res string) (s : Server) : Server * response :=
  match find_route routes method segs with
  | Some (h, tenant) =>
    let r := mkReq header body tenant in
    match h with
    | Healthz => (s, handleHealthz s r)
    | Readyz => (s, handleReadyz s r)
    | MetricsPage => (s, handleMetrics range s r)
    | Status => (s, handleStatus s r)
    | TenantStatus => (s, handleTenantStatus s r)
    | Sync => handleSync wait s r
    | TenantSync => handleTenantSync s r
    | Webhook => handleWebhook s r
    end
  | None =>
    if existsb (fun x => bool_decide (is_Some (match_path x.1.2 segs))) routes
    then (s, mkResp 405 (Some "text/plain; charset=utf-8") ("Method Not Allowed" +:+ newline))
    else (s, mkResp 404 (Some "text/plain; charset=utf-8") ("404 page not found" +:+ newline))
  end.
End server.

Example format3_ex : map (fun d => format3 (Seconds d)) [0; 1500000; 1234567890; 61000499999]%Z
  = ["0.000"; "0.002"; "1.235"; "61.000"].
Proof. vm_compute. reflexivity. Qed.

(** ** Who may trigger a sync *)

(** The request proves that it knows the secret: a signature of [body], or, without any
    signature, the secret itself. *)
Definition signed (secret : string) (r : request) (body : string) : Prop :=
  let sig := rq_header r "X-Hub-Signature-256" in
  (sig <> "" /\ sig = "sha256=" +:+ hex_encode (hmac_sha256 secret body))
  \/ (sig = "" /\ rq_header r "X-Gitlab-Token" = secret).

(** Of a body, the first mebibyte is signed. *)
Definition authentic (secret : string) (r : request) : Prop :=
  exists body, rq_body r = Ok body /\ signed secret r (str_take maxWebhookBody body).

Lemma verify_spec s r body :
  s_webhookSecret s <> "" -> verifyWebhookSignature s r body = true <-> signed (s_webhookSecret s) r body.
Proof.
  intros Hsec. unfold verifyWebhookSignature, signed.
  destruct (String.eqb_spec (rq_header r "X-Hub-Signature-256") "") as [->|Hs]; cbn [negb].
  - destruct (String.eqb_spec (rq_header r "X-Gitlab-Token") "") as [->|Ht]; cbn [negb].
    + naive_solver.
    + rewrite String.eqb_eq. naive_solver.
  - rewrite String.eqb_eq. naive_solver.
Qed.

(** What a webhook must bring. *)
Definition accepted (secret : string) (r : request) : Prop := secret = "" \/ authentic secret r.

Lemma handleWebhook_spec s r :
  (accepted (s_webhookSecret s) r /\ handleWebhook s r = (trigger_all s, bare 200)) \/
  (~ accepted (s_webhookSecret s) r /\ (handleWebhook s r).1 = s /\ (400 <= rs_code (handleWebhook s r).2)%Z).
Proof.
  unfold handleWebhook, accepted, authentic.
  destruct (String.eqb_spec (s_webhookSecret s) "") as [Hs|Hsec]; [by left; auto|].
  destruct (rq_body r) as [body|e]; [|by right; split; [intros [?|(? & ? & _)]|]].
  pose proof (verify_spec s r (str_take maxWebhookBody body) Hsec) as Hv.
  destruct (verifyWebhookSignature s r (str_take maxWebhookBody body)); [left|right]; (split; [|done]).
  - right. exists body. by split; [|apply Hv].
  - by intros [?|(body' & [= <-] & Ha%Hv)].
Qed.

Lemma find_route_in rs method segs h t :
  find_route rs method segs = Some (h, t) ->
  exists m pat, (m, pat, h) ∈ rs /\ match_path pat segs = Some t /\ match_method m method = true.
Proof.
  induction rs as [|[[m pat] h'] rs IH]; simpl; [done|].
  destruct (match_path pat segs) as [t'|] eqn:Hp; [destruct (match_method m method) eqn:Hm|].
  - intros [= <- <-]. exists m, pat. split; [left|done].
  - intros (m' & p' & ? & ?)%IH. exists m', p'. split; [by right|done].
  - intros (m' & p' & ? & ?)%IH. exists m', p'. split; [by right|done].
Qed.

Lemma match_exact pat segs t :
  match_path (map Some pat) segs = Some t -> segs = pat.
Proof.
  revert segs. induction pat as [|p pat IH]; intros [|s segs]; simpl; try done.
  destruct (String.eqb_spec p s) as [->|]; [|done]. by intros ->%IH.
Qed.

Lemma match_last pat segs t :
  match_path (map Some pat ++ [None]) segs = Some t -> segs = (pat ++ [t])%list.
Proof.
  revert segs. induction pat as [|p pat IH]; intros [|s segs]; simpl; try done.
  - destruct (String.eqb s ""); [done|]. destruct segs; [by intros [= ->]|done].
  - destruct (String.eqb_spec p s) as [->|]; [|done]. by intros ->%IH.
Qed.

Lemma match_post method : match_method "POST" method = true -> method = "POST".
Proof.
  unfold match_method. change (String.eqb "POST" "GET") with false. rewrite orb_false_r.
  by intros <-%String.eqb_eq.
Qed.

(** *** The routes of the handlers that change something *)

Lemma route_sync method segs t :
  find_route routes method segs = Some (Sync, t) <->
  t = "" /\ method = "POST" /\ segs = ["api"; "v1"; "sync"].
Proof.
  split; [|by intros (-> & -> & ->)].
  intros (m & pat & Hin & Hp & Hm)%find_route_in. apply list_elem_of_In in Hin. cbn [routes In] in Hin.
  destruct Hin as [Hin|[Hin|[Hin|[Hin|[Hin|[Hin|[Hin|[Hin|[]]]]]]]]]; injection Hin as <- <-; try done.
  apply match_post in Hm as ->. pose proof (match_exact ["api"; "v1"; "sync"] segs t Hp) as ->. by injection Hp.
Qed.

Lemma route_tenant_sync method segs t :
  find_route routes method segs = Some (TenantSync, t) <->
  t <> "" /\ method = "POST" /\ segs = ["api"; "v1"; "sync"; t].
Proof.
  split.
  - intros (m & pat & Hin & Hp & Hm)%find_route_in. apply list_elem_of_In in Hin. cbn [routes In] in Hin.
    destruct Hin as [Hin|[Hin|[Hin|[Hin|[Hin|[Hin|[Hin|[Hin|[]]]]]]]]]; injection Hin as <- <-; try done.
    apply match_post in Hm as ->.
    assert (segs = ["api"; "v1"; "sync"; t]) as -> by exact (match_last ["api"; "v1"; "sync"] segs t Hp).
    split; [|done]. by intros ->.
  - intros (Ht & -> & ->). cbn. by rewrite (proj2 (String.eqb_neq _ _) Ht).
Qed.

Lemma route_webhook method segs t :
  find_route routes method segs = Some (Webhook, t) <->
  t = "" /\ method = "POST" /\ segs = ["api"; "v1"; "webhook"; "git"].
Proof.
  split; [|by intros (-> & -> & ->)].
  intros (m & pat & Hin & Hp & Hm)%find_route_in. apply list_elem_of_In in Hin. cbn [routes In] in Hin.
  destruct Hin as [Hin|[Hin|[Hin|[Hin|[Hin|[Hin|[Hin|[Hin|[]]]]]]]]]; injection Hin as <- <-; try done.
  apply match_post in Hm as ->. pose proof (match_exact ["api"; "v1"; "webhook"; "git"] segs t Hp) as ->.
  by injection Hp.
Qed.

(** C18: a request changes nothing but by a POST to one of three paths: a sync, the sync of
    a tenant that runs (whose controller alone is triggered), or a webhook.  When the
    server has a webhook secret, the webhook triggers the controllers exactly when the
    request carries the signature of its body or, without any signature, the secret;
    otherwise it is refused and triggers nothing. *)
Theorem webhook_authenticated {U : Unicode} format_time range wait method segs header body s :
  let r := mkReq header body "" in
  let '(s', resp) := serve format_time range wait method segs header body s in
  (s' <> s -> method = "POST" /\
     (segs = ["api"; "v1"; "sync"] \/
      (exists tm tenant inst, segs = ["api"; "v1"; "sync"; tenant] /\ s_tenants s = Some tm /\
         tm !! tenant = Some inst /\ s' = with_tenants s (<[tenant := arm inst]> tm)) \/
      segs = ["api"; "v1"; "webhook"; "git"] /\ s' = trigger_all s /\
        (s_webhookSecret s = "" \/ authentic (s_webhookSecret s) r))) /\
  (method = "POST" -> segs = ["api"; "v1"; "webhook"; "git"] -> s_webhookSecret s <> "" ->
     (authentic (s_webhookSecret s) r -> s' = trigger_all s /\ rs_code resp = 200%Z) /\
     (~ authentic (s_webhookSecret s) r -> s' = s /\ (400 <= rs_code resp)%Z)).
Proof.
  cbv zeta. unfold serve. destruct (find_route routes method segs) as [[h t]|] eqn:Hr.
  2:{ destruct (existsb _ _); (split; [done|]; intros -> ->; by rewrite (proj2 (route_webhook "POST" _ "")) in Hr). }
  assert (Hw : method = "POST" -> segs = ["api"; "v1"; "webhook"; "git"] -> h = Webhook).
  { intros Hm Hs. rewrite (proj2 (route_webhook method segs "")) in Hr by done. by injection Hr. }
  destruct h; try (by split; [|intros Hm Hs; specialize (Hw Hm Hs)]).
  - apply route_sync in Hr as (-> & -> & ->). destruct (handleSync _ _ _).
    split; [intros _; split; [done|by left]|done].
  - apply route_tenant_sync in Hr as (Ht & -> & ->). unfold handleTenantSync, Trigger. cbn [rq_tenant].
    destruct (s_tenants s) as [tm|] eqn:Htm; [destruct (tm !! t) as [inst|] eqn:Hi|]; (split; [|done]); try done.
    intros _. split; [done|right; left]. by exists tm, t, inst.
  - apply route_webhook in Hr as (-> & -> & ->). pose proof (handleWebhook_spec s (mkReq header body "")) as H.
    destruct (handleWebhook s (mkReq header body "")) as [s' resp]. destruct H as [[Ha H]|(Hn & H1 & H2)].
    + injection H as -> ->. split; [intros _; split; [done|by right; right]|]. intros _ _ Hsec. destruct Ha as [?|Ha]; [done|]. by split.
    + cbn in H1. subst s'. split; [done|]. intros _ _ Hsec. split; [|by split]. intros Ha. destruct Hn. by right.
Qed.

#[local] Existing Instance ascii_unicode.

Definition ex_server : Server := mkServer None NewStatusTracker zeroMetrics false "key".

Definition fox : string := "The quick brown fox jumps over the lazy dog".

Definition ex_header (name : string) : string :=
  if String.eqb name "X-Hub-Signature-256"
  then "sha256=f7bc83f430538424b13298e6aa6fb143ef4d59a14946175997479dbc2d1a3cd8" else "".

Lemma ex_authentic : authentic (s_webhookSecret ex_server) (mkReq ex_header (Ok fox) "").
Proof. exists fox. split; [done|]. left. split; [done|]. vm_compute. reflexivity. Qed.

Lemma webhook_authenticated_witness :
  (serve Itoa (fun _ => []) (fun s => (s, Err (errorf "stopped"))) "POST" ["api"; "v1"; "webhook"; "git"]
     ex_header (Ok fox) ex_server).1 = arm_single ex_server.
Proof.
  pose proof (webhook_authenticated Itoa (fun _ => []) (fun s => (s, Err (errorf "stopped"))) "POST"
                ["api"; "v1"; "webhook"; "git"] ex_header (Ok fox) ex_server) as H.
  cbv zeta in H. destruct (serve _ _ _ _ _ _ _ _) as [s' resp]. destruct H as [_ H].
  destruct (H eq_refl eq_refl ltac:(done)) as [Ha _]. apply Ha, ex_authentic.
Defined.

(** The answer for an unknown tenant is not JSON: [%q] closes the string it is in. *)
Lemma unknown_tenant_not_json : is_ok (parse_json (rs_body (tenant_not_found "blue"))) = false.
Proof. vm_compute. reflexivity. Qed.
