(* ===== verification/Attach.v ===== *)
(** * The client of a running serve instance

    [internal/tui/attach.go]: what [gcplane top --attach] asks the HTTP API of
    [gcplane serve] ([Server]) and how it shows the answer.  The HTTP client is two
    functions, what a GET and a POST come to; how a time is read back is an argument. *)
From Stdlib Require Import ZArith Lia Bool Ascii.
From Stdlib Require String.
From S2P Require Import Prelude GoStr GoValue Filepath Manifest Json JsonParse JsonRound Compare.
From S2P Require Import Engine Loader TraceStore Views Controller Http GoclawBase GoclawHttp.
From S2P Require Import Tenants Server.

Local Open Scope string_scope.
Local Open Scope go_scope.

(** The status code and what reading the whole body gives. *)
Record HttpReply := mkReply { rp_Code : Z; rp_Body : res string }.

(** [controller.SyncStatus] as decoded: a condition type may be any text. *)
Record SeenCondition := mkSeenCondition {
  sc_Type : string;
  sc_Status : string;
  sc_Message : string;
  sc_LastTransitionTime : Z
}.

Record SeenStatus := mkSeenStatus {
  ss_LastSyncTime : Z;
  ss_LastSyncHash : string;
  ss_Conditions : list SeenCondition;
  ss_Resources : list ResourceStatus
}.

(** [ProviderAPI] of [app.go], with the interfaces a provider may implement besides:
    [LogTailer] (start with a level, stop) and [TraceFetcher]. *)
Record ProviderAPI (W : Type) := mkProviderAPI {
  pa_Observe : ResourceKind -> string -> M W (option gomap);
  pa_Create : ResourceKind -> string -> gomap -> M W unit;
  pa_Update : ResourceKind -> string -> gomap -> M W unit;
  pa_Delete : ResourceKind -> string -> M W unit;
  pa_LogTailer : option ((string -> M W unit) * M W unit);
  pa_TraceFetcher : option ((TraceFilters -> M W (list TraceData * Z)) *
                            (string -> M W (TraceData * list SpanData)))
}.
Arguments mkProviderAPI {W}.
Arguments pa_Observe {W}. Arguments pa_Create {W}. Arguments pa_Update {W}. Arguments pa_Delete {W}.
Arguments pa_LogTailer {W}. Arguments pa_TraceFetcher {W}.

Definition maxStatusBody : nat := Z.to_nat (10 * 2 ^ 20).

Lemma maxStatusBody_large : (1000 <= maxStatusBody)%nat.
Proof. unfold maxStatusBody. lia. Qed.

#[global] Opaque maxStatusBody.

(** [StatusToChanges], of a status that is there. *)
Definition status_action (status : string) : Action :=
  if String.eqb status "InSync" then ActionNoop
  else if String.eqb status "Created" then ActionCreate
  else if String.eqb status "Updated" then ActionUpdate
  else if String.eqb status "Error" then ActionNoop
  else ActionNoop.

Definition change_of_status (r : ResourceStatus) : Change :=
  mkChange (rs_Kind r) (rs_Name r) (status_action (rs_Status r)) ∅
    (if String.eqb (rs_Status r) "Error" then rs_Message r else "") false "".

Definition StatusToChanges (status : option SeenStatus) : list Change :=
  match status with None => [] | Some s => map change_of_status (ss_Resources s) end.

Section attach.
Context {W : Type} (parse_time : string -> res Z).
Context (http_get : string -> W -> W * res HttpReply).
Context (http_post : string -> string -> W -> W * res HttpReply).

Definition decode_time (v : jval) : res Z := (let? s := decode_string v in parse_time s)%go.

Definition decode_condition (v : jval) : res SeenCondition :=
  (let? type := struct_field "type" "" decode_string v in
   let? status := struct_field "status" "" decode_string v in
   let? message := struct_field "message" "" decode_string v in
   let? at_ := struct_field "lastTransitionTime" 0%Z decode_time v in
   Ok (mkSeenCondition type status message at_))%go.

Definition decode_resource (v : jval) : res ResourceStatus :=
  (let? kind := struct_field "kind" "" decode_string v in
   let? name := struct_field "name" "" decode_string v in
   let? status := struct_field "status" "" decode_string v in
   let? message := struct_field "message" "" decode_string v in
   Ok (mkResourceStatus kind name status message))%go.

Definition decode_status (v : jval) : res SeenStatus :=
  (let? time := struct_field "lastSyncTime" 0%Z decode_time v in
   let? hash := struct_field "lastSyncHash" "" decode_string v in
   let? conditions := struct_field "conditions" [] (decode_slice decode_condition) v in
   let? resources := struct_field "resources" [] (decode_slice decode_resource) v in
   Ok (mkSeenStatus time hash conditions resources))%go.

(** The client is its [baseURL]. *)
Section client.
Context (baseURL : string).

(** GET, the size limit and the check of the status, which the three fetches share. *)
Definition fetch_body (url : string) : M W string :=
  let! resp := wrapM "connect to serve: " (http_get url) in
  let! body := liftM (res_wrap "read response: " (res_map (str_take maxStatusBody) (rp_Body resp))) in
  if (rp_Code resp =? 200)%Z then retM body
  else failM (errorf ("serve returned " +:+ Itoa (rp_Code resp) +:+ ": " +:+ body)).

Definition parse_status (body : string) : res SeenStatus :=
  res_wrap "parse status: " (res_bind (parse_json body) decode_status).

Definition FetchStatus : M W SeenStatus :=
  let! body := fetch_body (baseURL +:+ "/api/v1/status") in liftM (parse_status body).

Definition FetchTenantStatus (tenant : string) : M W SeenStatus :=
  let! body := fetch_body (baseURL +:+ "/api/v1/status/" +:+ PathEscape tenant) in
  liftM (parse_status body).

(** [map[string]controller.SyncStatus]. *)
Definition decode_statuses (v : jval) : res (list (string * SeenStatus)) :=
  match v with
  | JNull => Ok []
  | JObj ms =>
    res_map (foldl (fun m kv => mset kv.1 kv.2 m) [])
      (seq_res (map (fun kv => res_map (pair kv.1) (decode_status kv.2)) ms))
  | _ => Err json_type_error
  end.

Definition FetchTenantsStatus : M W (option (list (string * SeenStatus))) :=
  let! body := fetch_body (baseURL +:+ "/api/v1/status") in
  retM match res_bind (parse_json body) decode_statuses with
       | Ok ((_ :: _) as tenants) =>
         match mget "" tenants with None => Some tenants | Some _ => None end
       | _ => None
       end.

(** The two triggers look at the code only. *)
Definition post_sync (url : string) : M W unit :=
  let! resp := wrapM "trigger sync: " (http_post url "application/json") in
  if (rp_Code resp =? 200)%Z then skipM else failM (errorf ("sync returned " +:+ Itoa (rp_Code resp))).

Definition TriggerSync : M W unit := post_sync (baseURL +:+ "/api/v1/sync").

Definition TriggerTenantSync (tenant : string) : M W unit :=
  post_sync (baseURL +:+ "/api/v1/sync/" +:+ PathEscape tenant).

Definition Healthcheck : M W unit :=
  let! resp := wrapM ("serve not reachable at " +:+ baseURL +:+ ": ") (http_get (baseURL +:+ "/healthz")) in
  if (rp_Code resp =? 200)%Z then skipM
  else failM (errorf ("serve unhealthy: status " +:+ Itoa (rp_Code resp))).

(** ** The provider in attach mode *)

Definition attach_mode_error (op : string) : error :=
  errorf (op +:+ " not available in attach mode — use gcplane apply directly").

Definition stubProvider : ProviderAPI W :=
  mkProviderAPI
    (fun _ _ => failM (errorf ("observe not available in attach mode (connected to " +:+ baseURL +:+ ")")))
    (fun _ _ _ => failM (attach_mode_error "create"))
    (fun _ _ _ => failM (attach_mode_error "update"))
    (fun _ _ => failM (attach_mode_error "delete"))
    None None.
End client.
End attach.

(** ** What serve writes, attach reads *)

Section round_trip.
Context {U : Unicode} (format_time : Z -> string) (parse_time : string -> res Z).

(** The strings as they are after the trip. *)
Definition seen_condition (c : Condition) : SeenCondition :=
  mkSeenCondition (condition_name (cond_Type c)) (valid_utf8 (cond_Status c))
    (valid_utf8 (cond_Message c)) (LastTransitionTime c).

Definition seen_resource (r : ResourceStatus) : ResourceStatus :=
  mkResourceStatus (valid_utf8 (rs_Kind r)) (valid_utf8 (rs_Name r)) (valid_utf8 (rs_Status r))
    (valid_utf8 (rs_Message r)).

Definition seen (s : SyncStatus) : SeenStatus :=
  mkSeenStatus (st_LastSyncTime s) (valid_utf8 (st_LastSyncHash s))
    (map seen_condition (st_Conditions s)) (map seen_resource (st_Resources s)).

(** The trees that are written. *)
Definition optional_member (name s : string) : list (string * jval) :=
  if String.eqb s "" then [] else [(name, JStr s)].

Definition condition_tree (c : Condition) : jval :=
  JObj ([("type", JStr (condition_name (cond_Type c))); ("status", JStr (cond_Status c))]
        ++ optional_member "message" (cond_Message c)
        ++ [("lastTransitionTime", JStr (format_time (LastTransitionTime c)))]).

Definition resource_tree (r : ResourceStatus) : jval :=
  JObj ([("kind", JStr (rs_Kind r)); ("name", JStr (rs_Name r)); ("status", JStr (rs_Status r))]
        ++ optional_member "message" (rs_Message r)).

Definition list_tree {A} (f : A -> jval) (l : list A) : jval :=
  match l with [] => JNull | _ => JArr (map f l) end.

Definition status_tree (s : SyncStatus) : jval :=
  JObj [("lastSyncTime", JStr (format_time (st_LastSyncTime s))); ("lastSyncHash", JStr (st_LastSyncHash s));
        ("conditions", list_tree condition_tree (st_Conditions s));
        ("resources", list_tree resource_tree (st_Resources s))].

Lemma encode_condition_tree c : encode_condition format_time c = jprint (condition_tree c).
Proof.
  unfold encode_condition, condition_tree, omit_empty, optional_member. by destruct (String.eqb _ _).
Qed.

Lemma encode_resource_tree r : encode_resource r = jprint (resource_tree r).
Proof.
  unfold encode_resource, resource_tree, omit_empty, optional_member. by destruct (String.eqb _ _).
Qed.

Lemma encode_list_tree {A} (enc : A -> string) (f : A -> jval) l :
  (forall a, enc a = jprint (f a)) -> encode_list enc l = jprint (list_tree f l).
Proof.
  intros H. destruct l as [|a l]; [done|]. cbn [encode_list list_tree jprint]. rewrite map_map.
  f_equal. by apply map_ext.
Qed.

Lemma encode_status_tree s : encode_status format_time s = jprint (status_tree s).
Proof.
  unfold encode_status, status_tree. cbn [jprint map fst snd].
  by rewrite <- (encode_list_tree _ _ _ encode_condition_tree), <- (encode_list_tree _ _ _ encode_resource_tree).
Qed.

Lemma ints_only_list {A} (f : A -> jval) l :
  (forall a, ints_only (f a) = true) -> ints_only (list_tree f l) = true.
Proof.
  intros H. destruct l as [|a l]; [done|]. cbn [list_tree ints_only].
  apply forallb_Forall, Forall_fmap, Forall_forall. intros x _. apply H.
Qed.

Lemma height_list {A} (f : A -> jval) l n :
  (forall a, height (f a) <= n)%Z -> (0 <= n)%Z -> (height (list_tree f l) <= 1 + n)%Z.
Proof.
  intros H Hn. destruct l as [|a l]; cbn [list_tree height]; [lia|].
  enough (foldr (fun x acc => Z.max (height x) acc) 0 (map f (a :: l)) <= n)%Z by lia.
  induction (a :: l) as [|b k IH]; simpl; [lia|]. specialize (H b). lia.
Qed.

Lemma status_tree_small s :
  ints_only (status_tree s) = true /\ (height (status_tree s) <= maxNestingDepth)%Z.
Proof.
  assert (H1 : forall c, ints_only (condition_tree c) = true).
  { intros c. unfold condition_tree, optional_member. by destruct (String.eqb _ _). }
  assert (H2 : forall r, ints_only (resource_tree r) = true).
  { intros r. unfold resource_tree, optional_member. by destruct (String.eqb _ _). }
  assert (H3 : forall c, (height (condition_tree c) <= 1)%Z).
  { intros c. unfold condition_tree, optional_member. by destruct (String.eqb _ _). }
  assert (H4 : forall r, (height (resource_tree r) <= 1)%Z).
  { intros r. unfold resource_tree, optional_member. by destruct (String.eqb _ _). }
  split.
  - unfold status_tree. cbn [ints_only forallb snd]. by rewrite !ints_only_list.
  - pose proof (height_list condition_tree (st_Conditions s) 1 H3 ltac:(lia)).
    pose proof (height_list resource_tree (st_Resources s) 1 H4 ltac:(lia)).
    unfold status_tree, maxNestingDepth. cbn [height foldr snd]. lia.
Qed.

(** Evaluates which members of a literal object a field reads. *)
Ltac read_fields :=
  cbn [clean map app fst snd];
  repeat match goal with |- context [valid_utf8 (String ?c ?s)] =>
    rewrite (valid_utf8_ascii (String c s)) by (vm_compute; reflexivity) end;
  unfold struct_field; cbn [foldl fst snd];
  repeat match goal with |- context [field_match ?a ?b] =>
    let v := eval vm_compute in (field_match a b) in change (field_match a b) with v end;
  cbn [res_bind decode_string].

Context (Htime : forall t, parse_time (format_time t) = Ok t).
Context (Htext : forall t, valid_utf8 (format_time t) = format_time t).

Lemma decode_condition_clean c :
  decode_condition parse_time (clean (condition_tree c)) = Ok (seen_condition c).
Proof using Htime Htext.
  assert (Hn : valid_utf8 (condition_name (cond_Type c)) = condition_name (cond_Type c))
    by (by destruct (cond_Type c)).
  unfold decode_condition, condition_tree, optional_member, seen_condition.
  destruct (String.eqb_spec (cond_Message c) "") as [->|_]; read_fields;
    unfold decode_time; cbn [res_bind decode_string]; rewrite Hn, Htext, Htime; done.
Qed.

Lemma decode_resource_clean r : decode_resource (clean (resource_tree r)) = Ok (seen_resource r).
Proof.
  unfold decode_resource, resource_tree, optional_member, seen_resource.
  destruct (String.eqb_spec (rs_Message r) "") as [->|_]; read_fields; done.
Qed.

Lemma decode_list_clean {A B} (dec : jval -> res B) (f : A -> jval) (g : A -> B) l :
  (forall a, dec (clean (f a)) = Ok (g a)) -> decode_slice dec (clean (list_tree f l)) = Ok (map g l).
Proof.
  intros H. destruct l as [|a l]; [done|]. cbn [list_tree clean decode_slice].
  induction (a :: l) as [|b k IH]; [done|]. cbn [map seq_res]. rewrite H, IH. done.
Qed.

Lemma decode_status_clean s : decode_status parse_time (clean (status_tree s)) = Ok (seen s).
Proof using Htime Htext.
  assert (Hc := decode_list_clean _ condition_tree seen_condition (st_Conditions s) decode_condition_clean).
  assert (Hr := decode_list_clean _ resource_tree seen_resource (st_Resources s) decode_resource_clean).
  unfold decode_status, status_tree. read_fields.
  unfold decode_time. cbn [decode_string res_bind]. rewrite Htext, Htime. cbn [res_bind].
  destruct (clean (list_tree condition_tree _)); cbn [decode_slice] in Hc; try done;
    destruct (clean (list_tree resource_tree _)); cbn [decode_slice] in Hr; try done;
    cbn [decode_slice]; injection Hc as <- || rewrite Hc; injection Hr as <- || rewrite Hr; done.
Qed.

Lemma parse_status_encoded s :
  parse_status parse_time (encode_status format_time s +:+ newline) = Ok (seen s).
Proof using Htime Htext.
  destruct (status_tree_small s) as [H1 H2]. unfold parse_status, newline.
  rewrite encode_status_tree, parse_print_line by done. cbn [res_bind]. by rewrite decode_status_clean.
Qed.

Lemma str_take_all n t : (String.length t <= n)%nat -> str_take n t = t.
Proof.
  revert n. induction t as [|c t IH]; intros [|n] H; simpl in *; try done; [lia|].
  by rewrite IH by lia.
Qed.

Lemma fetch_encoded {W} (http_get : string -> W -> W * res HttpReply) url s w w' :
  http_get url w = (w', Ok (mkReply 200 (Ok (encode_status format_time s +:+ newline)))) ->
  (String.length (encode_status format_time s +:+ newline) <= maxStatusBody)%nat ->
  bindM (fetch_body http_get url) (fun body => liftM (parse_status parse_time body)) w = (w', Ok (seen s)).
Proof using Htime Htext.
  intros Hget Hlen. unfold fetch_body, bindM, wrapM. rewrite Hget. cbn [res_wrap rp_Body rp_Code res_map].
  unfold liftM. rewrite str_take_all by done. cbn [res_wrap Z.eqb Pos.eqb]. unfold retM. by rewrite parse_status_encoded.
Qed.
End round_trip.

(** C36: what the interface attached to a serve instance gets is the status that instance
    keeps, for a single controller and for one of several tenants: times, hash,
    conditions and resources, with the bytes of a text that are not UTF-8 replaced; and
    the rows it shows are those of the resources, in their order. *)
Theorem attach_reads_serve {U : Unicode} {W} format_time parse_time (http_get : string -> W -> W * res HttpReply)
    base tenant (s : Server) r w w' :
  (forall t, parse_time (format_time t) = Ok t) ->
  (forall t, valid_utf8 (format_time t) = format_time t) ->
  rq_tenant r = tenant ->
  (forall resp, resp = handleStatus format_time s r ->
     http_get (base +:+ "/api/v1/status") w = (w', Ok (mkReply (rs_code resp) (Ok (rs_body resp))))) ->
  (forall resp, resp = handleTenantStatus format_time s r ->
     http_get (base +:+ "/api/v1/status/" +:+ PathEscape tenant) w
     = (w', Ok (mkReply (rs_code resp) (Ok (rs_body resp))))) ->
  match s_tenants s with
  | None =>
    (String.length (rs_body (handleStatus format_time s r)) <= maxStatusBody)%nat ->
    FetchStatus parse_time http_get base w = (w', Ok (seen (s_tracker s))) /\
    StatusToChanges (Some (seen (s_tracker s)))
    = map (fun x => change_of_status (seen_resource x)) (st_Resources (s_tracker s))
  | Some tm =>
    forall inst, Get tm tenant = Some inst ->
    (String.length (rs_body (handleTenantStatus format_time s r)) <= maxStatusBody)%nat ->
    FetchTenantStatus parse_time http_get base tenant w = (w', Ok (seen (tracker (ti_Controller inst))))
  end.
Proof.
  intros Htime Htext Htenant Hget Hget'. destruct (s_tenants s) as [tm|] eqn:Htm.
  - intros inst Hinst Hlen. unfold handleTenantStatus in *. rewrite Htm, Htenant, Hinst in *.
    eapply fetch_encoded; [done..| |exact Hlen]. by rewrite (Hget' _ eq_refl).
  - intros Hlen. unfold handleStatus in *. rewrite Htm in *. split.
    + eapply fetch_encoded; [done..| |exact Hlen]. by rewrite (Hget _ eq_refl).
    + cbn [StatusToChanges seen ss_Resources]. by rewrite map_map.
Qed.

(** ** Examples *)

(** Times written in binary, the lowest digit first. *)
Fixpoint pos_text (p : positive) : string :=
  match p with xH => "1" | xO p => "0" +:+ pos_text p | xI p => "1" +:+ pos_text p end.

Fixpoint text_pos (s : string) : positive :=
  match s with
  | String c "" => 1
  | String c s => if Ascii.eqb c "0" then xO (text_pos s) else xI (text_pos s)
  | "" => 1
  end%positive.

Definition ex_format_time (t : Z) : string :=
  match t with Z0 => "z" | Zpos p => "p" +:+ pos_text p | Zneg p => "n" +:+ pos_text p end.

Definition ex_parse_time (s : string) : res Z :=
  match s with
  | String "p" s => Ok (Zpos (text_pos s))
  | String "n" s => Ok (Zneg (text_pos s))
  | _ => Ok 0%Z
  end.

Lemma text_pos_text p : text_pos (pos_text p) = p.
Proof.
  induction p as [p IH|p IH|]; [..|done].
  - change (pos_text (xI p)) with (String "1" (pos_text p)). cbn [text_pos]. rewrite IH. by destruct p.
  - change (pos_text (xO p)) with (String "0" (pos_text p)). cbn [text_pos]. rewrite IH. by destruct p.
Qed.

Lemma ex_time_text t : valid_utf8 (ex_format_time t) = ex_format_time t.
Proof.
  assert (H : forall p, ascii_string (pos_text p) = true) by (induction p; done).
  apply valid_utf8_ascii. by destruct t as [|p|p]; [|apply (H p)..].
Qed.

Lemma ex_time_parse t : ex_parse_time (ex_format_time t) = Ok t.
Proof.
  destruct t as [|p|p]; [done|..]; cbn [ex_format_time ex_parse_time String.append app]; unfold ex_parse_time;
    by rewrite text_pos_text.
Qed.

Definition ex_status : SyncStatus :=
  mkSyncStatus 7 "abc" [mkCondition ConditionSynced "True" "" 7]
    [mkResourceStatus KindAgent "a" "Created" ""; mkResourceStatus KindAgent "b" "Error" "no"].

Definition ex_serve : Server := mkServer None ex_status zeroMetrics false "".
Definition ex_req : request := mkReq (fun _ => "") (Ok "") "t".

(** The network between the two. *)
Definition ex_get (url : string) (w : unit) : unit * res HttpReply :=
  let resp := if String.eqb url "http://h/api/v1/status" then handleStatus ex_format_time ex_serve ex_req
              else handleTenantStatus (U := ascii_unicode) ex_format_time ex_serve ex_req in
  (w, Ok (mkReply (rs_code resp) (Ok (rs_body resp)))).

Lemma attach_reads_serve_witness :
  FetchStatus ex_parse_time ex_get "http://h" tt = (tt, Ok (seen ex_status)) /\
  map ch_Action (StatusToChanges (Some (seen ex_status))) = [ActionCreate; ActionNoop].
Proof.
  destruct (attach_reads_serve (U := ascii_unicode) ex_format_time ex_parse_time ex_get "http://h" "t"
              ex_serve ex_req tt tt ex_time_parse ex_time_text eq_refl) as [H1 H2].
  - intros resp ->. reflexivity.
  - intros resp ->. reflexivity.
  - etrans; [|apply maxStatusBody_large]. vm_compute. lia.
  - split; [exact H1|]. etrans; [exact (f_equal (map ch_Action) H2)|]. vm_compute. reflexivity.
Defined.

(** A resource that the last cycle created is shown as missing, one that it updated as
    drifted. *)
Lemma created_shown_missing :
  map actionToStatus (StatusToChanges (Some (mkSeenStatus 0 "" []
    [mkResourceStatus KindAgent "a" "Created" ""; mkResourceStatus KindAgent "b" "Updated" ""])))
  = ["Missing"; "Drifted"].
Proof. reflexivity. Qed.

(** Attached to an instance with several tenants and no tenant chosen, the status decodes
    to one without resources: the interface shows none, and no error. *)
Lemma all_tenants_shown_empty :
  res_bind (parse_json (encode_statuses ex_format_time {[ "blue" := ex_status ]} +:+ newline))
    (decode_status ex_parse_time) = Ok (mkSeenStatus 0 "" [] []).
Proof. vm_compute. reflexivity. Qed.
