(* ===== verification/TuiState.v ===== *)
(** * The state of the terminal interface

    [internal/tui]: [model.go] (the plan and its filters), [registry.go] (tabs and
    overlays), [event_bus.go].  A lock's critical section is a function, since each method
    holds it from beginning to end.  [tview.Pages] is the page last switched to. *)
From Stdlib Require Import ZArith Lia Bool Ascii.
From Stdlib Require String.
From S2P Require Import Prelude GoStr GoValue Filepath Manifest Compare Engine Views.

Local Open Scope string_scope.

(** ** model.go *)

Record Model := mkModel {
  m_manifest : option Manifest;
  m_plan : option Plan;
  m_currentKind : ResourceKind;
  m_searchFilter : string;
  m_endpoint : string;
  m_manifestName : string;
  m_lastRefresh : option Z;          (** [None]: the zero time *)
  m_interval : Z;
  m_err : option error
}.

Definition NewModel (m : option Manifest) (ep : string) (interval : Z) : Model :=
  mkModel m None "" "" ep (match m with Some m => MetaName (ManifestMetadata m) | None => "" end)
    None interval None.

Definition UpdatePlan (now : Z) (plan : Plan) (m : Model) : Model :=
  mkModel (m_manifest m) (Some plan) (m_currentKind m) (m_searchFilter m) (m_endpoint m)
    (m_manifestName m) (Some now) (m_interval m) None.

Definition SetError (now : Z) (e : error) (m : Model) : Model :=
  mkModel (m_manifest m) (m_plan m) (m_currentKind m) (m_searchFilter m) (m_endpoint m)
    (m_manifestName m) (Some now) (m_interval m) (Some e).

Definition SetKind (kind : ResourceKind) (m : Model) : Model :=
  mkModel (m_manifest m) (m_plan m) kind (m_searchFilter m) (m_endpoint m)
    (m_manifestName m) (m_lastRefresh m) (m_interval m) (m_err m).

Definition SetFilter (filter : string) (m : Model) : Model :=
  mkModel (m_manifest m) (m_plan m) (m_currentKind m) filter (m_endpoint m)
    (m_manifestName m) (m_lastRefresh m) (m_interval m) (m_err m).

Definition SetManifestName (name : string) (m : Model) : Model :=
  mkModel (m_manifest m) (m_plan m) (m_currentKind m) (m_searchFilter m) (m_endpoint m)
    name (m_lastRefresh m) (m_interval m) (m_err m).

Definition GetError (m : Model) : option error := m_err m.
Definition GetKind (m : Model) : ResourceKind := m_currentKind m.
Definition GetFilter (m : Model) : string := m_searchFilter m.
Definition GetPlan (m : Model) : option Plan := m_plan m.
Definition GetManifestName (m : Model) : string := m_manifestName m.
Definition GetEndpoint (m : Model) : string := m_endpoint m.
Definition GetLastRefresh (m : Model) : option Z := m_lastRefresh m.
Definition GetInterval (m : Model) : Z := m_interval m.

(** Whether [GetChanges] keeps a change. *)
Definition change_matches {U : Unicode} (m : Model) (c : Change) : bool :=
  (String.eqb (m_currentKind m) "" || String.eqb (ch_Kind c) (m_currentKind m))
  && (String.eqb (m_searchFilter m) "" || Contains (ToLower (ch_Name c)) (ToLower (m_searchFilter m))).

Definition GetChanges {U : Unicode} (m : Model) : list Change :=
  match m_plan m with
  | None => []
  | Some plan => List.filter (change_matches m) (Changes plan)
  end.

(** ** registry.go *)

Inductive PrimaryTab := TabState | TabTraces | TabLogs.

#[export] Instance PrimaryTab_eq_dec : EqDecision PrimaryTab.
Proof. solve_decision. Defined.

Record TabMeta := mkTabMeta { tm_PageName : string; tm_Label : string; tm_Key : string }.

Definition tabMeta (tab : PrimaryTab) : TabMeta :=
  match tab with
  | TabState => mkTabMeta "main" "State" "S"
  | TabTraces => mkTabMeta "traces" "Traces" "T"
  | TabLogs => mkTabMeta "logs" "Logs" "L"
  end.

Definition tabs : list PrimaryTab := [TabState; TabTraces; TabLogs].

(** [r_front]: the page the last [SwitchToPage] was given.  The stack grows at its end. *)
Record ViewRegistry := mkRegistry {
  r_front : string;
  r_views : list string;
  r_activeTab : PrimaryTab;
  r_overlayStack : list string
}.

Definition NewViewRegistry : ViewRegistry := mkRegistry "" [] TabState [].

(** The views are a map by name. *)
Definition Register (name : string) (r : ViewRegistry) : ViewRegistry :=
  mkRegistry (r_front r) (if bool_decide (name ∈ r_views r) then r_views r else (r_views r ++ [name])%list)
    (r_activeTab r) (r_overlayStack r).

(** The [Activate] of every view does nothing. *)
Definition SwitchTab (tab : PrimaryTab) (r : ViewRegistry) : ViewRegistry :=
  mkRegistry (tm_PageName (tabMeta tab)) (r_views r) tab [].

Definition Push (name : string) (r : ViewRegistry) : ViewRegistry :=
  mkRegistry name (r_views r) (r_activeTab r) (r_overlayStack r ++ [name])%list.

Definition Current (r : ViewRegistry) : string :=
  default (tm_PageName (tabMeta (r_activeTab r))) (last (r_overlayStack r)).

(** The name of the view now showing, too. *)
Definition Pop (r : ViewRegistry) : ViewRegistry * string :=
  let stack := removelast (r_overlayStack r) in
  let name := default (tm_PageName (tabMeta (r_activeTab r))) (last stack) in
  (mkRegistry name (r_views r) (r_activeTab r) stack, name).

Definition ActiveTab (r : ViewRegistry) : PrimaryTab := r_activeTab r.
Definition HasOverlay (r : ViewRegistry) : bool := match r_overlayStack r with [] => false | _ => true end.
Definition Get_view (name : string) (r : ViewRegistry) : bool := bool_decide (name ∈ r_views r).
Definition Count (r : ViewRegistry) : nat := length (r_views r).

Definition tab_text (r : ViewRegistry) (t : PrimaryTab) : string :=
  let hint := Tag HexOverlay0 ("(" +:+ tm_Key (tabMeta t) +:+ ")") in
  (if bool_decide (t = r_activeTab r) then BoldTag HexGreen (uchar 9679 +:+ " " +:+ tm_Label (tabMeta t))
   else Tag HexOverlay0 (uchar 9675 +:+ " " +:+ tm_Label (tabMeta t))) +:+ " " +:+ hint.

Definition TabBar (r : ViewRegistry) : string := " " +:+ Join (map (tab_text r) tabs) "  ".

(** The page in front is the one the registry names. *)
Definition shows_current (r : ViewRegistry) : Prop := r_front r = Current r.

Lemma shows_switch tab r : shows_current (SwitchTab tab r).
Proof. done. Qed.

Lemma shows_push name r : shows_current (Push name r).
Proof. unfold shows_current, Current, Push. cbn. by rewrite last_snoc. Qed.

Lemma shows_pop r : shows_current (Pop r).1 /\ (Pop r).2 = Current (Pop r).1.
Proof. done. Qed.

(** A view that was pushed last is what popping removes. *)
Lemma pop_push name r : (Pop (Push name r)).1 = mkRegistry (Current r) (r_views r) (r_activeTab r) (r_overlayStack r).
Proof. unfold Pop, Push, Current. cbn. by rewrite removelast_last. Qed.

(** ** event_bus.go *)

Inductive EventType := EventPlanUpdated | EventTraceEntry | EventStatusMsg.

#[export] Instance EventType_eq_dec : EqDecision EventType.
Proof. solve_decision. Defined.

Section event_bus.
Context {Payload A : Type}.

Record Event := mkEvent { e_Type : EventType; e_Payload : option Payload }.

(** The subscribers of each type, in the order in which they subscribed. *)
Definition EventBus : Type := EventType -> list (Event -> A -> A).

Definition NewEventBus : EventBus := fun _ => [].

Definition Subscribe (t : EventType) (fn : Event -> A -> A) (b : EventBus) : EventBus :=
  fun t' => if bool_decide (t' = t) then (b t' ++ [fn])%list else b t'.

(** The function to queue for the interface's goroutine, if there is anyone to call. *)
Definition Publish (e : Event) (b : EventBus) : option (A -> A) :=
  match b (e_Type e) with
  | [] => None
  | subs => Some (fun a => foldl (fun a fn => fn e a) a subs)
  end.
End event_bus.
