(* ===== verification/Tui.v ===== *)
(** * The terminal interface

    [internal/tui]: [app.go], [actions.go] and [keybindings.go].  The interface has one
    goroutine, which handles keys and runs the functions the others queue
    ([QueueUpdateDraw], [a_queue]); every [go] statement is a [Task], run to its end in one
    step ([run_task]): what it reads and writes of the shared state is guarded by locks,
    and what it shows goes through the queue.  [QueueUpdateDraw] waits until its function
    has run, so the interface's own goroutine never returns from it ([a_hung]).

    The widgets are those of [Views]; keys that they handle themselves are steps of the
    environment ([widget]).  Arguments: the editor, YAML, the order of a Go map, how
    times are written, and what the provider and the HTTP client do to the world [W]. *)
From Stdlib Require Import ZArith Lia Bool Ascii.
From Stdlib Require String.
From S2P Require Import Prelude GoStr GoValue Filepath Manifest Secrets Compare Json JsonParse.
From S2P Require Import Loader Engine Ring TraceStore Display Views LogsPanel TracesPanel TuiState.
From S2P Require Import Controller Attach GoTime.

Local Open Scope string_scope.

(** ** State *)

Inductive InputMode := ModeNormal | ModeCommand | ModeSearch.

#[export] Instance InputMode_eq_dec : EqDecision InputMode.
Proof. solve_decision. Defined.

(** [k_pending]: the first key of [gg] or [yy], or zero. *)
Record KeyHandler := mkKeyHandler { k_mode : InputMode; k_pending : Z }.

Definition NewKeyHandler : KeyHandler := mkKeyHandler ModeNormal 0.

(** The function that [SetDoneFunc] was given last. *)
Inductive DoneFunc := onCommandDone_ | onSearchDone_.

Record InputField := mkInputField { if_Label : string; if_Text : string; if_Done : DoneFunc }.

(** What the two confirmations go on to do. *)
Inductive ConfirmAction :=
  | ConfirmApply
  | ConfirmDelete (kind : ResourceKind) (name : string).

(** [cm_Yes]: whether the button in focus is the first. *)
Record ConfirmModal := mkConfirmModal {
  cm_text : string;
  cm_onConfirm : option ConfirmAction;
  cm_Yes : bool
}.

Definition NewConfirmModal : ConfirmModal := mkConfirmModal "" None true.

(** [Show]: the No button is in focus. *)
Definition confirm_Show (message : string) (act : ConfirmAction) : ConfirmModal :=
  mkConfirmModal (nl +:+ message) (Some act) false.

(** The widget that keys go to. *)
Inductive Focus :=
  | FTable | FTraces (p : Page) | FLogs | FDetail | FDrift | FConfirm | FHelp | FCmdBar.

#[export] Instance Focus_eq_dec : EqDecision Focus.
Proof. solve_decision. Defined.

(** The goroutines started by the interface. *)
Inductive Task :=
  | TRefresh
  | TDoApply
  | TDoDelete (kind : ResourceKind) (name : string)
  | TUpdate (kind : ResourceKind) (name : string) (spec : gomap)
  | TObserve (kind : ResourceKind) (name : string)
  | TStartLogTail
  | TStopLogTail
  | TListFetch
  | TDetailFetch
  | TDrill
  | TRemoteSync.

(** The functions queued for the interface's goroutine. *)
Inductive Draw :=
  | DTable (status : option string)
  | DStatus (msg : string)
  | DLogs
  | DLogsNow
  | DLogsUnavailable (reason : string)
  | DTracesUnavailable (reason : string)
  | DTraces
  | DSpans
  | DShowSpans
  | DDetail (kind : ResourceKind) (name : string) (observed : res (option gomap))
  | DClearLabel (msg : string).

Record App := mkApp {
  a_model : Model;
  a_registry : ViewRegistry;
  a_header : string;
  a_cmdBar : InputField;
  a_keys : KeyHandler;
  a_table : ResourceTable;
  a_detail : TextView;
  a_drift : TextView;
  a_confirm : ConfirmModal;
  a_liveStore : LiveStore;
  a_logs : LogsPanel;
  a_traces : TracesPanel;
  a_store : TraceStore;
  a_refreshCh : bool;
  a_tenant : string;
  a_timer : option string;      (** the message the running [statusTimer] clears *)
  a_focus : Focus;
  a_now : Z;                    (** the clock *)
  a_stopped : bool;
  a_hung : bool;
  a_tasks : list Task;
  a_queue : list Draw
}.

Definition set_model x (a : App) : App :=
  mkApp x (a_registry a) (a_header a) (a_cmdBar a) (a_keys a) (a_table a) (a_detail a) (a_drift a) (a_confirm a)
    (a_liveStore a) (a_logs a) (a_traces a) (a_store a) (a_refreshCh a) (a_tenant a) (a_timer a) (a_focus a)
    (a_now a) (a_stopped a) (a_hung a) (a_tasks a) (a_queue a).
Definition set_registry x (a : App) : App :=
  mkApp (a_model a) x (a_header a) (a_cmdBar a) (a_keys a) (a_table a) (a_detail a) (a_drift a) (a_confirm a)
    (a_liveStore a) (a_logs a) (a_traces a) (a_store a) (a_refreshCh a) (a_tenant a) (a_timer a) (a_focus a)
    (a_now a) (a_stopped a) (a_hung a) (a_tasks a) (a_queue a).
Definition set_header x (a : App) : App :=
  mkApp (a_model a) (a_registry a) x (a_cmdBar a) (a_keys a) (a_table a) (a_detail a) (a_drift a) (a_confirm a)
    (a_liveStore a) (a_logs a) (a_traces a) (a_store a) (a_refreshCh a) (a_tenant a) (a_timer a) (a_focus a)
    (a_now a) (a_stopped a) (a_hung a) (a_tasks a) (a_queue a).
Definition set_cmdBar x (a : App) : App :=
  mkApp (a_model a) (a_registry a) (a_header a) x (a_keys a) (a_table a) (a_detail a) (a_drift a) (a_confirm a)
    (a_liveStore a) (a_logs a) (a_traces a) (a_store a) (a_refreshCh a) (a_tenant a) (a_timer a) (a_focus a)
    (a_now a) (a_stopped a) (a_hung a) (a_tasks a) (a_queue a).
Definition set_keys x (a : App) : App :=
  mkApp (a_model a) (a_registry a) (a_header a) (a_cmdBar a) x (a_table a) (a_detail a) (a_drift a)
    (a_confirm a) (a_liveStore a) (a_logs a) (a_traces a) (a_store a) (a_refreshCh a) (a_tenant a) (a_timer a)
    (a_focus a) (a_now a) (a_stopped a) (a_hung a) (a_tasks a) (a_queue a).
Definition set_table x (a : App) : App :=
  mkApp (a_model a) (a_registry a) (a_header a) (a_cmdBar a) (a_keys a) x (a_detail a) (a_drift a) (a_confirm a)
    (a_liveStore a) (a_logs a) (a_traces a) (a_store a) (a_refreshCh a) (a_tenant a) (a_timer a) (a_focus a)
    (a_now a) (a_stopped a) (a_hung a) (a_tasks a) (a_queue a).
Definition set_detail x (a : App) : App :=
  mkApp (a_model a) (a_registry a) (a_header a) (a_cmdBar a) (a_keys a) (a_table a) x (a_drift a) (a_confirm a)
    (a_liveStore a) (a_logs a) (a_traces a) (a_store a) (a_refreshCh a) (a_tenant a) (a_timer a) (a_focus a)
    (a_now a) (a_stopped a) (a_hung a) (a_tasks a) (a_queue a).
Definition set_drift x (a : App) : App :=
  mkApp (a_model a) (a_registry a) (a_header a) (a_cmdBar a) (a_keys a) (a_table a) (a_detail a) x (a_confirm a)
    (a_liveStore a) (a_logs a) (a_traces a) (a_store a) (a_refreshCh a) (a_tenant a) (a_timer a) (a_focus a)
    (a_now a) (a_stopped a) (a_hung a) (a_tasks a) (a_queue a).
Definition set_confirm x (a : App) : App :=
  mkApp (a_model a) (a_registry a) (a_header a) (a_cmdBar a) (a_keys a) (a_table a) (a_detail a) (a_drift a) x
    (a_liveStore a) (a_logs a) (a_traces a) (a_store a) (a_refreshCh a) (a_tenant a) (a_timer a) (a_focus a)
    (a_now a) (a_stopped a) (a_hung a) (a_tasks a) (a_queue a).
Definition set_liveStore x (a : App) : App :=
  mkApp (a_model a) (a_registry a) (a_header a) (a_cmdBar a) (a_keys a) (a_table a) (a_detail a) (a_drift a)
    (a_confirm a) x (a_logs a) (a_traces a) (a_store a) (a_refreshCh a) (a_tenant a) (a_timer a) (a_focus a)
    (a_now a) (a_stopped a) (a_hung a) (a_tasks a) (a_queue a).
Definition set_logs x (a : App) : App :=
  mkApp (a_model a) (a_registry a) (a_header a) (a_cmdBar a) (a_keys a) (a_table a) (a_detail a) (a_drift a)
    (a_confirm a) (a_liveStore a) x (a_traces a) (a_store a) (a_refreshCh a) (a_tenant a) (a_timer a)
    (a_focus a) (a_now a) (a_stopped a) (a_hung a) (a_tasks a) (a_queue a).
Definition set_traces x (a : App) : App :=
  mkApp (a_model a) (a_registry a) (a_header a) (a_cmdBar a) (a_keys a) (a_table a) (a_detail a) (a_drift a)
    (a_confirm a) (a_liveStore a) (a_logs a) x (a_store a) (a_refreshCh a) (a_tenant a) (a_timer a) (a_focus a)
    (a_now a) (a_stopped a) (a_hung a) (a_tasks a) (a_queue a).
Definition set_store x (a : App) : App :=
  mkApp (a_model a) (a_registry a) (a_header a) (a_cmdBar a) (a_keys a) (a_table a) (a_detail a) (a_drift a)
    (a_confirm a) (a_liveStore a) (a_logs a) (a_traces a) x (a_refreshCh a) (a_tenant a) (a_timer a) (a_focus a)
    (a_now a) (a_stopped a) (a_hung a) (a_tasks a) (a_queue a).
Definition set_refreshCh x (a : App) : App :=
  mkApp (a_model a) (a_registry a) (a_header a) (a_cmdBar a) (a_keys a) (a_table a) (a_detail a) (a_drift a)
    (a_confirm a) (a_liveStore a) (a_logs a) (a_traces a) (a_store a) x (a_tenant a) (a_timer a) (a_focus a)
    (a_now a) (a_stopped a) (a_hung a) (a_tasks a) (a_queue a).
Definition set_tenant x (a : App) : App :=
  mkApp (a_model a) (a_registry a) (a_header a) (a_cmdBar a) (a_keys a) (a_table a) (a_detail a) (a_drift a)
    (a_confirm a) (a_liveStore a) (a_logs a) (a_traces a) (a_store a) (a_refreshCh a) x (a_timer a) (a_focus a)
    (a_now a) (a_stopped a) (a_hung a) (a_tasks a) (a_queue a).
Definition set_timer x (a : App) : App :=
  mkApp (a_model a) (a_registry a) (a_header a) (a_cmdBar a) (a_keys a) (a_table a) (a_detail a) (a_drift a)
    (a_confirm a) (a_liveStore a) (a_logs a) (a_traces a) (a_store a) (a_refreshCh a) (a_tenant a) x (a_focus a)
    (a_now a) (a_stopped a) (a_hung a) (a_tasks a) (a_queue a).
Definition set_focus x (a : App) : App :=
  mkApp (a_model a) (a_registry a) (a_header a) (a_cmdBar a) (a_keys a) (a_table a) (a_detail a) (a_drift a)
    (a_confirm a) (a_liveStore a) (a_logs a) (a_traces a) (a_store a) (a_refreshCh a) (a_tenant a) (a_timer a) x
    (a_now a) (a_stopped a) (a_hung a) (a_tasks a) (a_queue a).
Definition set_now x (a : App) : App :=
  mkApp (a_model a) (a_registry a) (a_header a) (a_cmdBar a) (a_keys a) (a_table a) (a_detail a) (a_drift a)
    (a_confirm a) (a_liveStore a) (a_logs a) (a_traces a) (a_store a) (a_refreshCh a) (a_tenant a) (a_timer a)
    (a_focus a) x (a_stopped a) (a_hung a) (a_tasks a) (a_queue a).
Definition set_stopped x (a : App) : App :=
  mkApp (a_model a) (a_registry a) (a_header a) (a_cmdBar a) (a_keys a) (a_table a) (a_detail a) (a_drift a)
    (a_confirm a) (a_liveStore a) (a_logs a) (a_traces a) (a_store a) (a_refreshCh a) (a_tenant a) (a_timer a)
    (a_focus a) (a_now a) x (a_hung a) (a_tasks a) (a_queue a).
Definition set_hung x (a : App) : App :=
  mkApp (a_model a) (a_registry a) (a_header a) (a_cmdBar a) (a_keys a) (a_table a) (a_detail a) (a_drift a)
    (a_confirm a) (a_liveStore a) (a_logs a) (a_traces a) (a_store a) (a_refreshCh a) (a_tenant a) (a_timer a)
    (a_focus a) (a_now a) (a_stopped a) x (a_tasks a) (a_queue a).
Definition set_tasks x (a : App) : App :=
  mkApp (a_model a) (a_registry a) (a_header a) (a_cmdBar a) (a_keys a) (a_table a) (a_detail a) (a_drift a)
    (a_confirm a) (a_liveStore a) (a_logs a) (a_traces a) (a_store a) (a_refreshCh a) (a_tenant a) (a_timer a)
    (a_focus a) (a_now a) (a_stopped a) (a_hung a) x (a_queue a).
Definition set_queue x (a : App) : App :=
  mkApp (a_model a) (a_registry a) (a_header a) (a_cmdBar a) (a_keys a) (a_table a) (a_detail a) (a_drift a)
    (a_confirm a) (a_liveStore a) (a_logs a) (a_traces a) (a_store a) (a_refreshCh a) (a_tenant a) (a_timer a)
    (a_focus a) (a_now a) (a_stopped a) (a_hung a) (a_tasks a) x.

(** [go f()] and [QueueUpdateDraw(f)] of another goroutine. *)
Definition spawn (t : Task) (a : App) : App := set_tasks (a_tasks a ++ [t])%list a.
Definition enqueue (d : Draw) (a : App) : App := set_queue (a_queue a ++ [d])%list a.

(** [QueueUpdateDraw(f)] of the interface's own goroutine. *)
Definition enqueue_here (d : Draw) (a : App) : App := set_hung true (enqueue d a).

Definition set_mode (m : InputMode) (a : App) : App := set_keys (mkKeyHandler m (k_pending (a_keys a))) a.
Definition set_pending (r : Z) (a : App) : App := set_keys (mkKeyHandler (k_mode (a_keys a)) r) a.
Definition set_label (label text : string) (a : App) : App :=
  set_cmdBar (mkInputField label text (if_Done (a_cmdBar a))) a.
Definition set_done (d : DoneFunc) (a : App) : App :=
  set_cmdBar (mkInputField (if_Label (a_cmdBar a)) (if_Text (a_cmdBar a)) d) a.

(** The number of changes of an action in a synthetic plan. *)
Definition count_action (act : Action) (changes : list Change) : nat :=
  length (List.filter (fun c => bool_decide (ch_Action c = act)) changes).

(** The plan that [refreshFromServe] builds. *)
Definition plan_of_changes (changes : list Change) : Plan :=
  mkPlan changes (count_action ActionCreate changes) (count_action ActionUpdate changes)
    (count_action ActionDelete changes) (count_action ActionNoop changes)
    (List.filter (fun e => negb (String.eqb e "")) (map ch_Error changes)).

(** A day has no name: hours go on. *)
Definition formatDuration (d : Z) : string :=
  if (d <? 60 * 10 ^ 9)%Z then Itoa (Z.quot d (10 ^ 9)) +:+ "s"
  else if (d <? 3600 * 10 ^ 9)%Z then Itoa (Z.quot d (60 * 10 ^ 9)) +:+ "m"
  else Itoa (Z.quot d (3600 * 10 ^ 9)) +:+ "h".

Definition apply_prompt (plan : Plan) : string :=
  "Apply " +:+ Itoan (Creates plan + Updates plan) +:+ " change(s)?" +:+ nl +:+ "(" +:+ Itoan (Creates plan)
  +:+ " create, " +:+ Itoan (Updates plan) +:+ " update)".

Definition delete_prompt (kind : ResourceKind) (name : string) : string :=
  "Delete " +:+ kind +:+ "/" +:+ name +:+ " from GoClaw?".

(** [kindAliases] and [kindByNumber]. *)
Definition kindAliases : list (string * ResourceKind) :=
  [("provider", KindProvider); ("agent", KindAgent); ("channel", KindChannel); ("mcp", KindMCPServer);
   ("mcpserver", KindMCPServer); ("skill", KindSkill); ("cron", KindCronJob); ("cronjob", KindCronJob);
   ("team", KindAgentTeam); ("agentteam", KindAgentTeam); ("sysconfig", KindSystemConfig);
   ("systemconfig", KindSystemConfig); ("cli", KindSecureCLI); ("securecli", KindSecureCLI);
   ("link", KindAgentLink); ("agentlink", KindAgentLink); ("workstation", KindWorkstation);
   ("ws", KindWorkstation)].

Definition kindByNumber : list (Z * ResourceKind) :=
  [(49, KindProvider); (50, KindAgent); (51, KindChannel); (52, KindMCPServer); (53, KindSkill);
   (54, KindCronJob); (55, KindAgentTeam); (56, KindSystemConfig); (57, KindSecureCLI)]%Z.

Definition kind_by_number (r : Z) : option ResourceKind :=
  option_map snd (List.find (fun kv => (kv.1 =? r)%Z) kindByNumber).

Definition log_levels : list (Z * string) := [(49, "debug"); (50, "info"); (51, "warn"); (52, "error")]%Z.

(** The result of an editor session on a temporary file. *)
Inductive EditOutcome := EditTempError (e : error) | EditWriteError (e : error) | EditReadError (e : error)
                       | Edited (content : string).

(** [strings.Fields]: the runs of bytes between white space. *)
Fixpoint fields_of (cur : list ascii) (l : list runeseg) : list (list ascii) :=
  match l with
  | [] => match cur with [] => [] | _ => [cur] end
  | (r, bs) :: l =>
    if IsSpace r then match cur with [] => fields_of [] l | _ => cur :: fields_of [] l end
    else fields_of (cur ++ bs) l
  end.

Definition Fields (s : string) : list string := map of_bytes (fields_of [] (decode (bytes_of s))).

Example fields_ex : Fields " tenant   blue " = ["tenant"; "blue"].
Proof. vm_compute. reflexivity. Qed.

(** ** The application *)

Section app.
Context {U : Unicode} {LSort : LessSort} {SSort : SliceSort} {W : Type}.
Context (range_order : list SpanData -> list SpanData) (clock clock_ms : Z -> string).
Context (other_v : gval -> string) (yaml : Yaml) (edit : string -> string -> W -> W * EditOutcome).
Context (sch : Schedule) (env_of : W -> Env) (parse_time : string -> res Z).
Context (http_get : string -> W -> W * res HttpReply) (http_post : string -> string -> W -> W * res HttpReply).

(** The two ways in which [top] starts the interface: with a manifest, a provider and an
    engine, or attached to the instance at an address. *)
Inductive Mode :=
  | Direct (m : Manifest) (api : ProviderAPI W) (engine : ProviderInterface W)
  | Attached (baseURL : string).

Context (cfg : Mode).

(** [App.Provider]. *)
Definition c_provider : ProviderAPI W :=
  match cfg with Direct _ api _ => api | Attached baseURL => stubProvider baseURL end.

(** The ring of 500 entries never panics ([live_store_refines]). *)
Definition live_logs (a : App) : list LogEntry := default [] (Logs (a_liveStore a)).

(** *** Pages and focus *)

(** The widget inside a page that takes the focus. *)
Definition page_focus (name : string) (a : App) : Focus :=
  if String.eqb name "main" then FTable
  else if String.eqb name "traces" then FTraces (tp_page (a_traces a))
  else if String.eqb name "logs" then FLogs
  else if String.eqb name "detail" then FDetail
  else if String.eqb name "drift" then FDrift
  else if String.eqb name "confirm" then FConfirm
  else FHelp.

(** [SwitchToPage] hands the focus on when it was inside the pages. *)
Definition switched (r : ViewRegistry) (a : App) : App :=
  let a := set_registry r a in
  if bool_decide (a_focus a = FCmdBar) then a else set_focus (page_focus (r_front r) a) a.

Definition pushView (name : string) (a : App) : App := switched (Push name (a_registry a)) a.

Definition focusActiveTab (a : App) : App :=
  set_focus match ActiveTab (a_registry a) with
            | TabState => FTable
            | TabTraces => FTraces (FocusPrimitive (a_traces a))
            | TabLogs => FLogs
            end a.

Definition popView (a : App) : App := focusActiveTab (switched (Pop (a_registry a)).1 a).

Definition toggleHelp (a : App) : App :=
  if String.eqb (Current (a_registry a)) "help" then popView a else pushView "help" a.

(** A panel that may have moved the focus. *)
Definition set_panel (x : TracesPanel * option Page) (a : App) : App :=
  let a := set_traces x.1 a in
  match x.2 with Some p => set_focus (FTraces p) a | None => a end.

(** *** Header and status *)

Definition showStatus (msg : string) (a : App) : App := set_timer (Some msg) (set_label msg "" a).

Definition metadata_line (a : App) : string :=
  let m := a_model a in
  let sep := HeaderSep in
  let kind := GetKind m in
  let kindLabel := Tag HexGreen (if String.eqb kind "" then "all" else kind) in
  let changes := GetChanges m in
  let summary := match changes with [] => "" | _ => sep +:+ StatusSummaryColored changes end in
  let age := match GetLastRefresh m with
             | Some t => sep +:+ Tag HexOverlay0 (formatDuration (a_now a - t) +:+ " ago")
             | None => ""
             end in
  let mode := match cfg with
              | Direct _ _ _ => ""
              | Attached _ => if String.eqb (a_tenant a) "" then sep +:+ Tag HexBlue "attach"
                          else sep +:+ Tag HexBlue ("tenant:" +:+ a_tenant a)
              end in
  " " +:+ BoldTag HexMauve "gcplane" +:+ sep +:+ GetManifestName m +:+ sep +:+ GetEndpoint m +:+ sep
  +:+ kindLabel +:+ mode +:+ summary +:+ age.

Definition header_text (a : App) : string := metadata_line a +:+ nl +:+ TabBar (a_registry a).

Definition updateHeader (a : App) : App := set_header (header_text a) a.

Definition refreshTable (a : App) : App :=
  updateHeader (set_table (rt_Refresh (GetChanges (a_model a)) (a_table a)) a).

Definition switchKind (kind : ResourceKind) (a : App) : App :=
  refreshTable (set_model (SetKind kind (a_model a)) a).

Definition refresh_logs (a : App) : App := set_logs (lp_Refresh clock_ms (live_logs a) (a_logs a)) a.

Definition refresh_traces (a : App) : App :=
  set_traces (tp_Refresh clock (Traces (a_store a)) (Total (a_store a)) (SelectedID (a_store a)) (a_traces a)) a.

(** *** Tabs *)

Definition switchTab (tab : PrimaryTab) (a : App) : App :=
  let prev := ActiveTab (a_registry a) in
  let a := updateHeader (switched (SwitchTab tab (a_registry a)) a) in
  let a := if bool_decide (tab = TabLogs) && negb (bool_decide (prev = TabLogs)) then spawn TStartLogTail a
           else if negb (bool_decide (tab = TabLogs)) && bool_decide (prev = TabLogs) then spawn TStopLogTail a
           else a in
  let a := if bool_decide (tab = TabTraces) && negb (bool_decide (prev = TabTraces))
           then set_store (NotifyTraceUpdated (a_store a)) a else a in
  focusActiveTab a.

(** The channel holds one request. *)
Definition triggerRefresh (a : App) : App := set_refreshCh true a.

Definition refreshActiveTab (a : App) : App :=
  match ActiveTab (a_registry a) with
  | TabState => triggerRefresh a
  | TabTraces =>
    let a := set_store (NotifyTraceUpdated (a_store a)) a in
    if (1 <=? Level (a_traces a))%Z then set_store (NotifyDetailDirty (a_store a)) a else a
  | TabLogs => enqueue_here DLogsNow a
  end.

(** *** Detail, drift *)

Definition showDetail (c : Change) (a : App) : App :=
  let a := spawn (TObserve (ch_Kind c) (ch_Name c)) (set_detail (detail_loading (ch_Kind c) (ch_Name c) (a_detail a)) a) in
  set_focus FDetail (pushView "detail" a).

Definition showDrift (c : Change) (a : App) : App :=
  set_focus FDrift (pushView "drift" (set_drift (drift_Show other_v c (a_drift a)) a)).

(** *** actions.go *)

Definition ask (message : string) (act : ConfirmAction) (a : App) : App :=
  set_focus FConfirm (pushView "confirm" (set_confirm (confirm_Show message act) a)).

Definition applyAll (a : App) : App :=
  match cfg with
  | Attached _ => showStatus (Tag HexYellow "Apply not available in attach mode") a
  | Direct _ _ _ =>
    match GetPlan (a_model a) with
    | None => a
    | Some plan =>
      if (Creates plan + Updates plan =? 0)%nat
      then showStatus (Tag HexGreen "All resources in sync. Nothing to apply.") a
      else ask (apply_prompt plan) ConfirmApply a
    end
  end.

(** The provider is never nil: in attach mode it is the stub. *)
Definition deleteResource (a : App) : App :=
  match GetSelectedChange (a_table a) with
  | None => a
  | Some c => ask (delete_prompt (ch_Kind c) (ch_Name c)) (ConfirmDelete (ch_Kind c) (ch_Name c)) a
  end.

(** The callback of [confirm.Show]. *)
Definition confirmed (yes : bool) (act : ConfirmAction) (a : App) : App :=
  let a := popView a in
  if negb yes then a
  else match act with
       | ConfirmApply => spawn TDoApply (showStatus (Tag HexYellow "Applying...") a)
       | ConfirmDelete kind name =>
         spawn (TDoDelete kind name) (showStatus (Tag HexYellow ("Deleting " +:+ kind +:+ "/" +:+ name +:+ "...")) a)
       end.

(** The button in focus is pressed. *)
Definition press_button (a : App) : App :=
  match cm_onConfirm (a_confirm a) with
  | Some act => confirmed (cm_Yes (a_confirm a)) act a
  | None => a
  end.

Definition edit_doc (c : Change) (observed : option gomap) : gomap :=
  [("kind", VStr (ch_Kind c)); ("name", VStr (ch_Name c)); ("spec", VMap (default [] observed))].

(** What the edited document asks for. *)
Definition edited_spec (content : string) : string + gomap :=
  match y_map yaml content with
  | Err e => inl ("Invalid YAML: " +:+ Error e)
  | Ok doc =>
    match mget "spec" (default [] doc) with
    | Some (VMap spec) => inr spec
    | _ => inl "Missing or invalid 'spec' in edited YAML"
    end
  end.

Definition editResource (a : App) (w : W) : App * W :=
  let fails msg w := (showStatus (Tag HexRed msg) a, w) in
  match GetSelectedChange (a_table a) with
  | None => (a, w)
  | Some c =>
    match pa_Observe c_provider (ch_Kind c) (ch_Name c) w with
    | (w, Err e) => fails ("Cannot edit: " +:+ Error e) w
    | (w, Ok observed) =>
      match y_marshal yaml (Some (edit_doc c observed)) with
      | Err e => fails ("Marshal error: " +:+ Error e) w
      | Ok text =>
        match edit ("gcplane-" +:+ ch_Kind c +:+ "-" +:+ ch_Name c +:+ "-*.yaml") text w with
        | (w, EditTempError e) => fails ("Temp file error: " +:+ Error e) w
        | (w, EditWriteError e) => fails ("Write error: " +:+ Error e) w
        | (w, EditReadError e) => fails ("Read error: " +:+ Error e) w
        | (w, Edited content) =>
          match edited_spec content with
          | inl msg => fails msg w
          | inr spec => (spawn (TUpdate (ch_Kind c) (ch_Name c) spec) a, w)
          end
        end
      end
    end
  end.

(** *** Search and commands *)

Definition applySearch (filter : string) (a : App) : App :=
  match ActiveTab (a_registry a) with
  | TabState => refreshTable (set_model (SetFilter filter (a_model a)) a)
  | TabTraces =>
    let a := set_traces (tp_SetFilter filter (a_traces a)) a in
    if (Level (a_traces a) =? 0)%Z then refresh_traces a else a
  | TabLogs => refresh_logs (set_logs (lp_SetFilter filter (a_logs a)) a)
  end.

Definition clearSearch (a : App) : App :=
  match ActiveTab (a_registry a) with
  | TabState => refreshTable (set_model (SetFilter "" (a_model a)) a)
  | TabTraces => set_traces (tp_SetFilter "" (a_traces a)) a
  | TabLogs => refresh_logs (set_logs (lp_SetFilter "" (a_logs a)) a)
  end.

Definition activateCommandBar (a : App) : App := set_focus FCmdBar (set_label ":" "" a).
Definition deactivateCommandBar (a : App) : App := focusActiveTab (set_label "" "" a).
Definition activateSearch (a : App) : App := set_focus FCmdBar (set_done onSearchDone_ (set_label "/" "" a)).

Definition Stop (a : App) : App := set_stopped true a.

Definition handleTenantCommand (cmd : string) (a : App) : App :=
  match cfg with
  | Direct _ _ _ => showStatus (Tag HexYellow "Tenant switching only available in attach mode (--attach)") a
  | Attached baseURL =>
    triggerRefresh
      match Fields cmd with
      | _ :: tenant :: _ =>
        showStatus (Tag HexGreen ("Switched to tenant: " +:+ tenant))
          (set_model (SetManifestName ("tenant: " +:+ tenant) (a_model a)) (set_tenant tenant a))
      | _ =>
        showStatus (Tag HexGreen "Showing all tenants")
          (set_model (SetManifestName ("attached: " +:+ baseURL) (a_model a)) (set_tenant "" a))
      end
  end.

Definition triggerRemoteSync (a : App) : App :=
  match cfg with Direct _ _ _ => applyAll a | Attached _ => spawn TRemoteSync a end.

(** [strings.EqualFold] against a text of ASCII letters. *)
Definition named_kind (cmd : string) : option ResourceKind :=
  List.find (fun kind => field_match kind cmd) ApplyOrder.

Definition executeCommand (cmd : string) (a : App) : App :=
  let cmd := TrimSpace (ToLower cmd) in
  let cmd_is (s : string) := String.eqb cmd s in
  if cmd_is "q" || cmd_is "quit" then Stop a
  else if cmd_is "all" then switchKind "" a
  else if cmd_is "help" then toggleHelp a
  else if cmd_is "apply" then applyAll a
  else if cmd_is "delete" || cmd_is "del" then deleteResource a
  else if cmd_is "sync" then triggerRemoteSync a
  else if cmd_is "state" then switchTab TabState a
  else if cmd_is "logs" then switchTab TabLogs a
  else if cmd_is "traces" then switchTab TabTraces a
  else if HasPrefix cmd "tenant" then handleTenantCommand cmd a
  else match mget cmd kindAliases with
       | Some kind => switchKind kind a
       | None => match named_kind cmd with Some kind => switchKind kind a | None => a end
       end.

(** The two functions that the command bar may be given. *)
Definition onCommandDone (key : KeyCode) (a : App) : App :=
  match key with
  | KeyEscape => deactivateCommandBar (set_mode ModeNormal a)
  | KeyEnter =>
    let cmd := if_Text (a_cmdBar a) in
    executeCommand cmd (deactivateCommandBar (set_mode ModeNormal a))
  | _ => a
  end.

Definition onSearchDone (key : KeyCode) (a : App) : App :=
  let leave a :=
    deactivateCommandBar (set_done onCommandDone_ (set_label "" (if_Text (a_cmdBar a)) (set_mode ModeNormal a))) in
  match key with
  | KeyEscape => leave (clearSearch a)
  | KeyEnter => leave (applySearch (if_Text (a_cmdBar a)) a)
  | _ => a
  end.

Definition bar_done (key : KeyCode) (a : App) : App :=
  match if_Done (a_cmdBar a) with onCommandDone_ => onCommandDone key a | onSearchDone_ => onSearchDone key a end.

(** *** keybindings.go *)

Definition drillIntoTrace (a : App) : App :=
  let id := SelectedTraceID (tp_list (a_traces a)) in
  if String.eqb id "" then a
  else match pa_TraceFetcher c_provider with
       | None => showStatus (Tag HexRed "Trace API not available") a
       | Some _ => spawn TDrill (set_store (SelectTrace id (a_store a)) a)
       end.

Definition handleDrillIn (a : App) : App :=
  match ActiveTab (a_registry a) with
  | TabTraces =>
    if (Level (a_traces a) =? 0)%Z then drillIntoTrace a
    else if (Level (a_traces a) =? 1)%Z then set_panel (DrillIn (a_traces a)) a
    else a
  | _ => a
  end.

Definition goToTop (a : App) : App :=
  match ActiveTab (a_registry a) with
  | TabState => set_table (mkResourceTable (Select 1 0 (rt_Table (a_table a))) (rt_rows (a_table a))) a
  | TabTraces => set_traces (tp_GoToTop (a_traces a)) a
  | TabLogs => set_logs (GoToTop (a_logs a)) a
  end.

Definition goToBottom (a : App) : App :=
  match ActiveTab (a_registry a) with
  | TabState =>
    let rc := GetRowCount (rt_Table (a_table a)) in
    if (1 <? rc)%Z then set_table (mkResourceTable (Select (rc - 1) 0 (rt_Table (a_table a))) (rt_rows (a_table a))) a
    else a
  | TabTraces => set_traces (tp_GoToBottom (a_traces a)) a
  | TabLogs => set_logs (GoToBottom (a_logs a)) a
  end.

(** The copy itself runs a program, whose error is dropped. *)
Definition copySelected (a : App) : App :=
  let text := match ActiveTab (a_registry a) with
              | TabTraces => CopySelected (a_traces a)
              | TabLogs => SelectedEntry clock_ms (a_logs a)
              | TabState => ""
              end in
  if String.eqb text "" then a else showStatus (Tag HexGreen "Copied") a.

Definition handleNumberKey (r : Z) (a : App) : App :=
  match ActiveTab (a_registry a) with
  | TabState =>
    if (r =? 48)%Z then switchKind "" a
    else match kind_by_number r with Some kind => switchKind kind a | None => a end
  | TabLogs =>
    match List.find (fun kv => (kv.1 =? r)%Z) log_levels with
    | Some (_, lvl) => set_logs (SetLevelMin lvl (a_logs a)) a
    | None => a
    end
  | TabTraces => a
  end.

Definition handlePauseResume (a : App) : App :=
  match ActiveTab (a_registry a) with
  | TabLogs => set_logs (TogglePause (a_logs a)) a
  | TabTraces => set_traces (tp_TogglePause (a_traces a)) a
  | TabState => a
  end.

Definition handleClearFilters (a : App) : App :=
  match ActiveTab (a_registry a) with
  | TabState => refreshTable (set_model (SetFilter "" (a_model (switchKind "" a))) (switchKind "" a))
  | TabLogs => refresh_logs (set_logs (lp_SetFilter "" (SetLevelMin "debug" (a_logs a))) a)
  | TabTraces =>
    let a := set_store (SetFilters (mkTraceFilters "" "" 50 0) (a_store a)) a in
    let a := set_traces (tp_SetFilter "" (tp_SetChannelFilter "" (tp_SetAgentFilter "" (a_traces a)))) a in
    set_store (NotifyTraceUpdated (a_store a)) a
  end.

(** Escape, in every mode. *)
Definition handleEscape (a : App) : App :=
  let a := set_pending 0 a in
  if negb (bool_decide (k_mode (a_keys a) = ModeNormal))
  then deactivateCommandBar (clearSearch (set_mode ModeNormal a))
  else if HasOverlay (a_registry a) then popView a
  else match ActiveTab (a_registry a) with
       | TabTraces =>
         if (0 <? Level (a_traces a))%Z then set_panel (DrillOut (a_traces a)) a
         else set_traces (tp_SetFilter "" (a_traces a)) a
       | TabLogs => refresh_logs (set_logs (lp_SetFilter "" (a_logs a)) a)
       | TabState =>
         if String.eqb (GetFilter (a_model a)) "" then a
         else refreshTable (set_model (SetFilter "" (a_model a)) a)
       end.

(** The key after the two-key sequences and the tabs. *)
Definition handleRune (event : EventKey) (a : App) : App * option EventKey :=
  let r := ek_Rune event in
  let isk (c : ascii) := (r =? rune_of c)%Z in
  let traces := bool_decide (ActiveTab (a_registry a) = TabTraces) in
  if isk "q"%char then (Stop a, None)
  else if isk "?"%char then (toggleHelp a, None)
  else if isk ":"%char then (activateCommandBar (set_mode ModeCommand a), None)
  else if isk "/"%char then (activateSearch (set_mode ModeSearch a), None)
  else if isk "r"%char then (refreshActiveTab a, None)
  else if isk "G"%char then (goToBottom a, None)
  else if isk "g"%char || isk "y"%char then (set_pending r a, None)
  else if isk "j"%char then (a, Some (mkEventKey KeyDown 0))
  else if isk "k"%char then (a, Some (mkEventKey KeyUp 0))
  else if isk "l"%char then (if traces then (handleDrillIn a, None) else (a, Some event))
  else if isk "h"%char then
    (if traces && (0 <? Level (a_traces a))%Z then (set_panel (DrillOut (a_traces a)) a, None) else (a, Some event))
  else if isk " "%char then (handlePauseResume a, None)
  else if isk "p"%char then
    (if traces then (set_traces (tp_TogglePause (a_traces a)) a, None) else (a, Some event))
  else if isk "c"%char then (handleClearFilters a, None)
  else if (48 <=? r)%Z && (r <=? 57)%Z then (handleNumberKey r a, None)
  else (a, Some event).

Definition handleNormal (event : EventKey) (a : App) : App * option EventKey :=
  let prev := k_pending (a_keys a) in
  let a := set_pending 0 a in
  let r := ek_Rune event in
  let isk (c : ascii) := (r =? rune_of c)%Z in
  if (prev =? rune_of "g")%Z && isk "g"%char then (goToTop a, None)
  else if (prev =? rune_of "y")%Z && isk "y"%char then (copySelected a, None)
  else if HasOverlay (a_registry a) then handleRune event a
  else if isk "S"%char then (switchTab TabState a, None)
  else if isk "T"%char then (switchTab TabTraces a, None)
  else if isk "L"%char then (switchTab TabLogs a, None)
  else handleRune event a.

(** [Handle]: the state, the world (the editor runs in between) and the key that is left
    for the widget in focus. *)
Definition Handle (event : EventKey) (a : App) (w : W) : App * W * option EventKey :=
  let state_tab := bool_decide (ActiveTab (a_registry a) = TabState) && negb (HasOverlay (a_registry a)) in
  let pure x := (x.1, w, x.2) in
  match ek_Key event with
  | KeyCtrlC | KeyCtrlQ => (Stop a, w, None)
  | KeyEscape => (handleEscape a, w, None)
  | key =>
    if negb (bool_decide (k_mode (a_keys a) = ModeNormal)) then (a, w, Some event)
    else match key with
         | KeyCtrlE => if state_tab then let '(a, w) := editResource a w in (a, w, None)
                       else pure (handleNormal event a)
         | KeyCtrlR => (refreshActiveTab a, w, None)
         | KeyCtrlD => if state_tab then (deleteResource a, w, None) else (a, w, Some event)
         | KeyCtrlU => (a, w, Some event)
         | KeyEnter =>
           if bool_decide (ActiveTab (a_registry a) = TabTraces) && negb (HasOverlay (a_registry a))
           then (handleDrillIn a, w, None) else (a, w, Some event)
         | _ => pure (handleNormal event a)
         end
  end.

(** *** Goroutines *)

(** A refresh is skipped while another one holds the lock ([busy]). *)
Definition refreshDirect (m : Manifest) (engine : ProviderInterface W) (a : App) (w : W) : App * W :=
  let '(w, (plan, _)) := Reconcile env_of engine sch m (mkOpts true false false 0) w in
  let status := match PlanErrors plan with
                | [] => None
                | e :: _ => Some (Tag HexRed (Itoan (length (PlanErrors plan)) +:+ " observe error(s): " +:+ e))
                end in
  (enqueue (DTable status) (set_model (UpdatePlan (a_now a) plan (a_model a)) a), w).

Definition refreshFromServe (baseURL : string) (a : App) (w : W) : App * W :=
  let '(w, status) := if String.eqb (a_tenant a) "" then FetchStatus parse_time http_get baseURL w
                      else FetchTenantStatus parse_time http_get baseURL (a_tenant a) w in
  match status with
  | Err e => (set_model (SetError (a_now a) e (a_model a)) a, w)
  | Ok s =>
    let plan := plan_of_changes (StatusToChanges (Some s)) in
    (enqueue (DTable None) (set_model (UpdatePlan (a_now a) plan (a_model a)) a), w)
  end.

Definition refresh (busy : bool) (a : App) (w : W) : App * W :=
  if busy then (a, w)
  else match cfg with
       | Direct m _ engine => refreshDirect m engine a w
       | Attached baseURL => refreshFromServe baseURL a w
       end.

(** A goroutine that ends with a refresh and a status. *)
Definition refresh_and_show (busy : bool) (msg : string) (a : App) (w : W) : App * W :=
  let '(a, w) := refresh busy a w in (enqueue (DStatus msg) a, w).

Definition apply_summary (plan : Plan) (result : ApplyResult) : string :=
  let summary := "Applied: " +:+ Itoan (Applied result) +:+ ", Failed: " +:+ Itoan (Failed result)
    +:+ ", Creates: " +:+ Itoan (Creates plan) +:+ ", Updates: " +:+ Itoan (Updates plan)
    +:+ match Errors result with [] => "" | e :: _ => " | Errors: " +:+ e end in
  if (0 <? Failed result)%nat || (Applied result =? 0)%nat then Tag HexRed summary else Tag HexGreen summary.

Definition doApply (busy : bool) (a : App) (w : W) : App * W :=
  match cfg with
  | Attached _ => (a, w)
  | Direct m _ engine =>
    let '(w, (plan, result)) := Reconcile env_of engine sch m (mkOpts false false false 0) w in
    refresh_and_show busy (apply_summary plan result) a w
  end.

Definition outcome_text (failed done : string) (r : res unit) : string :=
  match r with Err e => Tag HexRed (failed +:+ " failed: " +:+ Error e) | Ok _ => Tag HexGreen done end.

Definition doDelete (busy : bool) (kind : ResourceKind) (name : string) (a : App) (w : W) : App * W :=
  let '(w, r) := pa_Delete c_provider kind name w in
  refresh_and_show busy (outcome_text "Delete" ("Deleted " +:+ kind +:+ "/" +:+ name) r) a w.

(** The goroutine at the end of [editResource]. *)
Definition doUpdate (busy : bool) (kind : ResourceKind) (name : string) (spec : gomap) (a : App) (w : W) : App * W :=
  let '(w, r) := pa_Update c_provider kind name spec w in
  refresh_and_show busy (outcome_text "Update" ("Updated " +:+ kind +:+ "/" +:+ name) r) a w.

Definition startLogTail (a : App) (w : W) : App * W :=
  match pa_LogTailer c_provider with
  | None => (enqueue (DLogsUnavailable "logs.tail not available (provider does not support log streaming)") a, w)
  | Some (start, _) =>
    if IsTailing (a_liveStore a) then (a, w)
    else match start "info" w with
         | (w, Err e) => (enqueue (DLogsUnavailable ("logs.tail: " +:+ Error e)) a, w)
         | (w, Ok _) => (set_liveStore (SetTailing (a_liveStore a) true) a, w)
         end
  end.

Definition stopLogTail (a : App) (w : W) : App * W :=
  if negb (IsTailing (a_liveStore a)) then (a, w)
  else
    let a := set_liveStore (SetTailing (a_liveStore a) false) a in
    match pa_LogTailer c_provider with
    | None => (a, w)
    | Some (_, stop) => (a, (stop w).1)
    end.

(** [TraceStore.RefreshList] and then the draw. *)
Definition fetch_list (a : App) (w : W) : App * W :=
  match pa_TraceFetcher c_provider, refresh_list_begin (a_store a) with
  | None, _ => (a, w)
  | Some _, None => (enqueue DTraces a, w)
  | Some (list, _), Some (f, s) =>
    let '(w, answer) := list f w in
    let a := set_store (refresh_list_end answer s) a in
    (if is_ok answer then enqueue DTraces a else a, w)
  end.

(** [TraceStore.RefreshDetail] and what is drawn when it succeeds and when it fails. *)
Definition fetch_detail (shown : Draw) (failed : error -> option Draw) (a : App) (w : W) : App * W :=
  match pa_TraceFetcher c_provider, refresh_detail_begin (a_store a) with
  | None, _ => (a, w)
  | Some _, None => (enqueue shown a, w)
  | Some (_, detail), Some id =>
    let '(w, answer) := detail id w in
    let a := set_store (refresh_detail_end range_order id answer (a_store a)) a in
    (match answer with
     | Ok _ => enqueue shown a
     | Err e => match failed e with Some d => enqueue d a | None => a end
     end, w)
  end.

Definition drill_failed (e : error) : option Draw :=
  Some (DStatus (Tag HexRed ("Failed to fetch trace: " +:+ Error e))).

(** [triggerRemoteSync]'s goroutine; the pause before the refresh is not modelled. *)
Definition remoteSync (busy : bool) (baseURL : string) (a : App) (w : W) : App * W :=
  let '(w, r) := if String.eqb (a_tenant a) "" then TriggerSync http_post baseURL w
                 else TriggerTenantSync http_post baseURL (a_tenant a) w in
  let msg := match r with
             | Err e => Tag HexRed ("Sync trigger failed: " +:+ Error e)
             | Ok _ => Tag HexGreen "Sync triggered"
             end in
  refresh busy (enqueue (DStatus msg) a) w.

Definition run_task (busy : bool) (t : Task) (a : App) (w : W) : App * W :=
  match t with
  | TRefresh => refresh busy a w
  | TDoApply => doApply busy a w
  | TDoDelete kind name => doDelete busy kind name a w
  | TUpdate kind name spec => doUpdate busy kind name spec a w
  | TObserve kind name =>
    let '(w, observed) := pa_Observe c_provider kind name w in (enqueue (DDetail kind name observed) a, w)
  | TStartLogTail => startLogTail a w
  | TStopLogTail => stopLogTail a w
  | TListFetch => fetch_list a w
  | TDetailFetch => fetch_detail DSpans (fun _ => None) a w
  | TDrill => fetch_detail DShowSpans drill_failed a w
  | TRemoteSync => match cfg with Attached baseURL => remoteSync busy baseURL a w | Direct _ _ _ => (a, w) end
  end.

(** *** Queued functions *)

Definition on_tab (tab : PrimaryTab) (a : App) : bool := bool_decide (ActiveTab (a_registry a) = tab).

Definition run_draw (d : Draw) (a : App) : App :=
  match d with
  | DTable status =>
    let a := refreshTable a in
    match status with Some msg => showStatus msg a | None => a end
  | DStatus msg => showStatus msg a
  | DLogs =>
    let a := if on_tab TabLogs a then refresh_logs a else a in
    set_liveStore (MarkClean (a_liveStore a)) a
  | DLogsNow => refresh_logs a
  | DLogsUnavailable reason => set_logs (lp_RefreshUnavailable reason (a_logs a)) a
  | DTracesUnavailable reason => set_traces (tp_RefreshUnavailable reason (a_traces a)) a
  | DTraces => if on_tab TabTraces a && (Level (a_traces a) =? 0)%Z then refresh_traces a else a
  | DSpans =>
    if on_tab TabTraces a && (Level (a_traces a) =? 1)%Z then
      match SelectedSpans (a_store a) with
      | [] => a
      | spans => set_traces (tp_with_spans (sl_Refresh spans (tp_spanList (a_traces a))) (a_traces a)) a
      end
    else a
  | DShowSpans =>
    match SelectedTrace (a_store a) with
    | None => a
    | Some trace => set_panel (ShowSpans trace (SelectedSpans (a_store a)) (a_traces a)) a
    end
  | DDetail kind name observed =>
    set_detail (SetText (detail_text (fun m => y_marshal yaml (Some m)) kind name observed) (a_detail a)) a
  | DClearLabel msg =>
    if String.eqb (if_Label (a_cmdBar a)) msg then set_label "" (if_Text (a_cmdBar a)) a else a
  end.

(** *** Ticks *)

Definition trace_running (t : TraceData) : bool :=
  String.eqb (td_Status t) "running" || String.eqb (td_Status t) "pending".

Definition refreshTraces (a : App) : App :=
  if tp_paused (a_traces a) then a
  else match pa_TraceFetcher c_provider with
       | None =>
         if on_tab TabTraces a
         then enqueue (DTracesUnavailable "Traces not available (provider does not support trace API)") a else a
       | Some _ =>
         let a := if NeedsListRefresh (a_store a) then spawn TListFetch a else a in
         let live := match SelectedTrace (a_store a) with Some t => trace_running t | None => false end in
         let a := if (Level (a_traces a) =? 1)%Z && on_tab TabTraces a && live
                  then set_store (NotifyDetailDirty (a_store a)) a else a in
         if NeedsDetailRefresh (a_store a) then spawn TDetailFetch a else a
       end.

(** The body of the loop of [tabRefreshLoop]; [count] is [tickCount]. *)
Definition tab_tick (count : Z) (a : App) : App :=
  let a := if (Z.rem count 20 =? 0)%Z then set_store (NotifyTraceUpdated (a_store a)) a else a in
  let a := refreshTraces a in
  if IsDirty (a_liveStore a) then enqueue DLogs a else a.

(** The handler of WebSocket events that [NewApp] installs; [None] is a panic. *)
Definition on_event (frame : WSEventFrame) (a : App) : option App :=
  s ← HandleEvent (a_liveStore a) (a_now a) frame;
  let a := set_liveStore s a in
  Some (if String.eqb (fr_Event frame) "trace.updated" then
          let a := set_store (NotifyTraceUpdated (a_store a)) a in
          if (1 <=? Level (a_traces a))%Z then set_store (NotifyDetailDirty (a_store a)) a else a
        else a).

(** *** Start *)

Definition buildRegistry : ViewRegistry :=
  foldl (fun r name => Register name r) NewViewRegistry
    ["main"; "logs"; "traces"; "detail"; "drift"; "confirm"; "help"].

Definition new_model (ep : string) (interval : Z) : Model :=
  match cfg with
  | Direct m _ _ => NewModel (Some m) ep interval
  | Attached baseURL => SetManifestName ("attached: " +:+ baseURL) (NewModel None baseURL interval)
  end.

(** The layout; the header is written before there are tabs. *)
Definition new_app (ep : string) (interval now : Z) : App :=
  let a := mkApp (new_model ep interval) NewViewRegistry "" (mkInputField "" "" onCommandDone_) NewKeyHandler
    NewResourceTable emptyTextView emptyTextView NewConfirmModal
    (default (mkLiveStore [] [] 500 500 0 0 false false) (NewLiveStore 500 500)) NewLogsPanel NewTracesPanel
    NewTraceStore false "" None FTable now false false [] [] in
  set_registry buildRegistry (set_header (metadata_line a +:+ nl) a).

Definition NewApp (text ep : string) (now : Z) (w : W) : W * res App :=
  match ParseDuration text with
  | Err e => (w, Err (wrapf ("invalid interval " +:+ Quote text +:+ ": ") e ""))
  | Ok interval =>
    match cfg with
    | Direct _ _ _ => (w, Ok (new_app ep interval now))
    | Attached baseURL =>
      match Healthcheck http_get baseURL w with
      | (w, Err e) => (w, Err e)
      | (w, Ok _) => (w, Ok (new_app ep interval now))
      end
    end
  end.

(** [Run] up to the event loop. *)
Definition Run (a : App) : App :=
  spawn TRefresh (switched (SwitchTab TabState (a_registry a)) a).

(** ** The interface as a step relation *)

(** What the widget in focus does with a key that [Handle] leaves: the code's own input
    captures and callbacks, and the library's defaults. *)
Definition table_widget (event : EventKey) (a a' : App) : Prop :=
  match rt_handleInput event (a_table a) with
  | (_, Some (CallOnSelect c), _) => a' = showDetail c a
  | (_, Some (CallOnDrift c), _) => a' = showDrift c a
  | (rt, None, None) => a' = set_table rt a
  | (rt, None, Some _) =>
    exists t, table_moved (rt_Table rt) t /\ a' = set_table (mkResourceTable t (rt_rows rt)) a
  end.

Definition text_widget (event : EventKey) (tv tv' : TextView) : Prop :=
  match VimScrollInput event tv with
  | (tv1, None) => tv' = tv1
  | (tv1, Some _) => tv_Title tv' = tv_Title tv1 /\ tv_Text tv' = tv_Text tv1
  end.

Definition traces_widget (p : Page) (event : EventKey) (t t' : TracesPanel) : Prop :=
  match p with
  | PageTraces =>
    exists tb, table_moved (tl_Table (tp_list t)) tb /\
      t' = tp_with_list (mkTraceList tb (tl_traces (tp_list t)) (tl_filter (tp_list t))) t
  | PageSpans =>
    exists tb, table_moved (sl_Table (tp_spanList t)) tb /\
      t' = tp_with_spans (mkSpanList tb (sl_spans (tp_spanList t)) (sl_filter (tp_spanList t))) t
  | PageDetail =>
    exists tv, text_widget event (sdt_TextView (tp_detail t)) tv /\
      t' = tp_with_detail (mkSpanDetail tv (sdt_lastSpan (tp_detail t))) t
  end.

Definition widget (event : EventKey) (a a' : App) : Prop :=
  match a_focus a with
  | FTable => table_widget event a a'
  | FTraces p => exists t, traces_widget p event (a_traces a) t /\ a' = set_traces t a
  | FLogs =>
    exists height, match lp_handleInput height event (a_logs a) with
                   | (p, None) => a' = set_logs p a
                   | (p, Some _) => exists t, table_moved (lp_Table p) t /\ a' = set_logs (lp_with_table t p) a
                   end
  | FDetail => exists tv, text_widget event (a_detail a) tv /\ a' = set_detail tv a
  | FDrift => exists tv, text_widget event (a_drift a) tv /\ a' = set_drift tv a
  | FConfirm =>
    match ek_Key event with
    | KeyEnter => a' = press_button a
    | _ => exists yes, a' = set_confirm (mkConfirmModal (cm_text (a_confirm a)) (cm_onConfirm (a_confirm a)) yes) a
    end
  | FHelp => a' = a
  | FCmdBar =>
    match ek_Key event with
    | KeyEnter | KeyEscape => a' = bar_done (ek_Key event) a
    | _ => exists text, a' = set_label (if_Label (a_cmdBar a)) text a
    end
  end.

(** A key: [Handle], and then the widget if the key is left. *)
Definition key_step (event : EventKey) (a : App) (w : W) (a' : App) (w' : W) : Prop :=
  match Handle event a w with
  | (a1, w1, None) => a' = a1 /\ w' = w1
  | (a1, w1, Some e) => widget e a1 a' /\ w' = w1
  end.

(** What others do to the world in between. *)
Context (others : W -> W -> Prop).

(** The interface's goroutine runs: it has not been stopped and does not wait for itself. *)
Definition running (a : App) : Prop := a_stopped a = false /\ a_hung a = false.

Inductive ui_step : App * W -> App * W -> Prop :=
  | ui_key event a w a' w' :
      running a -> key_step event a w a' w' -> ui_step (a, w) (a', w')
  | ui_draw d q a w :
      running a -> a_queue a = d :: q -> ui_step (a, w) (run_draw d (set_queue q a), w)
  | ui_task busy t l1 l2 a w :
      a_tasks a = (l1 ++ t :: l2)%list -> ui_step (a, w) (run_task busy t (set_tasks (l1 ++ l2)%list a) w)
  | ui_interval a w : (0 < GetInterval (a_model a))%Z -> ui_step (a, w) (spawn TRefresh a, w)
  (* [NewTicker] panics, which ends the program *)
  | ui_panic a w : (GetInterval (a_model a) <= 0)%Z -> ui_step (a, w) (set_stopped true a, w)
  | ui_manual a w : a_refreshCh a = true -> ui_step (a, w) (spawn TRefresh (set_refreshCh false a), w)
  | ui_tab_tick count a w : ui_step (a, w) (tab_tick count a, w)
  | ui_event frame a a' w : on_event frame a = Some a' -> ui_step (a, w) (a', w)
  | ui_timer msg a w :
      a_timer a = Some msg -> ui_step (a, w) (enqueue (DClearLabel msg) (set_timer None a), w)
  | ui_clock now a w : (a_now a <= now)%Z -> ui_step (a, w) (set_now now a, w)
  | ui_world a w w' : others w w' -> ui_step (a, w) (a, w').
End app.
