(* ===== verification/TuiProps.v ===== *)
(** * What the terminal interface may do

    Invariants of every reachable state of [Tui], and what they make of the keys: a
    mutation of the server is started only by the Yes button of a confirmation that shows
    what it will do, by an editor session, or by a sync of the instance attached to. *)
From Stdlib Require Import ZArith Lia Bool Ascii.
From Stdlib Require String.
From stdpp Require Import relations.
From S2P Require Import Prelude GoStr GoValue Filepath Manifest Secrets Compare Json Loader Engine.
From S2P Require Import EngineFrame Ring TraceStore Display Views LogsPanel TracesPanel TuiState.
From S2P Require Import Controller Attach Tui EngineConverge EngineClaims.

Local Open Scope string_scope.

(** ** Invariants *)

(** The text a confirmation shows for what it goes on to do. *)
Definition prompts (act : ConfirmAction) (text : string) : Prop :=
  match act with
  | ConfirmApply => exists plan, (Creates plan + Updates plan <> 0)%nat /\ text = nl +:+ apply_prompt plan
  | ConfirmDelete kind name => text = nl +:+ delete_prompt kind name
  end.

Definition confirm_ok (c : ConfirmModal) : Prop :=
  forall act, cm_onConfirm c = Some act -> prompts act (cm_text c).

Definition overlays : list string := ["detail"; "drift"; "confirm"; "help"].

(** The page in front is the registry's, only known overlays are stacked, and the
    confirmation has the focus only when it is in front. *)
Definition pages_ok (r : ViewRegistry) (f : Focus) : Prop :=
  shows_current r /\ Forall (fun n => n ∈ overlays) (r_overlayStack r) /\
  (f = FConfirm -> r_front r = "confirm").

Definition keys_ok (k : KeyHandler) : Prop :=
  k_pending k = 0%Z \/ k_pending k = rune_of "g" \/ k_pending k = rune_of "y".

Section invariants.
Context {U : Unicode} {LSort : LessSort} {SSort : SliceSort}.

(** The rows are those of the model's changes, or a redraw is queued. *)
Definition table_ok (a : App) : Prop :=
  rt_rows (a_table a) = map toTableRow (sort_less change_less (GetChanges (a_model a))) \/
  exists status, DTable status ∈ a_queue a.

Definition parts (a : App) : Prop :=
  tp_consistent (a_traces a) /\ confirm_ok (a_confirm a) /\ keys_ok (a_keys a).

Definition base (a : App) : Prop := pages_ok (a_registry a) (a_focus a) /\ parts a.

(** The goroutines that change what the server or the attached instance holds. *)
Definition mutating (t : Task) : bool :=
  match t with TDoApply | TDoDelete _ _ | TUpdate _ _ _ | TRemoteSync => true | _ => false end.

Definition muts (a : App) : list Task := List.filter mutating (a_tasks a).

(** The rest of the invariant, with the mutations that are under way. *)
Definition rest (ms : list Task) (a : App) : Prop := table_ok a /\ muts a = ms.

Definition inv (ms : list Task) (a : App) : Prop := base a /\ rest ms a.
End invariants.

Create HintDb tui discriminated.

Ltac app_cbn :=
  cbn [set_model set_registry set_header set_cmdBar set_keys set_table set_detail set_drift set_confirm
       set_liveStore set_logs set_traces set_store set_refreshCh set_tenant set_timer set_focus set_now
       set_stopped set_hung set_tasks set_queue spawn enqueue enqueue_here set_mode set_pending set_label
       set_done a_model a_registry a_header a_cmdBar a_keys a_table a_detail a_drift a_confirm a_liveStore
       a_logs a_traces a_store a_refreshCh a_tenant a_timer a_focus a_now a_stopped a_hung a_tasks a_queue].

Ltac app_cbn_in H :=
  cbn [set_model set_registry set_header set_cmdBar set_keys set_table set_detail set_drift set_confirm
       set_liveStore set_logs set_traces set_store set_refreshCh set_tenant set_timer set_focus set_now
       set_stopped set_hung set_tasks set_queue spawn enqueue enqueue_here set_mode set_pending set_label
       set_done a_model a_registry a_header a_cmdBar a_keys a_table a_detail a_drift a_confirm a_liveStore
       a_logs a_traces a_store a_refreshCh a_tenant a_timer a_focus a_now a_stopped a_hung a_tasks a_queue] in H.

(** *** The traces panel *)

Section panel.
Context {U : Unicode}.

Lemma consistent_same p p' :
  tp_page p' = tp_page p -> Level p' = Level p -> tp_consistent p -> tp_consistent p'.
Proof. intros H1 H2 [H3 H4]. split; unfold FocusPrimitive in *; rewrite ?H1, H2; done. Qed.

Lemma consistent_go page level t s p :
  page = FocusPrimitive (tp_go page level t s p) -> (0 <= level <= 2)%Z -> tp_consistent (tp_go page level t s p).
Proof. by split. Qed.

Lemma DrillIn_consistent p : tp_consistent p -> tp_consistent (DrillIn p).1.
Proof.
  intros H. unfold DrillIn. destruct (Level p =? 1)%Z; [|done].
  destruct (SelectedSpan _); [|done]. by apply consistent_go.
Qed.

Lemma DrillOut_consistent p : tp_consistent p -> tp_consistent (DrillOut p).1.
Proof.
  intros H. unfold DrillOut. destruct (Level p =? 2)%Z; [by apply consistent_go|].
  destruct (Level p =? 1)%Z; [by apply consistent_go|]. done.
Qed.

Lemma ShowSpans_consistent t l p : tp_consistent (ShowSpans t l p).1.
Proof. by apply consistent_go. Qed.

Lemma SetFilter_consistent f p : tp_consistent p -> tp_consistent (tp_SetFilter f p).
Proof. apply consistent_same; unfold tp_SetFilter; by repeat case_match. Qed.

Lemma GoToTop_consistent p : tp_consistent p -> tp_consistent (tp_GoToTop p).
Proof. apply consistent_same; unfold tp_GoToTop; by repeat case_match. Qed.

Lemma GoToBottom_consistent p : tp_consistent p -> tp_consistent (tp_GoToBottom p).
Proof. apply consistent_same; unfold tp_GoToBottom; by repeat case_match. Qed.

(** The focus a move of the panel asks for. *)
Lemma DrillIn_focus p q : (DrillIn p).2 = Some q -> q = FocusPrimitive (DrillIn p).1.
Proof. unfold DrillIn. repeat case_match; naive_solver. Qed.
End panel.
#[export] Hint Resolve DrillIn_consistent DrillOut_consistent ShowSpans_consistent SetFilter_consistent
  GoToTop_consistent GoToBottom_consistent : tui.

(** *** What each function keeps *)

Section keeps.
Context {U : Unicode} {LSort : LessSort} {SSort : SliceSort}.

Lemma base_ext a a' :
  a_registry a' = a_registry a -> a_focus a' = a_focus a -> a_traces a' = a_traces a ->
  a_confirm a' = a_confirm a -> a_keys a' = a_keys a -> base a -> base a'.
Proof. unfold base, parts. by intros -> -> -> -> ->. Qed.

Lemma rest_ext ms a a' :
  a_table a' = a_table a -> a_model a' = a_model a -> a_queue a ⊆ a_queue a' -> a_tasks a' = a_tasks a ->
  rest ms a -> rest ms a'.
Proof.
  unfold rest, table_ok, muts. intros -> -> Hq -> [[H|[s H]] Hm]; (split; [|done]); [by left|right].
  exists s. by apply Hq.
Qed.

Lemma inv_ext ms a a' :
  a_registry a' = a_registry a -> a_focus a' = a_focus a -> a_traces a' = a_traces a ->
  a_confirm a' = a_confirm a -> a_keys a' = a_keys a -> a_table a' = a_table a -> a_model a' = a_model a ->
  a_queue a ⊆ a_queue a' -> a_tasks a' = a_tasks a -> inv ms a -> inv ms a'.
Proof. intros ????????? [Hb Ht]. split; [by eapply base_ext|by eapply rest_ext]. Qed.

(** Setting the focus to anything but the confirmation. *)
Lemma base_focus f a : f <> FConfirm -> base a -> base (set_focus f a).
Proof. intros Hf ((H1 & H2 & _) & H). split; [|exact H]. split; [exact H1|]. split; [exact H2|done]. Qed.

Lemma base_traces t a : tp_consistent t -> base a -> base (set_traces t a).
Proof. intros Ht (H1 & _ & H). split; [exact H1|]. split; [exact Ht|exact H]. Qed.

Lemma base_keys k a : keys_ok k -> base a -> base (set_keys k a).
Proof. intros Ht (H1 & H2 & H3 & _). split; [exact H1|]. split; [exact H2|]. split; [exact H3|exact Ht]. Qed.

Lemma page_focus_confirm name a : page_focus name a = FConfirm -> name = "confirm".
Proof.
  unfold page_focus. repeat match goal with |- context [String.eqb ?x ?y] => destruct (String.eqb_spec x y) end; done.
Qed.

Lemma base_shown r a :
  shows_current r -> Forall (fun n => n ∈ overlays) (r_overlayStack r) -> parts a -> base (switched r a).
Proof.
  intros Hr Ho H. unfold switched. case_bool_decide as Hc; (split; [|exact H]); split; [done| |done|];
    (split; [exact Ho|]); app_cbn.
  - app_cbn_in Hc. by rewrite Hc.
  - intros Hp. by apply page_focus_confirm in Hp.
Qed.

Lemma base_switched r a :
  shows_current r -> Forall (fun n => n ∈ overlays) (r_overlayStack r) -> base a -> base (switched r a).
Proof. intros Hr Ho [_ H]. by apply base_shown. Qed.

Lemma base_focusActiveTab a : base a -> base (focusActiveTab a).
Proof. intros H. apply base_focus; [|done]. by case_match. Qed.

Lemma base_pushView name a : name ∈ overlays -> base a -> base (pushView name a).
Proof.
  intros Hn H. destruct (H) as ((_ & Ho & _) & _). apply base_switched; [apply shows_push| |done].
  unfold Push. cbn. by apply Forall_app_2; [|constructor].
Qed.

Lemma base_popView a : base a -> base (popView a).
Proof.
  intros H. destruct (H) as ((_ & Ho & _) & _). apply base_focusActiveTab, base_switched; [apply shows_pop| |done].
  unfold Pop. cbn. destruct (r_overlayStack (a_registry a)) as [|x l] eqn:E using rev_ind; [done|].
  rewrite removelast_last. by apply Forall_app in Ho as [Ho _].
Qed.

(** The same with the table. *)
Context {W : Type} (cfg : Mode (W := W)) (ms : list Task).

Lemma inv_refreshTable a : base a -> muts a = ms -> inv ms (refreshTable cfg a).
Proof.
  intros H Hm. split; [by eapply base_ext; [..|exact H]|]. split; [|exact Hm]. left. unfold refreshTable, updateHeader, rt_Refresh. done.
Qed.

Lemma rest_switched r a : rest ms a -> rest ms (switched r a).
Proof. apply rest_ext; unfold switched; by case_bool_decide. Qed.

Lemma inv_pushView name a : name ∈ overlays -> inv ms a -> inv ms (pushView name a).
Proof. intros Hn [Hb Ht]. split; [by apply base_pushView|by apply rest_switched]. Qed.

Lemma inv_focus f a : f <> FConfirm -> inv ms a -> inv ms (set_focus f a).
Proof. intros Hf [Hb Ht]. split; [by apply base_focus|exact Ht]. Qed.

Lemma inv_focusActiveTab a : inv ms a -> inv ms (focusActiveTab a).
Proof. intros H. apply inv_focus; [by case_match|done]. Qed.

Lemma inv_popView a : inv ms a -> inv ms (popView a).
Proof. intros [Hb Ht]. split; [by apply base_popView|]. exact (rest_switched _ _ Ht). Qed.

Lemma inv_toggleHelp a : inv ms a -> inv ms (toggleHelp a).
Proof.
  intros H. unfold toggleHelp. case_match; [by apply inv_popView|].
  apply inv_pushView; [|done]. unfold overlays. set_solver.
Qed.

Lemma inv_traces t a : tp_consistent t -> inv ms a -> inv ms (set_traces t a).
Proof. intros Hp [Hb Ht]. split; [by apply base_traces|exact Ht]. Qed.

Lemma inv_panel x a : tp_consistent x.1 -> inv ms a -> inv ms (set_panel x a).
Proof.
  intros Hp H. unfold set_panel. destruct x as [t [q|]]; cbn [fst snd] in *; [apply inv_focus; [done|]|];
    by apply inv_traces.
Qed.

Lemma inv_keys k a : keys_ok k -> inv ms a -> inv ms (set_keys k a).
Proof. intros Hp [Hb Ht]. split; [by apply base_keys|exact Ht]. Qed.

Lemma inv_mode m a : inv ms a -> inv ms (set_mode m a).
Proof. intros H. apply inv_keys; [|done]. by destruct H as ((_ & _ & _ & Hk) & _). Qed.

Lemma inv_pending r a : r = 0%Z \/ r = rune_of "g" \/ r = rune_of "y" -> inv ms a -> inv ms (set_pending r a).
Proof. intros. by apply inv_keys. Qed.

Lemma inv_spawn t a : mutating t = false -> inv ms a -> inv ms (spawn t a).
Proof.
  intros Ht (Hb & Hr & Hm). split; [exact Hb|]. split; [exact Hr|]. revert Hm. unfold muts. app_cbn. intros <-.
  rewrite List.filter_app. cbn. rewrite Ht. apply app_nil_r.
Qed.

Lemma inv_spawn_mutating t a : mutating t = true -> inv ms a -> inv (ms ++ [t]) (spawn t a).
Proof.
  intros Ht (Hb & Hr & Hm). split; [exact Hb|]. split; [exact Hr|]. revert Hm. unfold muts. app_cbn. intros <-.
  rewrite List.filter_app. cbn. by rewrite Ht.
Qed.

Lemma inv_enqueue d a : inv ms a -> inv ms (enqueue d a).
Proof. apply inv_ext; try done. app_cbn. set_solver. Qed.

Lemma inv_label l t a : inv ms a -> inv ms (set_label l t a).
Proof. by apply inv_ext. Qed.

Lemma inv_showStatus m a : inv ms a -> inv ms (showStatus m a).
Proof. by apply inv_ext. Qed.

Lemma inv_store s a : inv ms a -> inv ms (set_store s a).
Proof. by apply inv_ext. Qed.

Lemma inv_logs s a : inv ms a -> inv ms (set_logs s a).
Proof. by apply inv_ext. Qed.

Lemma inv_done d a : inv ms a -> inv ms (set_done d a).
Proof. by apply inv_ext. Qed.

Lemma inv_updateHeader a : inv ms a -> inv ms (updateHeader cfg a).
Proof. by apply inv_ext. Qed.

Lemma inv_refreshCh b a : inv ms a -> inv ms (set_refreshCh b a).
Proof. by apply inv_ext. Qed.

(** A move of the selection, or a name: the changes and the rows stay. *)
Lemma inv_selection t a : inv ms a -> inv ms (set_table (mkResourceTable t (rt_rows (a_table a))) a).
Proof. by intros [Hb Ht]. Qed.

Lemma inv_name n a : inv ms a -> inv ms (set_model (SetManifestName n (a_model a)) a).
Proof. by intros [Hb Ht]. Qed.

Lemma inv_filtered f a : inv ms a -> inv ms (refreshTable cfg (set_model (SetFilter f (a_model a)) a)).
Proof. intros (Hb & _ & Hm). by apply inv_refreshTable. Qed.

Lemma inv_switchKind k a : inv ms a -> inv ms (switchKind cfg k a).
Proof. intros (Hb & _ & Hm). by apply inv_refreshTable. Qed.

Lemma inv_ask msg act a : prompts act (nl +:+ msg) -> inv ms a -> inv ms (ask msg act a).
Proof.
  intros Hm H. unfold ask. set (a1 := set_confirm (confirm_Show msg act) a).
  assert (H1 : inv ms a1).
  { destruct H as ((H1 & H2 & _ & H4) & Ht). split; [|exact Ht].
    split; [exact H1|]. split; [exact H2|]. split; [|exact H4]. by intros act' [= <-]. }
  apply (inv_pushView "confirm") in H1 as [(Hp & Hr) Ht]; [|unfold overlays; set_solver].
  split; [|exact Ht]. split; [|exact Hr]. destruct Hp as (P1 & P2 & _).
  split; [exact P1|]. split; [exact P2|]. intros _. unfold pushView, switched. by case_bool_decide.
Qed.
End keeps.
#[export] Hint Resolve inv_focus inv_pushView inv_focusActiveTab inv_popView inv_toggleHelp inv_traces inv_panel inv_mode
  inv_pending inv_spawn inv_enqueue inv_label inv_showStatus inv_store inv_logs inv_done inv_updateHeader inv_refreshCh
  inv_selection inv_name inv_filtered inv_switchKind : tui.

(** ** Handlers *)

(** What a handler does to the mutations under way: nothing, or it starts one of which
    [asked] is true. *)
Definition outcome {U : Unicode} {LSort : LessSort} (ms : list Task) (asked : Task -> Prop) (a : App) : Prop :=
  inv ms a \/ exists t, asked t /\ mutating t = true /\ inv (ms ++ [t]) a.

Lemma outcome_quiet {U : Unicode} {LSort : LessSort} ms asked a : inv ms a -> outcome ms asked a.
Proof. by left. Qed.

Lemma outcome_weaken {U : Unicode} {LSort : LessSort} ms (asked asked' : Task -> Prop) a :
  (forall t, asked t -> asked' t) -> outcome ms asked a -> outcome ms asked' a.
Proof. intros H [H1|(t & H1 & H2)]; [by left|right]. eauto. Qed.

#[export] Hint Resolve outcome_quiet : tui.
#[export] Hint Extern 1 (mutating _ = false) => reflexivity : tui.
#[export] Hint Extern 1 (_ <> FConfirm) => discriminate : tui.
#[export] Hint Extern 1 (_ ∈ overlays) => (unfold overlays; set_solver) : tui.

(** A handler is a composition of the functions above under case distinctions. *)
Ltac handler := repeat case_match; cbn [fst snd]; eauto 8 with tui.

Section handlers.
Context {U : Unicode} {LSort : LessSort} {SSort : SliceSort} {W : Type}.
Context (range_order : list SpanData -> list SpanData) (clock clock_ms : Z -> string).
Context (other_v : gval -> string) (yaml : Yaml) (edit : string -> string -> W -> W * EditOutcome).
Context (cfg : Mode (W := W)) (ms : list Task).

Lemma inv_consistent a : inv ms a -> tp_consistent (a_traces a).
Proof. by intros ((_ & H & _) & _). Qed.
Hint Resolve inv_consistent : tui.

Lemma inv_panel_same t a :
  tp_page t = tp_page (a_traces a) -> Level t = Level (a_traces a) -> inv ms a -> inv ms (set_traces t a).
Proof. intros H1 H2 H. apply inv_traces; [|done]. eapply consistent_same; eauto with tui. Qed.

Lemma inv_switchTab tab a : inv ms a -> inv ms (switchTab cfg tab a).
Proof.
  intros H. unfold switchTab. cbn zeta. apply inv_focusActiveTab.
  set (a1 := updateHeader _ _).
  assert (H1 : inv ms a1).
  { apply inv_updateHeader. destruct H as (Hb & Hr). split; [|by apply rest_switched].
    apply base_switched; [apply shows_switch|constructor|done]. }
  clearbody a1. repeat case_match; eauto with tui.
Qed.

Lemma inv_refresh_logs a : inv ms a -> inv ms (refresh_logs clock_ms a).
Proof. apply inv_logs. Qed.

Lemma inv_refresh_traces a : inv ms a -> inv ms (refresh_traces clock a).
Proof. intros H. by apply inv_panel_same. Qed.

Lemma inv_refreshActiveTab a : inv ms a -> inv ms (refreshActiveTab a).
Proof.
  intros H. unfold refreshActiveTab. handler. by apply (inv_ext _ (enqueue DLogsNow a)), inv_enqueue.
Qed.

Lemma inv_showDetail c a : inv ms a -> inv ms (showDetail c a).
Proof.
  intros H. unfold showDetail. apply inv_focus; [done|]. apply inv_pushView; [eauto with tui|].
  apply inv_spawn; [done|]. by apply (inv_ext _ a).
Qed.

Lemma inv_showDrift c a : inv ms a -> inv ms (showDrift other_v c a).
Proof.
  intros H. unfold showDrift. apply inv_focus; [done|]. apply inv_pushView; [eauto with tui|].
  by apply (inv_ext _ a).
Qed.

Lemma inv_applyAll a : inv ms a -> inv ms (applyAll cfg a).
Proof.
  intros H. unfold applyAll. destruct cfg; [|eauto with tui]. destruct (GetPlan _) as [plan|]; [|done].
  destruct (Nat.eqb_spec (Creates plan + Updates plan) 0); [eauto with tui|].
  apply inv_ask; [|done]. by exists plan.
Qed.

Lemma inv_deleteResource a : inv ms a -> inv ms (deleteResource a).
Proof. intros H. unfold deleteResource. case_match; [|done]. by apply inv_ask. Qed.

Lemma inv_applySearch f a : inv ms a -> inv ms (applySearch clock clock_ms cfg f a).
Proof.
  intros H. unfold applySearch. case_match; [eauto with tui| |eauto using inv_refresh_logs with tui].
  assert (H1 : inv ms (set_traces (tp_SetFilter f (a_traces a)) a)) by eauto with tui.
  cbn zeta. case_match; [by apply inv_refresh_traces|done].
Qed.

Lemma inv_clearSearch a : inv ms a -> inv ms (clearSearch clock_ms cfg a).
Proof. intros H. unfold clearSearch. case_match; eauto using inv_refresh_logs with tui. Qed.

Lemma inv_deactivateCommandBar a : inv ms a -> inv ms (deactivateCommandBar a).
Proof. intros H. unfold deactivateCommandBar. eauto with tui. Qed.

Lemma inv_handleTenantCommand c a : inv ms a -> inv ms (handleTenantCommand cfg c a).
Proof.
  intros H. unfold handleTenantCommand.
  assert (Ht : forall t, inv ms (set_tenant t a)) by (intros t; by apply (inv_ext _ a)).
  destruct cfg; [eauto with tui|]. repeat case_match; unfold triggerRefresh; eauto 8 with tui.
Qed.

Lemma inv_Stop a : inv ms a -> inv ms (Stop a).
Proof. by apply inv_ext. Qed.

Lemma executeCommand_sync c a :
  TrimSpace (ToLower c) = "sync" -> executeCommand cfg c a = triggerRemoteSync cfg a.
Proof. intros Hs. unfold executeCommand. cbv zeta. rewrite Hs. reflexivity. Qed.

(** A command that starts a mutation is [sync], in attach mode. *)
Lemma outcome_executeCommand c a :
  inv ms a ->
  outcome ms (fun t => t = TRemoteSync /\ TrimSpace (ToLower c) = "sync" /\ exists url, cfg = Attached url)
    (executeCommand cfg c a).
Proof.
  intros H. destruct (decide (TrimSpace (ToLower c) = "sync")) as [Hs|Hs].
  - rewrite executeCommand_sync by done. unfold triggerRemoteSync.
    destruct cfg as [|url] eqn:E; [left; rewrite <-E; by apply inv_applyAll|]. right. exists TRemoteSync.
    split; [eauto|]. split; [done|]. by apply inv_spawn_mutating.
  - left. unfold executeCommand. cbv zeta. apply String.eqb_neq in Hs. rewrite Hs.
    repeat case_match; eauto using inv_Stop, inv_applyAll, inv_deleteResource, inv_switchTab,
      inv_handleTenantCommand with tui.
Qed.

Lemma outcome_bar_done key a :
  inv ms a ->
  outcome ms (fun t => t = TRemoteSync /\ key = KeyEnter /\ if_Done (a_cmdBar a) = onCommandDone_ /\
                       TrimSpace (ToLower (if_Text (a_cmdBar a))) = "sync" /\ exists url, cfg = Attached url)
    (bar_done clock clock_ms cfg key a).
Proof.
  intros H. unfold bar_done. destruct (if_Done (a_cmdBar a)) eqn:Hd.
  - unfold onCommandDone. destruct key; try (by left);
      [left; apply inv_deactivateCommandBar; eauto with tui|].
    eapply outcome_weaken; [|apply outcome_executeCommand, inv_deactivateCommandBar; eauto with tui].
    by intros t (-> & H1 & H2).
  - left. unfold onSearchDone. cbn zeta. destruct key; try done; apply inv_deactivateCommandBar;
      eauto using inv_clearSearch, inv_applySearch with tui.
Qed.

(** *** Keys *)

Lemma inv_handleDrillIn a : inv ms a -> inv ms (handleDrillIn cfg a).
Proof.
  intros H. unfold handleDrillIn, drillIntoTrace. cbv zeta.
  repeat case_match; eauto with tui; apply inv_panel; eauto with tui.
Qed.

Lemma inv_goToTop a : inv ms a -> inv ms (goToTop a).
Proof. intros H. unfold goToTop. handler. Qed.

Lemma inv_goToBottom a : inv ms a -> inv ms (goToBottom a).
Proof. intros H. unfold goToBottom. cbv zeta. handler. Qed.

Lemma inv_copySelected a : inv ms a -> inv ms (copySelected clock_ms a).
Proof. intros H. unfold copySelected. cbv zeta. handler. Qed.

Lemma inv_handleNumberKey r a : inv ms a -> inv ms (handleNumberKey cfg r a).
Proof. intros H. unfold handleNumberKey. handler. Qed.

Lemma inv_handlePauseResume a : inv ms a -> inv ms (handlePauseResume a).
Proof. intros H. unfold handlePauseResume. case_match; [done|by apply inv_panel_same|eauto with tui]. Qed.

Lemma inv_handleClearFilters a : inv ms a -> inv ms (handleClearFilters clock_ms cfg a).
Proof.
  intros H. unfold handleClearFilters. cbv zeta.
  case_match; eauto using inv_refresh_logs with tui.
  apply inv_store, inv_traces; [|eauto with tui].
  apply SetFilter_consistent. eapply consistent_same; [..|exact (inv_consistent a H)]; done.
Qed.

Lemma inv_handleEscape a : inv ms a -> inv ms (handleEscape clock_ms cfg a).
Proof.
  intros H. unfold handleEscape. cbv zeta.
  assert (H1 : inv ms (set_pending 0 a)) by eauto with tui.
  revert H1. generalize (set_pending 0 a). intros a1 H1.
  repeat case_match; eauto using inv_deactivateCommandBar, inv_clearSearch, inv_refresh_logs with tui;
    apply inv_panel; eauto with tui.
Qed.

Lemma inv_handleRune event a : inv ms a -> inv ms (handleRune clock_ms cfg event a).1.
Proof.
  intros H. unfold handleRune. cbv zeta.
  repeat case_match; cbn [fst];
    eauto using inv_Stop, inv_refreshActiveTab, inv_goToBottom, inv_handleDrillIn, inv_handlePauseResume,
      inv_handleClearFilters, inv_handleNumberKey, inv_panel_same with tui.
  all: try (apply inv_panel; by eauto with tui).
  all: try (unfold activateCommandBar, activateSearch; by eauto 8 with tui).
  apply inv_pending; [|done].
  match goal with E : _ || _ = true |- _ => apply orb_true_iff in E as [E|E]; apply Z.eqb_eq in E end; eauto.
Qed.

Lemma inv_handleNormal event a : inv ms a -> inv ms (handleNormal clock_ms cfg event a).1.
Proof.
  intros H. unfold handleNormal. cbv zeta.
  assert (H1 : inv ms (set_pending 0 a)) by eauto with tui.
  repeat case_match; cbn [fst];
    eauto using inv_goToTop, inv_copySelected, inv_switchTab, inv_handleRune.
Qed.

(** An editor session on the selected change: what it observed, edited and sends. *)
Definition edited (a : App) (w : W) (t : Task) : Prop :=
  exists c observed w1 text w2 content spec,
    GetSelectedChange (a_table a) = Some c /\
    pa_Observe (c_provider cfg) (ch_Kind c) (ch_Name c) w = (w1, Ok observed) /\
    y_marshal yaml (Some (edit_doc c observed)) = Ok text /\
    edit ("gcplane-" +:+ ch_Kind c +:+ "-" +:+ ch_Name c +:+ "-*.yaml") text w1 = (w2, Edited content) /\
    edited_spec yaml content = inr spec /\ t = TUpdate (ch_Kind c) (ch_Name c) spec.

Lemma outcome_editResource a w :
  inv ms a -> outcome ms (edited a w) (editResource yaml edit cfg a w).1.
Proof.
  intros H. unfold editResource. cbv zeta.
  destruct (GetSelectedChange _) as [c|] eqn:E1; [|by left].
  destruct (pa_Observe _ _ _ _) as [w1 [observed|e]] eqn:E2; [|left; cbn; eauto with tui].
  destruct (y_marshal _ _) as [text|e] eqn:E3; [|left; cbn; eauto with tui].
  destruct (edit _ _ _) as [w2 [| | |content]] eqn:E4; try (left; cbn; by eauto with tui).
  destruct (edited_spec _ _) as [msg|spec] eqn:E5; [left; cbn; by eauto with tui|].
  right. exists (TUpdate (ch_Kind c) (ch_Name c) spec). split; [by repeat eexists|].
  split; [done|]. by apply inv_spawn_mutating.
Qed.

(** The Yes button of the confirmation of an action. *)
Definition accepted (a : App) (t : Task) : Prop :=
  cm_Yes (a_confirm a) = true /\
  ((exists plan, (Creates plan + Updates plan <> 0)%nat /\ cm_text (a_confirm a) = nl +:+ apply_prompt plan /\
                 t = TDoApply) \/
   (exists kind name, cm_text (a_confirm a) = nl +:+ delete_prompt kind name /\ t = TDoDelete kind name)).

Lemma outcome_press_button a : inv ms a -> outcome ms (accepted a) (press_button a).
Proof.
  intros H. unfold press_button. destruct (cm_onConfirm _) as [act|] eqn:E; [|by left].
  assert (Hp : prompts act (cm_text (a_confirm a))) by (destruct H as ((_ & _ & H & _) & _); by apply H).
  unfold confirmed. cbv zeta. destruct (cm_Yes (a_confirm a)) eqn:Ey; [|left; cbn; eauto with tui].
  right. destruct act as [|kind name]; cbn [negb]; [exists TDoApply|exists (TDoDelete kind name)];
    (split; [split; [done|]|split; [done|apply inv_spawn_mutating; by eauto with tui]]).
  - left. destruct Hp as (plan & H1 & H2). eauto.
  - right. eauto.
Qed.

(** The [sync] command, given to the command bar in attach mode. *)
Definition remote_sync (a : App) (t : Task) : Prop :=
  a_focus a = FCmdBar /\ if_Done (a_cmdBar a) = onCommandDone_ /\
  TrimSpace (ToLower (if_Text (a_cmdBar a))) = "sync" /\ (exists url, cfg = Attached url) /\ t = TRemoteSync.

(** The confirmation is the page in front and has the focus, its Yes button pressed. *)
Definition pressed_yes (a : App) (t : Task) : Prop :=
  a_focus a = FConfirm /\ r_front (a_registry a) = "confirm" /\ accepted a t.

Lemma inv_set_confirm_button yes a :
  inv ms a -> inv ms (set_confirm (mkConfirmModal (cm_text (a_confirm a)) (cm_onConfirm (a_confirm a)) yes) a).
Proof. intros ((H1 & H2 & H3 & H4) & Hr). split; [|exact Hr]. split; [exact H1|]. split; [exact H2|]. by split. Qed.

Lemma inv_table_widget event a a' : inv ms a -> table_widget other_v event a a' -> inv ms a'.
Proof.
  intros H. unfold table_widget. destruct (rt_handleInput event (a_table a)) as [[rt call] ev] eqn:E.
  assert (Hrt : exists t, rt = mkResourceTable t (rt_rows (a_table a))).
  { revert E. destruct (a_table a) as [tb rows]. unfold rt_handleInput. cbn [rt_rows rt_Table].
    repeat case_match; intros [= <- <- <-]; subst; eauto. }
  destruct Hrt as [t ->]. destruct call as [[c|c]|]; [intros ->; by apply inv_showDetail|intros ->; by apply inv_showDrift|].
  destruct ev; [intros (t' & _ & ->)|intros ->]; cbn [rt_rows]; eauto with tui.
Qed.

Lemma inv_traces_widget pg event t' a : inv ms a -> traces_widget pg event (a_traces a) t' -> inv ms (set_traces t' a).
Proof.
  intros H. destruct pg; cbn; [intros (tb & _ & ->)|intros (tb & _ & ->)|intros (tv & _ & ->)]; by apply inv_panel_same.
Qed.

Lemma outcome_widget event a a' :
  inv ms a -> widget clock clock_ms other_v cfg event a a' ->
  outcome ms (fun t => ek_Key event = KeyEnter /\ (pressed_yes a t \/ remote_sync a t)) a'.
Proof.
  intros H. unfold widget. destruct (a_focus a) as [|pg| | | | | |] eqn:Ef.
  - left. by eapply inv_table_widget.
  - intros (t & Ht & ->). left. by eapply inv_traces_widget.
  - intros (h & Hp). left. destruct (lp_handleInput h event (a_logs a)) as [p [e|]]; [|subst; by apply inv_logs].
    destruct Hp as (t & _ & ->). by apply inv_logs.
  - intros (tv & _ & ->). left. by apply (inv_ext _ a).
  - intros (tv & _ & ->). left. by apply (inv_ext _ a).
  - destruct (ek_Key event); try (intros (yes & ->); left; by apply inv_set_confirm_button).
    intros ->. eapply outcome_weaken; [|by apply outcome_press_button]. intros t Ht. split; [done|]. left.
    split; [done|]. split; [|done]. destruct H as (((_ & _ & Hf) & _) & _). by apply Hf.
  - intros ->. by left.
  - destruct (ek_Key event) eqn:Ek; try (intros (text & ->); left; by apply inv_label); intros ->;
      (eapply outcome_weaken; [|by apply outcome_bar_done]);
      intros t (-> & Hk & H1 & H2 & H3); try done; split; [done|]; right; done.
Qed.

Lemma inv_widget event a a' :
  inv ms a -> ek_Key event <> KeyEnter -> widget clock clock_ms other_v cfg event a a' -> inv ms a'.
Proof. intros H Hk Hw. by destruct (outcome_widget event a a' H Hw) as [?|(t & [? _] & _)]. Qed.

(** The keys that are left for the widget: the key itself, or an arrow. *)
Lemma handleNormal_left event a e :
  ek_Key event <> KeyEnter -> (handleNormal clock_ms cfg event a).2 = Some e -> ek_Key e <> KeyEnter.
Proof.
  intros Hk. unfold handleNormal, handleRune. cbv zeta. repeat case_match; cbn [snd]; intros [= <-]; done.
Qed.

(** What a key may start: the Yes button, the [sync] command, or an editor session. *)
Inductive asked (event : EventKey) (a : App) (w : W) (t : Task) : Prop :=
  | asked_yes : ek_Key event = KeyEnter -> pressed_yes a t -> asked event a w t
  | asked_sync : ek_Key event = KeyEnter -> remote_sync a t -> asked event a w t
  | asked_edit :
      ek_Key event = KeyCtrlE -> ActiveTab (a_registry a) = TabState -> HasOverlay (a_registry a) = false ->
      edited a w t -> asked event a w t.

Lemma outcome_normal event a (w : W) a' (w' : W) :
  inv ms a -> ek_Key event <> KeyEnter ->
  (let x := handleNormal clock_ms cfg event a in
   match (x.1, w, x.2) with
   | (a1, w1, None) => a' = a1 /\ w' = w1
   | (a1, w1, Some e) => widget clock clock_ms other_v cfg e a1 a' /\ w' = w1
   end) -> inv ms a'.
Proof.
  intros H Hk. cbv zeta. pose proof (inv_handleNormal event a H) as H1.
  destruct (handleNormal clock_ms cfg event a) as [a1 [e|]] eqn:E; cbn [fst snd] in *.
  - intros [Hw _]. apply (inv_widget e a1 a' H1); [|done].
    apply (handleNormal_left event a); [done|by rewrite E].
  - by intros [-> _].
Qed.

Lemma outcome_key_step event a w a' w' :
  inv ms a -> key_step clock clock_ms other_v yaml edit cfg event a w a' w' -> outcome ms (asked event a w) a'.
Proof.
  intros H. unfold key_step, Handle. cbv zeta.
  assert (Hwid : widget clock clock_ms other_v cfg event a a' /\ w' = w -> outcome ms (asked event a w) a').
  { intros [Hw _]. eapply outcome_weaken; [|by apply outcome_widget]. intros t [Hk [Hy|Hs]];
      [by apply asked_yes|by apply asked_sync]. }
  assert (Hnorm := outcome_normal event a w a' w' H). cbv zeta in Hnorm.
  set (st := bool_decide (ActiveTab (a_registry a) = TabState) && negb (HasOverlay (a_registry a))).
  destruct (ek_Key event) eqn:Ek; try (intros [-> _]; left; by eauto using inv_Stop, inv_handleEscape);
    (destruct (negb (bool_decide (k_mode (a_keys a) = ModeNormal))); [exact Hwid|]);
    try (intros Hn; left; by apply Hnorm); try exact Hwid.
  - destruct (bool_decide (_ = TabTraces) && _); [intros [-> _]; left; by apply inv_handleDrillIn|exact Hwid].
  - destruct st; [intros [-> _]; left; by apply inv_deleteResource|exact Hwid].
  - destruct st eqn:Es; [|intros Hn; left; by apply Hnorm].
    apply andb_true_iff in Es as [E1%bool_decide_eq_true E2%negb_true_iff].
    pose proof (outcome_editResource a w H) as Ho. destruct (editResource yaml edit cfg a w) as [a1 w1].
    intros [-> _]. eapply outcome_weaken; [|exact Ho]. intros t Ht. by apply asked_edit.
  - intros [-> _]. left. by apply inv_refreshActiveTab.
Qed.
End handlers.

(** ** The rest of the steps *)

Section draws.
Context {U : Unicode} {LSort : LessSort} {SSort : SliceSort} {W : Type}.
Context (clock clock_ms : Z -> string) (yaml : Yaml) (cfg : Mode (W := W)) (ms : list Task).

(** *** Queued functions *)

Lemma base_run_draw_table status a : base a -> muts a = ms -> inv ms (run_draw clock clock_ms yaml cfg (DTable status) a).
Proof. intros Hb Hm. cbn. assert (H := inv_refreshTable cfg ms a Hb Hm). case_match; eauto with tui. Qed.

Lemma inv_run_draw d a : inv ms a -> inv ms (run_draw clock clock_ms yaml cfg d a).
Proof.
  intros H. destruct d as [status|msg| | |reason|reason| | | |kind name observed|msg].
  all: cbn [run_draw]; repeat case_match; eauto using inv_refresh_traces, inv_refresh_logs, inv_panel_same with tui.
  - destruct H as (Hb & _ & Hm). eauto using inv_refreshTable with tui.
  - destruct H as (Hb & _ & Hm). eauto using inv_refreshTable with tui.
Qed.

Lemma inv_next_draw d q a :
  inv ms a -> a_queue a = d :: q -> inv ms (run_draw clock clock_ms yaml cfg d (set_queue q a)).
Proof.
  intros (Hb & Ht & Hm) Hq. assert (Hb' : base (set_queue q a)) by (by apply (base_ext a)).
  assert (Hd : (exists s, d = DTable s) \/ forall s, d <> DTable s) by (destruct d; eauto).
  destruct Hd as [[s ->]|Hd]; [by apply base_run_draw_table|].
  apply inv_run_draw. split; [exact Hb'|]. split; [|exact Hm]. destruct Ht as [Ht|[s Hs]]; [by left|].
  rewrite Hq in Hs. apply elem_of_cons in Hs as [<-|Hs]; [by destruct (Hd s)|]. right. by exists s.
Qed.
End draws.

(** *** Goroutines *)

Section tasks.
Context {U : Unicode} {LSort : LessSort} {SSort : SliceSort} {W : Type}.
Context (range_order : list SpanData -> list SpanData).
Context (sch : Schedule) (env_of : W -> Env) (parse_time : string -> res Z).
Context (http_get : string -> W -> W * res HttpReply) (http_post : string -> string -> W -> W * res HttpReply).
Context (cfg : Mode (W := W)) (ms : list Task).

(** New changes come with a redraw. *)
Lemma inv_update_plan now plan status a :
  inv ms a -> inv ms (enqueue (DTable status) (set_model (UpdatePlan now plan (a_model a)) a)).
Proof.
  intros (Hb & _ & Hm). split; [by apply (base_ext a)|]. split; [|exact Hm].
  right. exists status. app_cbn. set_solver.
Qed.

Lemma inv_refresh busy a w :
  inv ms a -> inv ms (refresh sch env_of parse_time http_get cfg busy a w).1.
Proof.
  intros H. unfold refresh, refreshDirect, refreshFromServe.
  destruct busy; [done|]. destruct cfg as [m api engine|url].
  - destruct (Reconcile _ _ _ _ _ _) as [w1 [plan r]]. by apply inv_update_plan.
  - destruct (if String.eqb _ _ then _ else _) as [w1 [s|e]]; cbn [fst]; [by apply inv_update_plan|].
    destruct H as (Hb & Ht & Hm). split; [by apply (base_ext a)|]. split; [|exact Hm]. exact Ht.
Qed.

Lemma inv_refresh_and_show busy msg a w :
  inv ms a -> inv ms (refresh_and_show sch env_of parse_time http_get cfg busy msg a w).1.
Proof.
  intros H. unfold refresh_and_show. pose proof (inv_refresh busy a w H) as H1.
  destruct (refresh _ _ _ _ _ _ _ _) as [a1 w1]. cbn [fst] in *. eauto with tui.
Qed.

Lemma inv_liveStore s a : inv ms a -> inv ms (set_liveStore s a).
Proof. by apply inv_ext. Qed.

Lemma inv_fetch_detail shown failed a w :
  inv ms a -> inv ms (fetch_detail range_order cfg shown failed a w).1.
Proof.
  intros H. unfold fetch_detail. destruct (pa_TraceFetcher _) as [[list detail]|]; [|done].
  destruct (refresh_detail_begin _) as [id|]; [|cbn; eauto with tui].
  destruct (detail id w) as [w1 [x|e]]; cbn [fst]; repeat case_match; eauto with tui.
Qed.

Lemma inv_run_task busy t a w :
  inv ms a -> inv ms (run_task range_order sch env_of parse_time http_get http_post cfg busy t a w).1.
Proof.
  intros H. destruct t as [| |kind name|kind name spec|kind name| | | | | |]; cbn [run_task].
  - by apply inv_refresh.
  - unfold doApply. destruct cfg eqn:E; [|done]. destruct (Reconcile _ _ _ _ _ _) as [w1 [plan r]].
    rewrite <- E. by apply inv_refresh_and_show.
  - unfold doDelete. destruct (pa_Delete _ _ _ _) as [w1 r]. by apply inv_refresh_and_show.
  - unfold doUpdate. destruct (pa_Update _ _ _ _ _) as [w1 r]. by apply inv_refresh_and_show.
  - destruct (pa_Observe _ _ _ _) as [w1 r]. cbn [fst]. eauto with tui.
  - unfold startLogTail. destruct (pa_LogTailer _) as [[start stop]|]; [|cbn; eauto with tui].
    case_match; [done|]. destruct (start "info" w) as [w1 [x|e]]; cbn [fst]; eauto using inv_liveStore with tui.
  - unfold stopLogTail. cbv zeta. repeat case_match; cbn [fst]; eauto using inv_liveStore.
  - unfold fetch_list. destruct (pa_TraceFetcher _) as [[list detail]|]; [|done].
    destruct (refresh_list_begin _) as [[f s]|]; [|cbn; eauto with tui].
    destruct (list f w) as [w1 x]; cbn [fst]; case_match; eauto with tui.
  - by apply inv_fetch_detail.
  - by apply inv_fetch_detail.
  - destruct cfg eqn:E; [done|]. unfold remoteSync.
    destruct (if String.eqb _ _ then _ else _) as [w1 r]. cbv zeta. rewrite <- E. apply inv_refresh. eauto with tui.
Qed.

(** *** Ticks *)

Lemma inv_refreshTraces a : inv ms a -> inv ms (refreshTraces cfg a).
Proof.
  intros H. unfold refreshTraces. cbv zeta. destruct (tp_paused _); [done|].
  destruct (pa_TraceFetcher _); [|case_match; eauto with tui].
  assert (H1 : inv ms (if NeedsListRefresh (a_store a) then spawn TListFetch a else a)) by (case_match; eauto with tui).
  revert H1. generalize (if NeedsListRefresh (a_store a) then spawn TListFetch a else a). intros a1 H1.
  repeat case_match; eauto 8 with tui.
Qed.

Lemma inv_tab_tick count a : inv ms a -> inv ms (tab_tick cfg count a).
Proof.
  intros H. unfold tab_tick. cbv zeta.
  assert (H1 : inv ms (refreshTraces cfg (if (Z.rem count 20 =? 0)%Z
                                          then set_store (NotifyTraceUpdated (a_store a)) a else a))).
  { apply inv_refreshTraces. case_match; eauto with tui. }
  revert H1. generalize (refreshTraces cfg (if (Z.rem count 20 =? 0)%Z
                                            then set_store (NotifyTraceUpdated (a_store a)) a else a)).
  intros a1 H1. case_match; eauto with tui.
Qed.

Lemma inv_on_event frame a a' : inv ms a -> on_event frame a = Some a' -> inv ms a'.
Proof.
  intros H. unfold on_event. destruct (HandleEvent _ _ _) as [s|]; [|done]. cbn.
  intros [= <-]. repeat case_match; eauto using inv_liveStore with tui.
Qed.
End tasks.

(** ** Sessions *)

Section session.
Context {U : Unicode} {LSort : LessSort} {SSort : SliceSort} {W : Type}.
Context (range_order : list SpanData -> list SpanData) (clock clock_ms : Z -> string).
Context (other_v : gval -> string) (yaml : Yaml) (edit : string -> string -> W -> W * EditOutcome).
Context (sch : Schedule) (env_of : W -> Env) (parse_time : string -> res Z).
Context (http_get : string -> W -> W * res HttpReply) (http_post : string -> string -> W -> W * res HttpReply).
Context (cfg : Mode (W := W)) (others : W -> W -> Prop).

Notation step := (ui_step range_order clock clock_ms other_v yaml edit sch env_of parse_time http_get http_post cfg others).
Notation key := (key_step clock clock_ms other_v yaml edit cfg).
Notation asked := (asked yaml edit cfg).

Definition well_formed (a : App) : Prop := base a /\ table_ok a.

Lemma inv_muts a : well_formed a -> inv (muts a) a.
Proof. by intros [H1 H2]. Qed.

Lemma inv_well_formed ms a : inv ms a -> well_formed a.
Proof. by intros (H1 & H2 & _). Qed.

(** One step of a well-formed interface. *)
Lemma step_cases s s' :
  well_formed s.1 -> step s s' ->
  well_formed s'.1 /\
  ((exists t l1 l2, a_tasks s.1 = (l1 ++ t :: l2)%list /\ muts s'.1 = List.filter mutating (l1 ++ l2)) \/
   muts s'.1 = muts s.1 \/
   exists event t, key event s.1 s.2 s'.1 s'.2 /\ asked event s.1 s.2 t /\ muts s'.1 = (muts s.1 ++ [t])%list).
Proof.
  intros H%inv_muts Hs. assert (Hq : forall a, inv (muts s.1) a -> well_formed a /\ muts a = muts s.1).
  { intros a Ha. split; [by eapply inv_well_formed|]. by destruct Ha as (_ & _ & ?). }
  destruct Hs as [event a w a' w' Hr Hk|d q a w Hr Hd|busy t l1 l2 a w Ht|a w Hi|a w Hi|a w Hf|count a w|frame a a' w He
                 |msg a w Ht|now a w Hn|a w w' Ho]; cbn [fst snd] in *.
  - pose proof (outcome_key_step clock clock_ms other_v yaml edit cfg _ event a w a' w' H Hk) as Ho.
    destruct Ho as [Ho|(t & Ha & Hm & Ho)].
    + apply Hq in Ho as [H1 H2]. eauto.
    + split; [by eapply inv_well_formed|]. right. right. exists event, t. by destruct Ho as (_ & _ & ?).
  - destruct (Hq _ (inv_next_draw clock clock_ms yaml cfg _ d q a H Hd)). eauto.
  - assert (H1 : inv (List.filter mutating (l1 ++ l2)) (set_tasks (l1 ++ l2) a)).
    { destruct H as (Hb & Ht' & _). split; [by apply (base_ext a)|]. by split. }
    apply (inv_run_task range_order sch env_of parse_time http_get http_post cfg _ busy t _ w) in H1.
    split; [by eapply inv_well_formed|]. left. destruct H1 as (_ & _ & Hm). eauto.
  - destruct (Hq (spawn TRefresh a)); eauto with tui.
  - destruct (Hq (set_stopped true a)); [by apply inv_Stop|]. eauto.
  - destruct (Hq (spawn TRefresh (set_refreshCh false a))); eauto with tui.
  - destruct (Hq _ (inv_tab_tick cfg _ count a H)). eauto.
  - destruct (Hq _ (inv_on_event _ frame a a' H He)). eauto.
  - destruct (Hq (enqueue (DClearLabel msg) (set_timer None a))); [|eauto]. apply inv_enqueue. by apply (inv_ext _ a).
  - destruct (Hq (set_now now a)); [by apply (inv_ext _ a)|]. eauto.
  - destruct (Hq a H). eauto.
Qed.

Lemma start_well_formed ep interval now : inv [] (Run (new_app cfg ep interval now)).
Proof.
  unfold Run. apply inv_spawn; [done|]. split.
  - apply base_shown; [apply shows_switch|constructor|]. split; [done|]. split; [by intros act|by left].
  - apply rest_switched. split; [|done]. left. unfold GetChanges. destruct cfg; cbn;
      by rewrite (proj1 (Permutation_nil_r _) (sort_less_perm change_less [])).
Qed.

Lemma reachable_well_formed ep interval now w s :
  rtc step (Run (new_app cfg ep interval now), w) s -> well_formed s.1.
Proof.
  intros H. remember (Run (new_app cfg ep interval now), w) as s0 eqn:E.
  assert (H0 : well_formed s0.1) by (subst; eapply inv_well_formed, start_well_formed).
  clear E. induction H as [s|s s1 s2 Hs _ IH]; [done|]. apply IH. by apply (step_cases s s1).
Qed.

(** *** What looking keeps *)

Section looking.
Context (R : W -> W -> Prop) {refl : Reflexive R} {trans : Transitive R}.

(** The operations of the provider that the interface uses without being asked. *)
Record api_looks (api : ProviderAPI W) : Prop := {
  looks_observe k n w : R w (pa_Observe api k n w).1;
  looks_start start stop level w : pa_LogTailer api = Some (start, stop) -> R w (start level w).1;
  looks_stop start stop w : pa_LogTailer api = Some (start, stop) -> R w (stop w).1;
  looks_list list detail f w : pa_TraceFetcher api = Some (list, detail) -> R w (list f w).1;
  looks_detail list detail id w : pa_TraceFetcher api = Some (list, detail) -> R w (detail id w).1
}.

Definition mode_looks : Prop :=
  match cfg with
  | Direct _ api engine =>
    api_looks api /\ (forall k n w, R w (Observe engine k n w).1) /\ (forall k w, R w (ListAll engine k w).1)
  | Attached _ => forall url w, R w (http_get url w).1
  end.

Hypothesis Hmode : mode_looks.
Hypothesis Hedit : forall name text w, R w (edit name text w).1.
Hypothesis Hothers : forall w w', others w w' -> R w w'.

Lemma stub_looks url : api_looks (stubProvider url).
Proof. by split; try intros; cbn. Qed.

Lemma provider_looks : api_looks (c_provider cfg).
Proof. revert Hmode. unfold mode_looks, c_provider. destruct cfg; [by intros [? _]|]. intros _. apply stub_looks. Qed.

Lemma fetch_status_looks {A} (k : string -> res A) url w :
  (forall url w, R w (http_get url w).1) -> R w ((let! body := fetch_body http_get url in liftM (k body))%go w).1.
Proof.
  intros H. specialize (H url w). unfold fetch_body, bindM, wrapM.
  destruct (http_get url w) as [w1 [resp|e]]; cbn in *; [|done].
  unfold liftM. destruct (res_wrap _ _); cbn; [|done]. by destruct (rp_Code resp =? 200)%Z.
Qed.

Lemma refresh_looks busy a w : R w (refresh sch env_of parse_time http_get cfg busy a w).2.
Proof.
  unfold refresh, refreshDirect, refreshFromServe. destruct busy; [done|]. revert Hmode. unfold mode_looks.
  destruct cfg as [m api engine|url]; [intros (_ & Ho & Hl)|intros Hg].
  - pose proof (frame_dry_run env_of engine R Ho Hl sch m (mkOpts true false false 0) w eq_refl) as H.
    by destruct (Reconcile _ _ _ _ _ _) as [w1 [plan r]].
  - assert (H : R w (if String.eqb (a_tenant a) "" then FetchStatus parse_time http_get url w
                     else FetchTenantStatus parse_time http_get url (a_tenant a) w).1)
      by (destruct (String.eqb (a_tenant a) ""); apply (fetch_status_looks (parse_status parse_time)), Hg).
    by destruct (if String.eqb (a_tenant a) "" then _ else _) as [w1 [s|e]].
Qed.

Lemma fetch_detail_looks shown failed a w : R w (fetch_detail range_order cfg shown failed a w).2.
Proof.
  unfold fetch_detail. destruct (pa_TraceFetcher _) as [[list detail]|] eqn:E; [|done].
  destruct (refresh_detail_begin _) as [id|]; [|done].
  pose proof (looks_detail _ provider_looks _ _ id w E) as H. by destruct (detail id w) as [w1 [x|e]].
Qed.

Lemma run_task_looks busy t a w :
  mutating t = false -> R w (run_task range_order sch env_of parse_time http_get http_post cfg busy t a w).2.
Proof.
  intros Ht. destruct t as [| |kind name|kind name spec|kind name| | | | | |]; try done; cbn [run_task].
  - apply refresh_looks.
  - pose proof (looks_observe _ provider_looks kind name w). by destruct (pa_Observe _ _ _ _).
  - unfold startLogTail. destruct (pa_LogTailer _) as [[start stop]|] eqn:E; [|done]. case_match; [done|].
    pose proof (looks_start _ provider_looks _ _ "info" w E). by destruct (start "info" w) as [w1 [x|e]].
  - unfold stopLogTail. case_match; [done|]. cbv zeta. destruct (pa_LogTailer _) as [[start stop]|] eqn:E; [|done].
    apply (looks_stop _ provider_looks _ _ w E).
  - unfold fetch_list. destruct (pa_TraceFetcher _) as [[list detail]|] eqn:E; [|done].
    destruct (refresh_list_begin _) as [[f s]|]; [|done].
    pose proof (looks_list _ provider_looks _ _ f w E). by destruct (list f w).
  - apply fetch_detail_looks.
  - apply fetch_detail_looks.
Qed.

Lemma editResource_looks a w : R w (editResource yaml edit cfg a w).2.
Proof.
  unfold editResource. cbv zeta. destruct (GetSelectedChange _) as [c|]; [|done].
  pose proof (looks_observe _ provider_looks (ch_Kind c) (ch_Name c) w) as H.
  destruct (pa_Observe _ _ _ _) as [w1 [observed|e]]; [|done].
  destruct (y_marshal _ _) as [text|e]; [|done].
  pose proof (Hedit ("gcplane-" +:+ ch_Kind c +:+ "-" +:+ ch_Name c +:+ "-*.yaml") text w1) as H2.
  assert (H3 := transitivity H H2).
  destruct (edit _ _ _) as [w2 [| | |content]]; try done. by destruct (edited_spec _ _).
Qed.

Lemma key_step_looks event a w a' w' : key event a w a' w' -> R w w'.
Proof.
  intros Hk. assert (Hw : w' = (Handle clock_ms yaml edit cfg event a w).1.2).
  { unfold key_step in Hk. destruct (Handle _ _ _ _ _ _ _) as [[a1 w1] [e|]]; by destruct Hk. }
  rewrite Hw. unfold Handle. cbv zeta.
  destruct (ek_Key event); try done; (destruct (negb _); [done|]); try done; try (by destruct (_ && _)).
  destruct (_ && _); [|done]. pose proof (editResource_looks a w). by destruct (editResource _ _ _ _ _).
Qed.

(** A step that runs no mutation keeps what looking keeps. *)
Lemma step_looks s s' : muts s.1 = [] -> step s s' -> R s.2 s'.2.
Proof.
  intros Hm Hs. destruct Hs as [event a w a' w' Hr Hk| |busy t l1 l2 a w Ht| | | | | | | |a w w' Ho]; cbn [fst snd] in *;
    try done.
  - by eapply key_step_looks.
  - apply run_task_looks. unfold muts in Hm. rewrite Ht, List.filter_app in Hm. cbn in Hm.
    apply app_eq_nil in Hm as [_ Hm]. by destruct (mutating t).
  - by apply Hothers.
Qed.

(** A step with which nothing is confirmed, synced or edited. *)
Definition unasked (s s' : App * W) : Prop :=
  step s s' /\ forall event t, key event s.1 s.2 s'.1 s'.2 -> ~ asked event s.1 s.2 t.

Lemma unasked_step s s' :
  well_formed s.1 -> muts s.1 = [] -> unasked s s' -> well_formed s'.1 /\ muts s'.1 = [] /\ R s.2 s'.2.
Proof.
  intros Hw Hm [Hs Ha]. destruct (step_cases s s' Hw Hs) as (Hw' & Hc).
  split; [done|]. split; [|by apply step_looks]. destruct Hc as [(t & l1 & l2 & Ht & ->)|[->|(ev & t & Hk & H & _)]].
  - unfold muts in Hm. rewrite Ht, List.filter_app in Hm. apply app_eq_nil in Hm as [H1 H2].
    rewrite List.filter_app, H1. cbn in H2. by destruct (mutating t).
  - done.
  - by destruct (Ha ev t Hk).
Qed.
End looking.

(** *** What a session shows and does *)

(** C12: what the interface shows holds together, whatever keys are pressed, goroutines finish
    and events arrive, in any order: the page in front is the one the registry of views
    names, and only known overlays are stacked; the confirmation has the focus only when it
    is the page in front, and says what its Yes button will do; the traces panel shows the
    page of its level; and the rows of the table are those of the model's changes, sorted,
    unless a redraw is still queued. *)
Theorem tui_well_formed ep interval now w s :
  rtc step (Run (new_app cfg ep interval now), w) s ->
  let a := s.1 in
  r_front (a_registry a) = Current (a_registry a) /\
  Forall (fun name => name ∈ ["detail"; "drift"; "confirm"; "help"]) (r_overlayStack (a_registry a)) /\
  (a_focus a = FConfirm -> r_front (a_registry a) = "confirm") /\
  (forall act, cm_onConfirm (a_confirm a) = Some act -> prompts act (cm_text (a_confirm a))) /\
  tp_page (a_traces a) = FocusPrimitive (a_traces a) /\ (0 <= Level (a_traces a) <= 2)%Z /\
  (rt_rows (a_table a) = map toTableRow (sort_less change_less (GetChanges (a_model a))) \/
   exists status, DTable status ∈ a_queue a).
Proof.
  intros H. apply reachable_well_formed in H as (((H1 & H2 & H3) & (H4 & H5) & H6 & _) & H7).
  cbv zeta. do 6 (split; [assumption|]). assumption.
Qed.

(** C10: a mutation of the server is started only when it was asked for, in every interleaving
    of keys, goroutines and events: a step starts none (those under way go on or end), or
    it is a key and the one mutation it starts is what the confirmation in front said
    when its Yes button was pressed, the change of an editor session on the selected row,
    or the [sync] command of attach mode. *)
Theorem tui_mutations_confirmed ep interval now w s s' :
  rtc step (Run (new_app cfg ep interval now), w) s -> step s s' ->
  muts s'.1 `sublist_of` muts s.1 \/
  exists event t, key event s.1 s.2 s'.1 s'.2 /\ asked event s.1 s.2 t /\ muts s'.1 = (muts s.1 ++ [t])%list.
Proof.
  intros H Hs. apply reachable_well_formed in H. destruct (step_cases s s' H Hs) as (_ & [Ht|[->|Hk]]); [|by left|by right].
  left. destruct Ht as (t & l1 & l2 & Ht & ->). unfold muts. rewrite Ht, !List.filter_app.
  apply sublist_app; [reflexivity|]. cbn. destruct (mutating t); [apply sublist_cons|]; reflexivity.
Qed.

(** C11: a session in which nothing is confirmed, synced or edited only looks: whatever
    relation between worlds is kept by observing, listing, tailing logs and fetching
    traces (in attach mode, by GET requests) is kept by the session, as long as the
    editor and the others keep it. *)
Theorem tui_looks_only (R : W -> W -> Prop) {refl : Reflexive R} {trans : Transitive R} ep interval now w s :
  mode_looks R -> (forall name text w, R w (edit name text w).1) -> (forall w w', others w w' -> R w w') ->
  rtc unasked (Run (new_app cfg ep interval now), w) s ->
  muts s.1 = [] /\ R w s.2.
Proof.
  intros Hm He Ho H. pose proof (start_well_formed ep interval now) as (Hb & Ht & Hms).
  assert (Hw : well_formed (Run (new_app cfg ep interval now))) by done.
  clear Hb Ht. remember (Run (new_app cfg ep interval now), w) as s0 eqn:E.
  assert (H0 : well_formed s0.1 /\ muts s0.1 = [] /\ R w s0.2) by (subst; by split).
  clear E Hw Hms. induction H as [s|s s1 s2 Hs _ IH]; [by destruct H0 as (_ & ? & ?)|].
  apply IH. destruct H0 as (H1 & H2 & H3). destruct (unasked_step R Hm He Ho s s1 H1 H2 Hs) as (H4 & H5 & H6).
  split; [done|]. split; [done|]. by transitivity s.2.
Qed.
End session.

(** ** An example session *)

#[local] Existing Instance ascii_unicode.
#[local] Existing Instance insertion_less.
#[local] Existing Instance insertion_sort.

Definition ex_api : ProviderAPI mem :=
  mkProviderAPI (Observe mem_provider) (Create mem_provider) (Update mem_provider) (Delete mem_provider) None None.

Definition ex_cfg : Mode (W := mem) := Direct ex_manifest ex_api mem_provider.
Definition ex_clock : Z -> string := fun _ => "".
Definition ex_other : gval -> string := fun _ => "".
Definition ex_yaml : Yaml :=
  mkYaml (fun _ => Err (errorf "")) (fun _ => Ok None) (fun _ => Err (errorf "")) (fun _ => Err (errorf ""))
    (fun _ => Err (errorf "")) (fun _ => Ok "").
Definition ex_edit : string -> string -> mem -> mem * EditOutcome := fun _ _ w => (w, EditReadError (errorf "no editor")).
Definition ex_http : string -> mem -> mem * res HttpReply := fun _ w => (w, Err (errorf "no network")).
Definition ex_alone : mem -> mem -> Prop := fun _ _ => False.

Notation ex_step := (ui_step (fun l => l) ex_clock ex_clock ex_other ex_yaml ex_edit sequential mem_env
                       (fun _ => Ok 0%Z) ex_http (fun u _ => ex_http u) ex_cfg ex_alone).

(** The start, the first refresh, its redraw, Ctrl+D on the first row, the other button. *)
Definition ex_start : App := Run (new_app ex_cfg "http://x" 30 0).
Definition ex_refreshed : App :=
  (run_task (fun l => l) sequential mem_env (fun _ => Ok 0%Z) ex_http (fun u _ => ex_http u) ex_cfg false TRefresh
     (set_tasks [] ex_start) ex_store).1.
Definition ex_drawn : App := run_draw ex_clock ex_clock ex_yaml ex_cfg (DTable None) (set_queue [] ex_refreshed).
Definition ex_asked : App := deleteResource ex_drawn.
Definition ex_yes : App :=
  set_confirm (mkConfirmModal (cm_text (a_confirm ex_asked)) (cm_onConfirm (a_confirm ex_asked)) true) ex_asked.
Definition ex_pressed : App := press_button ex_yes.

(** Two goroutine steps bring the rows. *)
Lemma ex_first_refresh : ex_step (ex_start, ex_store) (ex_refreshed, ex_store).
Proof.
  assert (Ht : a_tasks ex_start = ([] ++ [TRefresh])%list) by (vm_compute; reflexivity).
  pose proof (ui_task (fun l => l) ex_clock ex_clock ex_other ex_yaml ex_edit sequential mem_env (fun _ => Ok 0%Z)
                ex_http (fun u _ => ex_http u) ex_cfg ex_alone false TRefresh [] [] ex_start ex_store Ht) as H.
  match type of H with ui_step _ _ _ _ _ _ _ _ _ _ _ _ _ _ ?x =>
    assert (E : x = (ex_refreshed, ex_store)) by (vm_compute; reflexivity) end.
  rewrite E in H. exact H.
Qed.

Lemma ex_first_draw : ex_step (ex_refreshed, ex_store) (ex_drawn, ex_store).
Proof. apply ui_draw; [by split; vm_compute|]. vm_compute. reflexivity. Qed.

Lemma ex_ctrl_d : ex_step (ex_drawn, ex_store) (ex_asked, ex_store).
Proof. apply (ui_key _ _ _ _ _ _ _ _ _ _ _ _ _ (mkEventKey KeyCtrlD 4)); [by split; vm_compute|]. by vm_compute. Qed.

(** A key that [Handle] leaves to the confirmation. *)
Lemma ex_left_to_confirm event a a' :
  running a -> Handle ex_clock ex_yaml ex_edit ex_cfg event a ex_store = (a, ex_store, Some event) ->
  a_focus a = FConfirm ->
  match ek_Key event with
  | KeyEnter => a' = press_button a
  | _ => exists yes, a' = set_confirm (mkConfirmModal (cm_text (a_confirm a)) (cm_onConfirm (a_confirm a)) yes) a
  end -> ex_step (a, ex_store) (a', ex_store).
Proof.
  intros Hr Hh Hf Hw. apply (ui_key _ _ _ _ _ _ _ _ _ _ _ _ _ event); [done|].
  unfold key_step. rewrite Hh. split; [|done]. unfold widget. by rewrite Hf.
Qed.

Lemma ex_other_button : ex_step (ex_asked, ex_store) (ex_yes, ex_store).
Proof.
  apply (ex_left_to_confirm (mkEventKey KeyLeft 0)); [by split; vm_compute|vm_compute; reflexivity..|].
  cbn [ek_Key]. by exists true.
Qed.

Lemma ex_enter : ex_step (ex_yes, ex_store) (ex_pressed, ex_store).
Proof.
  apply (ex_left_to_confirm (mkEventKey KeyEnter 13)); [by split; vm_compute|vm_compute; reflexivity..|].
  cbn [ek_Key]. reflexivity.
Qed.

Lemma ex_to_yes : rtc ex_step (ex_start, ex_store) (ex_yes, ex_store).
Proof.
  eapply rtc_l; [apply ex_first_refresh|]. eapply rtc_l; [apply ex_first_draw|].
  eapply rtc_l; [apply ex_ctrl_d|]. apply rtc_once, ex_other_button.
Qed.

Lemma tui_well_formed_witness :
  a_focus ex_yes = FConfirm /\ r_front (a_registry ex_yes) = "confirm" /\
  prompts (ConfirmDelete KindProvider "openai") (cm_text (a_confirm ex_yes)).
Proof.
  assert (Hf : a_focus ex_yes = FConfirm) by (vm_compute; reflexivity).
  assert (Hc : cm_onConfirm (a_confirm ex_yes) = Some (ConfirmDelete KindProvider "openai")) by (vm_compute; reflexivity).
  generalize ex_to_yes Hf Hc. generalize ex_yes. clear Hf Hc. intros a H Hf Hc.
  destruct (tui_well_formed _ _ _ _ _ _ _ _ _ _ _ _ _ "http://x" 30%Z 0%Z _ _ H) as (_ & _ & H1 & H2 & _).
  cbn [fst snd] in *. split; [exact Hf|]. split; [by apply H1|]. by apply H2.
Defined.

Lemma tui_mutations_confirmed_witness :
  muts ex_pressed = [TDoDelete KindProvider "openai"] /\
  exists event, asked ex_yaml ex_edit ex_cfg event ex_yes ex_store (TDoDelete KindProvider "openai").
Proof.
  assert (Hm : muts ex_pressed = [TDoDelete KindProvider "openai"]) by (vm_compute; reflexivity).
  assert (Hy : muts ex_yes = []) by (vm_compute; reflexivity).
  generalize ex_to_yes ex_enter Hm Hy. generalize ex_pressed ex_yes. clear Hm Hy. intros a' a H1 H2 Hm Hy.
  split; [exact Hm|].
  destruct (tui_mutations_confirmed _ _ _ _ _ _ _ _ _ _ _ _ _ "http://x" 30%Z 0%Z _ _ _ H1 H2)
    as [H|(event & t & _ & Ha & H)]; cbn [fst snd] in *; rewrite Hm, Hy in H.
  - inversion H.
  - injection H as <-. by exists event.
Defined.

(** What nobody asks for: without a selected row and with the focus on the table. *)
Lemma ex_unasked a a' :
  ex_step (a, ex_store) (a', ex_store) -> a_focus a = FTable -> GetSelectedChange (a_table a) = None ->
  unasked (fun l => l) ex_clock ex_clock ex_other ex_yaml ex_edit sequential mem_env
    (fun _ => Ok 0%Z) ex_http (fun u _ => ex_http u) ex_cfg ex_alone (a, ex_store) (a', ex_store).
Proof.
  intros Hs Hf Hn. split; [exact Hs|]. cbn [fst snd]. intros event t _ [? [Ha _]|? [Ha _]|? ? ? Ha]; [congruence..|].
  destruct Ha as (c & ? & ? & ? & ? & ? & ? & Hc & _). congruence.
Qed.

Lemma tui_looks_only_witness : muts ex_drawn = [] /\ ex_store = (ex_drawn, ex_store).2.
Proof.
  assert (H : mode_looks ex_http ex_cfg eq) by (split; [by split|by split]).
  apply (tui_looks_only (fun l => l) ex_clock ex_clock ex_other ex_yaml ex_edit sequential mem_env
           (fun _ => Ok 0%Z) ex_http (fun u _ => ex_http u) ex_cfg ex_alone eq "http://x" 30 0 ex_store
           (ex_drawn, ex_store) H); [reflexivity|intros ?? []|].
  eapply rtc_l; [apply ex_unasked; [apply ex_first_refresh|vm_compute; reflexivity..]|].
  apply rtc_once, ex_unasked; [apply ex_first_draw|vm_compute; reflexivity..].
Defined.

(** ** What modelling showed *)

Section showed.
Context {U : Unicode} {LSort : LessSort} {SSort : SliceSort} {W : Type}.
Context (clock clock_ms : Z -> string) (cfg : Mode (W := W)).

(** Escape out of a search leaves the search's function on the command bar: the command
    that is typed next is a search. *)
Lemma escaped_search_takes_next_command cmd a :
  let left := handleEscape clock_ms cfg (activateSearch (set_mode ModeSearch a)) in
  let typed := set_label ":" cmd (activateCommandBar (set_mode ModeCommand left)) in
  ActiveTab (a_registry a) = TabState ->
  m_searchFilter (a_model (bar_done clock clock_ms cfg KeyEnter typed)) = cmd.
Proof.
  cbv zeta. intros Ht. unfold handleEscape. cbv zeta. rewrite bool_decide_eq_false_2 by done. cbn [negb].
  unfold clearSearch. app_cbn. cbn [activateSearch]. unfold activateSearch. app_cbn. rewrite Ht.
  unfold bar_done, deactivateCommandBar, activateCommandBar, focusActiveTab, refreshTable, updateHeader. app_cbn.
  cbn [if_Done]. unfold onSearchDone. cbv zeta. app_cbn. cbn [if_Text]. unfold applySearch. app_cbn. rewrite Ht.
  reflexivity.
Qed.

(** A manual refresh on the Logs tab waits for the goroutine that asks for it: the
    interface takes no further key. *)
Lemma logs_refresh_hangs a :
  ActiveTab (a_registry a) = TabLogs -> ~ running (refreshActiveTab a).
Proof. intros Ht [_ H]. unfold refreshActiveTab in H. rewrite Ht in H. discriminate H. Qed.

(** Escape in a span's detail goes back to the spans, not to the list of traces. *)
Lemma escape_goes_one_level a :
  k_mode (a_keys a) = ModeNormal -> HasOverlay (a_registry a) = false ->
  ActiveTab (a_registry a) = TabTraces -> Level (a_traces a) = 2%Z ->
  Level (a_traces (handleEscape clock_ms cfg a)) = 1%Z.
Proof.
  intros Hm Ho Ht Hl. unfold handleEscape. cbv zeta. app_cbn. cbn [k_mode].
  rewrite Hm, bool_decide_eq_true_2, Ho, Ht, Hl by done. cbn [negb Z.ltb Z.compare].
  unfold set_panel, DrillOut. app_cbn. rewrite Hl. reflexivity.
Qed.

(** In attach mode a deletion is offered, and then fails: the refusal that the code has for
    this case is never given. *)
Lemma attached_delete_is_offered url c a w :
  cfg = Attached url -> GetSelectedChange (a_table a) = Some c ->
  cm_onConfirm (a_confirm (deleteResource a)) = Some (ConfirmDelete (ch_Kind c) (ch_Name c)) /\
  (pa_Delete (c_provider cfg) (ch_Kind c) (ch_Name c) w).2 = Err (attach_mode_error "delete").
Proof.
  intros -> Hc. split; [|done]. unfold deleteResource. rewrite Hc. unfold ask, pushView, switched. by case_bool_decide.
Qed.

End showed.

(** The name of a tenant is lowered with the rest of the command. *)
Lemma tenant_is_lowered url a :
  a_tenant (executeCommand (Attached (W := mem) url) "tenant Blue" a) = "blue".
Proof. reflexivity. Qed.
