(* ===== verification/CmdServe.v ===== *)
(** * serve, top and root

    [cmd/serve.go], [cmd/top.go] and [cmd/root.go].  Starting [serve] reads the flags, the
    manifest and the connection, and gives each tenant (or the one source, under the empty
    name) the configuration of its controller; the process that then runs is [ServeProcess].

    The provider behind a connection, its key verification and its [Close] are the argument
    [connect]; git, the HTTP client of the notifier and the listening socket are the
    environment. *)
From Stdlib Require Import ZArith Lia Bool Ascii.
From Stdlib Require String.
From stdpp Require Import relations.
From S2P Require Import Prelude GoStr GoTime GoValue Filepath Manifest Secrets Validate Engine.
From S2P Require Import EngineProps Loader Source Http GoclawBase Controller Notifier ControllerLoop.
From S2P Require Import Tenants Server Cmd Attach Tui EngineConverge EngineClaims CmdProps.
From S2P Require Import Update Display Views.

Local Open Scope string_scope.
Local Open Scope go_scope.

Record ServeFlags := mkServeFlags {
  serveAddr : string;
  serveInterval : string;
  serveRepo : string;
  serveBranch : string;
  servePath : string;
  servePrune : bool;
  serveWebhookSecret : string;
  serveTenantsDir : string
}.

(** Where the main goroutine is: in its [select], past the signal, or back from [RunE]. *)
Inductive main_phase := MWait | MDown | MReturned (r : res unit).

(** The world of the process, and the state of its git source. *)
Abbreviation ServeWorld P := (World P * GitSource)%type.

(** A controller: its configuration and its goroutines. *)
Abbreviation Running P := (Config (ServeWorld P) * loop)%type.

Section serve.
Context {U : Unicode} {P : Type}.
Context (yaml : Yaml) (renderTemplate : Template) (semver : Semver) (zip : list (string * string) -> string).
Context (sys : Git (World P)) (g : GlobalFlags) (f : ServeFlags) (sch : Schedule).

Abbreviation SW := (ServeWorld P).

Context (http : HttpClient SW).

(** What a connection offers to a controller: the provider, the verification of its keys,
    and its [Close]. *)
Record Connected := mkConnected {
  cn_provider : ProviderInterface P;
  cn_verify : option (string -> M P unit);
  cn_close : P -> P
}.

Context (connect : Env -> Provider -> Connected).

(** *** Operations on the world alone *)

Definition on_world {A} (m : M (World P) A) : M SW A := fun ws =>
  let '(w, r) := m ws.1 in ((w, ws.2), r).

Definition serve_provider (p : ProviderInterface P) : ProviderInterface SW :=
  mkProvider _ (fun k n => on_world (onProv (Observe p k n))) (fun k n s => on_world (onProv (Create p k n s)))
    (fun k n s => on_world (onProv (Engine.Update p k n s))) (fun k n => on_world (onProv (Engine.Delete p k n)))
    (fun k => on_world (onProv (ListAll p k))).

Definition serve_verifier (v : option (string -> M P unit)) : option (string -> M SW unit) :=
  option_map (fun verify name => on_world (onProv (verify name))) v.

(** The configuration of a controller; the debounce window is not set. *)
Definition serve_config (src : ManifestSource SW) (c : Connected)
    (n : option (Notifier SW)) (interval : Z) : Config SW :=
  mkConfig SW src (serve_provider (cn_provider c)) (serve_verifier (cn_verify c)) n interval (servePrune f) 0
    (fun ws => w_now ws.1) (fun ws => w_env ws.1).

(** *** Start *)

(** What has been asked over HTTP. *)
Record incoming := mkIncoming {
  in_method : string;
  in_segs : list string;
  in_header : string -> string;
  in_body : res string
}.

(** A request that waits for its call of [TriggerAndWait], or its answer. *)
Inductive reply := Waiting (call : nat) | Answered (r : response).

(** [x_begun] and [x_results], which the program does not keep, are the cycles begun and
    the results announced by each controller when the request arrived. *)
Record exchange := mkExchange {
  x_in : incoming;
  x_reply : reply;
  x_begun : gmap string nat;
  x_results : gmap string nat
}.

(** The process: the world, what each controller was given and where its goroutines are;
    with a tenant manager the tenants it found, whose own controllers are not looked at;
    the requests; whether [done] is closed; the main goroutine, and what it has deferred. *)
Record process := mkProcess {
  pr_world : SW;
  pr_loops : gmap string (Running P);
  pr_tenants : option TenantManager;
  pr_http : list exchange;
  pr_done : bool;
  pr_main : main_phase;
  pr_deferred : SW -> SW
}.

(** The manifest source that the flags name, and the git source if it is one. *)
Definition select_source : res (ManifestSource SW * option GitSource) :=
  if negb (String.eqb (serveRepo f) "") then
    let? s := NewGitSource (serveRepo f) (serveBranch f) (servePath f) in
    Ok (git_source yaml renderTemplate semver zip sys, Some s)
  else if negb (String.eqb (configFile g) "") then
    Ok (file_source yaml renderTemplate semver zip (fun ws => w_fs ws.1) (NewFileSource (configFile g)), None)
  else Err (errorf "either --file (-f), --repo, or --tenants-dir is required").

Definition no_git : GitSource := mkGit "" "" "" "".

(** From the source to the connection, which is that of the first manifest, and the
    controller's configuration. *)
Definition single_config (src : ManifestSource SW) (interval : Z) (ws : SW) :
    SW * outcome (Connected * Config SW) :=
  match Fetch src ws with
  | (ws, Panicked) => (ws, Panicked)
  | (ws, Returned (Err e)) => (ws, Returned (Err (wrapf "initial manifest fetch: " e "")))
  | (ws, Returned (Ok (m, _))) =>
    (ws, Returned
       (let? conn := resolveConnection g m ws.1 in
        let? opts := resolveProviderOpts m ws.1 in
        let p := GoclawBase.New conn.1 conn.2 opts in
        let n := Notifier.New (Getenv ws.1 "GCPLANE_WEBHOOK_URL") (Getenv ws.1 "GCPLANE_WEBHOOK_FORMAT") in
        let c := connect (w_env ws.1) p in
        Ok (c, serve_config src c (Some (webhook http n)) interval)))
  end.

(** [controller.New] and [go ctrl.Run(done)]. *)
Definition fresh (cfg : Config SW) : Running P := (cfg, started (Controller.New cfg NewStatusTracker).1).

(** [provider.Close()]. *)
Definition close (c : Connected) (ws : SW) : SW := (set_prov (cn_close c (w_prov ws.1)) ws.1, ws.2).

Definition start_single (c : Connected) (cfg : Config SW) (ws : SW) : process :=
  mkProcess ws {[ "" := fresh cfg ]} None [] false MWait (close c).

(** The controller of a tenant has no notifier. *)
Definition tenant_config (interval : Z) (env : Env) (inst : TenantInstance) : Config SW :=
  serve_config (file_source yaml renderTemplate semver zip (fun ws => w_fs ws.1) (ti_source inst))
    (connect env (ti_provider inst)) None interval.

(** [CloseAll], in one order of the range. *)
Definition CloseAll (env : Env) (tm : TenantManager) (ws : SW) : SW :=
  map_fold (fun _ inst ws => close (connect env (ti_provider inst)) ws) ws tm.

(** [runMultiTenantServe] up to its [select]; [RunAll] starts every loop. *)
Definition start_tenants (interval : Z) (ws : SW) : outcome process :=
  let tcfg := mkTenantCfg (serveTenantsDir f) interval (servePrune f) in
  match NewTenantManager yaml renderTemplate semver zip (w_env ws.1) tcfg with
  | Panicked => Panicked
  | Returned (Err e) => Returned (Err (wrapf "init tenant manager: " e ""))
  | Returned (Ok tm) =>
    Returned (Ok (mkProcess ws ((fun inst => fresh (tenant_config interval (w_env ws.1) inst)) <$> tm)
                    (Some tm) [] false MWait (CloseAll (w_env ws.1) tm)))
  end.

(** [runServe] up to its [select]. *)
Definition runServe (w : World P) : SW * outcome process :=
  match ParseDuration (serveInterval f) with
  | Err e => ((w, no_git), Returned (Err (wrapf ("invalid interval " +:+ Quote (serveInterval f) +:+ ": ") e "")))
  | Ok interval =>
    if negb (String.eqb (serveTenantsDir f) "") then
      if negb (String.eqb (configFile g) "") || negb (String.eqb (serveRepo f) "")
      then ((w, no_git), Returned (Err (errorf "--tenants-dir is mutually exclusive with -f/--file and --repo")))
      else ((w, no_git), start_tenants interval (w, no_git))
    else
    match select_source with
    | Err e => ((w, no_git), Returned (Err e))
    | Ok (src, git) =>
      match single_config src interval (w, default no_git git) with
      | (ws, Returned (Ok (c, cfg))) => (ws, Returned (Ok (start_single c cfg ws)))
      | (ws, Returned (Err e)) => (ws, Returned (Err e))
      | (ws, Panicked) => (ws, Panicked)
      end
    end
  end.
End serve.

(** ** top *)

Section top.
Context {U : Unicode} {P : Type}.
Context (yaml : Yaml) (renderTemplate : Template) (semver : Semver) (zip : list (string * string) -> string).
Context (g : GlobalFlags) (http_get : string -> World P -> World P * res HttpReply).
Context (open_tui : Env -> Provider -> ProviderAPI (World P) * ProviderInterface (World P)).

Record TopFlags := mkTopFlags { topInterval : string; topAttach : string }.

(** [NewApp] and then [Run] up to its event loop. *)
Definition run_app (f : TopFlags) (ep : string) (cfg : Mode (W := World P)) : C P (Mode * App) := fun w =>
  let '(w, a) := NewApp http_get cfg (topInterval f) ep (w_now w) w in
  (w, Returned (res_map (fun a => (cfg, Run a)) a)).

Definition runTop (f : TopFlags) : C P (Mode * App) :=
  if negb (String.eqb (topAttach f) "") then run_app f "" (Attached (topAttach f))
  else
    let% m := loadAndValidateManifest yaml renderTemplate semver zip g in
    let% conn := getC (resolveConnection g m) in
    let% (ep, tok) := liftC conn in
    let% provOpts := getC (resolveProviderOpts m) in
    let% opts := liftC provOpts in
    let% env := getC w_env in
    let '(api, engine) := open_tui env (GoclawBase.New ep tok opts) in
    run_app f ep (Direct m api engine).

(** In attach mode neither the manifest nor the connection is looked at. *)
Lemma attached_top_needs_no_manifest f w :
  topAttach f <> "" -> runTop f w = run_app f "" (Attached (topAttach f)) w.
Proof. intros H. unfold runTop. by rewrite (proj2 (String.eqb_neq _ _) H). Qed.
End top.

(** ** root *)

Section root.
Context {P : Type} (Version : string).

(** [PersistentPreRun]: whether the check for a new version is started. *)
Definition starts_check (name : string) (should : bool) : bool :=
  negb (String.eqb name "serve" || String.eqb name "version") && should.

(** [PersistentPostRun]: [arrived] is the answer of the check, if it was started and came
    within two seconds. *)
Definition PersistentPostRun (arrived : option (option Update.ReleaseInfo)) (w : World P) : World P :=
  match arrived with
  | Some (Some rel) =>
    eprint ("Upgrade: curl -fsSL https://raw.githubusercontent.com/dataplanelabs/gcplane/main/install.sh | sh" +:+ nl)
      (eprint (nl +:+ "A new version of gcplane is available: " +:+ Version +:+ " " +:+ uchar 8594 +:+ " "
                 +:+ Update.Version rel +:+ nl) w)
  | _ => w
  end.

(** [Execute]: the world and the exit code; [None] is a panic.  What cobra prints of an error
    by itself is left out. *)
Definition Execute (name : string) (should : bool) (arrived : option Update.ReleaseInfo) (cmd : C P unit) (w : World P) :
    World P * option Z :=
  match cmd w with
  | (w, Returned (Ok _)) => (PersistentPostRun (if starts_check name should then Some arrived else None) w, Some 0%Z)
  | (w, Returned (Err e)) => (eprint (Error e +:+ nl) w, Some 1%Z)
  | (w, Panicked) => (w, None)
  end.

Definition versionCmd : C P unit := printC ("gcplane " +:+ Version +:+ nl).

(** What a command prints on standard output is not disturbed by the check. *)
Lemma Execute_stdout name should arrived cmd w :
  w_stdout (Execute name should arrived cmd w).1 = w_stdout (cmd w).1.
Proof.
  unfold Execute, PersistentPostRun. destruct (cmd w) as [w1 [[x|e]|]]; [|done|done].
  destruct (starts_check name should); [|done]. by destruct arrived.
Qed.
End root.
