(* ===== verification/ServeProcess.v ===== *)
(** * The process of serve

    [cmd/serve.go] once everything is started, with the goroutines of
    [controller/tenant_manager.go] and the requests of [server/handlers.go]: a step
    relation over one world that all controllers share.  A step is an action of a goroutine
    of one controller ([ControllerLoop]), a change of the world from outside, a request (a
    handler runs on what the server sees of the controllers, and its triggers reach them),
    or a move of the main goroutine.  A cycle of a controller is one step. *)
From Stdlib Require Import ZArith Lia Bool.
From Stdlib Require String.
From stdpp Require Import relations.
From S2P Require Import Prelude GoStr Manifest Engine Loader Source Controller ControllerLoop.
From S2P Require Import Tenants Server Cmd CmdServe.

Local Open Scope string_scope.

Section process.
Context {U : Unicode} {P : Type}.
Context (sys : Git (World P)) (f : ServeFlags) (sch : Schedule).
Abbreviation SW := (ServeWorld P).

(** What others may do to the world; how a time is printed; in which order the tenants are
    ranged over. *)
Context (others : SW -> SW -> Prop) (format_time : Z -> string) (range : TenantManager -> list TenantInstance).

Definition with_world (w : SW) (p : process (P := P)) : process :=
  mkProcess w (pr_loops p) (pr_tenants p) (pr_http p) (pr_done p) (pr_main p) (pr_deferred p).
Definition with_loops (ls : gmap string (Running P)) (p : process (P := P)) : process :=
  mkProcess (pr_world p) ls (pr_tenants p) (pr_http p) (pr_done p) (pr_main p) (pr_deferred p).
Definition with_http (xs : list exchange) (p : process (P := P)) : process :=
  mkProcess (pr_world p) (pr_loops p) (pr_tenants p) xs (pr_done p) (pr_main p) (pr_deferred p).
Definition with_main (d : bool) (m : main_phase) (p : process (P := P)) : process :=
  mkProcess (pr_world p) (pr_loops p) (pr_tenants p) (pr_http p) d m (pr_deferred p).

(** ** The server's view *)

(** What the HTTP server sees: the status and metrics of the one controller, or the
    tenants with theirs. *)
Definition seen_tenant (inst : TenantInstance) (c : Running P) : TenantInstance :=
  mkTenant (ti_Name inst) (ti_source inst) (ti_provider inst) (l_ctl c.2) (armed c.2).

Definition server_of (p : process (P := P)) : Server :=
  match pr_tenants p with
  | Some tm => mkServer (Some (map_zip_with seen_tenant tm (pr_loops p))) NewStatusTracker zeroMetrics false
                 (serveWebhookSecret f)
  | None =>
    match pr_loops p !! "" with
    | Some (_, l) => mkServer None (tracker (l_ctl l)) (metrics (l_ctl l)) (armed l) (serveWebhookSecret f)
    | None => mkServer None NewStatusTracker zeroMetrics false (serveWebhookSecret f)
    end
  end.

(** What a handler leaves behind: the timers that it armed. *)
Definition rearm (on : bool) (c : Running P) : Running P := (c.1, set_timer on (fired c.2) c.2).

Definition with_server (s : Server) (p : process (P := P)) : process :=
  with_loops match s_tenants s with
             | Some tm => map_zip_with (fun inst => rearm (ti_armed inst)) tm (pr_loops p)
             | None => alter (rearm (s_armed s)) "" (pr_loops p)
             end p.

(** ** Requests *)

Definition as_request (q : incoming) : request := mkReq (in_header q) (in_body q) "".

(** The request for which a handler waits: a sync of the only controller. *)
Definition waits (s : Server) (q : incoming) : bool :=
  match find_route routes (in_method q) (in_segs q), s_tenants s with
  | Some (Sync, _), None => true
  | _, _ => false
  end.

Definition nobody_waits (s : Server) : Server * res SyncResult := (s, Err (errorf "")).

(** A handler that does not wait. *)
Definition handled (q : incoming) (s : Server) : Server * response :=
  serve format_time range nobody_waits (in_method q) (in_segs q) (in_header q) (in_body q) s.

Definition arrives (q : incoming) (r : reply) (p : process (P := P)) : exchange :=
  mkExchange q r ((fun c => begun c.2) <$> pr_loops p) ((fun c => length (results c.2)) <$> pr_loops p).

Definition answer (x : exchange) (r : response) : exchange :=
  mkExchange (x_in x) (Answered r) (x_begun x) (x_results x).

(** ** Steps *)

(** [main] is in its [select] or shuts down, and no goroutine has panicked. *)
Definition alive (p : process (P := P)) : Prop :=
  (forall r, pr_main p <> MReturned r) /\ (forall name c, pr_loops p !! name = Some c -> l_run c.2 <> RPanicked).

(** [gitSrc.Cleanup()], when there is a git source. *)
Definition cleaned (ws : SW) : SW := (Cleanup sys ws.2 ws.1, ws.2).

Inductive serve_step (p : process (P := P)) : process (P := P) -> Prop :=
  (* a controller's goroutines; [done] lets [Run] return *)
  | sv_loop name cfg l w l' :
      alive p -> pr_loops p !! name = Some (cfg, l) -> act sch cfg (pr_world p) l w l' ->
      (l_run l' = RStopped -> l_run l = RStopped \/ pr_done p = true) ->
      serve_step p (with_world w (with_loops (<[ name := (cfg, l') ]> (pr_loops p)) p))
  | sv_others w :
      alive p -> others (pr_world p) w -> serve_step p (with_world w p)
  (* a request *)
  | sv_request q s r :
      alive p -> pr_main p = MWait -> waits (server_of p) q = false ->
      handled q (server_of p) = (s, r) ->
      serve_step p (with_http (pr_http p ++ [arrives q (Answered r) p]) (with_server s p))
  | sv_sync q cfg l :
      alive p -> pr_main p = MWait -> waits (server_of p) q = true -> pr_loops p !! "" = Some (cfg, l) ->
      serve_step p (with_http (pr_http p ++ [arrives q (Waiting (length (calls l))) p])
                      (with_loops (<[ "" := (cfg, call_wait l) ]> (pr_loops p)) p))
  | sv_synced j x i cfg l c r :
      alive p -> pr_http p !! j = Some x -> x_reply x = Waiting i -> pr_loops p !! "" = Some (cfg, l) ->
      calls l !! i = Some c -> w_phase c = TReturned r ->
      serve_step p (with_http (<[ j := answer x (handleSync (fun s => (s, r)) (server_of p) (as_request (x_in x))).2 ]>
                                 (pr_http p)) p)
  (* the main goroutine *)
  | sv_signal :
      alive p -> pr_main p = MWait -> serve_step p (with_main true MDown p)
  | sv_http_failed e :
      alive p -> pr_main p = MWait ->
      serve_step p (with_world (pr_deferred p (pr_world p)) (with_main true (MReturned (Err (wrapf "http server: " e ""))) p))
  | sv_return :
      alive p -> pr_main p = MDown ->
      serve_step p (with_world (pr_deferred p (cleaned (pr_world p))) (with_main true (MReturned (Ok tt)) p)).
End process.
