(* ===== verification/ServeProps.v ===== *)
(** * What a running serve guarantees

    The invariants of [ServeProcess]: when the readiness probe succeeds, what becomes of a
    request, and who may trigger a controller. *)
From Stdlib Require Import ZArith Lia Bool Ascii.
From Stdlib Require String.
From stdpp Require Import relations.
From S2P Require Import Prelude GoStr GoTime GoValue Filepath Manifest Secrets Validate Engine.
From S2P Require Import EngineProps Loader Source Http GoclawBase Controller Notifier ControllerLoop.
From S2P Require Import Tenants Server Cmd EngineConverge EngineClaims CmdProps CmdServe ServeProcess.

Local Open Scope string_scope.
Local Open Scope go_scope.

(** ** Readiness *)

Lemma IsSynced_SetCondition c now s :
  IsSynced (SetCondition c now s) =
  if bool_decide (cond_Type c = ConditionSynced) then String.eqb (cond_Status c) "True" else IsSynced s.
Proof.
  unfold IsSynced, SetCondition. cbn [st_Conditions with_conditions].
  pose proof (condition_upsert c now (st_Conditions s) ConditionSynced) as H. revert H.
  generalize (condition (upsert c now (st_Conditions s)) ConditionSynced) (condition (st_Conditions s) ConditionSynced).
  intros [a|] [b|]; case_bool_decide; cbn; unfold shape; try congruence.
Qed.

Lemma set_outcome_synced {W} (cfg : Config W) e w s : IsSynced (set_outcome cfg e w s) = negb e.
Proof.
  unfold set_outcome, set_condition. by destruct e; rewrite !IsSynced_SetCondition.
Qed.

(** The status after a cycle is synced exactly when its result has no error. *)
Lemma reconcileOnce_synced {U : Unicode} {W} sch (cfg : Config W) {F : FairSchedule sch} c w w' c' r :
  reconcileOnce sch cfg c w = (w', Some (c', r)) ->
  IsSynced (tracker c') = true <-> sr_Errors r = [].
Proof.
  unfold reconcileOnce. destruct (Fetch _ w) as [w0 [[[m hash]|err]|]]; [| |done].
  2:{ intros [= _ <- <-]. unfold fetch_failed, set_condition. cbn [tracker sr_Errors].
      by rewrite !IsSynced_SetCondition. }
  unfold sync. destruct (Reconcile _ _ sch m _ w0) as [w1 [plan result]] eqn:HR.
  destruct (Reconcile_inv _ _ _ _ _ _ _ _ _ F HR) as (_ & _ & _ & _ & _ & _ & _ & Hf).
  assert (He : sr_Errors (sync_result plan result) = [] <-> has_errors plan result = false).
  { unfold has_errors, sync_result. cbn [sr_Errors]. rewrite Hf.
    destruct (Errors result), (PlanErrors plan); cbn; naive_solver. }
  destruct (has_drift plan);
    match goal with |- context [verifyProviders cfg m (metrics c) ?w2] =>
      destruct (verifyProviders cfg m (metrics c) w2) as [w3 mt] end;
    intros [= _ <- <-]; cbn [tracker]; rewrite He; unfold set_condition;
    rewrite IsSynced_SetCondition, bool_decide_eq_false_2, set_outcome_synced by done;
    by destruct (has_errors plan result).
Qed.

(** The results of the cycles that are over: announced, or about to be. *)
Definition finished (l : loop) : list SyncResult :=
  (results l ++ match l_run l with RNotify r => [r] | _ => [] end)%list.

(** The last finished cycle had no error. *)
Definition clean (l : loop) : Prop := exists r, last (finished l) = Some r /\ sr_Errors r = [].

Lemma loop_synced {U : Unicode} {W} sch (cfg : Config W) {F : FairSchedule sch} ws c l :
  IsSynced (tracker c) = false -> reachable sch cfg ws c l ->
  IsSynced (tracker (l_ctl l)) = true <-> clean l.
Proof.
  intros Hc Hr. pattern l. eapply reachable_ind; [| |done|done|exact Hr]; clear l Hr; cbn beta.
  - cbn. rewrite Hc. split; [done|]. by intros (r & ? & _).
  - intros w l w' l' Ha IH. unfold clean, finished in *.
    destruct Ha as [Hr|Hr|Hr Ht|Hr|w' c1 r Hr Hx|w' Hr Hx|r Hr|n i wss x Hr Hi Hch|n Hr| | | | | | |];
      cbn in IH |- *; try (rewrite Hr in IH; exact IH); try exact IH.
    + apply reconcileOnce_synced in Hx; [|done]. rewrite last_snoc, Hx. naive_solver.
    + rewrite Hr in IH. by rewrite app_nil_r.
    + rewrite Hr in IH. by destruct (cfg_Interval cfg <=? 0)%Z.
Qed.

(** ** The steps of a controller's loop *)

Section loops.
Context {U : Unicode} {W : Type} (sch : Schedule) (cfg : Config W).

(** The loop has taken a step, or another part of the process has. *)
Definition stepped (l l' : loop) : Prop := exists w w', step sch cfg (w, l) (w', l').

Lemma stepped_refl l : inhabited W -> stepped l l.
Proof. intros [w]. exists w, w. apply s_env. Qed.

Lemma stepped_act w l w' l' : act sch cfg w l w' l' -> stepped l l'.
Proof. intros H. exists w, w'. by apply s_act. Qed.

Lemma stepped_later l l' : stepped l l' -> later l l'.
Proof.
  intros (w & w' & H). inversion H as [? ? ? ? Ha|?? |??|]; subst; [by eapply act_later| | |];
    (split; cbn; [lia|done|]); try (intros i c Hi; by exists c).
  intros i c Hi. exists c. split; [by apply lookup_app_l_Some|done].
Qed.

Lemma stepped_pending l l' :
  stepped l l' -> trigger_pending l -> trigger_pending l' \/ (begun l < begun l')%nat.
Proof.
  intros (w & w' & H). inversion H as [? ? ? ? Ha|?? |??|]; subst; [by eapply act_pending| | |]; try by left.
  intros _. left. right. by left.
Qed.
End loops.

(** ** What a request asks for *)

(** [multi] tells whether there is a tenant manager. *)
Definition asks (secret : string) (multi : bool) (q : incoming) (name : string) : Prop :=
  in_method q = "POST" /\
  ((in_segs q = ["api"; "v1"; "webhook"; "git"] /\ accepted secret (as_request q)) \/
   (multi = true /\ (in_segs q = ["api"; "v1"; "sync"] \/
                     (name <> "" /\ in_segs q = ["api"; "v1"; "sync"; name])))).

(** The sync of the only controller, which waits for its result. *)
Definition syncs (multi : bool) (q : incoming) : Prop :=
  multi = false /\ in_method q = "POST" /\ in_segs q = ["api"; "v1"; "sync"].

Definition has_tenants (s : Server) : bool := bool_decide (is_Some (s_tenants s)).

Lemma waits_syncs s q : waits s q = true <-> syncs (has_tenants s) q.
Proof.
  unfold waits, syncs, has_tenants. split.
  - destruct (find_route routes (in_method q) (in_segs q)) as [[[] t]|] eqn:Hr; try done.
    apply route_sync in Hr as (-> & Hr). by destruct (s_tenants s).
  - intros (Ht & Hm & Hs). rewrite (proj2 (route_sync _ _ "")) by done. by destruct (s_tenants s).
Qed.

(** The three ways to ask, by the route. *)
Lemma asks_route secret multi q name :
  asks secret multi q name <->
  match find_route routes (in_method q) (in_segs q) with
  | Some (Webhook, _) => accepted secret (as_request q)
  | Some (Sync, _) => multi = true
  | Some (TenantSync, t) => multi = true /\ t = name
  | _ => False
  end.
Proof.
  unfold asks. split.
  - intros (Hm & [[Hs Ha]|(-> & [Hs|[Hn Hs]])]).
    + by rewrite (proj2 (route_webhook _ _ "")).
    + by rewrite (proj2 (route_sync _ _ "")).
    + by rewrite (proj2 (route_tenant_sync _ _ name)).
  - destruct (find_route routes (in_method q) (in_segs q)) as [[[] t]|] eqn:Hr; try done.
    + apply route_sync in Hr as (_ & -> & ->). intros ->. split; [done|]. right. by split; [|left].
    + apply route_tenant_sync in Hr as (Ht & -> & ->). intros [-> <-]. split; [done|]. right. by split; [|right].
    + apply route_webhook in Hr as (_ & -> & ->). intros Ha. split; [done|]. by left.
Qed.

(** What a handler that does not wait leaves of the server: the timers that the request
    asked for are armed. *)
Lemma handled_spec {U : Unicode} format_time range q s s' r :
  waits s q = false -> handled format_time range q s = (s', r) ->
  match s_tenants s with
  | Some tm =>
    exists tm', s' = with_tenants s tm' /\ dom tm' = dom tm /\
      forall name inst, tm !! name = Some inst ->
        (asks (s_webhookSecret s) true q name /\ tm' !! name = Some (arm inst)) \/
        (~ asks (s_webhookSecret s) true q name /\ tm' !! name = Some inst)
  | None => (asks (s_webhookSecret s) false q "" /\ s' = arm_single s) \/
            (~ asks (s_webhookSecret s) false q "" /\ s' = s)
  end.
Proof.
  pose proof (fun multi name => asks_route (s_webhookSecret s) multi q name) as Hask. revert Hask.
  generalize (asks (s_webhookSecret s)). intros A Hask. unfold waits, handled, serve.
  assert (Hsame : forall tm, s_tenants s = Some tm -> s = with_tenants s tm).
  { intros tm Htm. unfold with_tenants. rewrite <- Htm. by destruct s. }
  assert (Hnone : (forall multi name, ~ A multi q name) ->
    match s_tenants s with
    | Some tm => exists tm', s = with_tenants s tm' /\ dom tm' = dom tm /\
        forall name inst, tm !! name = Some inst ->
          (A true q name /\ tm' !! name = Some (arm inst)) \/ (~ A true q name /\ tm' !! name = Some inst)
    | None => (A false q "" /\ s = arm_single s) \/ (~ A false q "" /\ s = s)
    end).
  { intros Hno. destruct (s_tenants s) as [tm|]; [exists tm; repeat split; auto|by right]. }
  assert (Hall : forall tm, (forall name, A true q name) -> exists tm', with_tenants s (TriggerAll tm) = with_tenants s tm' /\
    dom tm' = dom tm /\ forall name inst, tm !! name = Some inst ->
      (A true q name /\ tm' !! name = Some (arm inst)) \/ (~ A true q name /\ tm' !! name = Some inst)).
  { intros tm HA. exists (TriggerAll tm). split; [done|]. unfold TriggerAll. split; [apply dom_fmap_L|].
    intros name inst Hi. left. split; [done|]. by rewrite lookup_fmap, Hi. }
  destruct (find_route routes (in_method q) (in_segs q)) as [[h t]|] eqn:Hr.
  2:{ intros _. destruct (existsb _ _); intros [= <- _]; apply Hnone; by intros ?? ?%Hask. }
  destruct h.
  1-5: intros _ [= <- _]; apply Hnone; by intros ?? ?%Hask.
  - destruct (s_tenants s) as [tm|] eqn:Htm; [|done]. unfold handleSync. rewrite Htm. intros _ [= <- _].
    apply Hall. intros name. by apply Hask.
  - intros _. unfold handleTenantSync, Tenants.Trigger. cbn [rq_tenant].
    destruct (s_tenants s) as [tm|] eqn:Htm; [|intros [= <- _]; right; split; [by intros [? _]%Hask|done]].
    destruct (tm !! t) as [inst0|] eqn:Hi; intros [= <- _].
    + exists (<[t := arm inst0]> tm). split; [done|]. split; [by apply dom_insert_lookup_L; eexists|].
      intros name inst Hn. destruct (decide (t = name)) as [<-|Hne].
      * left. split; [by apply Hask|]. rewrite lookup_insert_eq. congruence.
      * right. split; [by intros [_ ?]%Hask|]. by rewrite lookup_insert_ne.
    + exists tm. split; [auto|]. split; [done|]. intros name inst Hn. right. split; [|done].
      intros [_ ->]%Hask. congruence.
  - intros _. pose proof (handleWebhook_spec s (as_request q)) as H. unfold as_request in *.
    apply route_webhook in Hr as (-> & _ & _).
    destruct (handleWebhook s (mkReq (in_header q) (in_body q) "")) as [s2 resp]. cbn in H. intros [= -> _].
    destruct H as [[Ha [= -> ->]]|(Hn & -> & _)].
    + unfold trigger_all. destruct (s_tenants s) as [tm|]; [|left; split; [by apply Hask|done]].
      apply Hall. intros name. by apply Hask.
    + apply Hnone. by intros ?? ?%Hask.
Qed.

Section serving.
Context {U : Unicode} {P : Type}.
Context (yaml : Yaml) (renderTemplate : Template) (semver : Semver) (zip : list (string * string) -> string).
Context (sys : Git (World P)) (g : GlobalFlags) (f : ServeFlags) (sch : Schedule) {F : FairSchedule sch}.
Context (http : HttpClient (ServeWorld P)) (connect : Env -> Provider -> Connected (P := P)).
Context (others : ServeWorld P -> ServeWorld P -> Prop).
Context (format_time : Z -> string) (range : TenantManager -> list TenantInstance).

Abbreviation start := (runServe yaml renderTemplate semver zip sys g f http connect).
Abbreviation serve_step := (serve_step sys f sch others format_time range).
Abbreviation handled := (handled format_time range).
Implicit Type p : process (P := P).

Definition multi p : bool := bool_decide (is_Some (pr_tenants p)).

Abbreviation asked p q name := (asks (serveWebhookSecret f) (multi p) q name).

Lemma has_tenants_of p : has_tenants (server_of f p) = multi p.
Proof.
  unfold has_tenants, multi, server_of. destruct (pr_tenants p); [done|]. by destruct (pr_loops p !! "") as [[]|].
Qed.

Lemma secret_of p : s_webhookSecret (server_of f p) = serveWebhookSecret f.
Proof. unfold server_of. destruct (pr_tenants p); [done|]. by destruct (pr_loops p !! "") as [[]|]. Qed.

(** One controller runs for each tenant, or one under the empty name. *)
Definition same_names p : Prop :=
  match pr_tenants p with Some tm => dom tm = dom (pr_loops p) | None => dom (pr_loops p) = {[ "" ]} end.

Lemma rearm_same (c : Running P) : rearm (armed c.2) c = c.
Proof. by destruct c as [cfg []]. Qed.

(** *** The handlers act on the process as they do on the server's state *)

(** A request that does not wait triggers the controllers that it asks for, and does
    nothing else to the process. *)
Lemma request_triggers p q s r :
  same_names p -> waits (server_of f p) q = false -> handled q (server_of f p) = (s, r) ->
  (forall name, pr_loops p !! name = None -> pr_loops (with_server s p) !! name = None) /\
  forall name c, pr_loops p !! name = Some c ->
    (asked p q name /\ pr_loops (with_server s p) !! name = Some (c.1, ControllerLoop.Trigger c.2)) \/
    (~ asked p q name /\ pr_loops (with_server s p) !! name = Some c).
Proof.
  intros Hd Hw Hh. pose proof (handled_spec _ _ _ _ _ _ Hw Hh) as H. rewrite secret_of in H.
  unfold with_server, multi, same_names, server_of in *. cbn [with_loops pr_loops].
  destruct (pr_tenants p) as [tm|]; cbn [s_tenants] in H.
  - destruct H as (tm' & -> & Hdom & H). cbn [with_tenants s_tenants]. rewrite bool_decide_eq_true_2 by by eexists.
    split.
    + intros name Hn. apply map_lookup_zip_with_None. by right.
    + intros name c Hc. assert (is_Some (tm !! name)) as [inst Hi].
      { apply elem_of_dom. rewrite Hd. by apply elem_of_dom_2 in Hc. }
      assert (Hz : map_zip_with seen_tenant tm (pr_loops p) !! name = Some (seen_tenant inst c))
        by (apply map_lookup_zip_with_Some; by eexists _, _).
      destruct (H name _ Hz) as [[Ha Ht]|[Hn Ht]]; [left|right]; (split; [done|]);
        apply map_lookup_zip_with_Some; eexists _, c; (split; [|by split; [exact Ht|]]); cbn; [done|].
      by rewrite rearm_same.
  - rewrite bool_decide_eq_false_2 by by intros [].
    assert (Hone : forall name c, pr_loops p !! name = Some c -> name = "").
    { intros name c Hc%elem_of_dom_2. rewrite Hd in Hc. set_solver. }
    destruct (pr_loops p !! "") as [[cfg l]|] eqn:E.
    2:{ apply not_elem_of_dom in E. rewrite Hd in E. set_solver. }
    cbn [s_tenants s_armed] in H.
    assert (Hsn : s_tenants s = None) by (destruct H as [[_ ->]|[_ ->]]; done). rewrite Hsn. split.
    + intros name Hn. rewrite lookup_alter_ne; [done|]. intros <-. congruence.
    + intros name c Hc. pose proof (Hone _ _ Hc) as ->. rewrite lookup_alter_eq, Hc. rewrite E in Hc. injection Hc as <-.
      destruct H as [[Ha ->]|[Hn ->]]; [by left|right]. split; [done|]. exact (f_equal Some (rearm_same (cfg, l))).
Qed.

(** *** The invariant *)

(** What the request asked of [name] is still pending, or a cycle began after it. *)
Definition heeded (x : exchange) (name : string) (l : loop) : Prop :=
  exists b, x_begun x !! name = Some b /\ (b <= begun l)%nat /\ (trigger_pending l \/ (b < begun l)%nat).

(** The answer to a sync: the result of a cycle that was announced after the request, or
    its context ended. *)
Definition synced p (x : exchange) (r : response) : Prop :=
  (exists cfg l n result before, pr_loops p !! "" = Some (cfg, l) /\ results l !! n = Some result /\
     x_results x !! "" = Some before /\ (before <= n)%nat /\ r = encoded (encode_result result)) \/
  rs_code r = 504%Z.

(** What has become of a request. *)
Record kept p (x : exchange) : Prop := {
  kp_triggers r name cfg l : x_reply x = Answered r -> asked p (x_in x) name ->
    pr_loops p !! name = Some (cfg, l) -> heeded x name l;
  kp_waiting i : x_reply x = Waiting i -> syncs (multi p) (x_in x) /\
    exists cfg l c, pr_loops p !! "" = Some (cfg, l) /\ calls l !! i = Some c /\
      x_results x !! "" = Some (w_after c);
  kp_synced r : x_reply x = Answered r -> syncs (multi p) (x_in x) -> synced p x r
}.

Record serve_inv p : Prop := {
  si_reach name cfg l : pr_loops p !! name = Some (cfg, l) ->
    exists ws c, IsSynced (tracker c) = false /\ reachable sch cfg ws c l;
  si_names : same_names p;
  si_stop name cfg l : pr_loops p !! name = Some (cfg, l) -> l_run l = RStopped -> pr_done p = true;
  si_http x : x ∈ pr_http p -> kept p x;
  si_called name cfg l : pr_loops p !! name = Some (cfg, l) -> called l ->
    exists x, x ∈ pr_http p /\ (asked p (x_in x) name \/ syncs (multi p) (x_in x))
}.

(** Every loop of the second process comes from one of the first. *)
Definition evolves p p' : Prop :=
  pr_tenants p' = pr_tenants p /\
  (forall name, is_Some (pr_loops p' !! name) <-> is_Some (pr_loops p !! name)) /\
  forall name cfg l, pr_loops p !! name = Some (cfg, l) ->
    exists l', pr_loops p' !! name = Some (cfg, l') /\ stepped sch cfg l l'.

Lemma kept_evolves p p' x : evolves p p' -> kept p x -> kept p' x.
Proof.
  intros (Ht & Hdom & Hl) [H1 H2 H3].
  assert (Hm : multi p' = multi p) by (unfold multi; by rewrite Ht).
  assert (Hb : forall name cfg l', pr_loops p' !! name = Some (cfg, l') ->
            exists l, pr_loops p !! name = Some (cfg, l) /\ stepped sch cfg l l').
  { intros name cfg l' Hl'. destruct (proj1 (Hdom name)) as [[cfg0 l] Hc]; [by eexists|].
    destruct (Hl _ _ _ Hc) as (l2 & ? & ?). exists l. by simplify_eq. }
  split; rewrite ?Hm.
  - intros r name cfg l' Hr Ha (l & Hc & Hs)%Hb.
    destruct (H1 r name cfg l Hr Ha Hc) as (b & Hxb & Hle & Hp).
    pose proof (lt_begun _ _ (stepped_later _ _ _ _ Hs)). exists b. split; [done|]. split; [lia|].
    destruct Hp as [Hp|?]; [|right; lia]. destruct (stepped_pending _ _ _ _ Hs Hp) as [?|?]; [by left|right; lia].
  - intros i Hi. destruct (H2 i Hi) as (Hsy & cfg & l & c & Hc & Hcall & Hx). split; [done|].
    destruct (Hl _ _ _ Hc) as (l' & Hc' & Hs). destruct (lt_call _ _ (stepped_later _ _ _ _ Hs) _ _ Hcall)
      as (c' & Hcall' & Ha & _). exists cfg, l', c'. rewrite Ha. done.
  - intros r Hr Hsy. destruct (H3 r Hr Hsy) as [(cfg & l & n & result & before & Hc & Hn & Hx & Hle & ->)|?]; [left|by right].
    destruct (Hl _ _ _ Hc) as (l' & Hc' & Hs). exists cfg, l', n, result, before.
    split; [done|]. split; [|done]. eapply prefix_lookup_Some; [done|]. apply (lt_results _ _ (stepped_later _ _ _ _ Hs)).
Qed.

Lemma evolves_names p p' : evolves p p' -> dom (pr_loops p') = dom (pr_loops p).
Proof. intros (_ & Hdom & _). apply set_eq. intros name. by rewrite !elem_of_dom. Qed.

(** A process that evolves, with the exchanges it had and others that are kept too. *)
Lemma serve_inv_evolves p p' :
  evolves p p' ->
  (forall name cfg l', pr_loops p' !! name = Some (cfg, l') -> l_run l' = RStopped ->
     (exists l, pr_loops p !! name = Some (cfg, l) /\ l_run l = RStopped) \/ pr_done p' = true) ->
  (pr_done p = true -> pr_done p' = true) ->
  (forall x, x ∈ pr_http p' -> x ∈ pr_http p \/ kept p' x) ->
  (forall x, x ∈ pr_http p -> exists x', x' ∈ pr_http p' /\ x_in x' = x_in x) ->
  (forall name cfg l l', pr_loops p !! name = Some (cfg, l) -> pr_loops p' !! name = Some (cfg, l') -> called l' ->
     called l \/ exists x, x ∈ pr_http p' /\ (asked p' (x_in x) name \/ syncs (multi p') (x_in x))) ->
  serve_inv p -> serve_inv p'.
Proof.
  intros He Hstop Hd Hnew Hold Hcall [H1 H2 H3 H4 H5]. pose proof He as (Ht & Hdom & Hl).
  assert (Hm : multi p' = multi p) by (unfold multi; by rewrite Ht).
  assert (Hb : forall name cfg l', pr_loops p' !! name = Some (cfg, l') ->
            exists l, pr_loops p !! name = Some (cfg, l) /\ stepped sch cfg l l').
  { intros name cfg l' Hl'. destruct (proj1 (Hdom name)) as [[cfg0 l] Hc]; [by eexists|].
    destruct (Hl _ _ _ Hc) as (l2 & ? & ?). exists l. by simplify_eq. }
  split.
  - intros name cfg l' (l & Hc & w & w' & Hs)%Hb. destruct (H1 _ _ _ Hc) as (ws & c & Hsy & Hr).
    exists ws, c. split; [done|]. by eapply reachable_step.
  - unfold same_names in *. rewrite Ht, (evolves_names _ _ He). done.
  - intros name cfg l' Hc Hr. destruct (Hstop _ _ _ Hc Hr) as [(l & Hc' & Hr')|?]; eauto.
  - intros x [Hx|?]%Hnew; [|done]. eapply kept_evolves; [done|auto].
  - intros name cfg l' Hc' Hca. destruct (Hb _ _ _ Hc') as (l & Hc & _).
    destruct (Hcall _ _ _ _ Hc Hc' Hca) as [Hca'|?]; [|done]. rewrite Hm.
    destruct (H5 _ _ _ Hc Hca') as (x & Hx & Ha). destruct (Hold _ Hx) as (x' & Hx' & He').
    exists x'. by rewrite He'.
Qed.

(** One loop steps, or none. *)
Lemma evolves_insert p p' name cfg l l' :
  pr_tenants p' = pr_tenants p -> pr_loops p !! name = Some (cfg, l) -> stepped sch cfg l l' ->
  pr_loops p' = <[ name := (cfg, l') ]> (pr_loops p) -> evolves p p'.
Proof.
  intros Ht Hl Hs Hp. split; [done|]. rewrite Hp. split.
  - intros n. destruct (decide (name = n)) as [<-|Hne].
    + rewrite lookup_insert_eq, Hl. split; by eexists.
    + by rewrite lookup_insert_ne.
  - intros n cfg0 l0 H0. destruct (decide (name = n)) as [<-|Hne].
    + rewrite Hl in H0. injection H0 as <- <-. exists l'. by rewrite lookup_insert_eq.
    + exists l0. rewrite lookup_insert_ne by done. split; [done|]. apply stepped_refl. exact (inhabits (pr_world p)).
Qed.

Lemma evolves_same p p' : pr_tenants p' = pr_tenants p -> pr_loops p' = pr_loops p -> evolves p p'.
Proof.
  intros Ht Hp. split; [done|]. rewrite Hp. split; [done|]. intros name cfg l Hl. exists l. split; [done|].
  apply stepped_refl. exact (inhabits (pr_world p)).
Qed.

(** A request that arrives. *)
Lemma evolves_request p q s r xs :
  same_names p -> waits (server_of f p) q = false -> handled q (server_of f p) = (s, r) ->
  evolves p (with_http xs (with_server s p)).
Proof.
  intros Hd Hw Hh. destruct (request_triggers p q s r Hd Hw Hh) as [Hno Ht]. split; [done|].
  cbn [with_http pr_loops]. split.
  - intros name. destruct (pr_loops p !! name) as [c|] eqn:Hc.
    + destruct (Ht _ _ Hc) as [[_ ->]|[_ ->]]; split; by eexists.
    + by rewrite (Hno _ Hc).
  - intros name cfg l Hc. destruct (Ht _ _ Hc) as [[_ Hl]|[_ Hl]]; [exists (ControllerLoop.Trigger l)|exists l];
      (split; [done|]); exists (pr_world p), (pr_world p); [apply s_trigger|apply s_env].
Qed.

Lemma arrives_before q rep p name cfg l :
  pr_loops p !! name = Some (cfg, l) ->
  x_begun (arrives q rep p) !! name = Some (begun l) /\ x_results (arrives q rep p) !! name = Some (length (results l)).
Proof. intros Hl. cbn. by rewrite !lookup_fmap, Hl. Qed.

Lemma kept_request p q s r :
  same_names p -> waits (server_of f p) q = false -> handled q (server_of f p) = (s, r) ->
  kept (with_http (pr_http p ++ [arrives q (Answered r) p]) (with_server s p)) (arrives q (Answered r) p).
Proof.
  intros Hd Hw Hh. destruct (request_triggers p q s r Hd Hw Hh) as [Hno Ht]. split; [|done|].
  - intros r' name cfg l' _ Ha Hl'. change (asked p q name) in Ha.
    change (pr_loops (with_server s p) !! name = Some (cfg, l')) in Hl'.
    destruct (pr_loops p !! name) as [[cfg0 l]|] eqn:Hc; [|by rewrite (Hno _ Hc) in Hl'].
    destruct (Ht _ _ Hc) as [[_ Hl]|[Hn _]]; [|done]. rewrite Hl in Hl'. injection Hl' as <- <-.
    destruct (arrives_before q (Answered r) p name cfg0 l Hc) as [Hb _].
    exists (begun l). split; [done|]. split; [done|]. left. right. by left.
  - intros r' _ Hs. change (syncs (multi p) q) in Hs. rewrite <- has_tenants_of, <- waits_syncs in Hs. congruence.
Qed.

Lemma kept_sync p q cfg l :
  waits (server_of f p) q = true -> pr_loops p !! "" = Some (cfg, l) ->
  kept (with_http (pr_http p ++ [arrives q (Waiting (length (calls l))) p])
          (with_loops (<[ "" := (cfg, call_wait l) ]> (pr_loops p)) p)) (arrives q (Waiting (length (calls l))) p).
Proof.
  intros Hw Hl. split; [done| |done]. intros i [= <-]. split.
  - change (syncs (multi p) q). by rewrite <- has_tenants_of, <- waits_syncs.
  - exists cfg, (call_wait l), (mkWaiter TRegister None (length (results l))). cbn.
    rewrite lookup_insert_eq. split; [done|]. split; [|apply (arrives_before q (Waiting 0) p "" cfg l Hl)].
    by apply list_lookup_middle.
Qed.

Lemma syncs_not_asks secret q name : syncs false q -> ~ asks secret false q name.
Proof. intros (_ & _ & Hs) (_ & [[Hs' _]|[? _]]); congruence. Qed.

(** The answer to a sync whose call has returned. *)
Lemma kept_synced p x i cfg l c r resp :
  serve_inv p -> x ∈ pr_http p -> x_reply x = Waiting i -> pr_loops p !! "" = Some (cfg, l) ->
  calls l !! i = Some c -> w_phase c = TReturned r ->
  resp = (handleSync (fun s => (s, r)) (server_of f p) (as_request (x_in x))).2 ->
  kept p (answer x resp).
Proof.
  intros [H1 _ _ H4 _] Hx Hw Hl Hc Hp ->. destruct (kp_waiting _ _ (H4 _ Hx) _ Hw) as (Hsy & cfg' & l' & c' & Hl' & Hc' & Hbe).
  assert (Hm : multi p = false) by apply Hsy. split; [|done|]; cbn [answer x_reply x_in x_results x_begun].
  - intros r' name cfg0 l0 _ Ha. rewrite Hm in Ha, Hsy. by destruct (syncs_not_asks (serveWebhookSecret f) (x_in x) name).
  - intros r' [= <-] _. simplify_eq. destruct (H1 _ _ _ Hl) as (ws & ctl & _ & Hr).
    unfold handleSync. rewrite <- has_tenants_of in Hm. unfold has_tenants in Hm.
    destruct (s_tenants (server_of f p)); [by rewrite bool_decide_eq_true_2 in Hm by by eexists|].
    destruct r as [result|e]; cbn; [left|right].
    + destruct (lo_returned _ (loop_inv_reachable _ _ _ _ _ Hr) _ _ _ Hc Hp) as (n & Hn & Hle).
      by exists cfg, l, n, result, (w_after c).
    + destruct (gives_up_reachable _ _ _ _ _ Hr _ _ _ Hc (or_intror Hp)) as [-> | ->]; reflexivity.
Qed.

(** Steps that leave the loops alone. *)
Lemma serve_inv_same p p' :
  pr_tenants p' = pr_tenants p -> pr_loops p' = pr_loops p -> (pr_done p = true -> pr_done p' = true) ->
  (forall x, x ∈ pr_http p' -> x ∈ pr_http p \/ kept p x) ->
  (forall x, x ∈ pr_http p -> exists x', x' ∈ pr_http p' /\ x_in x' = x_in x) ->
  serve_inv p -> serve_inv p'.
Proof.
  intros Ht Hl Hd Hnew Hold. pose proof (evolves_same p p' Ht Hl) as He.
  apply (serve_inv_evolves p p'); try done; rewrite ?Hl.
  - intros name cfg l H Hr. left. by exists l.
  - intros x [?|?]%Hnew; [by left|right; by eapply kept_evolves].
  - intros name cfg l l' H H' Hca. left. by simplify_eq.
Qed.

Lemma serve_inv_step p p' : serve_step p p' -> serve_inv p -> serve_inv p'.
Proof.
  intros Hs Hinv. destruct Hs as [name cfg l w l' Ha Hl Hst Hd|w Ha Ho|q s r Ha Hm Hw Hh|q cfg l Ha Hm Hw Hl|
    j x i cfg l c r Ha Hj Hx Hl Hc Hp|Ha Hm|e Ha Hm|Ha Hm].
  - eapply serve_inv_evolves; [eapply (evolves_insert p _ name cfg l l'); [done|done|by eapply stepped_act|done]|..];
      try done; cbn; eauto.
    + intros n c k [(<- & [= <- <-])|[Hne Hk]]%lookup_insert_Some Hr; [|eauto].
      destruct (Hd Hr) as [Hr'|?]; eauto.
    + intros n c k k' Hk [(<- & [= <- <-])|[Hne Hk']]%lookup_insert_Some Hca; left; simplify_eq; [|done].
      by eapply act_called.
  - apply (serve_inv_same p); [done..| | |exact Hinv]; cbn; eauto.
  - pose proof (request_triggers p q s r (si_names _ Hinv) Hw Hh) as [Hno Ht].
    eapply serve_inv_evolves; [apply (evolves_request p q s r); [by apply si_names|done..]|..]; try done.
    + intros n c k' Hk' Hr. change (pr_loops (with_server s p) !! n = Some (c, k')) in Hk'.
      destruct (pr_loops p !! n) as [[c0 k]|] eqn:Hk; [|by rewrite (Hno _ Hk) in Hk'].
      destruct (Ht _ _ Hk) as [[_ Hl]|[_ Hl]]; rewrite Hl in Hk'; injection Hk' as <- <-; eauto.
    + cbn. intros x [?| ->%list_elem_of_singleton]%elem_of_app; [by left|right]. by apply kept_request; [apply si_names|..].
    + cbn. intros x Hx. exists x. split; [|done]. apply elem_of_app. by left.
    + intros n c k k' Hk Hk' Hca. change (pr_loops (with_server s p) !! n = Some (c, k')) in Hk'.
      destruct (Ht _ _ Hk) as [[Hask Hl]|[_ Hl]]; rewrite Hl in Hk'; injection Hk' as <-; [right|by left].
      exists (arrives q (Answered r) p). cbn. split; [set_solver|by left].
  - pose proof (kept_sync p q cfg l Hw Hl) as Hk0.
    eapply serve_inv_evolves; [eapply (evolves_insert p _ "" cfg l (call_wait l)); [done|done| |done]|..]; try done; cbn.
    + exists (pr_world p), (pr_world p). apply s_wait.
    + intros n c k [(<- & [= <- <-])|[Hne Hk]]%lookup_insert_Some Hr; eauto.
    + intros x [?| ->%list_elem_of_singleton]%elem_of_app; [by left|by right].
    + intros x Hx. exists x. split; [|done]. apply elem_of_app. by left.
    + intros n c k k' Hk _ Hca. right. eexists. split; [apply elem_of_app; right; by left|]. right.
      change (syncs (multi p) q). by rewrite <- has_tenants_of, <- waits_syncs.
  - assert (Hin : x ∈ pr_http p) by (by eapply list_elem_of_lookup_2).
    apply (serve_inv_same p); [done..| | |exact Hinv]; cbn.
    + intros y [k Hk]%list_elem_of_lookup. apply list_lookup_insert_Some in Hk as [(-> & <- & _)|[_ Hk]].
      * right. by eapply kept_synced.
      * left. by eapply list_elem_of_lookup_2.
    + intros y [k Hk]%list_elem_of_lookup. destruct (decide (k = j)) as [->|Hne].
      * eexists. split; [eapply list_elem_of_lookup_2, list_lookup_insert_eq; by eapply lookup_lt_Some|].
        cbn. congruence.
      * exists y. split; [|done]. eapply (list_elem_of_lookup_2 _ k). by rewrite list_lookup_insert_ne.
  - apply (serve_inv_same p); [done..| | |exact Hinv]; cbn; eauto.
  - apply (serve_inv_same p); [done..| | |exact Hinv]; cbn; eauto.
  - apply (serve_inv_same p); [done..| | |exact Hinv]; cbn; eauto.
Qed.

(** *** From the start on *)

(** A process that has just been started: every controller is new. *)
Definition all_fresh p : Prop :=
  same_names p /\ pr_http p = [] /\ forall name c, pr_loops p !! name = Some c -> c = fresh c.1.

Lemma start_fresh w ws p : start w = (ws, Returned (Ok p)) -> all_fresh p.
Proof.
  unfold runServe. destruct (ParseDuration _) as [interval|e]; [|done].
  destruct (negb (String.eqb (serveTenantsDir f) "")).
  - destruct (_ || _); [done|]. unfold start_tenants. cbv zeta.
    destruct (NewTenantManager _ _ _ _ _ _) as [[tm|e]|]; [|done|done]. intros [= _ <-].
    split; [|split; [done|]]; cbn.
    + unfold same_names. cbn. by rewrite dom_fmap_L.
    + intros name c. rewrite lookup_fmap. destruct (tm !! name); [|done]. by intros [= <-].
  - destruct (select_source _ _ _ _ _ _ _) as [[src git]|e]; [|done].
    destruct (single_config _ _ _ _ _ _ _) as [ws' [[[c cfg]|e]|]]; [|done|done]. intros [= _ <-].
    split; [|split; [done|]]; cbn.
    + unfold same_names. cbn. by rewrite dom_singleton_L.
    + by intros name c' [<- <-]%lookup_singleton_Some.
Qed.

Lemma serve_inv_fresh p : all_fresh p -> serve_inv p.
Proof.
  intros (Hd & Hh & Hf). split; [|done| |by rewrite Hh; intros x ?%not_elem_of_nil|]; intros name cfg l Hl;
    specialize (Hf _ _ Hl); cbn in Hf; injection Hf as ->; [|done|].
  - exists (pr_world p), (Controller.New cfg NewStatusTracker).1. split; [done|]. by exists (pr_world p).
  - intros [[?|[?|Hlt]]|?]; try done. cbn in Hlt. lia.
Qed.

Lemma serve_inv_reachable w ws p0 p :
  start w = (ws, Returned (Ok p0)) -> rtc serve_step p0 p -> serve_inv p.
Proof.
  intros H0%start_fresh%serve_inv_fresh H. induction H as [p|p1 p2 p3 Hs _ IH]; [done|]. by eapply IH, serve_inv_step.
Qed.

Lemma ready_code s r : rs_code (handleReadyz s r) = 200%Z <-> isReady s = true.
Proof. unfold handleReadyz. by destruct (isReady s). Qed.

(** The server is ready when the status of every controller is synced. *)
Lemma server_ready p :
  serve_inv p ->
  isReady (server_of f p) = true <->
  (forall name cfg l, pr_loops p !! name = Some (cfg, l) -> IsSynced (tracker (l_ctl l)) = true).
Proof.
  intros Hinv. pose proof (si_names _ Hinv) as Hd. unfold same_names in Hd.
  unfold isReady, server_of. destruct (pr_tenants p) as [tm|]; cbn [s_tenants s_tracker].
  - rewrite forallb_forall. split.
    + intros H name cfg l Hl. assert (is_Some (tm !! name)) as [inst Hi].
      { apply elem_of_dom. rewrite Hd. apply elem_of_dom. by eexists. }
      specialize (H (name, seen_tenant inst (cfg, l))). apply H.
      apply list_elem_of_In, elem_of_map_to_list, map_lookup_zip_with_Some. by eexists _, _.
    + intros H [name inst] Hin. apply list_elem_of_In, elem_of_map_to_list, map_lookup_zip_with_Some in Hin
        as (x & [cfg l] & -> & _ & Hl). by eapply H.
  - destruct (pr_loops p !! "") as [[cfg l]|] eqn:E.
    + cbn. split; [|intros H; by eapply H]. intros H name cfg' l' Hl.
      assert (name = "") as -> by (apply elem_of_dom_2 in Hl; rewrite Hd in Hl; set_solver). congruence.
    + apply not_elem_of_dom in E. rewrite Hd in E. set_solver.
Qed.


(** A start that succeeds: everything that is resolved comes from the first manifest. *)
Lemma serve_starts w interval src git ws m h conn opts :
  ParseDuration (serveInterval f) = Ok interval -> serveTenantsDir f = "" ->
  select_source yaml renderTemplate semver zip sys g f = Ok (src, git) ->
  Fetch src (w, default no_git git) = (ws, Returned (Ok (m, h))) ->
  resolveConnection g m ws.1 = Ok conn -> resolveProviderOpts m ws.1 = Ok opts ->
  let c := connect (w_env ws.1) (GoclawBase.New conn.1 conn.2 opts) in
  start w = (ws, Returned (Ok (start_single c
    (serve_config f src c
       (Some (webhook http (Notifier.New (Getenv ws.1 "GCPLANE_WEBHOOK_URL") (Getenv ws.1 "GCPLANE_WEBHOOK_FORMAT"))))
       interval) ws))).
Proof.
  intros Hd Ht Hs Hf Hc Ho. unfold runServe. rewrite Hd, Ht. cbn [String.eqb negb]. rewrite Hs.
  unfold single_config. rewrite Hf, Hc. cbn [res_bind]. by rewrite Ho.
Qed.


(** C17: in every reachable state of a running [serve], what was asked over HTTP is neither
    lost nor made up: a controller that an answered request asked to sync (a webhook with
    the signature of its body or without a secret, a sync of all tenants, or of that one)
    has begun a cycle after the request, or a trigger is still pending; the sync of the
    only controller is answered with the result of a cycle announced after the request, or
    with a timeout, and with nothing else; and a trigger is pending only where such a
    request asked for it. *)
Theorem serve_heeds_requests w ws p0 p :
  start w = (ws, Returned (Ok p0)) -> rtc serve_step p0 p ->
  (forall x r name cfg l, x ∈ pr_http p -> x_reply x = Answered r -> asked p (x_in x) name ->
     pr_loops p !! name = Some (cfg, l) -> heeded x name l) /\
  (forall x r, x ∈ pr_http p -> x_reply x = Answered r -> syncs (multi p) (x_in x) -> synced p x r) /\
  (forall name cfg l, pr_loops p !! name = Some (cfg, l) -> trigger_pending l ->
     exists x, x ∈ pr_http p /\ (asked p (x_in x) name \/ syncs (multi p) (x_in x))).
Proof.
  intros H0 H. destruct (serve_inv_reachable w ws p0 p H0 H) as [_ _ _ H4 H5]. split; [|split].
  - intros x r name cfg l Hx. by apply (kp_triggers _ _ (H4 x Hx)).
  - intros x r Hx. by apply (kp_synced _ _ (H4 x Hx)).
  - intros name cfg l Hl Hp. apply (H5 name cfg l Hl). by left.
Qed.
End serving.

(** ** An example *)

#[local] Existing Instance ascii_unicode.

Definition ex_serve_world : World mem := mkWorld ex_env "" "" "" 0 ex_store.
Definition ex_serve_flags : ServeFlags := mkServeFlags ":8480" "30s" "" "main" "manifest.yaml" false "key" "".
Definition ex_git : Git (World mem) :=
  mkGitOps _ w_fs (fun w => (w, Err (errorf "no directory"))) (fun _ w => w) (fun _ _ w => (w, ("", Some "no git"))).
Definition ex_http : HttpClient (ServeWorld mem) := mkHttp _ (fun _ => None) (fun _ _ => failM (errorf "no network")).
Definition ex_connected : Connected := mkConnected mem_provider None (fun m => m).
Definition ex_connect (_ : Env) (_ : Provider) : Connected := ex_connected.

Definition ex_source : ManifestSource (ServeWorld mem) :=
  file_source ex_yaml ex_template ex_semver ex_zip (fun ws => w_fs ws.1) (NewFileSource "gcplane.yaml").
Definition ex_source_config : Config (ServeWorld mem) :=
  serve_config ex_serve_flags ex_source ex_connected (Some (webhook ex_http (Notifier.New "" ""))) (30 * 10 ^ 9).

Definition ex_ws : ServeWorld mem := (ex_serve_world, no_git).
Definition ex_process (w : ServeWorld mem) (l : loop) (xs : list exchange) : process :=
  mkProcess w {[ "" := (ex_source_config, l) ]} None xs false MWait (close ex_connected).
Definition ex_loop0 : loop := started (Controller.New ex_source_config NewStatusTracker).1.

Abbreviation ex_start := (runServe ex_yaml ex_template ex_semver ex_zip ex_git ex_flags ex_serve_flags ex_http ex_connect).
Abbreviation ex_step := (serve_step ex_git ex_serve_flags sequential (fun w w' => w = w') Itoa (fun _ => [])).

Lemma ex_started : ex_start ex_serve_world = (ex_ws, Returned (Ok (ex_process ex_ws ex_loop0 []))).
Proof.
  assert (Hf : exists h, Fetch ex_source ex_ws = (ex_ws, Returned (Ok (ex_manifest, h)))) by (eexists; vm_compute; reflexivity).
  destruct Hf as [h Hf].
  pose proof (serve_starts ex_yaml ex_template ex_semver ex_zip ex_git ex_flags ex_serve_flags ex_http ex_connect
             ex_serve_world (30 * 10 ^ 9) ex_source None ex_ws ex_manifest h ("http://x", "t") []) as H.
  cbv zeta in H. rewrite H; [reflexivity|vm_compute; reflexivity|reflexivity|reflexivity|exact Hf|vm_compute; reflexivity|vm_compute; reflexivity].
Qed.

(** The first cycle. *)
Abbreviation ex_first := (reconcileOnce sequential ex_source_config (l_ctl ex_loop0) ex_ws).
Definition ex_loop1 : loop := begin_cycle ex_loop0.
Definition ex_loop2 : loop :=
  match ex_first.2 with
  | Some (c, r) => mkLoop c (RNotify r) false false 0 [] [] [] 1
  | None => ex_loop1
  end.

Definition ex_first_result : SyncResult :=
  match ex_first.2 with Some (_, r) => r | None => mkSyncResult 0 0 0 0 0 [] end.

Lemma ex_alive w l xs : l_run l <> RPanicked -> alive (ex_process w l xs).
Proof. intros Hp. split; [done|]. cbn. by intros name c [<- <-]%lookup_singleton_Some. Qed.

Lemma ex_process_step w l w' l' xs :
  l_run l <> RPanicked -> l_run l' <> RStopped -> act sequential ex_source_config w l w' l' ->
  ex_step (ex_process w l xs) (ex_process w' l' xs).
Proof.
  intros Hp Hs Hst.
  pose proof (sv_loop ex_git ex_serve_flags sequential (fun w w' => w = w') Itoa (fun _ => []) (ex_process w l xs) ""
                ex_source_config l w' l') as H.
  unfold ex_process, with_world, with_loops in *. cbn in H. rewrite insert_singleton_eq in H.
  apply H; [by apply ex_alive|done..].
Qed.

Lemma ex_cycled : rtc ex_step (ex_process ex_ws ex_loop0 []) (ex_process ex_first.1 ex_loop2 []).
Proof.
  eapply rtc_l; [apply (ex_process_step _ _ ex_ws ex_loop1); [done..|by apply l_first]|].
  apply rtc_once, ex_process_step; [done|vm_compute; discriminate|].
  destruct (ex_first.2) as [[c r]|] eqn:E; [|vm_compute in E; discriminate].
  unfold ex_loop2. rewrite E. apply (l_cycle _ _ ex_ws ex_loop1 ex_first.1 c r); [done|]. rewrite <- E. apply surjective_pairing.
Qed.

Lemma ex_all_clean w l xs :
  clean l <-> (forall name cfg l', pr_loops (ex_process w l xs) !! name = Some (cfg, l') -> clean l').
Proof.
  unfold ex_process. cbn [pr_loops]. split; [|intros H; by apply (H "" ex_source_config)].
  intros Hl name cfg l' [_ H]%lookup_singleton_Some. apply (f_equal snd) in H. cbn [snd] in H. by subst l'.
Qed.

Definition ex_request : request := mkReq (fun _ => "") (Ok "") "".


(** A signed push during the first cycle. *)
Definition ex_push : incoming := mkIncoming "POST" ["api"; "v1"; "webhook"; "git"] ex_header (Ok fox).
Definition ex_exchange : exchange := arrives ex_push (Answered (bare 200)) (ex_process ex_ws ex_loop1 []).

Lemma ex_armed w l xs :
  with_server (arm_single (server_of ex_serve_flags (ex_process w l xs))) (ex_process w l xs) =
  ex_process w (ControllerLoop.Trigger l) xs.
Proof.
  unfold with_server, with_loops, server_of, ex_process. cbn [pr_tenants pr_loops].
  rewrite lookup_singleton_eq. cbn [arm_single s_tenants s_armed]. by rewrite alter_singleton_eq.
Qed.

Lemma ex_handled w l xs :
  handled Itoa (fun _ => []) ex_push (server_of ex_serve_flags (ex_process w l xs)) =
  (arm_single (server_of ex_serve_flags (ex_process w l xs)), bare 200).
Proof.
  destruct (handleWebhook_spec (server_of ex_serve_flags (ex_process w l xs)) (as_request ex_push)) as [[_ H]|[Hn _]].
  - change (handled Itoa (fun _ => []) ex_push (server_of ex_serve_flags (ex_process w l xs)))
      with (handleWebhook (server_of ex_serve_flags (ex_process w l xs)) (as_request ex_push)).
    rewrite H. unfold server_of, ex_process, trigger_all. cbn [pr_tenants pr_loops]. by rewrite lookup_singleton_eq.
  - destruct Hn. right. rewrite (secret_of ex_serve_flags). exact ex_authentic.
Qed.

Lemma ex_pushed :
  rtc ex_step (ex_process ex_ws ex_loop0 []) (ex_process ex_ws (ControllerLoop.Trigger ex_loop1) [ex_exchange]).
Proof.
  eapply rtc_l; [apply (ex_process_step _ _ ex_ws ex_loop1); [done..|by apply l_first]|].
  apply rtc_once.
  pose proof (sv_request ex_git ex_serve_flags sequential (fun w w' => w = w') Itoa (fun _ => [])
                (ex_process ex_ws ex_loop1 []) ex_push _ _ (ex_alive ex_ws ex_loop1 [] ltac:(done)) eq_refl eq_refl
                (ex_handled ex_ws ex_loop1 [])) as H.
  rewrite ex_armed in H. exact H.
Qed.

Lemma serve_heeds_requests_witness : heeded ex_exchange "" (ControllerLoop.Trigger ex_loop1).
Proof.
  destruct (serve_heeds_requests ex_yaml ex_template ex_semver ex_zip ex_git ex_flags ex_serve_flags sequential ex_http
              ex_connect (fun w w' => w = w') Itoa (fun _ => []) ex_serve_world ex_ws (ex_process ex_ws ex_loop0 [])
              (ex_process ex_ws (ControllerLoop.Trigger ex_loop1) [ex_exchange]) ex_started ex_pushed) as (H & _ & _).
  apply (H ex_exchange (bare 200) "" ex_source_config); [by left|reflexivity| |reflexivity].
  split; [reflexivity|]. left. split; [reflexivity|]. right. exact ex_authentic.
Defined.

(** ** What modelling showed *)

(** The main goroutine does not wait for the controllers: a cycle may be at work, with
    requests under way, when the process ends. *)
Lemma returns_mid_cycle :
  exists p, rtc ex_step (ex_process ex_ws ex_loop0 []) p /\
    pr_main p = MReturned (Ok tt) /\ option_map (fun c => l_run c.2) (pr_loops p !! "") = Some RCycle.
Proof.
  eexists. split; [|split].
  - eapply rtc_l; [apply (ex_process_step _ _ ex_ws ex_loop1); [done..|by apply l_first]|].
    eapply rtc_l; [apply sv_signal; [by apply ex_alive|done]|].
    apply rtc_once, sv_return; [|done]. split; [done|]. apply (ex_alive ex_ws ex_loop1 []). done.
  - reflexivity.
  - reflexivity.
Qed.

(** When the HTTP server fails, the clone of the repository is left behind: only what was
    deferred is done, and that is to close the provider. *)
Lemma failed_server_leaves_clone {U : Unicode} {P} (sys : Git (World P)) f sch others format_time range p e :
  alive p -> pr_main p = MWait ->
  exists p', serve_step sys f sch others format_time range p p' /\
    pr_main p' = MReturned (Err (wrapf "http server: " e "")) /\ pr_world p' = pr_deferred p (pr_world p).
Proof. intros Ha Hm. eexists. split; [by apply sv_http_failed|]. by split. Qed.

Lemma single_defers_close {P} (c : Connected (P := P)) cfg ws :
  (pr_deferred (start_single c cfg ws) ws).2 = ws.2.
Proof. done. Qed.

(** The controllers of tenants have no notifier, whatever [GCPLANE_WEBHOOK_URL] says. *)
Lemma tenants_do_not_notify {U : Unicode} {P} yaml renderTemplate semver zip f
    (connect : Env -> Provider -> Connected (P := P)) interval env inst :
  cfg_Notifier (tenant_config yaml renderTemplate semver zip f connect interval env inst) = None.
Proof. done. Qed.
