(* ===== verification/ServeSync.v ===== *)
(** * A serve that is ready is in sync

    The end of the chain: the readiness probe of a running [serve] ([ServeProcess]) is
    tied to the stores behind its controllers ([EngineConverge]).  Each controller has a
    store of its own in the world that all of them share: what its provider shows of one
    tenant.  When the operations of one tenant leave the stores of the others alone, and
    nobody else edits them, then, in whatever order the cycles of the controllers,
    requests and timers come, an answer 200 of the probe means that every tenant has what its
    manifest declares. *)
From Stdlib Require Import ZArith Lia Bool Ascii.
From Stdlib Require String.
From stdpp Require Import relations.
From S2P Require Import Prelude GoStr GoTime GoValue Filepath Manifest Secrets Validate Engine.
From S2P Require Import EngineProps EngineConverge EngineClaims Loader Source Http GoclawBase Controller ControllerProps.
From S2P Require Import Notifier ControllerLoop Tenants Server Cmd CmdProps CmdServe ServeProcess ServeProps.

Local Open Scope string_scope.
Local Open Scope go_scope.

(** An action of a controller's goroutines leaves the world and the status alone, or ends a
    cycle. *)
Lemma act_cycle {U : Unicode} {W} sch (cfg : Config W) w l w' l' :
  act sch cfg w l w' l' ->
  (w' = w /\ l_ctl l' = l_ctl l) \/
  (exists r, reconcileOnce sch cfg (l_ctl l) w = (w', Some (l_ctl l', r))) \/
  (exists c, reconcileOnce sch cfg c w = (w', None) /\ l_run l' = RPanicked).
Proof. intros Ha. destruct Ha; cbn; eauto. Qed.

Section in_sync.
Context {U : Unicode} {P : Type}.
Context (yaml : Yaml) (renderTemplate : Template) (semver : Semver) (zip : list (string * string) -> string).
Context (sys : Git (World P)) (g : GlobalFlags) (f : ServeFlags) (sch : Schedule) {F : FairSchedule sch}.
Context (http : HttpClient (ServeWorld P)) (connect : Env -> Provider -> Connected (P := P)).
Context (others : ServeWorld P -> ServeWorld P -> Prop).
Context (format_time : Z -> string) (range : TenantManager -> list TenantInstance).

(** The store of each controller: what its provider shows, and lists. *)
Context (view : string -> ServeWorld P -> ResourceKind -> string -> option gomap).
Context (listed : string -> ServeWorld P -> ResourceKind -> list ResourceInfo).

Abbreviation start := (runServe yaml renderTemplate semver zip sys g f http connect).
Abbreviation serve_step := (serve_step sys f sch others format_time range).
Abbreviation own name cfg := (same_store (cfg_Env cfg) (view name) (listed name)).

(** What is asked of one controller: its provider is a store that keeps its promises, the
    rest of a cycle leaves the store alone, and its manifests are valid and, with the
    environment and the files of [w0], compared exactly. *)
Record governed (w0 : ServeWorld P) (name : string) (cfg : Config (ServeWorld P)) : Prop := {
  gv_store : LawfulStore (cfg_Env cfg) (cfg_Provider cfg) (view name) (listed name);
  gv_quiet : Quiet cfg (view name) (listed name);
  gv_source : exists fs_of, ValidSource semver zip fs_of (cfg_Source cfg);
  gv_exact w m h : cfg_Env cfg w = cfg_Env cfg w0 -> (Fetch (cfg_Source cfg) w).2 = Returned (Ok (m, h)) ->
    Forall (exact_resource (cfg_Env cfg w)) (Resources m)
}.

(** The controllers of a process, with the world they share. *)
Record tenancy (w0 : ServeWorld P) (p : process (P := P)) : Prop := {
  tn_governed name c : pr_loops p !! name = Some c -> governed w0 name c.1;
  tn_isolated name c name' c' : pr_loops p !! name = Some c -> pr_loops p !! name' = Some c' -> name <> name' ->
    isolated c.1 (own name' c'.1);
  tn_others name c w w' : pr_loops p !! name = Some c -> others w w' -> own name c.1 w w'
}.

(** The manifest that the status of a controller names by its hash is in the store. *)
Definition in_sync (name : string) (cfg : Config (ServeWorld P)) (hash : string) (w : ServeWorld P) : Prop :=
  exists m w0, (Fetch (cfg_Source cfg) w0).2 = Returned (Ok (m, hash)) /\
    (forall r, r ∈ Resources m -> Kind r ∈ ApplyOrder ->
       settled (env_of := cfg_Env cfg) (view := view name) w r) /\
    (cfg_Prune cfg = true -> forall k, k ∈ DeleteOrder -> no_orphans (listed := listed name) m w k).

Lemma in_sync_own name cfg hash w w' : own name cfg w w' -> in_sync name cfg hash w -> in_sync name cfg hash w'.
Proof.
  intros Ho (m & w0 & Hf & Hs & Hp). exists m, w0. split; [done|]. split.
  - intros r Hr Hk. eapply settled_same; [exact Ho|]. by apply Hs.
  - intros Hpr k Hk. eapply no_orphans_same; [exact Ho|]. by apply Hp.
Qed.

(** A cycle that ends synced has put its manifest in the store. *)
Lemma cycle_in_sync w0 name cfg c c' w w' r :
  governed w0 name cfg -> cfg_Env cfg w = cfg_Env cfg w0 -> reconcileOnce sch cfg c w = (w', Some (c', r)) ->
  IsSynced (tracker c') = true -> in_sync name cfg (st_LastSyncHash (tracker c')) w'.
Proof.
  intros [HL HQ [fs_of HV] Hex] Henv Hc Hs. assert (Herr : sr_Errors r = []) by (by eapply reconcileOnce_synced).
  assert (exists m hash, (Fetch (cfg_Source cfg) w).2 = Returned (Ok (m, hash)) /\ sr_Failed r = 0%nat) as (m & hash & Hf & Hz).
  { revert Hc. unfold reconcileOnce. destruct (Fetch (cfg_Source cfg) w) as [wf [[[m hash]|err]|]] eqn:HF; [| |done].
    2:{ intros [= _ <- <-]. unfold fetch_failed in Herr. done. }
    destruct (sync sch cfg _ m hash c wf) as [w1 [c1 r1]] eqn:Hsync. intros [= -> -> ->]. exists m, hash. split; [done|].
    destruct (sync_same _ _ _ _ _ _ _ _ _ _ _ _ Hsync) as (wr & plan & result & HR & _ & -> & _).
    destruct (Reconcile_inv _ _ _ _ _ _ _ _ _ F HR) as (_ & _ & _ & _ & _ & _ & _ & Hlen).
    unfold sync_result in *. cbn [sr_Errors sr_Failed] in *. rewrite Hlen.
    by apply app_eq_nil in Herr as [-> _]. }
  destruct (cycle_settles cfg (view name) (listed name) semver zip fs_of sch c c' w w' r m hash F Hf
              (Hex _ _ _ Henv Hf) Hc Hz) as (H1 & H2 & ->).
  by exists m, w.
Qed.

(** Its own environment, too, a controller leaves alone. *)
Lemma governed_env w0 name cfg c w :
  governed w0 name cfg -> cfg_Env cfg (reconcileOnce sch cfg c w).1 = cfg_Env cfg w.
Proof.
  intros [HL HQ _ _]. assert (PO : PreOrder (fun w w' => cfg_Env cfg w' = cfg_Env cfg w)).
  { split; [done|]. intros w1 w2 w3 H1 H2. congruence. }
  apply (cycle_isolated sch cfg (fun w w' => cfg_Env cfg w' = cfg_Env cfg w) c w).
  destruct HQ as [H1 H2 H3 H4]. split; [split| | | | |]; intros.
  - apply H1.
  - by eapply ss_env, H2.
  - by eapply ss_env, H3.
  - by eapply ss_env, H4.
  - by rewrite store_observe.
  - by rewrite store_list.
  - by eapply fr_env, store_create_frame.
  - by eapply fr_env, store_update_frame.
  - by eapply fr_env, store_delete_frame.
Qed.

(** *** Every step *)

Lemma alive_loop (p : process (P := P)) name c : alive p -> pr_loops p !! name = Some c -> l_run c.2 <> RPanicked.
Proof. intros [_ Hp]. apply Hp. Qed.

(** Every controller has the environment of the start, and, when its status is synced, its
    manifest in the store. *)
Definition all_in_sync (w0 : ServeWorld P) (p : process (P := P)) : Prop :=
  forall name cfg l, pr_loops p !! name = Some (cfg, l) ->
    cfg_Env cfg (pr_world p) = cfg_Env cfg w0 /\
    (IsSynced (tracker (l_ctl l)) = true ->
     in_sync name cfg (st_LastSyncHash (tracker (l_ctl l))) (pr_world p)).

(** The configurations do not change. *)
Definition same_config (p p' : process (P := P)) : Prop :=
  forall name c', pr_loops p' !! name = Some c' -> exists l, pr_loops p !! name = Some (c'.1, l).

Lemma tenancy_same w0 p p' : same_config p p' -> tenancy w0 p -> tenancy w0 p'.
Proof.
  intros Hc [H1 H2 H3]. split.
  - intros name c [l Hl]%Hc. by apply (H1 _ _ Hl).
  - intros name c name' c' [l Hl]%Hc [l' Hl']%Hc. by apply (H2 _ _ _ _ Hl Hl').
  - intros name c w w' [l Hl]%Hc. by apply (H3 _ _ w w' Hl).
Qed.

(** Steps that change no status and keep every store. *)
Lemma all_in_sync_kept w0 p p' :
  (forall name cfg l', pr_loops p' !! name = Some (cfg, l') ->
     exists l, pr_loops p !! name = Some (cfg, l) /\ l_ctl l' = l_ctl l /\ own name cfg (pr_world p) (pr_world p')) ->
  all_in_sync w0 p -> all_in_sync w0 p'.
Proof.
  intros Hl H name cfg l' (l & Hl0 & Hc & Ho)%Hl. destruct (H _ _ _ Hl0) as [He Hs]. rewrite Hc.
  split; [by rewrite (ss_env _ _ _ _ _ Ho)|]. intros Hsy. eapply in_sync_own; [exact Ho|auto].
Qed.

Lemma all_in_sync_loop w0 p name cfg l w l' :
  tenancy w0 p -> alive p -> pr_loops p !! name = Some (cfg, l) -> act sch cfg (pr_world p) l w l' ->
  let p' := with_world w (with_loops (<[ name := (cfg, l') ]> (pr_loops p)) p) in
  alive p' -> all_in_sync w0 p -> all_in_sync w0 p'.
Proof.
  intros [HG HI _] Ha Hl Hact p' Ha' H. destruct (act_cycle _ _ _ _ _ _ Hact) as [[-> Hc]|[[r Hc]|(c & _ & Hp)]].
  - apply (all_in_sync_kept w0 p); [|done]. intros n c k Hk. cbn in Hk.
    apply lookup_insert_Some in Hk as [(<- & [= <- <-])|[Hne Hk]]; eexists; by split.
  - pose proof (H _ _ _ Hl) as [He _]. pose proof (governed_env w0 name cfg (l_ctl l) (pr_world p) (HG _ _ Hl)) as Hown.
    rewrite Hc in Hown. cbn in Hown.
    intros n c k Hk. cbn in Hk. apply lookup_insert_Some in Hk as [(<- & [= <- <-])|[Hne Hk]].
    + split; [cbn; congruence|]. intros Hs. eapply cycle_in_sync; [by apply (HG name (cfg, l))|exact He|exact Hc|exact Hs].
    + pose proof (cycle_isolated sch cfg (own n c) (l_ctl l) (pr_world p) (HI _ _ _ _ Hl Hk Hne)) as Ho.
      rewrite Hc in Ho. destruct (H _ _ _ Hk) as [He' Hs']. split; [by rewrite <- He'; apply (ss_env _ _ _ _ _ Ho)|].
      intros Hs. by apply (in_sync_own n c _ (pr_world p)); [|apply Hs'].
  - exfalso. apply (alive_loop _ name (cfg, l') Ha'); [|done]. cbn. by rewrite lookup_insert_eq.
Qed.

Lemma same_config_step p p' : same_names p -> serve_step p p' -> same_config p p'.
Proof.
  intros Hn Hs. destruct Hs as [name cfg l w l' Ha Hl _ _|w Ha Ho|q s r Ha Hm Hw Hh|q cfg l Ha Hm Hw Hl|
    j x i cfg l c r Ha Hj Hx Hl Hc Hp|Ha Hm|e Ha Hm|Ha Hm]; intros n c0 H; cbn in H;
    try (exists c0.2; rewrite H; by destruct c0).
  - apply lookup_insert_Some in H as [(<- & <-)|[_ H]]; [by exists l|]. exists c0.2. rewrite H. by destruct c0.
  - change (pr_loops (with_server s p) !! n = Some c0) in H.
    destruct (request_triggers f sch format_time range p q s r Hn Hw Hh) as [Hno Ht].
    destruct (pr_loops p !! n) as [c1|] eqn:Hc; [|by rewrite (Hno _ Hc) in H]. exists c1.2.
    destruct (Ht _ _ Hc) as [[_ Hl]|[_ Hl]]; rewrite Hl in H; injection H as <-; by destruct c1.
  - apply lookup_insert_Some in H as [(<- & <-)|[_ H]]; [by exists l|]. exists c0.2. rewrite H. by destruct c0.
Qed.

Lemma all_in_sync_step w0 p p' :
  same_names p -> tenancy w0 p -> serve_step p p' -> alive p' -> all_in_sync w0 p -> all_in_sync w0 p'.
Proof.
  intros Hn HT Hs. destruct Hs as [name cfg l w l' Ha Hl Hact _|w Ha Ho|q s r Ha Hm Hw Hh|q cfg l Ha Hm Hw Hl|
    j x i cfg l c r Ha Hj Hx Hl Hc Hp|Ha Hm|e Ha Hm|Ha Hm]; intros Ha' H.
  - by apply (all_in_sync_loop w0 p name cfg l w l').
  - apply (all_in_sync_kept w0 p); [|done]. intros n c k Hk. exists k. split; [done|]. split; [done|].
    exact (tn_others _ _ HT n (c, k) _ _ Hk Ho).
  - apply (all_in_sync_kept w0 p); [|done]. intros n c k Hk. change (pr_loops (with_server s p) !! n = Some (c, k)) in Hk.
    destruct (request_triggers f sch format_time range p q s r Hn Hw Hh) as [Hno Ht].
    destruct (pr_loops p !! n) as [[c1 k1]|] eqn:Hc; [|by rewrite (Hno _ Hc) in Hk].
    destruct (Ht _ _ Hc) as [[_ Hl]|[_ Hl]]; rewrite Hl in Hk; injection Hk as <- <-; by exists k1.
  - apply (all_in_sync_kept w0 p); [|done]. intros n c k Hk. cbn in Hk.
    apply lookup_insert_Some in Hk as [(<- & [= <- <-])|[Hne Hk]]; eexists; by split.
  - done.
  - done.
  - by destruct Ha' as [Ha' _]; destruct (Ha' _ eq_refl).
  - by destruct Ha' as [Ha' _]; destruct (Ha' _ eq_refl).
Qed.

Lemma serve_step_alive p p' : serve_step p p' -> alive p.
Proof. by destruct 1. Qed.

Lemma all_in_sync_reachable w0 p0 p :
  serve_inv f sch p0 -> tenancy w0 p0 -> all_in_sync w0 p0 -> rtc serve_step p0 p -> alive p ->
  all_in_sync w0 p /\ tenancy w0 p.
Proof.
  intros Hi Ht Hs Hr. induction Hr as [p|p1 p2 p3 Hst Hr IH]; [done|]. intros Ha.
  assert (Hn : same_names p1) by apply Hi.
  assert (Ha2 : alive p2) by (inversion Hr; subst; [done|by eapply serve_step_alive]).
  apply IH; [by eapply serve_inv_step|eapply tenancy_same; [by eapply same_config_step|done]|by apply (all_in_sync_step w0 p1)|done].
Qed.

End in_sync.

(** ** An example: two tenants on one server *)

#[local] Existing Instance ascii_unicode.

(** The rows of each tenant are one half of the server. *)
Abbreviation Halves := (mem * mem)%type.

#[local] Instance fst_lens : Lens (V := mem) (fst (A := mem) (B := mem)) (fun v m => (v, m.2)).
Proof. by split; [|intros []]. Qed.
#[local] Instance snd_lens : Lens (V := mem) (snd (A := mem) (B := mem)) (fun v m => (m.1, v)).
Proof. by split; [|intros []]. Qed.
Definition half_provider (left : bool) : ProviderInterface Halves :=
  if left then zoomed fst (fun v m => (v, m.2)) mem_provider else zoomed snd (fun v m => (m.1, v)) mem_provider.

Definition ex2_connect (_ : Env) (p : Provider) : Connected :=
  mkConnected (half_provider (String.eqb (endpoint p) "http://a")) None (fun m => m).

Definition ex2_store (name : string) (w : ServeWorld Halves) : mem :=
  if String.eqb name "a" then (w_prov w.1).1 else (w_prov w.1).2.

Definition ex2_manifest (name : string) : Manifest :=
  mkManifest "gcplane.io/v1" "Manifest" (mkMetadata name "") (mkConnection ("http://" +:+ name) "t" "" "")
    (Resources ex_manifest).

Definition ex2_yaml : Yaml :=
  mkYaml (fun text => Ok (ex2_manifest text)) (fun _ => Ok None) (fun _ => Err (errorf "")) (fun _ => Err (errorf ""))
    (fun _ => Err (errorf "")) (fun _ => Err (errorf "")).

Definition ex2_env : Env :=
  mkEnv [("KEY", "s3cret")]
    (mkFs (FDir [("tenants", FDir [("a", FDir [("main.yaml", FFile (Ok "a"))]); ("b", FDir [("main.yaml", FFile (Ok "b"))])])]) []).

Definition ex2_ws : ServeWorld Halves := (mkWorld ex2_env "" "" "" 0 (ex_store, ex_store), no_git).
Definition ex2_flags : ServeFlags := mkServeFlags ":8480" "30s" "" "main" "manifest.yaml" false "" "tenants".
Definition ex2_global : GlobalFlags := mkFlags "" "" "" false.
Definition ex2_git : Git (World Halves) :=
  mkGitOps _ w_fs (fun w => (w, Err (errorf "no directory"))) (fun _ w => w) (fun _ _ w => (w, ("", Some "no git"))).
Definition ex2_http : HttpClient (ServeWorld Halves) := mkHttp _ (fun _ => None) (fun _ _ => failM (errorf "no network")).

Definition ex2_tenant (name : string) : TenantInstance :=
  mkTenant name (NewFileSource (JoinPath ["tenants"; name])) (GoclawBase.New ("http://" +:+ name) "t" [])
    (mkController NewStatusTracker zeroMetrics "") false.

Definition ex2_tenants : TenantManager := <[ "a" := ex2_tenant "a" ]> {[ "b" := ex2_tenant "b" ]}.

Definition ex2_config (name : string) : Config (ServeWorld Halves) :=
  tenant_config ex2_yaml ex_template ex_semver ex_zip ex2_flags ex2_connect (30 * 10 ^ 9) ex2_env (ex2_tenant name).

Definition ex2_process (w : ServeWorld Halves) (la lb : loop) : process :=
  mkProcess w (<[ "a" := (ex2_config "a", la) ]> {[ "b" := (ex2_config "b", lb) ]}) (Some ex2_tenants) [] false MWait
    (CloseAll ex2_connect ex2_env ex2_tenants).

Definition ex2_loop0 : loop := started (Controller.New (ex2_config "a") NewStatusTracker).1.

Abbreviation ex2_start := (runServe ex2_yaml ex_template ex_semver ex_zip ex2_git ex2_global ex2_flags ex2_http ex2_connect).
Abbreviation ex2_step := (serve_step ex2_git ex2_flags sequential (fun w w' => w = w') Itoa (fun _ => [])).

Lemma ex2_started : ex2_start ex2_ws.1 = (ex2_ws, Returned (Ok (ex2_process ex2_ws ex2_loop0 ex2_loop0))).
Proof.
  assert (Hd : ParseDuration (serveInterval ex2_flags) = Ok (30 * 10 ^ 9)%Z) by (vm_compute; reflexivity).
  assert (Ht : NewTenantManager ex2_yaml ex_template ex_semver ex_zip ex2_env
                 (mkTenantCfg (serveTenantsDir ex2_flags) (30 * 10 ^ 9) (servePrune ex2_flags)) = Returned (Ok ex2_tenants))
    by (vm_compute; reflexivity).
  unfold runServe. rewrite Hd. cbn [serveTenantsDir ex2_flags String.eqb negb configFile ex2_global serveRepo orb].
  unfold start_tenants. cbv zeta. change (w_env ex2_ws.1) with ex2_env.
  change (w_env (ex2_ws.1, no_git).1) with ex2_env. rewrite Ht. unfold ex2_process, ex2_tenants at 1.
  rewrite fmap_insert, map_fmap_singleton. reflexivity.
Qed.

(** *** The two tenants do not touch each other *)

Lemma ex2_lookup w la lb name c :
  pr_loops (ex2_process w la lb) !! name = Some c ->
  (name = "a" /\ c = (ex2_config "a", la)) \/ (name = "b" /\ c = (ex2_config "b", lb)).
Proof.
  cbn. intros [[<- <-]|[_ [<- <-]%lookup_singleton_Some]]%lookup_insert_Some; auto.
Qed.

Definition put_a (v : mem) (ws : ServeWorld Halves) : ServeWorld Halves := (set_prov (v, (w_prov ws.1).2) ws.1, ws.2).
Definition put_b (v : mem) (ws : ServeWorld Halves) : ServeWorld Halves := (set_prov ((w_prov ws.1).1, v) ws.1, ws.2).

#[local] Instance a_lens : Lens (ex2_store "a") put_a.
Proof. split; [done|by intros [[? ? ? ? ? []] ?]]. Qed.
#[local] Instance b_lens : Lens (ex2_store "b") put_b.
Proof. split; [done|by intros [[? ? ? ? ? []] ?]]. Qed.

Lemma ex2_provider_a : cfg_Provider (ex2_config "a") = zoomed (ex2_store "a") put_a mem_provider.
Proof. reflexivity. Qed.
Lemma ex2_provider_b : cfg_Provider (ex2_config "b") = zoomed (ex2_store "b") put_b mem_provider.
Proof. reflexivity. Qed.

Definition ex2_view (name : string) (w : ServeWorld Halves) := mem_view (ex2_store name w).
Definition ex2_listed (name : string) (w : ServeWorld Halves) := mem_listed (ex2_store name w).

(** Fetching reads files; there is no notifier, and keys are not verified. *)
Lemma ex2_leaves name R : Reflexive R -> leaves (ex2_config name) R.
Proof. intros HR. split; [intros w; apply HR|done..]. Qed.

Lemma ex2_fetched name w m h :
  name = "a" \/ name = "b" -> w_env w.1 = ex2_env ->
  (Fetch (cfg_Source (ex2_config name)) w).2 = Returned (Ok (m, h)) -> Resources m = Resources ex_manifest.
Proof.
  intros Hn Hw. change (Fetch (cfg_Source (ex2_config name)) w).2 with
    (FetchFile ex2_yaml ex_template ex_semver ex_zip (w_fs w.1) (NewFileSource (JoinPath ["tenants"; name]))).
  unfold w_fs. rewrite Hw. destruct Hn as [-> | ->]; vm_compute; intros [= <- _]; reflexivity.
Qed.

Lemma ex2_governed name : name = "a" \/ name = "b" ->
  governed ex_semver ex_zip ex2_view ex2_listed ex2_ws name (ex2_config name).
Proof.
  intros Hn. split.
  - assert (Hm : LawfulStore (fun _ => ex2_env) mem_provider mem_view mem_listed) by (apply (lawful_env mem_env), _).
    destruct Hn as [-> | ->]; [rewrite ex2_provider_a|rewrite ex2_provider_b];
      [apply (zoomed_lawful (ex2_store "a") put_a _ ex2_env)|apply (zoomed_lawful (ex2_store "b") put_b _ ex2_env)]; done.
  - apply ex2_leaves. apply _.
  - eexists. apply file_source_valid.
  - intros w m h Hw Hf. change (w_env w.1 = ex2_env) in Hw. rewrite (ex2_fetched name w m h Hn Hw Hf).
    change (cfg_Env (ex2_config name) w) with (w_env w.1). rewrite Hw. decide_exact.
Qed.

Lemma ex2_isolated name name' cfg :
  (name = "a" \/ name = "b") -> (name' = "a" \/ name' = "b") -> name <> name' ->
  cfg_Env cfg = (fun ws => w_env ws.1) ->
  isolated (ex2_config name) (same_store (cfg_Env cfg) (ex2_view name') (ex2_listed name')).
Proof.
  intros Hn Hn' Hne Hc. rewrite Hc.
  assert (Hk : forall A (m : M mem A) w,
    match name with "a" => same_store (fun ws => w_env ws.1) (ex2_view name') (ex2_listed name') w (zoom (ex2_store "a") put_a m w).1
    | _ => same_store (fun ws => w_env ws.1) (ex2_view name') (ex2_listed name') w (zoom (ex2_store "b") put_b m w).1 end).
  { intros A m w. destruct Hn as [-> | ->], Hn' as [-> | ->]; try done; unfold zoom; destruct (m _); by split. }
  destruct Hn as [-> | ->]; (split; [apply ex2_leaves; apply _|..]); rewrite ?ex2_provider_a, ?ex2_provider_b;
    intros; apply Hk.
Qed.

Lemma ex2_tenancy : tenancy ex_semver ex_zip (fun w w' => w = w') ex2_view ex2_listed ex2_ws (ex2_process ex2_ws ex2_loop0 ex2_loop0).
Proof.
  split.
  - intros name c [[-> ->]|[-> ->]]%ex2_lookup; apply ex2_governed; auto.
  - intros name c name' c' [[-> ->]|[-> ->]]%ex2_lookup [[-> ->]|[-> ->]]%ex2_lookup Hne; try done;
      apply ex2_isolated; auto.
  - intros name c w w' _ ->. done.
Qed.

(** *** A run: the first cycle of both *)

Definition ex2_a := reconcileOnce sequential (ex2_config "a") (l_ctl ex2_loop0) ex2_ws.
Definition ex2_b := reconcileOnce sequential (ex2_config "b") (l_ctl ex2_loop0) ex2_a.1.

(** The loop after the cycle. *)
Definition cycled (x : ServeWorld Halves * option (Controller * SyncResult)) : loop :=
  match x.2 with
  | Some (c, r) => mkLoop c (RNotify r) false false 0 [] [] [] 1
  | None => ex2_loop0
  end.

Definition ex2_ready : process := ex2_process ex2_b.1 (cycled ex2_a) (cycled ex2_b).

Lemma ex2_alive w la lb : l_run la <> RPanicked -> l_run lb <> RPanicked -> alive (ex2_process w la lb).
Proof. intros Ha Hb. split; [done|]. by intros name c [[_ ->]|[_ ->]]%ex2_lookup. Qed.

Lemma ex2_step_a w la lb w' la' :
  l_run la <> RPanicked -> l_run lb <> RPanicked -> l_run la' <> RStopped ->
  act sequential (ex2_config "a") w la w' la' -> ex2_step (ex2_process w la lb) (ex2_process w' la' lb).
Proof.
  intros Ha Hb Hs Hact.
  pose proof (sv_loop ex2_git ex2_flags sequential (fun w w' => w = w') Itoa (fun _ => []) (ex2_process w la lb) "a"
                (ex2_config "a") la w' la' (ex2_alive w la lb Ha Hb) eq_refl Hact ltac:(done)) as H.
  unfold ex2_process, with_world, with_loops in *. cbn [pr_loops pr_tenants pr_http pr_done pr_main pr_deferred] in H.
  by rewrite insert_insert_eq in H.
Qed.

Lemma ex2_step_b w la lb w' lb' :
  l_run la <> RPanicked -> l_run lb <> RPanicked -> l_run lb' <> RStopped ->
  act sequential (ex2_config "b") w lb w' lb' -> ex2_step (ex2_process w la lb) (ex2_process w' la lb').
Proof.
  intros Ha Hb Hs Hact.
  pose proof (sv_loop ex2_git ex2_flags sequential (fun w w' => w = w') Itoa (fun _ => []) (ex2_process w la lb) "b"
                (ex2_config "b") lb w' lb' (ex2_alive w la lb Ha Hb) eq_refl Hact ltac:(done)) as H.
  unfold ex2_process, with_world, with_loops in *. cbn [pr_loops pr_tenants pr_http pr_done pr_main pr_deferred] in H.
  rewrite insert_insert_ne, insert_singleton_eq in H by done. exact H.
Qed.

(** A cycle that returns. *)
Lemma cycled_act name w :
  (reconcileOnce sequential (ex2_config name) (l_ctl ex2_loop0) w).2 <> None ->
  act sequential (ex2_config name) w (begin_cycle ex2_loop0)
    (reconcileOnce sequential (ex2_config name) (l_ctl ex2_loop0) w).1
    (cycled (reconcileOnce sequential (ex2_config name) (l_ctl ex2_loop0) w)).
Proof.
  intros Hn. unfold cycled. destruct (reconcileOnce _ _ _ w) as [w' [[c r]|]] eqn:E; [|done].
  by apply (l_cycle sequential (ex2_config name) w (begin_cycle ex2_loop0) w' c r).
Qed.

Lemma cycled_run x : l_run (cycled x) <> RPanicked /\ l_run (cycled x) <> RStopped.
Proof. unfold cycled. by destruct x as [? [[]|]]. Qed.

Lemma ex2_runs : rtc ex2_step (ex2_process ex2_ws ex2_loop0 ex2_loop0) ex2_ready.
Proof.
  eapply rtc_l; [apply (ex2_step_a _ _ _ ex2_ws (begin_cycle ex2_loop0)); [done..|by apply l_first]|].
  eapply rtc_l; [apply (ex2_step_b _ _ _ ex2_ws (begin_cycle ex2_loop0)); [done..|by apply l_first]|].
  eapply rtc_l; [apply (ex2_step_a _ _ _ ex2_a.1 (cycled ex2_a)); [done|done|apply cycled_run|]|].
  { apply cycled_act. vm_compute. discriminate. }
  apply rtc_once, ex2_step_b; [apply cycled_run|done|apply cycled_run|].
  apply (cycled_act "b"). vm_compute. discriminate.
Qed.

(** Nothing is left to do for a tenant. *)
Definition nothing_to_do (name : string) (l : loop) (w : ServeWorld Halves) : Prop :=
  exists m w0 plan,
    (Fetch (cfg_Source (ex2_config name)) w0).2 = Returned (Ok (m, st_LastSyncHash (tracker (l_ctl l)))) /\
    Reconcile (cfg_Env (ex2_config name)) (cfg_Provider (ex2_config name)) backwards m (mkOpts false false false 5) w
    = (w, (plan, emptyResult)) /\
    Forall (fun c => ch_Action c = ActionNoop /\ ch_Error c = "") (Changes plan).

Lemma ex2_ready_a : pr_loops ex2_ready !! "a" = Some (ex2_config "a", cycled ex2_a).
Proof. unfold ex2_ready, ex2_process. cbn [pr_loops]. apply lookup_insert_eq. Qed.

Lemma ex2_ready_b : pr_loops ex2_ready !! "b" = Some (ex2_config "b", cycled ex2_b).
Proof.
  unfold ex2_ready, ex2_process. cbn [pr_loops]. rewrite lookup_insert_ne by done. apply lookup_singleton_eq.
Qed.

Lemma ex2_probe : rs_code (handleReadyz (server_of ex2_flags ex2_ready) ex_request) = 200%Z.
Proof. vm_compute. reflexivity. Qed.

Lemma ex2_ready_alive : alive ex2_ready.
Proof. apply ex2_alive; apply cycled_run. Qed.

